(* ===== verification/_CoqProject ===== *)
-Q . S2P
Prelude.v
Heap.v
HeapSpec.v
HeapAlloc.v
HeapFree.v
HeapAligned.v
HeapWitness.v
Frames.v
Paging.v
PagingInit.v
MmWitness.v
Screen.v
ScreenSpec.v
CString.v
Keyboard.v
Process.v
ProcessWitness.v
Interrupts.v
Net.v
NetSpec.v
NetWitness.v
Solixfs.v
SolixfsSpec.v
SolixfsWitness.v
Vfs.v
VfsSpec.v
VfsMkdir.v
VfsWitness.v
Printk.v
PrintkSpec.v
PrintkWitness.v
Slab.v
SlabSpec.v
SlabCache.v
SlabWitness.v
Lists.v
Scheduler.v
SchedulerSpec.v
SchedulerWitness.v
Irq.v
IrqSpec.v
Module.v
ModuleCrc.v
ModuleSpec.v
ModuleWitness.v
Shell.v
ShellSpec.v
ShellWitness.v
Apps.v
Pkg.v
PkgSpec.v
PkgWitness.v
Browser.v
BrowserSpec.v
BrowserWitness.v
Ifconfig.v
Wifi.v
Ethernet.v
EthernetSpec.v
EthernetWitness.v
Debug.v
DebugSpec.v
DebugWitness.v
KernelInit.v
KernelInitWitness.v
LinuxVfs.v
LinuxVfsSpec.v
LinuxVfsNames.v
LinuxVfsWitness.v
Desktop.v
DesktopSpec.v
DesktopManager.v
DesktopWitness.v
Reports.v
SchedulerReport.v
PrintkTools.v
KernelMain.v
ModuleAdmin.v
IrqReport.v
