(* ===== verification/Prelude.v ===== *)
(** * A verification development for SolixOS

    SolixOS is a small 32-bit x86 operating system in C with a desktop in C++.  This
    library models its kernel, its drivers, its filesystems, its network stack, its
    shell, its programs and its desktop as executable functions, and proves what
    they promise, or where they do not keep it.

    ** How the program is modelled

    Data.  A [uint32_t], [uint16_t] or [uint8_t] is a [Z], and every operation that
    can leave the range of its type is followed by the wrap ([u32], [u16], [u8]).
    Kernel memory is a map from addresses to words ([memory], [load], [store]);
    structures the code reaches only through typed pointers are records in a [gmap]
    by address.  Strings are lists of bytes without the terminator.

    Effects.  A function of the code is a function [cmd S A], from a state to an
    [outcome] of a value and the next state.  [outcome] has the ways a kernel
    function can end: [Ok], [Panic] (a call of [panic]), [Fault] (a dereference of
    a null or foreign pointer, an access behind an array) and [Diverge].  Error
    codes are values ([errno], [kret], negative [Z], [NULL]).

    Loops.  Loops with a structural bound are [Fixpoint]s on it.  The others take
    fuel and answer [Diverge] when it runs out, so that a theorem that says [Ok]
    also says that the loop ends.  [Heap.heap_fuel] is the number of headers that
    fit in the heap, [Net.fold_fuel] the number of carries 32 bits can have,
    [Screen.dec_fuel] the number of digits, [Printk.driver_fuel] the number of
    consoles; where the bound depends on the data the theorem has it as a
    hypothesis (the number of inodes in [iget], of packets in the receive loop, of
    responses of a server).

    Code that is not in the sources is a parameter with the documented behaviour
    as laws: the list functions ([Lists.ListApi], with the usual implementation as
    instance), the disk ([Solixfs.Disk], [DiskLaws]), file and TCP functions of the
    programs ([Apps.FileOps], [Apps.TcpApi]), module files ([Module.FileApi]), the
    operations of filesystems ([LinuxVfs]), the network card and the PCI bus
    ([Ethernet]), WiFi drivers ([Wifi]).  The files [...Witness] show that the
    hypotheses of the theorems can hold, on concrete states.

    ** The parts, and what is proved

    Memory (src/kernel/mm.c).  [Heap] is [kmalloc], [kfree] and [kmalloc_aligned]
    on word memory, header by header; [HeapSpec] the abstract list of blocks;
    [HeapAlloc], [HeapFree], [HeapAligned] show that the code implements
    allocation and coalescing on that list on every branch, that [kfree] undoes
    [kmalloc], and that after any history of calls and client stores the heap is
    well formed and no allocation panics.  [Frames] is the frame bitmap as a set
    of frames; [Paging], [PagingInit] the page tables as the hardware walks them.

    Slabs (src/kernel/slab.c).  [Slab], [SlabSpec], [SlabCache]: an allocation
    takes an object no client holds, a release gives it back, live objects keep
    their contents; uses the theorems on the heap.

    Devices.  [Screen], [ScreenSpec] (src/drivers/screen.c): buffered printing
    shows what unbuffered printing would.  [Keyboard] (keyboard.c, timer.c): the
    ring buffer is a bounded queue.  [Interrupts] (src/kernel/interrupts.c): the
    descriptor table and the dispatch.  [Ethernet], [EthernetSpec]
    (src/drivers/ethernet.c): the search for the card ends exactly when there is
    one, frames go to the transmit buffers in turn, and the receive loop delivers
    every packet to the network stack once and in order.  [Wifi]
    (src/drivers/wifi.c): the table of devices as a multiset.

    Processes.  [Process] (src/kernel/kernel.c): the table and its bitmap stay
    consistent, scheduling is round robin and fair.  [Debug], [DebugSpec]
    (src/kernel/debug.c): the log as a ring, dumps, the second way to create
    processes.  [Lists] and [Scheduler], [SchedulerSpec]
    (src/kernel/scheduler.c): the run queue implements priority queues, bitmap and
    counter are exact.  [KernelInit] ([kernel_init]): the components are
    initialised in the order of the code on one state; the start completes, and
    the first timer interrupt panics the kernel.  [KernelMain] ([kmain], [panic]):
    the kernel reaches the shell, and a panic completes its report and halts.

    Kernel services.  [Printk], [PrintkSpec] (src/kernel/printk.c): the bounded
    formatter writes the unbounded output cut to size, the log buffer keeps the
    first bytes.  [Irq], [IrqSpec] (src/kernel/irq.c): nested enabling, delivery,
    and the calls that deadlock.  [Module], [ModuleCrc], [ModuleSpec]
    (src/kernel/module.c): the checksum finds every burst of up to four bytes,
    loading installs a live module or takes everything back.  [PrintkTools],
    [IrqReport], [ModuleAdmin], [Reports], [SchedulerReport]: what these components
    (and mm.c, slab.c, scheduler.c) print about themselves, rate limits, and the
    start and end of the module subsystem.  The reports on the screen return and
    show the state; the dumps and listings that use field widths do not work.

    Filesystems.  [Solixfs], [SolixfsSpec] (src/fs/solixfs.c): writing implements
    replacement of a range of the file, what is written is read, other files stay.
    [Vfs], [VfsSpec], [VfsMkdir] (src/fs/vfs.c): descriptors, paths, directories.
    [LinuxVfs] (src/kernel/linux_vfs.c): inodes in a hash table, directory entries,
    filesystem types, mounts, files, with the lists link by link;
    [LinuxVfsSpec]: the table stays well formed, every inode has exactly the
    references that were taken and not given back, and no object of the slab cache
    is used twice; an inode that [iget] allocates is not found again.
    [LinuxVfsNames]: the registry of filesystem types, and how [d_add] breaks a
    directory.

    Network (src/net/net.c).  [Net], [NetSpec]: what is sent passes the checks of
    the receiver and is delivered; checksums; addresses.

    Programs.  [CString]: the C string functions they use.  [Shell], [ShellSpec]
    (src/shell/shell.c), on the states of the other components: a typed line runs
    its command, the working directory stays valid.  [Apps], [Ifconfig]
    (src/apps/net): curl, ping, ifconfig.  [Pkg], [PkgSpec] (src/apps/pkg): package
    lists are read back, the repositories stay well formed.  [Browser],
    [BrowserSpec] (src/apps/browser): formatting is bounded and idempotent, link
    extraction ends, the position stays in range.

    Desktop (src/gui).  [Desktop]: the compositor and the window manager, their
    tables of windows, the items they share and the signals between them.
    [DesktopSpec]: after any sequence of calls the tables, the stacking order and
    the scene agree and no call reaches a destroyed window; Alt+Tab visits every
    window.  [DesktopManager]: how minimising through the window manager destroys
    a window, maximising twice, closing the active window.

    Components call each other through their definitions: processes, the network
    stack and slabs use the heap, modules and the filesystem layer the slab caches,
    the card driver the network stack, the shell the filesystem, the processes and
    the screen.  Where the contract is an interface, the client is proved against
    its class.

    ** What the theorems are conditional on

    The slabs of a cache fit their pages only when it is created without
    [SLAB_HWCACHE_ALIGN] ([SlabCache.new_cache_fits]); the caches of the filesystem
    layer are created with it ([LinuxVfsSpec.layer_caches_overflow]), so that the
    theorems on inodes are about the layer with a cache that fits.  Theorems on the
    heap assume that clients store only into blocks they own.

    ** Not modelled

    The boot loader and the interrupt stubs (assembly); interrupt domains, whose
    list in src/kernel/irq.c no function uses; the main function, the rendering
    set-up and the QML files of the desktop, which only configure Qt.  The headers
    nvme.h, usb.h, net_modern.h, fs_modern.h and security.h declare interfaces that
    no source implements.  Locks are taken and released within a function on one
    processor; where a lock is taken twice ([IrqSpec.irq_deadlocks]) it is part of
    the state.  The translation lookaside buffer, caches and the timing of devices
    are not part of the states.

    This file holds what all others share: machine integers, [outcome] and [cmd]
    with their notation, word memory, error codes, bytes, bits, and the hint
    database [solix]. *)
From stdpp Require Export base numbers list list_numbers gmap strings.
From Stdlib Require Export ZArith Lia.

#[global] Open Scope Z_scope.

(** [lia] also decides goals with [/] and [mod] by a literal. *)
Ltac Zify.zify_post_hook ::= Z.to_euclidean_division_equations.

(** ** Machine integers

    A C [uint8_t], [uint16_t] or [uint32_t] is a [Z] in range; an operation
    that can leave the range is followed by the wrap of its type. *)
Definition u8 (x : Z) : Z := x mod 256.
Definition u16 (x : Z) : Z := x mod 65536.
Definition u32 (x : Z) : Z := x mod 4294967296.

(** A value as the 32-bit signed [int] with the same bits. *)
Definition s32 (x : Z) : Z :=
  if u32 x <? 2147483648 then u32 x else u32 x - 4294967296.

(** C's [~x] on [uint32_t]. *)
Definition not32 (x : Z) : Z := u32 (Z.lnot x).

Definition is_u8 (x : Z) : Prop := 0 <= x < 256.
Definition is_u16 (x : Z) : Prop := 0 <= x < 65536.
Definition is_u32 (x : Z) : Prop := 0 <= x < 4294967296.

(** The null pointer. *)
Definition NULL : Z := 0.

(** ** Outcomes and commands

    A kernel routine either returns, calls [panic] (which halts the machine),
    performs an operation the C standard leaves undefined ([Fault]), or, in a
    definition with fuel, runs out of it ([Diverge]).  A stateful routine is a
    function from the state it starts in. *)
Inductive outcome (A : Type) : Type :=
| Ok (a : A)
| Panic (msg : string)
| Fault
| Diverge.
Arguments Ok {A} a.
Arguments Panic {A} msg.
Arguments Fault {A}.
Arguments Diverge {A}.

#[export] Instance outcome_ret : MRet outcome := @Ok.
#[export] Instance outcome_bind : MBind outcome := λ A B f o,
  match o with
  | Ok a => f a
  | Panic msg => Panic msg
  | Fault => Fault
  | Diverge => Diverge
  end.
#[export] Instance outcome_eq_dec {A} `{EqDecision A} : EqDecision (outcome A).
Proof. solve_decision. Defined.

(** Error numbers and the results of the functions that return them negated; the
    header that defines their values is not part of the sources. *)
Inductive errno :=
  EINVAL | EBUSY | ENOTSUPP | EIO | ENOEXEC | EEXIST | ENOMEM | ENOENT | EILSEQ | ENODEV | ENOSYS | EBADF | EACCES.
Inductive kret := Ret (n : Z) | Err (e : errno).
#[export] Instance errno_eq_dec : EqDecision errno.
Proof. solve_decision. Defined.
#[export] Instance kret_eq_dec : EqDecision kret.
Proof. solve_decision. Defined.

(** A sequence that returns: each of its steps does. *)
Lemma outcome_bind_ok {A B} (f : A → outcome B) (o : outcome A) b :
  mbind f o = Ok b → ∃ a, o = Ok a ∧ f a = Ok b.
Proof. destruct o; naive_solver. Qed.

Definition cmd (S A : Type) : Type := S → outcome (A * S).
#[export] Instance cmd_ret {S} : MRet (cmd S) := λ A a s, Ok (a, s).
#[export] Instance cmd_bind {S} : MBind (cmd S) := λ A B f c s,
  match c s with
  | Ok (a, s') => f a s'
  | Panic msg => Panic msg
  | Fault => Fault
  | Diverge => Diverge
  end.

(** ** Word memory

    The kernel runs on the bare machine: every 32-bit word of the address
    space can be read and written.  A word that no store has touched reads as
    an arbitrary value; [default 0] makes the representation of a memory
    content by a finite map unique enough to compute with, and every content
    of the 2^30 words of the machine is one of these maps. *)
Abbreviation memory := (gmap Z Z).
Definition load (m : memory) (a : Z) : Z := default 0 (m !! a).
Definition store (a v : Z) (m : memory) : memory := <[a := v]> m.

Lemma load_store_eq m a v : load (store a v m) a = v.
Proof. unfold load, store. by rewrite lookup_insert_eq. Qed.

Lemma load_store_ne m a b v : a ≠ b → load (store a v m) b = load m b.
Proof. intros H. unfold load, store. by rewrite lookup_insert_ne. Qed.

Lemma store_store m a v w : store a w (store a v m) = store a w m.
Proof. unfold store. apply insert_insert_eq. Qed.

#[global] Opaque load store.

Create HintDb solix.

(** Rewrites every load of a store, at the same address or at one that
    arithmetic shows to be different. *)
Ltac mem_simpl :=
  repeat first
    [ rewrite load_store_eq
    | rewrite load_store_ne by (unfold not; intros; lia) ].

(** A command that goes on after a step that returned. *)
Ltac ok_bind := repeat (progress change (mbind ?g (Ok ?x)) with (g x); cbv beta iota); cbv beta iota.

(** Case analysis on the first [if] or [match] of the goal. *)
Ltac case_if :=
  match goal with
  | |- context [if ?b then _ else _] => destruct b eqn:?
  end.

(** Turns boolean tests in the context into propositions. *)
Ltac bool_prop :=
  repeat match goal with
  | H : (_ && _)%bool = true |- _ => apply andb_prop in H; destruct H
  | H : (_ || _)%bool = false |- _ => apply orb_false_elim in H; destruct H
  | H : negb _ = true |- _ => apply negb_true_iff in H
  | H : negb _ = false |- _ => apply negb_false_iff in H
  | H : (_ =? _) = true |- _ => apply Z.eqb_eq in H
  | H : (_ =? _) = false |- _ => apply Z.eqb_neq in H
  | H : (_ <? _) = true |- _ => apply Z.ltb_lt in H
  | H : (_ <? _) = false |- _ => apply Z.ltb_ge in H
  | H : (_ <=? _) = true |- _ => apply Z.leb_le in H
  | H : (_ <=? _) = false |- _ => apply Z.leb_gt in H
  end.

(** Equality of explicit lists of integers, element by element. *)
Ltac list_lia := repeat (apply (f_equal2 cons); [lia |]); reflexivity.

(** ** Strings as bytes *)
Fixpoint bytes_of (s : string) : list Z :=
  match s with
  | EmptyString => []
  | String a s => Z.of_N (Ascii.N_of_ascii a) :: bytes_of s
  end.

(** ** Arithmetic shared by the components *)
Lemma u32_small x : is_u32 x → u32 x = x.
Proof. unfold is_u32, u32. intros. lia. Qed.

Lemma u32_range x : is_u32 (u32 x).
Proof. unfold is_u32, u32. lia. Qed.

Lemma u16_small x : is_u16 x → u16 x = x.
Proof. unfold is_u16, u16. intros. lia. Qed.

Lemma u16_range x : is_u16 (u16 x).
Proof. unfold is_u16, u16. lia. Qed.

Lemma u8_small x : is_u8 x → u8 x = x.
Proof. unfold is_u8, u8. intros. lia. Qed.

Lemma u8_range x : is_u8 (u8 x).
Proof. unfold is_u8, u8. lia. Qed.

#[export] Hint Resolve u32_small u32_range u16_small u16_range u8_small u8_range : solix.

Lemma u32_bits x i : 0 <= i → Z.testbit (u32 x) i = (i <? 32) && Z.testbit x i.
Proof.
  intros Hi. unfold u32. change 4294967296 with (2 ^ 32).
  destruct (Z.ltb_spec i 32).
  - by rewrite Z.mod_pow2_bits_low.
  - by rewrite Z.mod_pow2_bits_high by lia.
Qed.

(** A [uint32_t] has no bit at or above position 32. *)
Lemma is_u32_high_bits x i : is_u32 x → 32 <= i → Z.testbit x i = false.
Proof.
  intros Hx Hi. rewrite <- (u32_small x Hx), u32_bits by lia.
  by destruct (Z.ltb_spec i 32); [lia |].
Qed.

(** [x & ~y] on 32 bits clears the bits of [y]. *)
Lemma land_not32 x y : is_u32 x → Z.land x (not32 y) = Z.ldiff x y.
Proof.
  intros Hx. apply Z.bits_inj'. intros i Hi.
  unfold not32. rewrite Z.land_spec, Z.ldiff_spec, u32_bits, Z.lnot_spec by done.
  destruct (Z.ltb_spec i 32); [done |].
  by rewrite (is_u32_high_bits x i) by (done || lia).
Qed.

(** [x & ~(2^k - 1)] rounds down to a multiple of [2^k]. *)
Lemma ldiff_pow2 x k : 0 <= k → Z.ldiff x (2 ^ k - 1) = x - x mod 2 ^ k.
Proof.
  intros Hk. replace (2 ^ k - 1) with (Z.ones k) by (rewrite Z.ones_equiv; lia).
  rewrite Z.ldiff_ones_r, Z.shiftl_mul_pow2, Z.shiftr_div_pow2 by done.
  pose proof (Z.pow_pos_nonneg 2 k). pose proof (Z.div_mod x (2 ^ k)). lia.
Qed.

(** ** Single bits of a word *)
Lemma land_bit x b : 0 <= b → (Z.land x (Z.shiftl 1 b) =? 0) = negb (Z.testbit x b).
Proof.
  intros Hb. rewrite Z.shiftl_1_l. destruct (Z.testbit x b) eqn:E; simpl.
  - apply Z.eqb_neq. intros H.
    assert (Z.testbit (Z.land x (2 ^ b)) b = true)
      by (rewrite Z.land_spec, E, Z.pow2_bits_true; done).
    rewrite H, Z.bits_0 in *. done.
  - apply Z.eqb_eq. apply Z.bits_inj'. intros i Hi.
    rewrite Z.land_spec, Z.bits_0. destruct (Z.eq_dec i b) as [->|Hne]; [by rewrite E |].
    rewrite Z.pow2_bits_false by done. apply andb_false_r.
Qed.

Lemma lor_bit x b i :
  0 <= b → 0 <= i → Z.testbit (Z.lor x (Z.shiftl 1 b)) i = (i =? b) || Z.testbit x i.
Proof.
  intros Hb Hi. rewrite Z.shiftl_1_l, Z.lor_spec.
  destruct (Z.eqb_spec i b) as [->|Hne].
  - rewrite Z.pow2_bits_true by done. apply orb_true_r.
  - rewrite Z.pow2_bits_false by done. apply orb_false_r.
Qed.

Lemma clear_bit x b i :
  is_u32 x → 0 <= b → 0 <= i →
  Z.testbit (Z.land x (not32 (Z.shiftl 1 b))) i = negb (i =? b) && Z.testbit x i.
Proof.
  intros Hx Hb Hi. rewrite land_not32, Z.shiftl_1_l, Z.ldiff_spec by done.
  destruct (Z.eqb_spec i b) as [->|Hne]; simpl.
  - rewrite Z.pow2_bits_true by done. apply andb_false_r.
  - rewrite Z.pow2_bits_false by done. apply andb_true_r.
Qed.

(** A value all of whose bits lie below position 32 is a [uint32_t]. *)
Lemma is_u32_bits x : 0 <= x → (∀ i, 32 <= i → Z.testbit x i = false) → is_u32 x.
Proof.
  intros Hx Hi. unfold is_u32. split; [done |].
  destruct (Z.eq_dec x 0) as [->|Hne]; [lia |].
  change 4294967296 with (2 ^ 32). apply Z.log2_lt_pow2; [lia |].
  destruct (Z.lt_ge_cases (Z.log2 x) 32) as [|Hge]; [done |].
  pose proof (Hi _ Hge) as H. rewrite Z.bit_log2 in H by lia. done.
Qed.

Lemma lor_u32 x y : is_u32 x → is_u32 y → is_u32 (Z.lor x y).
Proof.
  intros Hx Hy. apply is_u32_bits.
  - apply Z.lor_nonneg. unfold is_u32 in *. lia.
  - intros i Hi. by rewrite Z.lor_spec, !is_u32_high_bits.
Qed.

Lemma land_u32 x y : is_u32 x → is_u32 (Z.land x y).
Proof.
  intros Hx. apply is_u32_bits.
  - apply Z.land_nonneg. unfold is_u32 in *. lia.
  - intros i Hi. by rewrite Z.land_spec, is_u32_high_bits.
Qed.

Lemma bit_u32 b : 0 <= b < 32 → is_u32 (Z.shiftl 1 b).
Proof.
  intros Hb. rewrite Z.shiftl_1_l. unfold is_u32. change 4294967296 with (2 ^ 32).
  split; [apply Z.pow_nonneg; lia | apply Z.pow_lt_mono_r; lia].
Qed.
