(* ===== verification/Heap.v ===== *)
(** * The kernel heap (src/kernel/mm.c)

    Definitions only: the memory manager's state, the block headers laid out
    in word memory, and the allocator's operations.  [HeapSpec] states what
    they promise over an abstract list of blocks and proves it. *)
From S2P Require Import Prelude.

(** ** Constants *)
Definition KERNEL_HEAP_SIZE : Z := 16 * 1024 * 1024.
Definition HEAP_BLOCK_MAGIC : Z := 0xDEADBEEF.
Definition HEAP_BLOCK_FREE_MAGIC : Z := 0xFEEDFACE.
Definition SIZE_MAX : Z := 4294967295.
(** [sizeof(heap_block_t)]: six 32-bit words. *)
Definition HDR : Z := 24.

(** ** State *)
Record mem_stats := MemStats {
  total_allocations : Z;
  total_frees : Z;
  peak_usage : Z;
  current_usage : Z;
  fragmentation_count : Z;
}.

(** The static variables of mm.c that the heap uses, and the memory. *)
Record heap_state := HeapState {
  kernel_heap_start : Z;
  kernel_heap_end : Z;
  kernel_heap_current : Z;
  heap_head : Z;
  heap_tail : Z;
  stats : mem_stats;
  mem : memory;
}.

Definition set_mem (m : memory) (st : heap_state) : heap_state :=
  HeapState (kernel_heap_start st) (kernel_heap_end st) (kernel_heap_current st)
            (heap_head st) (heap_tail st) (stats st) m.
Definition set_tail (t : Z) (st : heap_state) : heap_state :=
  HeapState (kernel_heap_start st) (kernel_heap_end st) (kernel_heap_current st)
            (heap_head st) t (stats st) (mem st).
Definition set_stats (s : mem_stats) (st : heap_state) : heap_state :=
  HeapState (kernel_heap_start st) (kernel_heap_end st) (kernel_heap_current st)
            (heap_head st) (heap_tail st) s (mem st).

(** ** Block headers

    [struct heap_block] at address [a]: magic, size, used, next, prev and
    checksum, one word each. *)
Definition blk_magic (m : memory) (a : Z) : Z := load m a.
Definition blk_size (m : memory) (a : Z) : Z := load m (a + 4).
Definition blk_used (m : memory) (a : Z) : Z := load m (a + 8).
Definition blk_next (m : memory) (a : Z) : Z := load m (a + 12).
Definition blk_prev (m : memory) (a : Z) : Z := load m (a + 16).
Definition blk_checksum (m : memory) (a : Z) : Z := load m (a + 20).

Definition set_magic (a v : Z) (m : memory) : memory := store a v m.
Definition set_size (a v : Z) (m : memory) : memory := store (a + 4) v m.
Definition set_used (a v : Z) (m : memory) : memory := store (a + 8) v m.
Definition set_next (a v : Z) (m : memory) : memory := store (a + 12) v m.
Definition set_prev (a v : Z) (m : memory) : memory := store (a + 16) v m.
Definition set_checksum (a v : Z) (m : memory) : memory := store (a + 20) v m.

(** The four bytes of a word, least significant first. *)
Definition word_bytes (w : Z) : list Z :=
  [w mod 256; w / 256 mod 256; w / 65536 mod 256; w / 16777216 mod 256].

(** [calculate_block_checksum]: the sum of the first
    [sizeof(heap_block_t) - sizeof(uint32_t)] bytes of the header. *)
Definition calculate_block_checksum (m : memory) (a : Z) : Z :=
  fold_left (λ checksum b, u32 (checksum + b))
    (word_bytes (blk_magic m a) ++ word_bytes (blk_size m a) ++
     word_bytes (blk_used m a) ++ word_bytes (blk_next m a) ++
     word_bytes (blk_prev m a)) 0.

(** [verify_block_integrity] *)
Definition verify_block_integrity (m : memory) (a : Z) : bool :=
  if a =? NULL then false else
  let expected_magic :=
    if blk_used m a =? 0 then HEAP_BLOCK_FREE_MAGIC else HEAP_BLOCK_MAGIC in
  if negb (blk_magic m a =? expected_magic) then false else
  blk_checksum m a =? calculate_block_checksum m a.

(** [update_block_checksum] *)
Definition update_block_checksum (a : Z) (m : memory) : memory :=
  if a =? NULL then m else set_checksum a (calculate_block_checksum m a) m.

(** ** [heap_init]; [image_end] is the address of the linker's [__end]. *)
Definition heap_init (image_end : Z) : cmd heap_state unit := λ st,
  let start := u32 image_end in
  let hend := u32 (start + KERNEL_HEAP_SIZE) in
  if hend <=? start then Panic "Invalid heap size configuration" else
  let m := mem st in
  let m := set_magic start HEAP_BLOCK_FREE_MAGIC m in
  let m := set_size start (KERNEL_HEAP_SIZE - HDR) m in
  let m := set_used start 0 m in
  let m := set_next start NULL m in
  let m := set_prev start NULL m in
  let m := update_block_checksum start m in
  Ok (tt, HeapState start hend start start start (MemStats 0 0 0 0 0) m).

(** ** [kmalloc] *)

(** The size [kmalloc] looks for: rounded up to 4 bytes, at least 16. *)
Definition round_size (size : Z) : Z :=
  let size := Z.land (u32 (size + 3)) (not32 3) in
  if size <? 16 then 16 else size.

(** The best-fit search over the chain of blocks starting at [block]. *)
Fixpoint find_best_fit (fuel : nat) (m : memory) (size block best best_size : Z)
  : option Z :=
  match fuel with
  | O => None
  | S fuel =>
    if block =? NULL then Some best else
    if (blk_used m block =? 0) && (size <=? blk_size m block) &&
       (blk_size m block <? best_size)
    then
      if blk_size m block =? size then Some block
      else find_best_fit fuel m size (blk_next m block) block (blk_size m block)
    else find_best_fit fuel m size (blk_next m block) best best_size
  end.

(** Splitting [block] so that its first [size] bytes can be handed out. *)
Definition split_block (block size : Z) (m : memory) (tail : Z) : memory * Z :=
  let new_block := u32 (block + HDR + size) in
  let m := set_magic new_block HEAP_BLOCK_FREE_MAGIC m in
  let m := set_size new_block (u32 (blk_size m block - size - HDR)) m in
  let m := set_used new_block 0 m in
  let m := set_next new_block (blk_next m block) m in
  let m := set_prev new_block block m in
  let m := update_block_checksum new_block m in
  let '(m, tail) :=
    if negb (blk_next m block =? NULL)
    then (set_prev (blk_next m block) new_block m, tail)
    else (m, new_block) in
  let m := set_size block size m in
  let m := set_next block new_block m in
  (update_block_checksum block m, tail).

(** The statistics of a successful allocation of [size] bytes. *)
Definition count_alloc (size : Z) (s : mem_stats) : mem_stats :=
  let usage := u32 (current_usage s + size) in
  MemStats (u32 (total_allocations s + 1)) (total_frees s)
    (if peak_usage s <? usage then usage else peak_usage s) usage
    (fragmentation_count s).

Definition count_fragmentation (s : mem_stats) : mem_stats :=
  MemStats (total_allocations s) (total_frees s) (peak_usage s)
    (current_usage s) (u32 (fragmentation_count s + 1)).

(** A chain of blocks inside the heap has at most one block per 40 bytes (a
    header and the 16-byte minimum payload), so this fuel ends every search of
    a well-formed heap ([HeapSpec.search_fuel]). *)
Definition heap_fuel : nat := Z.to_nat (KERNEL_HEAP_SIZE / 40 + 2).

Definition kmalloc (size : Z) : cmd heap_state Z := λ st,
  if size =? 0 then Ok (NULL, st) else
  let size := round_size size in
  match find_best_fit heap_fuel (mem st) size (heap_head st) NULL SIZE_MAX with
  | None => Diverge
  | Some best_fit =>
    if best_fit =? NULL
    then Ok (NULL, set_stats (count_fragmentation (stats st)) st) else
    let block := best_fit in
    let m := mem st in
    if negb (verify_block_integrity m block)
    then Panic "Heap corruption detected in kmalloc" else
    let '(m, tail) :=
      if u32 (size + HDR + 16) <? blk_size m block
      then split_block block size m (heap_tail st)
      else (m, heap_tail st) in
    let m := set_used block 1 m in
    let m := set_magic block HEAP_BLOCK_MAGIC m in
    let m := update_block_checksum block m in
    Ok (u32 (block + HDR),
        set_stats (count_alloc size (stats st)) (set_tail tail (set_mem m st)))
  end.

(** ** [kfree] *)

(** Coalescing [block] with the block after it, when that one is free. *)
Definition merge_next (block : Z) (m : memory) (tail : Z) : memory * Z :=
  let next := blk_next m block in
  if negb (next =? NULL) && (blk_used m next =? 0) && verify_block_integrity m next
  then
    let m := set_size block (u32 (blk_size m block + (blk_size m next + HDR))) m in
    let m := set_next block (blk_next m next) m in
    let '(m, tail) :=
      if negb (blk_next m block =? NULL)
      then (set_prev (blk_next m block) block m, tail)
      else (m, block) in
    (update_block_checksum block m, tail)
  else (m, tail).

(** Coalescing [block] into the block before it, when that one is free. *)
Definition merge_prev (block : Z) (m : memory) (tail : Z) : memory * Z :=
  let prev := blk_prev m block in
  if negb (prev =? NULL) && (blk_used m prev =? 0) && verify_block_integrity m prev
  then
    let m := set_size prev (u32 (blk_size m prev + (blk_size m block + HDR))) m in
    let m := set_next prev (blk_next m block) m in
    let '(m, tail) :=
      if negb (blk_next m block =? NULL)
      then (set_prev (blk_next m block) prev m, tail)
      else (m, prev) in
    (update_block_checksum prev m, tail)
  else (m, tail).

Definition count_free (freed_size : Z) (s : mem_stats) : mem_stats :=
  MemStats (total_allocations s) (u32 (total_frees s + 1)) (peak_usage s)
    (u32 (current_usage s - freed_size)) (fragmentation_count s).

Definition kfree (ptr : Z) : cmd heap_state unit := λ st,
  if ptr =? NULL then Ok (tt, st) else
  let block := u32 (ptr - HDR) in
  let m := mem st in
  if negb (verify_block_integrity m block)
  then Panic "Heap corruption detected in kfree" else
  if blk_used m block =? 0 then Panic "Double free detected" else
  let freed_size := blk_size m block in
  let m := set_used block 0 m in
  let m := set_magic block HEAP_BLOCK_FREE_MAGIC m in
  let m := update_block_checksum block m in
  let '(m, tail) := merge_next block m (heap_tail st) in
  let '(m, tail) := merge_prev block m tail in
  Ok (tt, set_stats (count_free freed_size (stats st))
            (set_tail tail (set_mem m st))).

(** ** [kmalloc_aligned] and [kfree_aligned]; a pointer and a [uint32_t] take
    one word each. *)
Definition kmalloc_aligned (size alignment : Z) : cmd heap_state Z := λ st,
  if (size =? 0) || (alignment =? 0) then Ok (NULL, st) else
  if negb (Z.land alignment (u32 (alignment - 1)) =? 0) then Ok (NULL, st) else
  let total_size := u32 (size + alignment - 1 + 4 + 4) in
  '(raw_ptr, st) ← kmalloc total_size st;
  if raw_ptr =? NULL then Ok (NULL, st) else
  let aligned_addr :=
    Z.land (u32 (raw_ptr + 4 + 4 + alignment - 1)) (not32 (alignment - 1)) in
  let m := store (u32 (aligned_addr - 4)) (u32 (raw_ptr - HDR)) (mem st) in
  let m := store (u32 (aligned_addr - 4 - 4)) alignment m in
  Ok (aligned_addr, set_mem m st).

Definition kfree_aligned (ptr : Z) : cmd heap_state unit := λ st,
  if ptr =? NULL then Ok (tt, st) else
  let aligned_addr := ptr in
  let original_ptr := u32 (aligned_addr - 4) in
  let alignment := load (mem st) (u32 (aligned_addr - 4 - 4)) in
  if alignment =? 0 then Fault (* % by zero *) else
  if negb (aligned_addr mod alignment =? 0)
  then Panic "Invalid aligned free - address not properly aligned" else
  kfree (u32 (load (mem st) original_ptr + HDR)) st.

(** ** [verify_heap_integrity]; [total_frames] is the frame allocator's count,
    which the code uses as the bound on the number of blocks. *)
Fixpoint verify_chain (fuel : nat) (m : memory) (total_frames block block_count : Z)
  : option bool :=
  match fuel with
  | O => None
  | S fuel =>
    if block =? NULL then Some true else
    if negb (verify_block_integrity m block) then Some false else
    if total_frames <? block_count then Some false else
    verify_chain fuel m total_frames (blk_next m block) (u32 (block_count + 1))
  end.

Definition verify_heap_integrity (total_frames : Z) : cmd heap_state bool := λ st,
  match verify_chain (Z.to_nat (total_frames + 3)) (mem st) total_frames (heap_head st) 0 with
  | Some b => Ok (b, st)
  | None => Diverge
  end.

Definition heap_zero : heap_state :=
  HeapState 0 0 0 NULL NULL (MemStats 0 0 0 0 0) ∅.
