(* ===== verification/HeapSpec.v ===== *)
(** * What the kernel heap promises (src/kernel/mm.c)

    The heap is abstracted to the list of its blocks in address order.  The
    representation predicate [chain] says that word memory holds the doubly
    linked list of their headers; [heap_ok] is the allocator's invariant.
    [kmalloc] and [kfree] are proved to implement best-fit allocation and
    coalescing on that list. *)
From S2P Require Import Prelude Heap.

(** ** The abstract heap *)

(** A block: payload size, allocated or free, and the stored checksum. *)
Record ablock := ABlock { a_size : Z; a_used : bool; a_sum : Z }.

Definition span (b : ablock) : Z := HDR + a_size b.
Fixpoint extent (bs : list ablock) : Z :=
  match bs with [] => 0 | b :: bs => span b + extent bs end.

(** The address a pointer to the head of [bs] (laid out from [a]) holds, and
    the address of the last block of [bs]. *)
Definition first_of (a : Z) (bs : list ablock) (nxt : Z) : Z :=
  match bs with [] => nxt | _ => a end.
Fixpoint last_of (prev a : Z) (bs : list ablock) : Z :=
  match bs with [] => prev | b :: bs => last_of a (a + span b) bs end.

Definition magic_of (used : bool) : Z :=
  if used then HEAP_BLOCK_MAGIC else HEAP_BLOCK_FREE_MAGIC.
Definition flag (used : bool) : Z := if used then 1 else 0.

(** The checksum of a header with the given fields. *)
Definition hdr_sum (magic size used next prev : Z) : Z :=
  fold_left (λ checksum b, u32 (checksum + b))
    (word_bytes magic ++ word_bytes size ++ word_bytes used ++
     word_bytes next ++ word_bytes prev) 0.
Definition sum_of (prev next size : Z) (used : bool) : Z :=
  hdr_sum (magic_of used) size (flag used) next prev.

(** A block whose stored checksum is the one of its header. *)
Definition intact (prev next : Z) (b : ablock) : Prop :=
  a_sum b = sum_of prev next (a_size b) (a_used b).
#[export] Instance intact_dec prev next b : Decision (intact prev next b).
Proof. unfold intact. apply _. Defined.
Definition fresh_block (prev next size : Z) (used : bool) : ablock :=
  ABlock size used (sum_of prev next size used).

(** Memory holds the header of [b] at [a]; a free block's checksum is right. *)
Record hdr_at (m : memory) (a prev next : Z) (b : ablock) : Prop := {
  hdr_magic : blk_magic m a = magic_of (a_used b);
  hdr_size : blk_size m a = a_size b;
  hdr_used : blk_used m a = flag (a_used b);
  hdr_next : blk_next m a = next;
  hdr_prev : blk_prev m a = prev;
  hdr_checksum : blk_checksum m a = a_sum b;
  hdr_free_intact : a_used b = false → intact prev next b;
}.

Fixpoint chain (m : memory) (a prev nxt : Z) (bs : list ablock) : Prop :=
  match bs with
  | [] => True
  | b :: bs =>
    hdr_at m a prev (first_of (a + span b) bs nxt) b ∧
    chain m (a + span b) a nxt bs
  end.

(** No two neighbouring blocks are free. *)
Fixpoint coalesced (bs : list ablock) : Prop :=
  match bs with
  | b :: ((c :: _) as bs') => (a_used b = true ∨ a_used c = true) ∧ coalesced bs'
  | _ => True
  end.

Definition size_ok (b : ablock) : Prop := 16 <= a_size b ∧ a_size b mod 4 = 0.

(** The allocator's invariant. *)
Record heap_ok (st : heap_state) (bs : list ablock) : Prop := {
  ok_head : heap_head st = kernel_heap_start st;
  ok_range : 0 < kernel_heap_start st ∧
             kernel_heap_start st + KERNEL_HEAP_SIZE < 4294967296;
  ok_align : kernel_heap_start st mod 4 = 0;
  ok_chain : chain (mem st) (kernel_heap_start st) NULL NULL bs;
  ok_extent : extent bs = KERNEL_HEAP_SIZE;
  ok_sizes : Forall size_ok bs;
  ok_coalesced : coalesced bs;
  ok_tail : heap_tail st = last_of NULL (kernel_heap_start st) bs;
}.

(** ** An executable check of the invariant

    [read_chain] recovers the block list from memory; [heap_okb] decides the
    invariant for a given list. *)
Fixpoint read_chain (fuel : nat) (m : memory) (a : Z) : list ablock :=
  match fuel with
  | O => []
  | S fuel =>
    if a =? NULL then [] else
    ABlock (blk_size m a) (negb (blk_used m a =? 0)) (blk_checksum m a)
      :: read_chain fuel m (blk_next m a)
  end.

Definition hdr_atb (m : memory) (a prev next : Z) (b : ablock) : bool :=
  (blk_magic m a =? magic_of (a_used b)) && (blk_size m a =? a_size b) &&
  (blk_used m a =? flag (a_used b)) && (blk_next m a =? next) &&
  (blk_prev m a =? prev) && (blk_checksum m a =? a_sum b) &&
  (a_used b || (a_sum b =? sum_of prev next (a_size b) (a_used b))).

Fixpoint chainb (m : memory) (a prev nxt : Z) (bs : list ablock) : bool :=
  match bs with
  | [] => true
  | b :: bs =>
    hdr_atb m a prev (first_of (a + span b) bs nxt) b &&
    chainb m (a + span b) a nxt bs
  end.

Fixpoint coalescedb (bs : list ablock) : bool :=
  match bs with
  | b :: ((c :: _) as bs') => (a_used b || a_used c) && coalescedb bs'
  | _ => true
  end.

Definition heap_okb (st : heap_state) (bs : list ablock) : bool :=
  (heap_head st =? kernel_heap_start st) && (0 <? kernel_heap_start st) &&
  (kernel_heap_start st + KERNEL_HEAP_SIZE <? 4294967296) &&
  (kernel_heap_start st mod 4 =? 0) &&
  chainb (mem st) (kernel_heap_start st) NULL NULL bs &&
  (extent bs =? KERNEL_HEAP_SIZE) &&
  forallb (λ b, (16 <=? a_size b) && (a_size b mod 4 =? 0)) bs &&
  coalescedb bs && (heap_tail st =? last_of NULL (kernel_heap_start st) bs).

Lemma chainb_sound m a prev nxt bs :
  chainb m a prev nxt bs = true → chain m a prev nxt bs.
Proof.
  revert a prev; induction bs as [|b bs IH]; intros a prev; simpl; [done |].
  intros [Hh Hc]%andb_prop. split; [| by apply IH].
  unfold hdr_atb in Hh. bool_prop. split; try done.
  intros Hu. rewrite Hu in *. simpl in *. bool_prop. unfold intact. congruence.
Qed.

Lemma coalescedb_sound bs : coalescedb bs = true → coalesced bs.
Proof.
  induction bs as [|b bs IH]; simpl; [done |]. destruct bs as [|c bs]; [done |].
  intros [Hh Hc]%andb_prop. apply orb_true_iff in Hh. split; [done | by apply IH].
Qed.

Lemma heap_okb_sound st bs : heap_okb st bs = true → heap_ok st bs.
Proof.
  unfold heap_okb. intros H. bool_prop. split; try done.
  - by apply chainb_sound.
  - apply Forall_forall. intros b Hb. apply list_elem_of_In in Hb.
    match goal with H : forallb _ _ = true |- _ =>
      pose proof (proj1 (forallb_forall _ _) H b Hb) end. cbv beta in *. bool_prop. by split.
  - by apply coalescedb_sound.
Qed.

(** What a client sees of a block: its size and whether it is allocated. *)
Definition shape (bs : list ablock) : list (Z * bool) :=
  map (λ b, (a_size b, a_used b)) bs.

(** ** Layout lemmas *)
Lemma extent_app l1 l2 : extent (l1 ++ l2) = extent l1 + extent l2.
Proof. induction l1 as [|b l1 IH]; simpl; lia. Qed.

Lemma extent_nonneg bs : Forall size_ok bs → 40 * Z.of_nat (length bs) <= extent bs.
Proof.
  induction 1 as [|b bs [Hb _] _ IH]; simpl; [lia |]. unfold span, HDR. lia.
Qed.

Lemma extent_mod4 bs : Forall size_ok bs → extent bs mod 4 = 0.
Proof.
  induction 1 as [|b bs [_ Hb] _ IH]; simpl; [done |]. unfold span, HDR. lia.
Qed.

Lemma last_of_app p a l1 l2 :
  last_of p a (l1 ++ l2) = last_of (last_of p a l1) (a + extent l1) l2.
Proof.
  revert p a; induction l1 as [|b l1 IH]; intros p a; simpl.
  - by rewrite Z.add_0_r.
  - rewrite IH. f_equal. lia.
Qed.

Lemma first_of_app a l1 l2 n :
  first_of a (l1 ++ l2) n = first_of a l1 (first_of (a + extent l1) l2 n).
Proof. destruct l1; simpl; [by rewrite Z.add_0_r | done]. Qed.

Lemma chain_app m a p n l1 l2 :
  chain m a p n (l1 ++ l2) ↔
  chain m a p (first_of (a + extent l1) l2 n) l1 ∧
  chain m (a + extent l1) (last_of p a l1) n l2.
Proof.
  revert p a; induction l1 as [|b l1 IH]; intros p a; simpl.
  - rewrite Z.add_0_r. naive_solver.
  - rewrite IH, first_of_app, !Z.add_assoc. naive_solver.
Qed.

(** The last block of a nonempty prefix lies below the next address. *)
Lemma last_of_bound p a bs :
  bs ≠ [] → Forall size_ok bs → a <= last_of p a bs <= a + extent bs - 40.
Proof.
  revert p a; induction bs as [|b bs IH]; intros p a Hne Hs; [done |].
  inversion Hs as [|? ? [Hb _] Hs']; subst. simpl. unfold span, HDR in *.
  destruct bs as [|c bs]; [simpl; lia |].
  specialize (IH a (a + (24 + a_size b)) ltac:(done) Hs'). simpl in *. lia.
Qed.

Lemma coalesced_app l1 b l2 :
  coalesced (l1 ++ b :: l2) ↔
  coalesced (l1 ++ [b]) ∧ coalesced (b :: l2).
Proof.
  induction l1 as [|c l1 IH]; simpl; [destruct l2; naive_solver |].
  destruct l1 as [|d l1]; simpl in *; [destruct l2; naive_solver |].
  rewrite IH. naive_solver.
Qed.

(** Whether a list keeps [coalesced] when its boundary block changes depends
    only on that block's allocation flag. *)
Lemma coalesced_last l b c :
  coalesced (l ++ [b]) → (a_used b = true → a_used c = true) ∨ l = [] ∨
    (∃ l' d, l = l' ++ [d] ∧ a_used d = true) → coalesced (l ++ [c]).
Proof.
  induction l as [|d l IH]; simpl; [done |].
  destruct l as [|e l]; simpl in *.
  - intros [Hd _] [H|[H|(l' & d' & H & Hd')]]; [naive_solver | done |].
    destruct l' as [|? [|]]; simplify_eq/=. naive_solver.
  - intros [Hd Hl] H. split; [done |]. apply IH; [done |].
    destruct H as [H|[H|(l' & d' & H & Hd')]]; [by left | done |].
    right; right. destruct l' as [|x l']; simplify_eq/=.
    exists l', d'. done.
Qed.

(** ** Memory frame *)
Definition agree (m m' : memory) (lo hi : Z) : Prop :=
  ∀ x, lo <= x < hi → load m' x = load m x.

Lemma hdr_at_agree m m' a p n b :
  agree m m' a (a + HDR) → hdr_at m a p n b → hdr_at m' a p n b.
Proof.
  intros Hag [H1 H2 H3 H4 H5 H6 H7].
  unfold blk_magic, blk_size, blk_used, blk_next, blk_prev, blk_checksum, HDR in *.
  by split; unfold blk_magic, blk_size, blk_used, blk_next, blk_prev, blk_checksum;
    rewrite ?Hag by lia.
Qed.

Lemma agree_sub m m' lo hi lo' hi' :
  agree m m' lo hi → lo <= lo' → hi' <= hi → agree m m' lo' hi'.
Proof. intros H ?? x ?. apply H. lia. Qed.

Lemma chain_agree m m' a p n bs :
  Forall size_ok bs → agree m m' a (a + extent bs) →
  chain m a p n bs → chain m' a p n bs.
Proof.
  revert a p; induction bs as [|b bs IH]; intros a p Hs Hag; simpl; [done |].
  inversion Hs as [|? ? Hb Hs']; subst.
  pose proof (extent_nonneg bs Hs'). destruct Hb as [Hb _].
  simpl in Hag. unfold span in *. intros [Hh Hc]. split.
  - eapply hdr_at_agree; [| done]. eapply agree_sub; [done | lia..].
  - apply IH; [done | | done]. eapply agree_sub; [done | unfold HDR in *; lia..].
Qed.

(** The block list is a function of memory: two descriptions of one heap agree. *)
Lemma chain_functional m a p q n bs1 bs2 :
  chain m a p n bs1 → chain m a q n bs2 → Forall size_ok bs1 → Forall size_ok bs2 →
  extent bs1 = extent bs2 → bs1 = bs2.
Proof.
  revert a p q bs2; induction bs1 as [|b bs1 IH]; intros a p q bs2 H1 H2 S1 S2 He.
  - destruct bs2 as [|c bs2]; [done |]. pose proof (extent_nonneg _ S2). simpl in *. lia.
  - destruct bs2 as [|c bs2]; [pose proof (extent_nonneg _ S1); simpl in *; lia |].
    destruct H1 as [[_ B2 B3 _ _ B6 _] H1], H2 as [[_ C2 C3 _ _ C6 _] H2].
    assert (Hbc : b = c).
    { destruct b as [s u k], c as [s' u' k']; simpl in *. f_equal; [congruence | | congruence].
      rewrite B3 in C3. by destruct u, u'. }
    subst c. f_equal. inversion S1; inversion S2; subst.
    eapply IH; [exact H1 | exact H2 | done | done | simpl in He; lia].
Qed.

Lemma heap_ok_functional st bs1 bs2 : heap_ok st bs1 → heap_ok st bs2 → bs1 = bs2.
Proof.
  intros [_ _ _ C1 E1 S1 _ _] [_ _ _ C2 E2 S2 _ _].
  eapply chain_functional; [exact C1 | exact C2 | done | done | congruence].
Qed.

(** The boundary block of the rest of the heap may have its [prev] field
    rewritten when it is allocated: its stored checksum is then stale. *)
Definition stale_ok (bs : list ablock) : Prop :=
  match bs with [] => True | b :: _ => a_used b = true end.

Lemma chain_reprev m m' a p q n bs :
  Forall size_ok bs → stale_ok bs →
  (∀ x, a <= x < a + extent bs → x ≠ a + 16 → load m' x = load m x) →
  (bs ≠ [] → load m' (a + 16) = q) →
  chain m a p n bs → chain m' a q n bs.
Proof.
  destruct bs as [|b bs]; simpl; [done |].
  intros Hs Hu Hag Hq [[H1 H2 H3 H4 H5 H6 H7] Hc].
  inversion Hs as [|? ? [Hb _] Hs']; subst.
  pose proof (extent_nonneg bs Hs'). unfold span, HDR in *. split.
  - unfold blk_magic, blk_size, blk_used, blk_next, blk_prev, blk_checksum in *.
    split; unfold blk_magic, blk_size, blk_used, blk_next, blk_prev, blk_checksum;
      rewrite ?Hag by lia; [done.. | by apply Hq | done |].
    congruence.
  - eapply chain_agree; [done | | done].
    intros x Hx. apply Hag; lia.
Qed.

(** ** Checksums *)
Lemma calculate_hdr_sum m a :
  calculate_block_checksum m a =
  hdr_sum (blk_magic m a) (blk_size m a) (blk_used m a) (blk_next m a) (blk_prev m a).
Proof. unfold calculate_block_checksum, hdr_sum. reflexivity. Qed.

Lemma update_nonnull a m :
  a ≠ 0 → update_block_checksum a m = set_checksum a (calculate_block_checksum m a) m.
Proof.
  intros H. unfold update_block_checksum, NULL. by destruct (Z.eqb_spec a 0).
Qed.

Lemma verify_hdr m a p n b :
  a ≠ 0 → hdr_at m a p n b →
  verify_block_integrity m a = (a_sum b =? sum_of p n (a_size b) (a_used b)).
Proof.
  intros Ha [H1 H2 H3 H4 H5 H6 _]. unfold verify_block_integrity, NULL.
  destruct (Z.eqb_spec a 0); [done |].
  rewrite calculate_hdr_sum, H1, H2, H3, H4, H5, H6. unfold sum_of.
  by destruct (a_used b).
Qed.

(** The checksum is the sum of the header's bytes, and a word is congruent to
    the sum of its bytes modulo 255: two headers that differ only in [prev]
    have the same checksum only if the two pointers agree modulo 255. *)
Lemma checksum_sum l acc :
  is_u32 acc → fold_left (λ checksum b, u32 (checksum + b)) l acc = u32 (acc + foldr Z.add 0 l).
Proof.
  revert acc; induction l as [|b l IH]; intros acc Hacc; simpl.
  - rewrite Z.add_0_r. symmetry. by apply u32_small.
  - rewrite IH by apply u32_range. unfold u32. rewrite Z.add_mod_idemp_l by done. f_equal. lia.
Qed.

Lemma word_bytes_sum w k :
  0 <= foldr Z.add k (word_bytes w) - k <= 1020 ∧
  (is_u32 w → (foldr Z.add k (word_bytes w) - k) mod 255 = w mod 255).
Proof. unfold word_bytes, is_u32. simpl. lia. Qed.

Lemma hdr_sum_prev magic size used next p q :
  is_u32 p → is_u32 q →
  hdr_sum magic size used next p = hdr_sum magic size used next q → p mod 255 = q mod 255.
Proof.
  intros Hp Hq. unfold hdr_sum. rewrite !checksum_sum by (unfold is_u32; lia).
  rewrite !foldr_app. destruct (word_bytes_sum p 0) as [Bp Mp], (word_bytes_sum q 0) as [Bq Mq].
  specialize (Mp Hp). specialize (Mq Hq).
  rewrite <- Mp, <- Mq. set (fp := foldr Z.add 0 (word_bytes p)) in *.
  set (fq := foldr Z.add 0 (word_bytes q)) in *. unfold word_bytes. simpl. unfold u32.
  intros H. replace fp with fq; [done |]. lia.
Qed.

#[global] Opaque hdr_sum calculate_block_checksum.
