(* ===== verification/HeapAlloc.v ===== *)
(** * Correctness of [heap_init] and [kmalloc] (src/kernel/mm.c) *)
From S2P Require Import Prelude Heap HeapSpec.

(** ** The best-fit search *)

(** A block the search may take for a request of [size] bytes. *)
Definition fits (size : Z) (b : ablock) : Prop :=
  a_used b = false ∧ size <= a_size b.
#[export] Instance fits_dec size b : Decision (fits size b).
Proof. unfold fits. apply _. Defined.

(** [b], after the blocks [pre], is the first of the smallest blocks that fit. *)
Record best_fit (size : Z) (pre : list ablock) (b : ablock) (post : list ablock) : Prop := {
  bf_fits : fits size b;
  bf_before : ∀ c, c ∈ pre → fits size c → a_size b < a_size c;
  bf_after : ∀ c, c ∈ post → fits size c → a_size b <= a_size c;
}.

(** The search loop's answer, from a chain [bs] at [a] and the best block so
    far: either that block stands, or the first smallest one of [bs]. *)
Lemma find_best_fit_spec size bs : ∀ fuel m a prev best best_size,
  0 < a → Forall size_ok bs → chain m a prev NULL bs → (length bs < fuel)%nat →
  ∃ r, find_best_fit fuel m size (first_of a bs NULL) best best_size = Some r ∧
    ((r = best ∧ ∀ c, c ∈ bs → fits size c → best_size <= a_size c) ∨
     (∃ pre b post, bs = pre ++ b :: post ∧ r = a + extent pre ∧
        best_fit size pre b post ∧ a_size b < best_size)).
Proof.
  induction bs as [|b bs IH]; intros fuel m a prev best best_size Ha Hs Hc Hf;
    destruct fuel as [|fuel]; simpl in Hf; try lia; simpl.
  { exists best. split; [done |]. left. split; [done |]. intros c Hc'.
    by apply not_elem_of_nil in Hc'. }
  inversion Hs as [|? ? Hb Hs']; subst. destruct Hc as [[_ H2 H3 H4 _ _ _] Hc].
  unfold NULL. destruct (Z.eqb_spec a 0) as [?|_]; [lia |].
  rewrite H2, H3, H4. destruct Hb as [Hb _].
  assert (Hnext : 0 < a + span b) by (unfold span, HDR; lia).
  assert (Hu : (flag (a_used b) =? 0) = negb (a_used b)) by (by destruct (a_used b)).
  rewrite Hu. clear Hu.
  destruct (negb (a_used b) && (size <=? a_size b) && (a_size b <? best_size))%bool eqn:E.
  - bool_prop. destruct (Z.eqb_spec (a_size b) size) as [Heq|Hne].
    + exists a. split; [done |]. right. exists [], b, bs. simpl.
      rewrite Z.add_0_r. repeat split; try done; try lia.
      * intros c Hc'. by apply not_elem_of_nil in Hc'.
      * intros c _ [_ ?]. lia.
    + destruct (IH fuel m _ _ a (a_size b) Hnext Hs' Hc ltac:(lia)) as (r & -> & Hr).
      exists r. split; [done |]. right. destruct Hr as [[-> Hall]|(pre & c & post & -> & -> & Hbf & Hlt)].
      * exists [], b, bs. simpl. rewrite Z.add_0_r. repeat split; try done.
        intros c Hc'. by apply not_elem_of_nil in Hc'.
      * exists (b :: pre), c, post. simpl. split; [done |]. split; [lia |]. split; [| lia].
        destruct Hbf as [? Hbe Haf]. split; [done | | done].
        intros d [->|Hd]%elem_of_cons; [lia | by apply Hbe].
  - destruct (IH fuel m _ _ best best_size Hnext Hs' Hc ltac:(lia)) as (r & -> & Hr).
    assert (Hskip : fits size b → best_size <= a_size b).
    { intros [Hfree Hle]. rewrite Hfree in E. simpl in E.
      destruct (Z.leb_spec size (a_size b)); [| lia].
      destruct (Z.ltb_spec (a_size b) best_size); [done | lia]. }
    exists r. split; [done |]. destruct Hr as [[-> Hall]|(pre & c & post & -> & -> & Hbf & Hlt)].
    + left. split; [done |]. intros d [->|Hd]%elem_of_cons; auto.
    + right. exists (b :: pre), c, post. simpl. split; [done |]. split; [lia |]. split; [| lia].
      destruct Hbf as [? Hbe Haf]. split; [done | | done].
      intros d [->|Hd]%elem_of_cons; [intros ?%Hskip; lia | by apply Hbe].
Qed.

(** The fuel of [kmalloc] exceeds the number of blocks of any heap. *)
Lemma search_fuel st bs : heap_ok st bs → (length bs < heap_fuel)%nat.
Proof.
  intros H. pose proof (extent_nonneg bs (ok_sizes _ _ H)) as Hl.
  rewrite (ok_extent _ _ H) in Hl. unfold heap_fuel, KERNEL_HEAP_SIZE in *. lia.
Qed.

(** ** Handing out a block *)

(** The blocks that replace free block [b], at [a] between [prev] and [next],
    when [size] bytes of it are allocated. *)
Definition carve (a prev next size : Z) (b : ablock) : list ablock :=
  if size + HDR + 16 <? a_size b then
    let new := a + HDR + size in
    [fresh_block prev new size true;
     fresh_block a next (a_size b - size - HDR) false]
  else [fresh_block prev next (a_size b) true].

Lemma extent_carve a prev next size b : extent (carve a prev next size b) = span b.
Proof. unfold carve. case_if; simpl; unfold span, HDR; simpl; lia. Qed.

Lemma shape_carve a prev next size b :
  shape (carve a prev next size b) =
  if size + HDR + 16 <? a_size b
  then [(size, true); (a_size b - size - HDR, false)] else [(a_size b, true)].
Proof. unfold carve. by case_if. Qed.

(** The size the search looks for is a rounded-up version of the request. *)
Lemma round_size_eq size :
  0 < size <= 4294967292 →
  round_size size = Z.max 16 (size + 3 - (size + 3) mod 4).
Proof.
  intros Hs. unfold round_size.
  rewrite (u32_small (size + 3)), land_not32 by (unfold is_u32; lia).
  change (Z.ldiff (size + 3) 3) with (Z.ldiff (size + 3) (2 ^ 2 - 1)).
  rewrite ldiff_pow2 by lia. change (2 ^ 2) with 4. cbv zeta.
  case_if; bool_prop; lia.
Qed.

Lemma round_size_spec size :
  0 < size <= 4294967292 →
  round_size size mod 4 = 0 ∧ 16 <= round_size size ∧
  size <= round_size size ∧ (16 <= size → round_size size < size + 4) ∧
  round_size size <= 4294967292.
Proof. intros Hs. rewrite round_size_eq by done. lia. Qed.

(** The memory writes of [kmalloc] once the block is chosen: the optional
    split, then the marking of the block as used. *)
Definition take_block (block size : Z) (m : memory) (tail : Z) : memory * Z :=
  let '(m, tail) :=
    if u32 (size + HDR + 16) <? blk_size m block
    then split_block block size m tail else (m, tail) in
  let m := set_used block 1 m in
  let m := set_magic block HEAP_BLOCK_MAGIC m in
  (update_block_checksum block m, tail).

Ltac unfold_hdr :=
  unfold set_magic, set_size, set_used, set_next, set_prev, set_checksum,
    blk_magic, blk_size, blk_used, blk_next, blk_prev, blk_checksum in *.

Section take.
Context (m : memory) (a prev next size tail : Z) (b : ablock).
Hypothesis Ha : 0 < a.
Hypothesis Hhdr : hdr_at m a prev next b.
Hypothesis Hfree : a_used b = false.
Hypothesis Hb : size_ok b.
Hypothesis Hsize : 16 <= size <= a_size b.
Hypothesis Hfit : a + span b < 4294967296.
Hypothesis Hcap : a_size b <= KERNEL_HEAP_SIZE.
Hypothesis Hnext : next = NULL ∨ next = a + span b.

Lemma take_whole :
  (size + HDR + 16 <? a_size b) = false →
  ∃ m', take_block a size m tail = (m', tail) ∧
    hdr_at m' a prev next (fresh_block prev next (a_size b) true) ∧
    ∀ x, x < a ∨ a + HDR <= x → load m' x = load m x.
Proof.
  intros Hsplit. destruct Hhdr as [H1 H2 H3 H4 H5 H6 _].
  unfold take_block. rewrite H2.
  rewrite (u32_small (size + HDR + 16)), Hsplit
    by (unfold is_u32, KERNEL_HEAP_SIZE, HDR in *; lia).
  rewrite update_nonnull, calculate_hdr_sum by lia.
  eexists. split; [reflexivity |]. unfold_hdr. unfold HDR in *. mem_simpl. split.
  - split; unfold_hdr; mem_simpl; try done. simpl. unfold sum_of, magic_of, flag. congruence.
  - intros x Hx. mem_simpl. done.
Qed.

Lemma take_split :
  (size + HDR + 16 <? a_size b) = true →
  let new := a + HDR + size in
  ∃ m', take_block a size m tail =
      (m', if next =? NULL then new else tail) ∧
    hdr_at m' a prev new (fresh_block prev new size true) ∧
    hdr_at m' new a next (fresh_block a next (a_size b - size - HDR) false) ∧
    (next ≠ NULL → load m' (next + 16) = new) ∧
    ∀ x, x < a ∨ (a + span b <= x ∧ (next ≠ NULL → x ≠ next + 16)) →
      load m' x = load m x.
Proof.
  intros Hsplit new. destruct Hhdr as [H1 H2 H3 H4 H5 H6 _], Hb as [Hmin _].
  unfold take_block. rewrite H2.
  rewrite (u32_small (size + HDR + 16)), Hsplit
    by (unfold is_u32, KERNEL_HEAP_SIZE, HDR in *; lia).
  unfold split_block. unfold new. clear new. bool_prop. unfold span in *.
  rewrite (u32_small (a + HDR + size)) by (unfold is_u32, HDR in *; lia).
  rewrite (update_nonnull (a + HDR + size)) by (unfold HDR; lia).
  rewrite calculate_hdr_sum. unfold_hdr. unfold HDR in *. mem_simpl.
  rewrite !H2, !H4. mem_simpl.
  rewrite (u32_small (a_size b - size - 24)) by (unfold is_u32, KERNEL_HEAP_SIZE in *; lia).
  destruct (next =? NULL) eqn:En; simpl; bool_prop.
  all: rewrite !update_nonnull by lia; rewrite !calculate_hdr_sum; unfold_hdr; mem_simpl.
  all: eexists; split; [reflexivity |].
  all: unfold NULL in *; try (destruct Hnext as [?|Hnext]; [lia |]).
  all: split_and!.
  all: try (intros x [Hx|[Hx Hx']]; try specialize (Hx' En);
            rewrite !load_store_ne by lia; reflexivity).
  all: try (intros Hn; try contradiction; rewrite ?Hnext; mem_simpl; reflexivity).
  all: split; unfold_hdr; simpl; unfold intact, sum_of, magic_of, flag; simpl.
  all: mem_simpl; first [congruence | reflexivity].
Qed.
End take.

(** Taking a block out of the middle of a heap keeps the chain. *)
Lemma take_chain m a prev size tail b post :
  0 < a → Forall size_ok (b :: post) → chain m a prev NULL (b :: post) →
  a_used b = false → stale_ok post → 16 <= size <= a_size b →
  a + extent (b :: post) < 4294967296 → a_size b <= KERNEL_HEAP_SIZE →
  let next := first_of (a + span b) post NULL in
  ∃ m', take_block a size m tail =
      (m', if (size + HDR + 16 <? a_size b) && (next =? NULL)
           then a + HDR + size else tail) ∧
    chain m' a prev NULL (carve a prev next size b ++ post) ∧
    ∀ x, x < a ∨ (a + span b <= x ∧ x ≠ a + span b + 16) → load m' x = load m x.
Proof.
  intros Ha Hs Hc Hfree Hst Hsz Hext Hcap next.
  inversion Hs as [|? ? Hb Hs']; subst. destruct Hc as [Hh Hc]. fold next in Hh.
  pose proof (extent_nonneg post Hs') as Hep. simpl in Hext.
  assert (Hn : next = NULL ∨ next = a + span b) by (destruct post; [left|right]; done).
  destruct (size + HDR + 16 <? a_size b) eqn:E; unfold carve; rewrite E; simpl.
  - destruct (take_split m a prev next size tail b Ha Hh Hb Hsz ltac:(lia) Hcap Hn E)
      as (m' & -> & Hh1 & Hh2 & Hq & Hfr).
    exists m'. split; [done |]. split.
    + replace (span (fresh_block prev (a + HDR + size) size true)) with (HDR + size) by done.
      rewrite Z.add_assoc. split; [done |].
      replace (a + HDR + size + _) with (a + span b)
        by (unfold span, HDR; simpl; lia).
      split; [done |].
      eapply chain_reprev; [done | done | | | done].
      * intros x Hx Hne. apply Hfr. right. split; [lia |]. destruct Hn; congruence.
      * intros Hp. destruct post; [done |]. apply Hq. unfold NULL, next in *. simpl.
        destruct Hb. unfold span, HDR. lia.
    + intros x Hx. apply Hfr. destruct Hn as [Hn|Hn]; rewrite Hn; unfold NULL; lia.
  - destruct (take_whole m a prev next size tail b Ha Hh Hsz Hcap E)
      as (m' & -> & Hh1 & Hfr).
    exists m'. split; [done |]. destruct Hb as [Hb _]. split.
    + replace (a + span (fresh_block prev next (a_size b) true)) with (a + span b) by done.
      split; [done |]. eapply chain_agree; [done | | done].
      intros x Hx. apply Hfr. unfold span, HDR in *. lia.
    + intros x Hx. apply Hfr. unfold span, HDR in *. lia.
Qed.

(** ** The invariant across an allocation *)
Lemma coalesced_free_mid pre b post :
  coalesced (pre ++ b :: post) → a_used b = false →
  stale_ok post ∧ coalesced post ∧ coalesced (pre ++ [b]).
Proof.
  intros [H1 H2]%coalesced_app Hf. split_and!; [| | done].
  - destruct post as [|c post]; simpl in *; [done |]. naive_solver congruence.
  - destruct post as [|c post]; simpl in *; naive_solver.
Qed.

Lemma coalesced_used_cons c rest : a_used c = true → coalesced rest → coalesced (c :: rest).
Proof. intros. destruct rest; simpl; auto. Qed.

Lemma coalesced_free_cons c rest :
  stale_ok rest → coalesced rest → coalesced (c :: rest).
Proof. intros. destruct rest; simpl in *; auto. Qed.

Lemma coalesced_used_mid pre b c rest :
  coalesced (pre ++ [b]) → a_used c = true → coalesced rest →
  coalesced (pre ++ c :: rest).
Proof.
  intros H1 Hc H2. apply coalesced_app. split.
  - eapply coalesced_last; [done |]. by left.
  - by apply coalesced_used_cons.
Qed.

Lemma coalesced_carve pre b post a prev next size :
  coalesced (pre ++ b :: post) → a_used b = false →
  coalesced (pre ++ carve a prev next size b ++ post).
Proof.
  intros H Hf. destruct (coalesced_free_mid _ _ _ H Hf) as (Hs & Hp & Hpre).
  unfold carve. case_if; simpl;
    (eapply coalesced_used_mid; [done | done |]); [by apply coalesced_free_cons | done].
Qed.

Lemma sizes_carve a prev next size b :
  size_ok b → 16 <= size <= a_size b → size mod 4 = 0 →
  Forall size_ok (carve a prev next size b).
Proof.
  intros [Hb1 Hb2] Hs Hm. unfold carve. case_if; bool_prop;
    repeat constructor; unfold HDR in *; simpl in *; lia.
Qed.

Lemma last_of_nonempty p q a bs : bs ≠ [] → last_of p a bs = last_of q a bs.
Proof. by destruct bs. Qed.

Lemma heap_ok_block st pre b post :
  heap_ok st (pre ++ b :: post) →
  let a := kernel_heap_start st + extent pre in
  0 <= extent pre ∧ size_ok b ∧ Forall size_ok post ∧ Forall size_ok pre ∧
  a + extent (b :: post) = kernel_heap_start st + KERNEL_HEAP_SIZE ∧
  a + span b <= kernel_heap_start st + KERNEL_HEAP_SIZE ∧
  a_size b <= KERNEL_HEAP_SIZE ∧ extent pre mod 4 = 0 ∧ 0 <= extent post.
Proof.
  intros H a. destruct H as [_ Hr _ _ He Hs _ _].
  apply Forall_app in Hs as [Hs1 Hs2]. inversion Hs2 as [|? ? Hb Hs3]; subst.
  pose proof (extent_nonneg pre Hs1). pose proof (extent_nonneg post Hs3).
  pose proof (extent_mod4 pre Hs1).
  rewrite extent_app in He. simpl in *. destruct Hb as [Hb1 Hb2].
  unfold span, HDR in *. split_and!; try done; try lia.
Qed.

(** [kmalloc] once the search has answered [block]. *)
Lemma kmalloc_take size st block :
  size ≠ 0 →
  find_best_fit heap_fuel (mem st) (round_size size) (heap_head st) NULL SIZE_MAX = Some block →
  block ≠ NULL → verify_block_integrity (mem st) block = true →
  kmalloc size st =
  let '(m, tail) := take_block block (round_size size) (mem st) (heap_tail st) in
  Ok (u32 (block + HDR),
      set_stats (count_alloc (round_size size) (stats st)) (set_tail tail (set_mem m st))).
Proof.
  intros Hs Hf Hb Hv. unfold kmalloc, take_block.
  apply Z.eqb_neq in Hs, Hb. rewrite Hs, Hf, Hb, Hv. simpl.
  by destruct (if u32 _ <? _ then _ else _).
Qed.

(** The state after [size] bytes of block [b] have been handed out. *)
Definition took (st : heap_state) (size : Z) (pre : list ablock) (b : ablock)
    (post : list ablock) (st' : heap_state) : Prop :=
  let a := kernel_heap_start st + extent pre in
  heap_ok st' (pre ++ carve a (last_of NULL (kernel_heap_start st) pre)
                        (first_of (a + span b) post NULL) (round_size size) b ++ post) ∧
  kernel_heap_start st' = kernel_heap_start st ∧
  stats st' = count_alloc (round_size size) (stats st) ∧
  ∀ x, x < a ∨ (a + span b <= x ∧ x ≠ a + span b + 16) →
    load (mem st') x = load (mem st) x.

Lemma kmalloc_hit size st pre b post :
  heap_ok st (pre ++ b :: post) → 0 < size <= 4294967292 →
  fits (round_size size) b →
  find_best_fit heap_fuel (mem st) (round_size size) (heap_head st) NULL SIZE_MAX =
    Some (kernel_heap_start st + extent pre) →
  ∃ st', kmalloc size st = Ok (kernel_heap_start st + extent pre + HDR, st') ∧
    took st size pre b post st'.
Proof.
  intros Hok Hsz [Hfree Hle] Hfind.
  destruct (round_size_spec size Hsz) as (Hm4 & H16 & _).
  destruct (heap_ok_block _ _ _ _ Hok) as (He & Hb & Hsp & Hspre & Hend & Hend' & Hcap & Hmod & Hep).
  destruct Hok as [Hh [Hr1 Hr2] Hal Hc Hext Hs Hco Ht].
  set (a := kernel_heap_start st + extent pre) in *.
  apply chain_app in Hc as [Hcpre Hcb].
  destruct (coalesced_free_mid _ _ _ Hco Hfree) as (Hst & _ & _).
  assert (Ha : 0 < a) by (unfold a; lia).
  destruct (take_chain (mem st) a _ (round_size size) (heap_tail st) b post Ha
    ltac:(by constructor) Hcb Hfree Hst ltac:(lia) ltac:(lia) Hcap) as (m' & Htk & Hc' & Hfr).
  assert (Hver : verify_block_integrity (mem st) a = true).
  { destruct Hcb as [Hh' _]. rewrite (verify_hdr (mem st) a _ _ b) by (done || lia).
    apply Z.eqb_eq. exact (hdr_free_intact _ _ _ _ _ Hh' Hfree). }
  rewrite (kmalloc_take size st a) by (done || (unfold NULL; lia)).
  rewrite Htk.
  rewrite (u32_small (a + HDR)) by (unfold is_u32, size_ok, span, HDR in *; lia).
  eexists. split; [reflexivity |]. unfold took; fold a. simpl. split_and!; try done.
  split; simpl; try done.
  - rewrite chain_app. split; [| done].
    eapply chain_agree; [done | | ].
    + intros x Hx. apply Hfr. unfold a in *. lia.
    + unfold carve. by destruct (_ <? _).
  - rewrite !extent_app, extent_carve. rewrite extent_app in Hext. simpl in Hext. lia.
  - apply Forall_app. split; [done |]. apply Forall_app. split; [| done].
    by apply sizes_carve; [| lia | ].
  - by apply coalesced_carve.
  - rewrite Ht, !last_of_app, extent_carve. fold a. simpl.
    destruct post as [|c post]; simpl.
    + unfold carve. rewrite !andb_true_r. case_if; simpl; [| done]. unfold span; simpl. lia.
    + unfold NULL. destruct (Z.eqb_spec (a + span b) 0); [destruct Hb; unfold span, HDR in *; lia |].
      by rewrite andb_false_r.
Qed.

(** ** Allocation *)

Lemma kmalloc_cases size st bs :
  heap_ok st bs → 0 < size <= 4294967292 →
  (∃ pre b post st',
     bs = pre ++ b :: post ∧ best_fit (round_size size) pre b post ∧
     kmalloc size st = Ok (kernel_heap_start st + extent pre + HDR, st') ∧
     took st size pre b post st') ∨
  ((∀ b, b ∈ bs → ¬ fits (round_size size) b) ∧
   kmalloc size st = Ok (NULL, set_stats (count_fragmentation (stats st)) st)).
Proof.
  intros Hok Hsz. pose proof (search_fuel _ _ Hok) as Hfuel.
  pose proof (extent_nonneg _ (ok_sizes _ _ Hok)) as Hne.
  assert (Hhd : first_of (kernel_heap_start st) bs NULL = heap_head st).
  { rewrite (ok_head _ _ Hok). destruct bs; [| done].
    pose proof (ok_extent _ _ Hok). simpl in *. unfold KERNEL_HEAP_SIZE in *. lia. }
  destruct (find_best_fit_spec (round_size size) bs heap_fuel (mem st)
    (kernel_heap_start st) NULL NULL SIZE_MAX (proj1 (ok_range _ _ Hok))
    (ok_sizes _ _ Hok) (ok_chain _ _ Hok) Hfuel) as (r & Hf & Hr).
  rewrite Hhd in Hf. destruct Hr as [[-> Hall]|(pre & b & post & -> & -> & Hbf & _)].
  - right. split.
    + intros b Hb Hfit. specialize (Hall b Hb Hfit).
      apply list_elem_of_split in Hb as (pre & post & ->).
      destruct (heap_ok_block _ _ _ _ Hok) as (_ & _ & _ & _ & _ & _ & Hcap & _).
      unfold SIZE_MAX, KERNEL_HEAP_SIZE in *. lia.
    + unfold kmalloc. rewrite Hf. by destruct (Z.eqb_spec size 0); [lia |].
  - left. exists pre, b, post.
    destruct (kmalloc_hit size st pre b post Hok Hsz (bf_fits _ _ _ _ Hbf) Hf) as (st' & Hk & Ht).
    by exists st'.
Qed.

(** C1. From a well-formed heap, [kmalloc] always returns: either the first of
    the smallest free blocks that fit the rounded request is handed out (split
    when more than 40 bytes would be left over), the heap is well formed again
    and memory changes only in that block and in the [prev] field of the block
    after it, or no free block fits, the answer is NULL and only the
    fragmentation counter moves. *)
Theorem kmalloc_refines size st bs :
  heap_ok st bs → 0 < size <= 4294967292 →
  (∃ pre b post st' bs',
     bs = pre ++ b :: post ∧ best_fit (round_size size) pre b post ∧
     kmalloc size st = Ok (kernel_heap_start st + extent pre + HDR, st') ∧
     heap_ok st' bs' ∧ stats st' = count_alloc (round_size size) (stats st) ∧
     shape bs' = shape pre ++
       (if round_size size + HDR + 16 <? a_size b
        then [(round_size size, true); (a_size b - round_size size - HDR, false)]
        else [(a_size b, true)]) ++ shape post ∧
     let a := kernel_heap_start st + extent pre in
     ∀ x, x < a ∨ (a + span b <= x ∧ x ≠ a + span b + 16) →
       load (mem st') x = load (mem st) x) ∨
  ((∀ b, b ∈ bs → ¬ fits (round_size size) b) ∧
   kmalloc size st = Ok (NULL, set_stats (count_fragmentation (stats st)) st)).
Proof.
  intros Hok Hsz. destruct (kmalloc_cases size st bs Hok Hsz)
    as [(pre & b & post & st' & -> & Hbf & Hk & (Hok' & _ & Hst & Hfr))|H]; [left | by right].
  exists pre, b, post, st'. eexists. split_and!; [done | done | done | exact Hok' | done | | done].
  unfold shape at 1. rewrite !map_app. f_equal. f_equal. apply shape_carve.
Qed.

(** ** Initialisation *)

Lemma heap_init_cases image_end st :
  0 < image_end < 4294967296 → image_end mod 4 = 0 →
  if image_end + KERNEL_HEAP_SIZE <? 4294967296 then
    ∃ st', heap_init image_end st = Ok (tt, st') ∧ kernel_heap_start st' = image_end ∧
      heap_ok st' [fresh_block NULL NULL (KERNEL_HEAP_SIZE - HDR) false]
  else heap_init image_end st = Panic "Invalid heap size configuration".
Proof.
  intros Hr Hm. unfold heap_init. rewrite (u32_small image_end) by (unfold is_u32; lia).
  destruct (Z.ltb_spec (image_end + KERNEL_HEAP_SIZE) 4294967296) as [Hlt|Hge].
  - rewrite u32_small by (unfold is_u32, KERNEL_HEAP_SIZE in *; lia).
    destruct (Z.leb_spec (image_end + KERNEL_HEAP_SIZE) image_end);
      [unfold KERNEL_HEAP_SIZE in *; lia |].
    rewrite update_nonnull by lia. rewrite calculate_hdr_sum.
    eexists. split; [reflexivity |]. split; [done |].
    split; simpl; try done; try lia.
    + split; [| done]. unfold_hdr. mem_simpl.
      split; unfold_hdr; simpl; unfold intact, sum_of, magic_of, flag; simpl; mem_simpl;
        try congruence; reflexivity.
    + repeat constructor; done.
  - destruct (Z.leb_spec (u32 (image_end + KERNEL_HEAP_SIZE)) image_end) as [|Hn]; [done |].
    unfold u32, KERNEL_HEAP_SIZE in *. lia.
Qed.

(** [heap_init] on a 4-aligned image end below the last 16 MB of the
    address space sets up a well-formed heap of one free block, whatever the
    memory held before; when the heap would wrap around the address space it
    panics. *)
Theorem heap_init_ok image_end st :
  0 < image_end < 4294967296 → image_end mod 4 = 0 →
  if image_end + KERNEL_HEAP_SIZE <? 4294967296 then
    ∃ st', heap_init image_end st = Ok (tt, st') ∧ kernel_heap_start st' = image_end ∧
      heap_ok st' [fresh_block NULL NULL (KERNEL_HEAP_SIZE - HDR) false]
  else heap_init image_end st = Panic "Invalid heap size configuration".
Proof. apply heap_init_cases. Qed.

(** ** The client's view *)

(** [p] is a pointer to an allocated payload of [n] bytes. *)
Definition live (st : heap_state) (bs : list ablock) (p n : Z) : Prop :=
  ∃ pre b post, bs = pre ++ b :: post ∧ a_used b = true ∧
    p = kernel_heap_start st + extent pre + HDR ∧ n = a_size b.

(** Where a block sits relative to the one that was handed out. *)
Lemma split_cases {A} (pre : list A) b post pre' b' post' :
  pre ++ b :: post = pre' ++ b' :: post' →
  (pre = pre' ∧ b = b' ∧ post = post') ∨
  (∃ mid, pre = pre' ++ b' :: mid ∧ post' = mid ++ b :: post) ∨
  (∃ mid, post = mid ++ b' :: post' ∧ pre' = pre ++ b :: mid).
Proof.
  intros H. destruct (app_eq_inv _ _ _ _ H) as [[k [H1 H2]]|[k [H1 H2]]].
  - destruct k as [|x k]; simplify_eq/=; [left; rewrite app_nil_r; done |].
    right; left. by exists k.
  - destruct k as [|x k]; simplify_eq/=; [left; rewrite app_nil_r; done |].
    right; right. by exists k.
Qed.

(** Every allocation that is live stays live, and lies apart from block [b]. *)
Lemma took_live st size pre b post st' p n :
  heap_ok st (pre ++ b :: post) → a_used b = false → took st size pre b post st' →
  live st (pre ++ b :: post) p n →
  live st' (pre ++ carve (kernel_heap_start st + extent pre)
      (last_of NULL (kernel_heap_start st) pre)
      (first_of (kernel_heap_start st + extent pre + span b) post NULL)
      (round_size size) b ++ post) p n ∧
  (p + n <= kernel_heap_start st + extent pre ∨
   kernel_heap_start st + extent pre + span b + HDR <= p).
Proof.
  intros Hok Hfree (_ & Hst & _ & _) (pre' & b' & post' & Heq & Hu & -> & ->).
  pose proof (ok_sizes _ _ Hok) as Hs.
  destruct (split_cases _ _ _ _ _ _ Heq) as [(-> & -> & ->)|[(mid & -> & ->)|(mid & -> & ->)]].
  - congruence.
  - split.
    + eexists pre', b', _. rewrite Hst. split_and!; [by rewrite <- app_assoc | done..].
    + left. rewrite extent_app. simpl. apply Forall_app in Hs as [Hs _].
      apply Forall_app in Hs as [_ Hs]. inversion Hs as [|? ? _ Hs']; subst.
      pose proof (extent_nonneg mid Hs'). unfold span. lia.
  - split.
    + eexists (pre ++ carve _ _ _ _ b ++ mid), b', post'. rewrite Hst.
      split_and!; [by rewrite <- !app_assoc | done | | done].
      rewrite !extent_app, extent_carve. simpl. lia.
    + right. rewrite extent_app. simpl. apply Forall_app in Hs as [_ Hs].
      inversion Hs as [|? ? _ Hs']; subst. apply Forall_app in Hs' as [Hs' _].
      pose proof (extent_nonneg mid Hs'). lia.
Qed.

Lemma kmalloc_live size st bs p st' :
  heap_ok st bs → 0 < size <= 4294967292 → kmalloc size st = Ok (p, st') → p ≠ NULL →
  ∃ bs' n, heap_ok st' bs' ∧ live st' bs' p n ∧ size <= n ∧ p mod 4 = 0 ∧
    kernel_heap_start st + HDR <= p ∧ p + n <= kernel_heap_start st + KERNEL_HEAP_SIZE ∧
    ∀ q k, live st bs q k →
      live st' bs' q k ∧ (q + k <= p ∨ p + n <= q) ∧
      ∀ x, q <= x < q + k → load (mem st') x = load (mem st) x.
Proof.
  intros Hok Hsz Hk Hp. destruct (round_size_spec size Hsz) as (_ & _ & Hrs & _ & _).
  destruct (kmalloc_cases size st bs Hok Hsz)
    as [(pre & b & post & st'' & -> & Hbf & Hk' & Ht)|[_ Hk']];
    rewrite Hk in Hk'; simplify_eq.
  destruct (heap_ok_block _ _ _ _ Hok) as (He & [Hb _] & _ & _ & _ & Hend & _ & Hmod & _).
  destruct (bf_fits _ _ _ _ Hbf) as [Hfree Hle].
  pose proof (ok_align _ _ Hok) as Hal. pose proof Ht as (Hok' & Hst & _ & Hfr).
  set (a := kernel_heap_start st + extent pre) in *. cbv zeta in Hok'.
  set (bs' := pre ++ carve _ _ _ _ b ++ post) in *.
  exists bs', (if round_size size + HDR + 16 <? a_size b then round_size size else a_size b).
  split_and!; [done | | case_if; lia | unfold a, HDR; lia | unfold a, HDR; lia | | ].
  - unfold bs', carve. case_if; simpl; eexists pre, _, _; (split_and!; [reflexivity | done | | done]);
      rewrite Hst; unfold a; lia.
  - unfold span in *. case_if; bool_prop; lia.
  - intros q k Hl. destruct (took_live _ _ _ _ _ _ _ _ Hok Hfree Ht Hl) as [Hl' Hdis].
    fold a in Hl', Hdis. split_and!; [done | |].
    + unfold span in *. case_if; bool_prop; unfold HDR in *; lia.
    + intros x Hx. apply Hfr. unfold HDR in *. lia.
Qed.

(** When [kmalloc] answers a non-null pointer [p], the bytes
    [p, p + size) lie inside the heap at a 4-aligned address in an allocation
    of their own: every allocation that was live is live still at the same
    place, is disjoint from them, and keeps its contents. *)
Theorem kmalloc_safe size st bs p st' :
  heap_ok st bs → 0 < size <= 4294967292 → kmalloc size st = Ok (p, st') → p ≠ NULL →
  ∃ bs' n, heap_ok st' bs' ∧ live st' bs' p n ∧ size <= n ∧ p mod 4 = 0 ∧
    kernel_heap_start st + HDR <= p ∧ p + n <= kernel_heap_start st + KERNEL_HEAP_SIZE ∧
    ∀ q k, live st bs q k →
      live st' bs' q k ∧ (q + k <= p ∨ p + n <= q) ∧
      ∀ x, q <= x < q + k → load (mem st') x = load (mem st) x.
Proof. apply kmalloc_live. Qed.
