(* ===== verification/HeapFree.v ===== *)
(** * Correctness of [kfree] (src/kernel/mm.c) *)
From S2P Require Import Prelude Heap HeapSpec HeapAlloc.

(** ** The abstract operation

    Freeing a block of [n] bytes between the blocks [l] and [r]: it absorbs a
    free right neighbour, then is absorbed by a free left neighbour. *)
Definition free_shape (l : list (Z * bool)) (n : Z) (r : list (Z * bool))
  : list (Z * bool) :=
  let '(n, r) :=
    match r with (k, false) :: r' => (n + (k + HDR), r') | _ => (n, r) end in
  match last l with
  | Some (k, false) => removelast l ++ (k + (n + HDR), false) :: r
  | _ => l ++ (n, false) :: r
  end.

(** ** Coalescing in memory

    Both merges let the block at [a] absorb its neighbour at [y]. *)
Definition absorb (a y : Z) (m : memory) (tail : Z) : memory * Z :=
  let n := blk_next m y in
  let m := set_size a (u32 (blk_size m a + (blk_size m y + HDR))) m in
  let m := set_next a n m in
  let '(m, tail) := if negb (n =? NULL) then (set_prev n a m, tail) else (m, a) in
  (update_block_checksum a m, tail).

Section absorb.
Context (m : memory) (a prev next tail : Z) (c d : ablock).
Let y : Z := a + span c.
Hypothesis Ha : 0 < a.
Hypothesis Hc : hdr_at m a prev y c.
Hypothesis Hd : hdr_at m y a next d.
Hypothesis Hcfree : a_used c = false.
Hypothesis Hcs : size_ok c.
Hypothesis Hds : size_ok d.
Hypothesis Hfit : y + span d < 4294967296.
Hypothesis Hnext : next = NULL ∨ next = y + span d.

Lemma absorb_hdr :
  let big := fresh_block prev next (a_size c + (a_size d + HDR)) false in
  ∃ m', absorb a y m tail = (m', if next =? NULL then a else tail) ∧
    hdr_at m' a prev next big ∧
    (next ≠ NULL → load m' (next + 16) = a) ∧
    ∀ x, x < a ∨ (y + span d <= x ∧ (next ≠ NULL → x ≠ next + 16)) →
      load m' x = load m x.
Proof using All.
  intros big. unfold big; clear big.
  destruct Hc as [C1 C2 C3 C4 C5 C6 _], Hd as [_ D2 _ D4 _ _ _], Hcs as [C _], Hds as [D _].
  clear Hc Hd Hcs Hds. unfold absorb. rewrite C2, D2, D4. subst y. unfold span, HDR in *.
  rewrite (u32_small (a_size c + (a_size d + 24))) by (unfold is_u32; lia).
  destruct (next =? NULL) eqn:En; simpl; bool_prop.
  all: rewrite !update_nonnull by lia; rewrite !calculate_hdr_sum; unfold_hdr; mem_simpl.
  all: eexists; split; [reflexivity |].
  all: unfold NULL in *; try (destruct Hnext as [?|Hnext']; [lia |]).
  all: split_and!.
  all: try (intros x [Hx|[Hx Hx']]; try specialize (Hx' En);
            rewrite !load_store_ne by lia; reflexivity).
  all: try (intros Hn; try contradiction; rewrite ?Hnext'; mem_simpl; reflexivity).
  all: split; unfold_hdr; simpl; unfold intact, sum_of, magic_of, flag; simpl.
  all: mem_simpl; rewrite ?C1, ?C3, ?Hcfree; try (intros _); unfold magic_of, flag;
    first [congruence | unfold sum_of, magic_of, flag; reflexivity].
Qed.
End absorb.

(** Absorbing the neighbour inside a chain whose rest may go stale. *)
Lemma absorb_chain m a prev tail c d post :
  0 < a → Forall size_ok (c :: d :: post) → chain m a prev NULL (c :: d :: post) →
  a_used c = false → stale_ok post → a + extent (c :: d :: post) < 4294967296 →
  let next := first_of (a + span c + span d) post NULL in
  ∃ m', absorb a (a + span c) m tail = (m', if next =? NULL then a else tail) ∧
    chain m' a prev NULL
      (fresh_block prev next (a_size c + (a_size d + HDR)) false :: post) ∧
    ∀ x, x < a ∨ (a + span c + span d <= x ∧ x ≠ a + span c + span d + 16) →
      load m' x = load m x.
Proof.
  intros Ha Hs Hch Hfree Hst Hext next.
  inversion Hs as [|? ? Hcs Hs1]; subst. inversion Hs1 as [|? ? Hds Hs2]; subst.
  destruct Hch as (Hc & Hd & Hch). simpl in Hc. fold next in Hd. simpl in Hext.
  pose proof (extent_nonneg post Hs2) as Hep.
  assert (Hn : next = NULL ∨ next = a + span c + span d)
    by (destruct post; [left|right]; done).
  destruct (absorb_hdr m a prev next tail c d Ha Hc Hd Hfree Hcs Hds ltac:(lia) Hn)
    as (m' & -> & Hh & Hq & Hfr).
  exists m'. split; [done |]. destruct Hcs as [Hcs _], Hds as [Hds _]. split.
  - split; [| ].
    + replace (first_of _ post NULL) with next; [done |].
      unfold next. destruct post; [done |]. unfold span, HDR; simpl. lia.
    + replace (a + span _) with (a + span c + span d) by (unfold span, HDR; simpl; lia).
      eapply chain_reprev; [done | done | | | done].
      * intros x Hx Hne. apply Hfr. right. unfold span, HDR in *. split; [lia |].
        destruct Hn; congruence.
      * intros Hp. destruct post; [done |]. apply Hq. unfold NULL, next, span, HDR in *. simpl. lia.
  - intros x Hx. apply Hfr. destruct Hn as [Hn|Hn]; rewrite Hn; unfold NULL; lia.
Qed.

(** An intact free block is the one its size and place determine. *)
Lemma fresh_of_intact prev next b :
  a_used b = false → intact prev next b → fresh_block prev next (a_size b) false = b.
Proof.
  unfold intact, fresh_block. destruct b as [sz u s]; simpl. intros -> ->. done.
Qed.

(** ** The steps of [kfree] *)
Section steps.
Context (m : memory) (a prev : Z) (b : ablock) (post : list ablock).
Hypothesis Ha : 0 < a.
Hypothesis Hs : Forall size_ok (b :: post).
Hypothesis Hch : chain m a prev NULL (b :: post).
Hypothesis Hext : a + extent (b :: post) < 4294967296.

(** Marking the block free. *)
Lemma mark_chain :
  let next := first_of (a + span b) post NULL in
  let m' := update_block_checksum a
              (set_magic a HEAP_BLOCK_FREE_MAGIC (set_used a 0 m)) in
  chain m' a prev NULL (fresh_block prev next (a_size b) false :: post) ∧
  ∀ x, x < a ∨ a + HDR <= x → load m' x = load m x.
Proof using All.
  intros next m'. inversion Hs as [|? ? [Hb _] Hs']; subst.
  destruct Hch as [[H1 H2 H3 H4 H5 H6 _] Hc]. fold next in H4.
  assert (Hfr : ∀ x, x < a ∨ a + HDR <= x → load m' x = load m x).
  { intros x Hx. unfold m'. rewrite update_nonnull by lia. unfold_hdr. unfold HDR in *.
    rewrite !load_store_ne by lia. reflexivity. }
  split; [| done]. split.
  - unfold m'. rewrite update_nonnull, calculate_hdr_sum by lia.
    change (span (fresh_block prev next (a_size b) false)) with (span b). fold next.
    split; unfold_hdr; simpl; unfold intact, sum_of, magic_of, flag; simpl; mem_simpl;
      first [congruence | reflexivity].
  - eapply chain_agree; [done | | exact Hc].
    change (span (fresh_block prev next (a_size b) false)) with (span b).
    intros x Hx. apply Hfr. unfold span, HDR in *. lia.
Qed.
End steps.

(** What [merge_next] leaves at [b]'s place and after it. *)
Definition right_merged (b : ablock) (post : list ablock) : Z * list ablock :=
  match post with
  | c :: post' => if a_used c then (a_size b, post)
                  else (a_size b + (a_size c + HDR), post')
  | [] => (a_size b, post)
  end.

Lemma merge_next_absorb m a prev tail b c post' :
  0 < a → size_ok b → chain m a prev NULL (b :: c :: post') → a_used c = false →
  merge_next a m tail = absorb a (a + span b) m tail.
Proof.
  intros Ha [Hb _] ([_ _ _ H4 _ _ _] & Hc & _) Hfree. simpl in H4.
  unfold merge_next, absorb. rewrite H4.
  rewrite (verify_hdr m (a + span b) a _ c) by (exact Hc || (unfold span, HDR; lia)).
  pose proof (hdr_free_intact _ _ _ _ _ Hc Hfree) as Hi. unfold intact in Hi.
  rewrite Hi, Z.eqb_refl.
  rewrite (hdr_used _ _ _ _ _ Hc), Hfree. unfold NULL.
  destruct (Z.eqb_spec (a + span b) 0); [unfold span, HDR in *; lia |].
  simpl. unfold_hdr. unfold span, HDR in *. mem_simpl. reflexivity.
Qed.

(** The head of what follows a free block is allocated. *)
Lemma coalesced_after_free c post :
  coalesced (c :: post) → a_used c = false → stale_ok post.
Proof. destruct post; simpl; naive_solver congruence. Qed.

Lemma merge_next_chain m a prev b post :
  0 < a → Forall size_ok (b :: post) → chain m a prev NULL (b :: post) →
  a + extent (b :: post) < 4294967296 →
  a_used b = false → coalesced post →
  let '(n, post') := right_merged b post in
  let next := first_of (a + HDR + n) post' NULL in
  ∃ m', merge_next a m (last_of prev a (b :: post)) =
      (m', last_of prev a (fresh_block prev next n false :: post')) ∧
    chain m' a prev NULL (fresh_block prev next n false :: post') ∧
    stale_ok post' ∧
    ∀ x, x < a ∨ (a + HDR + n <= x ∧ x ≠ a + HDR + n + 16) → load m' x = load m x.
Proof.
  intros Ha Hs Hch Hext Hfree Hco. inversion Hs as [|? ? Hb Hs1]; subst.
  pose proof (fresh_of_intact _ _ _ Hfree (hdr_free_intact _ _ _ _ _ (proj1 Hch) Hfree)) as Hsame.
  unfold span in Hsame. rewrite Z.add_assoc in Hsame. unfold right_merged.
  destruct post as [|c post']; [| destruct (a_used c) eqn:Ec].
  - exists m. rewrite Hsame. split_and!; [| done | done | done].
    unfold merge_next. destruct Hch as [[_ _ _ H4 _ _ _] _]. by rewrite H4.
  - exists m. rewrite Hsame. split_and!; [| done | done | done].
    unfold merge_next. destruct Hch as ([_ _ _ H4 _ _ _] & [_ _ H3 _ _ _ _] & _).
    rewrite H4. simpl. rewrite H3, Ec. simpl. by rewrite andb_false_r.
  - pose proof (coalesced_after_free _ _ Hco Ec) as Hst.
    rewrite (merge_next_absorb m a prev _ b c post') by done.
    destruct (absorb_chain m a prev (last_of prev a (b :: c :: post')) b c post'
      Ha Hs Hch Hfree Hst Hext) as (m' & -> & Hch' & Hfr).
    exists m'.
    replace (a + HDR + (a_size b + (a_size c + HDR))) with (a + span b + span c)
      by (unfold span; lia).
    split_and!; [| done | done | done].
    f_equal. simpl. replace (a + span (fresh_block _ _ _ _)) with (a + span b + span c)
      by (unfold span; simpl; lia).
    destruct post' as [|d post']; simpl; [done |]. unfold NULL.
    inversion Hs1 as [|? ? [Hc _] _]; subst. destruct Hb as [Hb _].
    destruct (Z.eqb_spec (a + span b + span c) 0); [unfold span, HDR in *; lia | done].
Qed.

Lemma merge_prev_absorb m a prev tail d b post :
  0 < a → size_ok d → chain m a prev NULL (d :: b :: post) → a_used d = false →
  merge_prev (a + span d) m tail = absorb a (a + span d) m tail.
Proof.
  intros Ha [Hd _] (Hh & [_ _ _ _ H5 _ _] & _) Hfree. simpl in Hh.
  unfold merge_prev, absorb. rewrite H5.
  rewrite (verify_hdr m a prev _ d) by (exact Hh || lia).
  pose proof (hdr_free_intact _ _ _ _ _ Hh Hfree) as Hi. unfold intact in Hi.
  rewrite Hi, Z.eqb_refl, (hdr_used _ _ _ _ _ Hh), Hfree. unfold NULL.
  destruct (Z.eqb_spec a 0); [lia |].
  simpl. unfold_hdr. unfold span, HDR in *. mem_simpl. reflexivity.
Qed.

Lemma merge_prev_skip m a tail prev :
  blk_prev m a = prev → prev = NULL ∨ blk_used m prev = 1 →
  merge_prev a m tail = (m, tail).
Proof.
  intros H5 H. unfold merge_prev. rewrite H5. destruct H as [->|H3]; [done |].
  rewrite H3. simpl. by rewrite andb_false_r.
Qed.

Lemma coalesced_free_put pre b x post :
  coalesced (pre ++ [b]) → stale_ok post → coalesced post →
  pre = [] ∨ (∃ l d, pre = l ++ [d] ∧ a_used d = true) →
  coalesced (pre ++ x :: post).
Proof.
  intros Hp Hst Hpo Hl. apply coalesced_app. split.
  - eapply coalesced_last; [done |]. naive_solver.
  - by apply coalesced_free_cons.
Qed.

(** The state [st'] in which block [b] has been merged, with the free blocks
    [l] before it and [r] after it, into the free block [x]. *)
Record released (st : heap_state) (pre : list ablock) (b : ablock) (post : list ablock)
    (st' : heap_state) (pre' : list ablock) (x : ablock) (post' : list ablock) : Prop := {
  rel_ok : heap_ok st' (pre' ++ x :: post');
  rel_start : kernel_heap_start st' = kernel_heap_start st;
  rel_free : a_used x = false;
  rel_left : ∃ l, pre = pre' ++ l ∧ Forall (λ c, a_used c = false) l ∧
    ∃ r, post = r ++ post' ∧ Forall (λ c, a_used c = false) r ∧
      span x = extent (l ++ b :: r);
  rel_shape : shape (pre' ++ x :: post') = free_shape (shape pre) (a_size b) (shape post);
  rel_stats : stats st' = count_free (a_size b) (stats st);
  rel_frame : let lo := kernel_heap_start st + extent pre' in
    ∀ y, y < lo ∨ (lo + span x <= y ∧ y ≠ lo + span x + 16) →
      load (mem st') y = load (mem st) y;
}.

(** The shape of the list after the right merge. *)
Lemma right_merged_props b post n post' :
  right_merged b post = (n, post') → size_ok b → Forall size_ok post → coalesced post →
  size_ok (ABlock n false 0) ∧ Forall size_ok post' ∧ coalesced post' ∧
  (∀ l, last l = None ∨ (∃ k, last l = Some (k, true)) →
     free_shape l (a_size b) (shape post) = l ++ (n, false) :: shape post') ∧
  (∀ l k, free_shape (l ++ [(k, false)]) (a_size b) (shape post) =
     l ++ (k + (n + HDR), false) :: shape post') ∧
  ∃ r, post = r ++ post' ∧ Forall (λ c, a_used c = false) r ∧
    HDR + n = extent (b :: r).
Proof.
  intros Hr [Hb1 Hb2] Hs Hco. unfold right_merged in Hr.
  assert (Hcase : (n = a_size b ∧ post' = post ∧ stale_ok post) ∨
    ∃ c, post = c :: post' ∧ a_used c = false ∧ n = a_size b + (a_size c + HDR)).
  { destruct post as [|c post2]; [| destruct (a_used c) eqn:Ec]; simplify_eq; naive_solver. }
  destruct Hcase as [(-> & -> & Hst)|(c & -> & Hc & ->)]; split_and!; try done.
  - intros l Hl. unfold free_shape. destruct post as [|c post2]; simpl in *; rewrite ?Hst;
      destruct Hl as [Hl|[k Hl]]; rewrite Hl; done.
  - intros l k. unfold free_shape. rewrite last_snoc, removelast_last.
    destruct post as [|c post2]; simpl in *; rewrite ?Hst; done.
  - exists []. simpl. unfold span. split_and!; [done | done | lia].
  - inversion Hs as [|? ? [Hc1 Hc2] _]; subst. unfold size_ok, HDR; simpl. lia.
  - by inversion Hs.
  - destruct post'; simpl in *; naive_solver.
  - intros l Hl. unfold free_shape. simpl. rewrite Hc.
    destruct Hl as [Hl|[k Hl]]; rewrite Hl; done.
  - intros l k. unfold free_shape. simpl. rewrite Hc, last_snoc, removelast_last. done.
  - exists [c]. simpl. unfold span. split_and!; [done | by repeat constructor | lia].
Qed.

(** Marking the block and merging it to the right, inside the whole heap. *)
Lemma free_right st pre b post n post' :
  heap_ok st (pre ++ b :: post) → right_merged b post = (n, post') →
  let a := kernel_heap_start st + extent pre in
  let prev := last_of NULL (kernel_heap_start st) pre in
  let x := fresh_block prev (first_of (a + HDR + n) post' NULL) n false in
  ∃ m', merge_next a (update_block_checksum a (set_magic a HEAP_BLOCK_FREE_MAGIC
            (set_used a 0 (mem st)))) (heap_tail st) = (m', last_of prev a (x :: post')) ∧
    chain m' (kernel_heap_start st) NULL NULL (pre ++ x :: post') ∧ stale_ok post' ∧
    ∀ y, y < a ∨ (a + span x <= y ∧ y ≠ a + span x + 16) →
      load m' y = load (mem st) y.
Proof.
  intros Hok Hr a prev x.
  destruct (heap_ok_block _ _ _ _ Hok) as (He & Hb & Hsp & Hspre & Hend & _ & _ & _ & _).
  destruct Hok as [_ [Hr1 Hr2] _ Hc _ _ Hco Ht].
  apply chain_app in Hc as [Hcpre Hcb]. fold a prev in Hcb. fold a in Hend.
  assert (Ha : 0 < a) by (unfold a; lia).
  assert (Hcop : coalesced post).
  { apply coalesced_app in Hco as [_ Hco]. destruct post; simpl in *; naive_solver. }
  destruct (mark_chain (mem st) a prev b post Ha ltac:(by constructor) Hcb ltac:(lia))
    as [Hm1 Hfr1].
  set (m1 := update_block_checksum a _) in *.
  set (b1 := fresh_block prev _ (a_size b) false) in *.
  pose proof (merge_next_chain m1 a prev b1 post Ha ltac:(by constructor) Hm1
    ltac:(change (extent (b1 :: post)) with (extent (b :: post)); lia) eq_refl Hcop) as Hmn.
  change (right_merged b1 post) with (right_merged b post) in Hmn. rewrite Hr in Hmn.
  fold x in Hmn. destruct Hmn as (m' & Hmn & Hm2 & Hst & Hfr2).
  replace (heap_tail st) with (last_of prev a (b1 :: post))
    by (rewrite Ht, last_of_app; reflexivity).
  exists m'.
  assert (Hn : a_size b <= n).
  { unfold right_merged in Hr. destruct post as [|c ?]; [| destruct (a_used c)]; simplify_eq; try lia.
    inversion Hsp as [|? ? [? _] _]; subst. unfold HDR. lia. }
  assert (Hfr : ∀ y, y < a ∨ (a + span x <= y ∧ y ≠ a + span x + 16) →
            load m' y = load (mem st) y).
  { unfold span. simpl. intros y Hy. rewrite Hfr2 by lia. apply Hfr1.
    destruct Hb. unfold HDR in *. lia. }
  split_and!; [done | | done | done].
  apply chain_app. split; [| done].
  eapply chain_agree; [done | | exact Hcpre]. intros y Hy. apply Hfr. unfold a. lia.
Qed.

Lemma kfree_steps st a b :
  0 < a → a + HDR < 4294967296 → a_used b = true →
  (∃ prev next, hdr_at (mem st) a prev next b ∧ intact prev next b) →
  kfree (a + HDR) st =
  let '(m, tail) := merge_next a (update_block_checksum a
      (set_magic a HEAP_BLOCK_FREE_MAGIC (set_used a 0 (mem st)))) (heap_tail st) in
  let '(m, tail) := merge_prev a m tail in
  Ok (tt, set_stats (count_free (a_size b) (stats st)) (set_tail tail (set_mem m st))).
Proof.
  intros Ha Hfit Hu (prev & next & Hh & Hi). unfold kfree, NULL.
  destruct (Z.eqb_spec (a + HDR) 0); [unfold HDR in *; lia |].
  replace (a + HDR - HDR) with a by lia. rewrite u32_small by (unfold is_u32, HDR in *; lia).
  rewrite (verify_hdr (mem st) a prev next b) by (done || lia).
  unfold intact in Hi. rewrite Hi, Z.eqb_refl. simpl.
  rewrite (hdr_used _ _ _ _ _ Hh), Hu, (hdr_size _ _ _ _ _ Hh). done.
Qed.

Lemma shape_app l1 l2 : shape (l1 ++ l2) = shape l1 ++ shape l2.
Proof. apply map_app. Qed.

(** ** The two endings of [kfree] *)
Section release.
Context (st : heap_state) (pre : list ablock) (b : ablock) (post : list ablock).
Hypothesis Hok : heap_ok st (pre ++ b :: post).
Hypothesis Hused : a_used b = true.
Let a : Z := kernel_heap_start st + extent pre.
Hypothesis Hint : intact (last_of NULL (kernel_heap_start st) pre)
                    (first_of (a + span b) post NULL) b.

(** The left neighbour, if any, is allocated. *)
Lemma release_alone :
  (pre = [] ∨ ∃ l d, pre = l ++ [d] ∧ a_used d = true) →
  ∃ st' x post', kfree (a + HDR) st = Ok (tt, st') ∧
    released st pre b post st' pre x post'.
Proof using All.
  intros Hl. destruct (right_merged b post) as [n post'] eqn:Hr.
  destruct (heap_ok_block _ _ _ _ Hok) as (He & Hb & Hsp & Hspre & Hend & Hend' & _ & _ & _).
  pose proof (ok_range _ _ Hok) as [Hr1 Hr2]. fold a in Hend, Hend'.
  pose proof (ok_coalesced _ _ Hok) as Hco.
  apply coalesced_app in Hco as [Hcopre Hco].
  assert (Hcop : coalesced post) by (destruct post; simpl in *; naive_solver).
  destruct (free_right _ _ _ _ _ _ Hok Hr) as (m' & Hmn & Hch & Hst & Hfr). fold a in Hmn, Hfr.
  destruct (right_merged_props _ _ _ _ Hr Hb Hsp Hcop)
    as (Hn & Hsp' & Hco' & Hsh & _ & r & Hpr & Hrf & Hre).
  set (x := fresh_block _ _ n false) in *.
  rewrite (kfree_steps st a b); [| unfold a; lia | destruct Hb; unfold span, HDR in *; lia | done |].
  2:{ exists (last_of NULL (kernel_heap_start st) pre), (first_of (a + span b) post NULL).
      split; [| done]. pose proof (ok_chain _ _ Hok) as Hc.
      apply chain_app in Hc as [_ [Hh _]]. exact Hh. }
  rewrite Hmn.
  pose proof Hch as Hch'. apply chain_app in Hch' as [Hcp [Hx _]].
  rewrite (merge_prev_skip m' a _ (last_of NULL (kernel_heap_start st) pre)).
  2:{ exact (hdr_prev _ _ _ _ _ Hx). }
  2:{ destruct Hl as [->|(l & d & -> & Hd)]; [by left | right].
      rewrite last_of_app. simpl. apply chain_app in Hcp as [_ [Hdh _]].
      rewrite (hdr_used _ _ _ _ _ Hdh), Hd. done. }
  eexists _, x, post'. split; [reflexivity |]. split; simpl; try done.
  - destruct Hok as [H1 H2 H3 _ H5 H6 _ _].
    split; simpl; try done.
    + rewrite extent_app in *. simpl in *. rewrite Hpr, extent_app in H5.
      simpl in Hre. unfold span at 1; simpl. lia.
    + apply Forall_app. split; [done |]. constructor; [exact Hn | done].
    + eapply coalesced_free_put; done.
    + by rewrite last_of_app.
  - exists []. rewrite app_nil_r. split_and!; [done | done |].
    exists r. split_and!; done.
  - rewrite shape_app. symmetry. apply Hsh.
    destruct Hl as [->|(l & d & -> & Hd)]; [by left | right].
    rewrite shape_app. simpl. rewrite last_snoc, Hd. by eexists.
Qed.

(** The left neighbour is free and takes the block in. *)
Lemma release_into_left pre' d :
  pre = pre' ++ [d] → a_used d = false →
  ∃ st' x post', kfree (a + HDR) st = Ok (tt, st') ∧
    released st pre b post st' pre' x post'.
Proof using All.
  intros Hpre Hd. destruct (right_merged b post) as [n post'] eqn:Hr.
  destruct (heap_ok_block _ _ _ _ Hok) as (He & Hb & Hsp & Hspre & Hend & Hend' & _ & _ & _).
  pose proof (ok_range _ _ Hok) as [Hr1 Hr2]. fold a in Hend, Hend'.
  pose proof (ok_coalesced _ _ Hok) as Hco.
  apply coalesced_app in Hco as [Hcopre Hco].
  assert (Hcop : coalesced post) by (destruct post; simpl in *; naive_solver).
  destruct (free_right _ _ _ _ _ _ Hok Hr) as (m' & Hmn & Hch & Hst & Hfr). fold a in Hmn, Hfr.
  destruct (right_merged_props _ _ _ _ Hr Hb Hsp Hcop)
    as (Hn & Hsp' & Hco' & _ & Hsh & r & Hpr & Hrf & Hre).
  set (x1 := fresh_block _ _ n false) in *.
  rewrite (kfree_steps st a b); [| unfold a; lia | destruct Hb; unfold span, HDR in *; lia | done |].
  2:{ exists (last_of NULL (kernel_heap_start st) pre), (first_of (a + span b) post NULL).
      split; [| done]. pose proof (ok_chain _ _ Hok) as Hc.
      apply chain_app in Hc as [_ [Hh _]]. exact Hh. }
  rewrite Hmn. set (lo := kernel_heap_start st + extent pre').
  assert (Hapos : a = lo + span d) by (unfold a, lo; rewrite Hpre, extent_app; simpl; lia).
  rewrite Hpre in Hch, Hspre. rewrite <- app_assoc in Hch. simpl in Hch.
  apply Forall_app in Hspre as [Hspre' Hsd]. apply Forall_inv in Hsd.
  pose proof (extent_nonneg pre' Hspre') as Hlo.
  apply chain_app in Hch as [Hcp Hch]. fold lo in Hcp, Hch.
  assert (Hx1 : extent (x1 :: post') = extent (b :: post)).
  { simpl in Hre |- *. unfold span at 1; simpl. rewrite Hpr, extent_app. lia. }
  assert (Hsx1 : Forall size_ok (d :: x1 :: post')) by (constructor; [done | constructor; [exact Hn | done]]).
  rewrite Hapos, (merge_prev_absorb m' lo _ _ d x1 post') by (done || (unfold lo; lia)).
  destruct (absorb_chain m' lo _ (last_of (last_of NULL (kernel_heap_start st) pre) (lo + span d)
    (x1 :: post')) d x1 post' ltac:(unfold lo; lia) Hsx1 Hch Hd Hst
    ltac:(change (extent (d :: x1 :: post')) with (span d + extent (x1 :: post')); lia))
    as (m'' & -> & Hch'' & Hfr'').
  set (x := fresh_block _ _ (a_size d + (a_size x1 + HDR)) false) in *.
  assert (Hspan : span x = span d + span x1) by (unfold span; simpl; lia).
  assert (Hfrall : ∀ y, y < lo ∨ (lo + span x <= y ∧ y ≠ lo + span x + 16) →
            load m'' y = load (mem st) y).
  { destruct Hsd as [Hsd _], Hn as [Hn _]. simpl in Hn.
    intros y Hy. rewrite Hfr'' by lia. apply Hfr. unfold span, HDR in *; simpl in *; lia. }
  eexists _, x, post'. split; [reflexivity |]. split; simpl; try done.
  - destruct Hok as [H1 H2 H3 _ H5 H6 _ _].
    split; simpl; try done.
    + apply chain_app. fold lo. split; [| exact Hch''].
      eapply chain_agree; [done | | exact Hcp]. intros y Hy. apply Hfr''. unfold lo. lia.
    + rewrite Hpre, !extent_app in H5. rewrite extent_app. simpl in *. lia.
    + apply Forall_app. split; [done |]. constructor; [| done].
      destruct Hsd, Hn. unfold size_ok in *; simpl in *. unfold HDR. lia.
    + apply coalesced_app. split; [| by apply coalesced_free_cons].
      rewrite Hpre, <- app_assoc in Hcopre. simpl in Hcopre.
      apply coalesced_app in Hcopre as [Hcd _].
      eapply coalesced_last; [exact Hcd |]. left. congruence.
    + rewrite last_of_app. fold lo. simpl. rewrite Hspan, Z.add_assoc.
      destruct post'; simpl; [done |]. unfold NULL.
      destruct Hsd as [Hsd _], Hn as [Hn _]; simpl in Hn.
      destruct (Z.eqb_spec (lo + span d + span x1) 0); [| done].
      unfold lo, span, HDR in *; simpl in *; lia.
  - exists [d]. split_and!; [done | by repeat constructor |].
    exists r. split_and!; [done | done |]. rewrite Hspan. simpl in Hre |- *. unfold span at 2; simpl. lia.
  - rewrite Hpre, !shape_app. simpl. rewrite Hd. symmetry. apply Hsh.
Qed.
End release.

Lemma kfree_released st pre b post :
  heap_ok st (pre ++ b :: post) → a_used b = true →
  intact (last_of NULL (kernel_heap_start st) pre)
    (first_of (kernel_heap_start st + extent pre + span b) post NULL) b →
  ∃ st' pre' x post',
    kfree (kernel_heap_start st + extent pre + HDR) st = Ok (tt, st') ∧
    released st pre b post st' pre' x post'.
Proof.
  intros Hok Hu Hint. destruct pre as [|d l _] using rev_ind; [| destruct (a_used d) eqn:Hd].
  - destruct (release_alone st [] b post Hok Hu Hint) as (st' & x & post' & ? & ?); [by left |].
    by exists st', [], x, post'.
  - destruct (release_alone st (l ++ [d]) b post Hok Hu Hint) as (st' & x & post' & ? & ?);
      [right; by exists l, d |]. by exists st', (l ++ [d]), x, post'.
  - destruct (release_into_left st (l ++ [d]) b post Hok Hu Hint l d) as (st' & x & post' & ? & ?);
      [done | done |]. by exists st', l, x, post'.
Qed.

(** C2. Freeing an allocated block whose checksum is intact always returns:
    the block merges with its free neighbours exactly as [free_shape] says,
    the heap is well formed again, and memory changes only inside the merged
    block and in the [prev] field of the block after it. *)
Theorem kfree_refines st pre b post :
  heap_ok st (pre ++ b :: post) → a_used b = true →
  intact (last_of NULL (kernel_heap_start st) pre)
    (first_of (kernel_heap_start st + extent pre + span b) post NULL) b →
  ∃ st' pre' x post',
    kfree (kernel_heap_start st + extent pre + HDR) st = Ok (tt, st') ∧
    heap_ok st' (pre' ++ x :: post') ∧
    shape (pre' ++ x :: post') = free_shape (shape pre) (a_size b) (shape post) ∧
    stats st' = count_free (a_size b) (stats st) ∧
    let lo := kernel_heap_start st + extent pre' in
    ∀ y, y < lo ∨ (lo + span x <= y ∧ y ≠ lo + span x + 16) →
      load (mem st') y = load (mem st) y.
Proof.
  intros Hok Hu Hi. destruct (kfree_released _ _ _ _ Hok Hu Hi) as (st' & pre' & x & post' & Hk & Hr).
  exists st', pre', x, post'. destruct Hr. done.
Qed.

(** ** Rejected frees *)

Lemma kfree_panics st pre b post :
  heap_ok st (pre ++ b :: post) →
  let a := kernel_heap_start st + extent pre in
  (¬ intact (last_of NULL (kernel_heap_start st) pre) (first_of (a + span b) post NULL) b →
   kfree (a + HDR) st = Panic "Heap corruption detected in kfree") ∧
  (a_used b = false → kfree (a + HDR) st = Panic "Double free detected").
Proof.
  intros Hok a. destruct (heap_ok_block _ _ _ _ Hok) as (He & [Hb _] & _ & _ & _ & Hend & _ & _ & _).
  pose proof (ok_range _ _ Hok) as [Hr1 Hr2]. fold a in Hend.
  pose proof (ok_chain _ _ Hok) as Hc. apply chain_app in Hc as [_ [Hh _]]. fold a in Hh.
  unfold kfree. destruct (Z.eqb_spec (a + HDR) NULL); [unfold a, NULL, HDR in *; lia |].
  replace (a + HDR - HDR) with a by lia.
  rewrite u32_small by (unfold is_u32, a, span, HDR in *; lia).
  rewrite (verify_hdr (mem st) a (last_of NULL (kernel_heap_start st) pre)
    (first_of (a + span b) post NULL) b) by (exact Hh || (unfold a; lia)).
  split.
  - unfold intact. intros Hn. by apply Z.eqb_neq in Hn as ->.
  - intros Hf. pose proof (hdr_free_intact _ _ _ _ _ Hh Hf) as Hi. unfold intact in Hi.
    rewrite Hi, Z.eqb_refl, (hdr_used _ _ _ _ _ Hh), Hf. done.
Qed.

(** [kfree] detects misuse of a block of the heap: a block whose stored
    checksum does not match its header stops the kernel with the corruption
    message, and a block that is already free with the double-free message. *)
Theorem kfree_rejects st pre b post :
  heap_ok st (pre ++ b :: post) →
  let a := kernel_heap_start st + extent pre in
  (a_used b = false → kfree (a + HDR) st = Panic "Double free detected") ∧
  (¬ intact (last_of NULL (kernel_heap_start st) pre) (first_of (a + span b) post NULL) b →
   kfree (a + HDR) st = Panic "Heap corruption detected in kfree").
Proof. intros Hok a. destruct (kfree_panics _ _ _ _ Hok) as [H1 H2]. done. Qed.

(** ** Allocation followed by release *)

(** The neighbours of a free block are allocated. *)
Lemma free_left_used pre b post :
  coalesced (pre ++ b :: post) → a_used b = false →
  last (shape pre) = None ∨ ∃ k, last (shape pre) = Some (k, true).
Proof.
  intros Hco Hf. apply coalesced_app in Hco as [Hco _].
  destruct pre as [|d l _] using rev_ind; [by left | right].
  rewrite <- app_assoc in Hco. simpl in Hco. apply coalesced_app in Hco as [_ Hco].
  rewrite shape_app. simpl. rewrite last_snoc. simpl in Hco.
  destruct (a_used d); [by eexists | naive_solver congruence].
Qed.

Lemma free_shape_undo pre b post size :
  coalesced (pre ++ b :: post) → a_used b = false →
  (size + HDR + 16 <? a_size b) = true →
  free_shape (shape pre) size ((a_size b - size - HDR, false) :: shape post) =
  shape (pre ++ b :: post).
Proof.
  intros Hco Hf _. rewrite shape_app. simpl. rewrite Hf.
  unfold free_shape. replace (size + (a_size b - size - HDR + HDR)) with (a_size b) by lia.
  destruct (free_left_used _ _ _ Hco Hf) as [Hl|[k Hl]]; by rewrite Hl.
Qed.

Lemma free_shape_undo_whole pre b post :
  coalesced (pre ++ b :: post) → a_used b = false →
  free_shape (shape pre) (a_size b) (shape post) = shape (pre ++ b :: post).
Proof.
  intros Hco Hf. rewrite shape_app. simpl. rewrite Hf.
  destruct (coalesced_free_mid _ _ _ Hco Hf) as (Hst & _ & _).
  unfold free_shape. destruct post as [|c post]; simpl in *; rewrite ?Hst;
    destruct (free_left_used _ _ _ Hco Hf) as [Hl|[k Hl]]; rewrite Hl; done.
Qed.

(** The block [kmalloc] hands out: intact, large enough, and such that freeing
    it would restore the block list. *)
Lemma kmalloc_block size st bs p st1 :
  heap_ok st bs → 0 < size <= 4294967292 → kmalloc size st = Ok (p, st1) → p ≠ NULL →
  ∃ pre u rest, heap_ok st1 (pre ++ u :: rest) ∧ a_used u = true ∧
    kernel_heap_start st1 = kernel_heap_start st ∧
    p = kernel_heap_start st1 + extent pre + HDR ∧ size <= a_size u ∧
    intact (last_of NULL (kernel_heap_start st1) pre)
      (first_of (kernel_heap_start st1 + extent pre + span u) rest NULL) u ∧
    free_shape (shape pre) (a_size u) (shape rest) = shape bs.
Proof.
  intros Hok Hsz Hk Hp. destruct (round_size_spec size Hsz) as (_ & _ & Hrs & _ & _).
  destruct (kmalloc_cases size st bs Hok Hsz)
    as [(pre & b & post & st' & -> & Hbf & Hk' & (Hok1 & Hstart & _ & _))|[_ Hk']];
    rewrite Hk in Hk'; simplify_eq.
  destruct (bf_fits _ _ _ _ Hbf) as [Hf Hle]. pose proof (ok_coalesced _ _ Hok) as Hco.
  cbv zeta in Hok1. set (a := kernel_heap_start st + extent pre) in *.
  set (prev := last_of NULL (kernel_heap_start st) pre) in *.
  unfold carve in Hok1. destruct (_ <? a_size b) eqn:E; simpl in Hok1.
  - eexists pre, _, _. split; [exact Hok1 |]. rewrite Hstart. fold a prev.
    split_and!; try done; [| by apply free_shape_undo].
    replace (a + span _) with (a + HDR + round_size size) by (unfold span; simpl; lia).
    reflexivity.
  - eexists pre, _, _. split; [exact Hok1 |]. rewrite Hstart. fold a prev.
    split_and!; try done; [simpl; lia |]. exact (free_shape_undo_whole _ _ _ Hco Hf).
Qed.

(** C5. What [kmalloc] hands out can be given back at once: [kfree] of the
    pointer returns, and the heap has exactly the blocks it had before. *)
Theorem kmalloc_kfree size st bs p st1 :
  heap_ok st bs → 0 < size <= 4294967292 → kmalloc size st = Ok (p, st1) → p ≠ NULL →
  ∃ st2 bs2, kfree p st1 = Ok (tt, st2) ∧ heap_ok st2 bs2 ∧ shape bs2 = shape bs.
Proof.
  intros Hok Hsz Hk Hp.
  destruct (kmalloc_block size st bs p st1 Hok Hsz Hk Hp)
    as (pre & u & rest & Hok1 & Hu & _ & -> & _ & Hi & Hsh).
  destruct (kfree_released _ _ _ _ Hok1 Hu Hi) as (st2 & pre2 & x & post2 & Hkf & Hrel).
  exists st2, (pre2 ++ x :: post2). split_and!; [done | apply Hrel |].
  by rewrite (rel_shape _ _ _ _ _ _ _ _ Hrel).
Qed.

(** ** The client's view of a release *)

(** An allocated block is not among the free blocks that are merged away. *)
Lemma used_in_left (pre l pre1 mid : list ablock) c :
  pre ++ l = pre1 ++ c :: mid → Forall (λ d, a_used d = false) l → a_used c = true →
  ∃ t, pre = pre1 ++ c :: t.
Proof.
  intros Heq Hl Hc. destruct (app_eq_inv _ _ _ _ Heq) as [(t & -> & Ht)|(t & -> & ->)].
  - destruct t as [|z t]; simplify_eq/=; [| by exists t].
    rewrite Forall_cons in Hl. naive_solver congruence.
  - rewrite Forall_app, Forall_cons in Hl. naive_solver congruence.
Qed.

Lemma used_in_right (r post mid post1 : list ablock) c :
  r ++ post = mid ++ c :: post1 → Forall (λ d, a_used d = false) r → a_used c = true →
  ∃ t, post = t ++ c :: post1 ∧ mid = r ++ t.
Proof.
  intros Heq Hr Hc. destruct (app_eq_inv _ _ _ _ Heq) as [(t & -> & Ht)|(t & -> & ->)].
  - destruct t as [|z t]; simplify_eq/=; [exists []; by rewrite !app_nil_r |].
    rewrite Forall_app, Forall_cons in Hr. naive_solver congruence.
  - by exists t.
Qed.

Lemma released_live st pre b post st' pre' x post' q k :
  heap_ok st (pre ++ b :: post) → released st pre b post st' pre' x post' →
  live st (pre ++ b :: post) q k → q ≠ kernel_heap_start st + extent pre + HDR →
  live st' (pre' ++ x :: post') q k ∧
  ∀ y, q <= y < q + k → load (mem st') y = load (mem st) y.
Proof.
  intros Hok Hrel (pre1 & c & post1 & Heq & Huc & -> & ->) Hne.
  destruct (rel_left _ _ _ _ _ _ _ _ Hrel) as (l & -> & Hl & r & -> & Hr & Hspan).
  pose proof (ok_sizes _ _ Hok) as Hs. pose proof (rel_frame _ _ _ _ _ _ _ _ Hrel) as Hfr.
  cbv zeta in Hfr. pose proof (rel_start _ _ _ _ _ _ _ _ Hrel) as Hst.
  destruct (split_cases _ _ _ _ _ _ Heq) as [(<- & _ & _)|[(mid & Hmid & ->)|(mid & Hmid & ->)]];
    [done | |].
  - destruct (used_in_left _ _ _ _ _ Hmid Hl Huc) as [t ->].
    rewrite <- !app_assoc in Hs. simpl in Hs.
    apply Forall_app in Hs as [_ Hs]. inversion Hs as [|? ? [Hc _] Hs']; subst.
    apply Forall_app in Hs' as [Hs' _]. pose proof (extent_nonneg t Hs').
    split.
    + eexists pre1, c, _. rewrite Hst. split_and!; [by rewrite <- app_assoc | done..].
    + intros y Hy. apply Hfr. left. rewrite extent_app. simpl. unfold span. lia.
  - destruct (used_in_right _ _ _ _ _ Hmid Hr Huc) as (t & -> & ->).
    rewrite extent_app in Hspan. simpl in Hspan. rewrite !extent_app; simpl; rewrite extent_app.
    rewrite !Forall_app, Forall_cons, !Forall_app in Hs.
    destruct Hs as (_ & _ & _ & Hs & _). pose proof (extent_nonneg t Hs).
    split.
    + eexists (pre' ++ x :: t), c, post1. rewrite Hst.
      split_and!; [by rewrite <- app_assoc | done | | done].
      rewrite extent_app. simpl. lia.
    + intros y Hy. apply Hfr. right. unfold HDR in *. lia.
Qed.

(** Freeing one allocation leaves every other one alone: it stays live at
    its address with its size, and its contents are unchanged. *)
Theorem kfree_safe st pre b post st' :
  heap_ok st (pre ++ b :: post) → a_used b = true →
  kfree (kernel_heap_start st + extent pre + HDR) st = Ok (tt, st') →
  ∃ bs', heap_ok st' bs' ∧
    ∀ q k, live st (pre ++ b :: post) q k → q ≠ kernel_heap_start st + extent pre + HDR →
      live st' bs' q k ∧ ∀ y, q <= y < q + k → load (mem st') y = load (mem st) y.
Proof.
  intros Hok Hu Hk.
  destruct (decide (intact (last_of NULL (kernel_heap_start st) pre)
    (first_of (kernel_heap_start st + extent pre + span b) post NULL) b)) as [Hi|Hn].
  2:{ destruct (kfree_panics _ _ _ _ Hok) as [Hrej _]. rewrite (Hrej Hn) in Hk. done. }
  destruct (kfree_released _ _ _ _ Hok Hu Hi) as (st2 & pre' & x & post' & Hk2 & Hrel).
  rewrite Hk in Hk2. simplify_eq.
  exists (pre' ++ x :: post'). split; [apply Hrel |].
  intros q k. by apply released_live.
Qed.

(** When a block is absorbed by a free left neighbour, the block after it
    has its [prev] pointer rewritten but not its checksum.  If that block is
    allocated, freeing it stops the kernel as a corrupted heap, unless the
    left neighbour's span happens to be a multiple of 255. *)
Theorem kfree_poisons_next st pre d b c post :
  let start := kernel_heap_start st in
  heap_ok st (pre ++ d :: b :: c :: post) →
  a_used d = false → a_used b = true → a_used c = true →
  intact (start + extent pre) (start + extent pre + span d + span b) b →
  intact (start + extent pre + span d)
    (first_of (start + extent pre + span d + span b + span c) post NULL) c →
  span d mod 255 ≠ 0 →
  ∃ st', kfree (start + extent pre + span d + HDR) st = Ok (tt, st') ∧
    kfree (start + extent pre + span d + span b + HDR) st' =
      Panic "Heap corruption detected in kfree".
Proof.
  intros start Hok Hd Hb Hc Hib Hic Hmod.
  assert (Hl : pre ++ d :: b :: c :: post = (pre ++ [d]) ++ b :: c :: post)
    by (by rewrite <- app_assoc).
  rewrite Hl in Hok.
  assert (Hlast : last_of NULL start (pre ++ [d]) = start + extent pre)
    by (rewrite last_of_app; done).
  assert (Hea : start + extent (pre ++ [d]) = start + extent pre + span d)
    by (rewrite extent_app; simpl; lia).
  destruct (release_into_left st (pre ++ [d]) b (c :: post) Hok Hb) with (pre' := pre) (d := d)
    as (st' & x & post' & Hk & Hrel); [| done | done |].
  { fold start. rewrite Hlast, Hea. exact Hib. }
  fold start in Hk. rewrite Hea in Hk. exists st'. split; [exact Hk |].
  destruct Hrel as [Hok' Hst _ (l & Hpl & _ & r & Hpr & Hr & Hspan) _ _ _].
  apply app_inv_head in Hpl as <-. destruct r as [|z r]; simplify_eq/=.
  2:{ inversion Hr; subst. congruence. }
  assert (Hl' : pre ++ x :: c :: post = (pre ++ [x]) ++ c :: post) by (by rewrite <- app_assoc).
  rewrite Hl' in Hok'. destruct (kfree_panics _ _ _ _ Hok') as [Hrej _].
  rewrite Hst in Hrej. fold start in Hrej.
  rewrite extent_app, last_of_app in Hrej. simpl in Hrej.
  replace (start + (extent pre + (span x + 0))) with (start + extent pre + span d + span b)
    in Hrej by (clear - Hspan; lia).
  apply Hrej. unfold intact in *. rewrite Hic. unfold sum_of. intros Heq. apply Hmod.
  destruct (heap_ok_block _ _ _ _ Hok) as (He & [Hsb _] & _ & Hs & _ & Hend & _).
  pose proof (ok_range _ _ Hok) as [Hr1 Hr2]. fold start in Hr1, Hr2, Hend. rewrite Hea in Hend.
  apply Forall_app in Hs as [Hs Hsd]. apply Forall_inv in Hsd as [Hsd _].
  pose proof (extent_nonneg pre Hs) as Hpre.
  assert (H1 : is_u32 (start + extent pre + span d))
    by (clear - Hr1 Hr2 Hpre Hend Hsb Hsd; unfold is_u32, span, HDR in *; lia).
  assert (H2 : is_u32 (start + extent pre))
    by (clear - Hr1 Hr2 Hpre Hend Hsb Hsd; unfold is_u32, span, HDR in *; lia).
  pose proof (hdr_sum_prev _ _ _ _ _ _ H1 H2 Heq) as Hm. clear - Hm. lia.
Qed.
