(* ===== verification/HeapAligned.v ===== *)
(** * Aligned allocation, integrity checks and histories of the kernel heap
      (src/kernel/mm.c) *)
From S2P Require Import Prelude Heap HeapSpec HeapAlloc HeapFree.

(** ** Client stores

    A word stored inside an allocated payload leaves the headers alone. *)
(** Memory that differs inside the payload of one block only. *)
Lemma chain_client m m' start bs pre b post :
  bs = pre ++ b :: post → Forall size_ok bs →
  (∀ x, x < start + extent pre + HDR ∨ start + extent pre + span b <= x → load m' x = load m x) →
  chain m start NULL NULL bs → chain m' start NULL NULL bs.
Proof.
  intros -> Hs Hx Hc. apply Forall_app in Hs as [Hs1 Hs2].
  inversion Hs2 as [|? ? [Hb _] Hs3]; subst.
  pose proof (extent_nonneg pre Hs1). pose proof (extent_nonneg post Hs3).
  apply chain_app in Hc as [Hc1 [Hh Hc2]]. unfold span, HDR in *.
  apply chain_app. split; [| split].
  - eapply chain_agree; [done | | exact Hc1]. intros y Hy. apply Hx. lia.
  - eapply hdr_at_agree; [| exact Hh]. intros y Hy. unfold HDR in *. apply Hx. lia.
  - eapply chain_agree; [done | | exact Hc2]. intros y Hy. apply Hx.
    unfold span, HDR in *. lia.
Qed.

(** A client may change the payload it owns. *)
Lemma client_memory st bs p n m :
  heap_ok st bs → live st bs p n →
  (∀ x, x < p ∨ p + n <= x → load m x = load (mem st) x) →
  heap_ok (set_mem m st) bs ∧ live (set_mem m st) bs p n.
Proof.
  intros Hok (pre & b & post & -> & Hu & -> & ->) Hx. split; [| by exists pre, b, post].
  destruct Hok. split; simpl; try done.
  eapply chain_client; [done | done | | done]. unfold span. intros x Ho. apply Hx. lia.
Qed.

Lemma client_store st bs p n x v :
  heap_ok st bs → live st bs p n → p <= x < p + n →
  heap_ok (set_mem (store x v (mem st)) st) bs ∧
  live (set_mem (store x v (mem st)) st) bs p n.
Proof.
  intros Hok Hl Hx. apply client_memory; [done | done |]. intros y Hy. apply load_store_ne. lia.
Qed.

(** ** Powers of two *)
Lemma land_pow2_pred k : 0 <= k → Z.land (2 ^ k) (2 ^ k - 1) = 0.
Proof.
  intros Hk. replace (2 ^ k - 1) with (Z.ones k) by (rewrite Z.ones_equiv; lia).
  rewrite Z.land_ones by done. apply Z.mod_same. apply Z.pow_nonzero; lia.
Qed.

(** The test [alignment & (alignment - 1)] accepts exactly the powers of two. *)
Lemma land_pred_zero x : 0 < x → Z.land x (x - 1) = 0 → x = 2 ^ Z.log2 x.
Proof.
  intros Hx Hl. destruct (Z.log2_spec x Hx) as [H1 H2].
  destruct (Z.eq_dec x (2 ^ Z.log2 x)) as [|Hne]; [done |]. exfalso.
  assert (Hb : Z.testbit (Z.land x (x - 1)) (Z.log2 x) = true).
  { rewrite Z.land_spec, Z.bit_log2 by done.
    replace (Z.log2 x) with (Z.log2 (x - 1)) at 1; [by apply Z.bit_log2; pose proof (Z.pow_pos_nonneg 2 (Z.log2 x)); pose proof (Z.log2_nonneg x); lia |].
    apply Z.log2_unique; [apply Z.log2_nonneg | lia]. }
  by rewrite Hl, Z.bits_0 in Hb.
Qed.

(** Rounding [q + 8 + 2^k - 1] down to a multiple of [2^k], as the code does
    with a mask. *)
Lemma align_up q k :
  0 <= k → 0 <= q → q + 2 ^ k + 7 < 4294967296 →
  let p := Z.land (u32 (q + 4 + 4 + 2 ^ k - 1)) (not32 (2 ^ k - 1)) in
  p mod 2 ^ k = 0 ∧ q + 8 <= p <= q + 7 + 2 ^ k.
Proof.
  intros Hk Hq Hb. pose proof (Z.pow_pos_nonneg 2 k) as Hp.
  rewrite u32_small by (unfold is_u32; lia).
  rewrite land_not32, ldiff_pow2 by (unfold is_u32; lia). cbv zeta.
  pose proof (Z.mod_pos_bound (q + 4 + 4 + 2 ^ k - 1) (2 ^ k)).
  rewrite Zminus_mod_idemp_r, Z.sub_diag, Z.mod_0_l; lia.
Qed.

(** ** [kmalloc_aligned] *)

(** What an aligned allocation of [size] bytes is made of: the block that
    [kmalloc] handed out at [q], and two words stored before the aligned
    address [p]. *)
Lemma kmalloc_aligned_steps size k st bs q st1 :
  heap_ok st bs → 0 < size → 0 <= k → size + 2 ^ k + 7 <= 4294967292 →
  kmalloc (size + 2 ^ k + 7) st = Ok (q, st1) →
  if q =? NULL then kmalloc_aligned size (2 ^ k) st = Ok (NULL, st1) else
  ∃ p, kmalloc_aligned size (2 ^ k) st =
         Ok (p, set_mem (store (p - 8) (2 ^ k) (store (p - 4) (q - HDR) (mem st1))) st1) ∧
    p mod 2 ^ k = 0 ∧ q + 8 <= p <= q + 7 + 2 ^ k.
Proof.
  intros Hok Hsz Hk Hb Hm. pose proof (Z.pow_pos_nonneg 2 k ltac:(lia) Hk) as Hp.
  unfold kmalloc_aligned.
  destruct (Z.eqb_spec size 0); [lia |]. destruct (Z.eqb_spec (2 ^ k) 0); [lia |]. simpl.
  rewrite (u32_small (2 ^ k - 1)), land_pow2_pred by (done || (unfold is_u32; lia)). simpl.
  rewrite (u32_small (size + 2 ^ k - 1 + 4 + 4)) by (unfold is_u32; lia).
  replace (size + 2 ^ k - 1 + 4 + 4) with (size + 2 ^ k + 7) by lia.
  rewrite Hm. unfold mbind, outcome_bind.
  destruct (Z.eqb_spec q NULL) as [|Hq]; [done |].
  destruct (kmalloc_live (size + 2 ^ k + 7) _ _ _ _ Hok ltac:(lia) Hm Hq)
    as (bs' & cap & _ & _ & Hcap & _ & Hlo & Hhi & _).
  pose proof (ok_range _ _ Hok) as [Hr1 Hr2].
  destruct (align_up q k Hk ltac:(unfold HDR in *; lia) ltac:(lia)) as [Hal Hpb].
  set (p := Z.land _ _) in *. exists p. cbv zeta. clearbody p.
  rewrite (u32_small (q - HDR)), (u32_small (p - 4)), (u32_small (p - 4 - 4))
    by (unfold is_u32, HDR in *; lia).
  replace (p - 4 - 4) with (p - 8) by lia. done.
Qed.

(** [kmalloc] of a positive size below the wrap-around returns. *)
Lemma kmalloc_returns size st bs :
  heap_ok st bs → 0 < size <= 4294967292 → ∃ p st', kmalloc size st = Ok (p, st').
Proof.
  intros Hok Hs. destruct (kmalloc_cases size st bs Hok Hs)
    as [(? & ? & ? & ? & _ & _ & -> & _)|[_ ->]]; by do 2 eexists.
Qed.

Lemma kmalloc_null size st bs st' :
  heap_ok st bs → 0 < size <= 4294967292 → kmalloc size st = Ok (NULL, st') →
  st' = set_stats (count_fragmentation (stats st)) st.
Proof.
  intros Hok Hs Hk. destruct (kmalloc_cases size st bs Hok Hs)
    as [(pre & b & post & st2 & -> & _ & Hk' & _)|[_ Hk']]; rewrite Hk in Hk'; simplify_eq; [| done].
  destruct (heap_ok_block _ _ _ _ Hok) as (He & _). pose proof (ok_range _ _ Hok) as [Hr _].
  unfold NULL, HDR in *. lia.
Qed.

(** The two bookkeeping words go into the payload. *)
Lemma aligned_stores st bs q n p k :
  heap_ok st bs → live st bs q n → q + 8 <= p <= q + n →
  let st' := set_mem (store (p - 8) (2 ^ k) (store (p - 4) (q - HDR) (mem st))) st in
  heap_ok st' bs ∧ live st' bs q n.
Proof.
  intros Hok Hl Hp.
  destruct (client_store st bs q n (p - 4) (q - HDR) Hok Hl ltac:(lia)) as [Hok1 Hl1].
  exact (client_store _ bs q n (p - 8) (2 ^ k) Hok1 Hl1 ltac:(lia)).
Qed.

Lemma kmalloc_aligned_cases size k st bs :
  heap_ok st bs → 0 < size → 0 <= k → size + 2 ^ k + 7 <= 4294967292 →
  (∃ st', kmalloc_aligned size (2 ^ k) st = Ok (NULL, st') ∧ heap_ok st' bs) ∨
  (∃ p st' bs' q n, kmalloc_aligned size (2 ^ k) st = Ok (p, st') ∧
     heap_ok st' bs' ∧ live st' bs' q n ∧
     p mod 2 ^ k = 0 ∧ q + 8 <= p ∧ p + size <= q + n ∧
     load (mem st') (p - 4) = q - HDR ∧ load (mem st') (p - 8) = 2 ^ k ∧
     ∀ r j, live st bs r j → live st' bs' r j ∧ (r + j <= q ∨ q + n <= r) ∧
       ∀ x, r <= x < r + j → load (mem st') x = load (mem st) x).
Proof.
  intros Hok Hsz Hk Hb. pose proof (Z.pow_pos_nonneg 2 k ltac:(lia) Hk) as Hpos.
  destruct (kmalloc_returns (size + 2 ^ k + 7) _ _ Hok ltac:(lia))
    as (q & st1 & Hm).
  pose proof (kmalloc_aligned_steps _ _ _ _ _ _ Hok Hsz Hk Hb Hm) as Hst.
  destruct (Z.eqb_spec q NULL) as [->|Hq].
  - left. exists st1. split; [done |].
    rewrite (kmalloc_null (size + 2 ^ k + 7) _ _ _ Hok ltac:(lia) Hm). by destruct Hok; split.
  - right. destruct Hst as (p & Hka & Hal & Hp).
    destruct (kmalloc_live (size + 2 ^ k + 7) _ _ _ _ Hok ltac:(lia) Hm Hq)
      as (bs' & n & Hok1 & Hl1 & Hn & _ & Hlo & Hhi & Hfr).
    destruct (aligned_stores st1 bs' q n p k Hok1 Hl1 ltac:(lia)) as [Hok2 Hl2].
    exists p. eexists. exists bs', q, n. split; [exact Hka |].
    split_and!; try done; try lia; simpl; mem_simpl; try done.
    intros r j Hr. destruct (Hfr r j Hr) as (Hr1 & Hdis & Hmem).
    split_and!; [exact Hr1 | done |]. intros x Hx. rewrite !load_store_ne by lia. by apply Hmem.
Qed.

(** For a power-of-two alignment, [kmalloc_aligned] always returns: NULL
    with the blocks unchanged, or an aligned address [p] with
    [p, p + size) and the two bookkeeping words before it inside one live
    allocation of the heap, every other allocation left in place with its
    contents. *)
Theorem kmalloc_aligned_ok size k st bs :
  heap_ok st bs → 0 < size → 0 <= k → size + 2 ^ k + 7 <= 4294967292 →
  (∃ st', kmalloc_aligned size (2 ^ k) st = Ok (NULL, st') ∧ heap_ok st' bs) ∨
  (∃ p st' bs' q n, kmalloc_aligned size (2 ^ k) st = Ok (p, st') ∧
     heap_ok st' bs' ∧ live st' bs' q n ∧
     p mod 2 ^ k = 0 ∧ q + 8 <= p ∧ p + size <= q + n ∧
     load (mem st') (p - 4) = q - HDR ∧ load (mem st') (p - 8) = 2 ^ k ∧
     ∀ r j, live st bs r j → live st' bs' r j ∧ (r + j <= q ∨ q + n <= r) ∧
       ∀ x, r <= x < r + j → load (mem st') x = load (mem st) x).
Proof. apply kmalloc_aligned_cases. Qed.

(** [kfree_aligned] undoes [kmalloc_aligned]: it returns, and the heap has
    exactly the blocks it had before. *)
Theorem kmalloc_aligned_kfree_aligned size k st bs p st1 :
  heap_ok st bs → 0 < size → 0 <= k → size + 2 ^ k + 7 <= 4294967292 →
  kmalloc_aligned size (2 ^ k) st = Ok (p, st1) → p ≠ NULL →
  ∃ st2 bs2, kfree_aligned p st1 = Ok (tt, st2) ∧ heap_ok st2 bs2 ∧ shape bs2 = shape bs.
Proof.
  intros Hok Hsz Hk Hb Hka Hp. pose proof (Z.pow_pos_nonneg 2 k ltac:(lia) Hk) as Hpos.
  destruct (kmalloc_returns (size + 2 ^ k + 7) _ _ Hok ltac:(lia))
    as (q & st0 & Hm).
  pose proof (kmalloc_aligned_steps _ _ _ _ _ _ Hok Hsz Hk Hb Hm) as Hst.
  destruct (Z.eqb_spec q NULL) as [->|Hq]; [rewrite Hka in Hst; congruence |].
  destruct Hst as (p' & Hka' & Hal & Hpb). rewrite Hka in Hka'. simplify_eq.
  destruct (kmalloc_block (size + 2 ^ k + 7) _ _ _ _ Hok ltac:(lia) Hm Hq)
    as (pre & u & rest & Hok0 & Hu & Hst0 & -> & Hn & Hi & Hsh).
  assert (Hl : live st0 (pre ++ u :: rest) (kernel_heap_start st0 + extent pre + HDR) (a_size u))
    by (by exists pre, u, rest).
  destruct (aligned_stores st0 _ _ _ p' k Hok0 Hl ltac:(lia)) as [Hok1 _].
  destruct (heap_ok_block _ _ _ _ Hok0) as (He & _ & _ & _ & _ & Hend & _).
  pose proof (ok_range _ _ Hok0) as [Hr1 Hr2].
  set (st1 := set_mem _ st0) in *.
  destruct (kfree_released st1 pre u rest Hok1 Hu Hi) as (st2 & pre2 & x & post2 & Hkf & Hrel).
  exists st2, (pre2 ++ x :: post2).
  split_and!; [| apply Hrel | by rewrite (rel_shape _ _ _ _ _ _ _ _ Hrel)].
  unfold kfree_aligned. destruct (Z.eqb_spec p' NULL); [done |].
  rewrite !(u32_small (p' - _)) by (unfold is_u32, span, HDR in *; lia).
  rewrite u32_small by (unfold is_u32, span, HDR in *; lia).
  replace (p' - 4 - 4) with (p' - 8) by lia. unfold st1 at 1 2 3. simpl. mem_simpl.
  destruct (Z.eqb_spec (2 ^ k) 0); [lia |]. rewrite Hal. simpl.
  unfold st1 at 1 in Hkf. simpl in Hkf.
  replace (kernel_heap_start st0 + extent pre + HDR - HDR + HDR)
    with (kernel_heap_start st0 + extent pre + HDR) by lia.
  by rewrite u32_small by (unfold is_u32, span, HDR in *; lia).
Qed.

(** [kmalloc_aligned] refuses a zero size and every alignment that is not
    a power of two, without touching the heap. *)
Theorem kmalloc_aligned_rejects size alignment st :
  is_u32 alignment →
  size = 0 ∨ (∀ k, 0 <= k → alignment ≠ 2 ^ k) →
  kmalloc_aligned size alignment st = Ok (NULL, st).
Proof.
  intros Ha H. unfold kmalloc_aligned.
  destruct (Z.eqb_spec size 0) as [|Hs]; [done |].
  destruct (Z.eqb_spec alignment 0) as [|Hz]; [done |]. simpl.
  destruct H as [|Hn]; [done |]. unfold is_u32 in *.
  rewrite u32_small by (unfold is_u32; lia).
  destruct (Z.eqb_spec (Z.land alignment (alignment - 1)) 0) as [Hl|]; [| done].
  exfalso. apply (Hn (Z.log2 alignment) (Z.log2_nonneg _)).
  apply land_pred_zero; [lia | done].
Qed.

(** ** [verify_heap_integrity] *)

(** Every block of the chain carries the checksum of its header. *)
Fixpoint all_intact (a prev : Z) (bs : list ablock) : Prop :=
  match bs with
  | [] => True
  | b :: bs => intact prev (first_of (a + span b) bs NULL) b ∧ all_intact (a + span b) a bs
  end.
#[export] Instance all_intact_dec a prev bs : Decision (all_intact a prev bs).
Proof. revert a prev; induction bs as [|b bs IH]; intros a prev; simpl; apply _. Defined.

Lemma verify_chain_spec frames bs : ∀ fuel m a prev count,
  0 < a → Forall size_ok bs → chain m a prev NULL bs →
  0 <= count → 0 <= frames < 4294967295 → count <= frames + 1 →
  frames + 2 - count < Z.of_nat fuel →
  verify_chain fuel m frames (first_of a bs NULL) count =
  Some (bool_decide (all_intact a prev bs ∧ count + Z.of_nat (length bs) <= frames + 1)).
Proof.
  induction bs as [|b bs IH]; intros fuel m a prev count Ha Hs Hc H0 Hf Hcf Hfuel;
    destruct fuel as [|fuel]; try lia; simpl.
  { rewrite bool_decide_true; [done |]. split; [done | lia]. }
  inversion Hs as [|? ? [Hb _] Hs']; subst. destruct Hc as [Hh Hc].
  unfold NULL at 1. destruct (Z.eqb_spec a 0); [lia |].
  rewrite (verify_hdr m a prev (first_of (a + span b) bs NULL) b) by done.
  destruct (Z.eqb_spec (a_sum b) (sum_of prev (first_of (a + span b) bs NULL) (a_size b) (a_used b)))
    as [Hi|Hi]; simpl.
  2:{ rewrite bool_decide_false; [done |]. intros [[Hi' _] _]. done. }
  destruct (Z.ltb_spec frames count) as [Hlt|Hge].
  { rewrite bool_decide_false; [done |]. lia. }
  rewrite (hdr_next _ _ _ _ _ Hh), (u32_small (count + 1)) by (unfold is_u32; lia).
  rewrite (IH fuel m (a + span b) a (count + 1)) by (done || (unfold span, HDR; lia)).
  f_equal. apply bool_decide_ext. unfold intact. rewrite Nat2Z.inj_succ.
  split; [intros [? ?] | intros [[_ ?] ?]]; split; try done; lia.
Qed.

(** On a well-formed heap [verify_heap_integrity] returns, leaves the
    state alone, and answers true exactly when every block's checksum is right
    and the heap has at most [total_frames + 1] blocks: a healthy heap of more
    blocks than that is reported as corrupted. *)
Theorem verify_heap_integrity_spec frames st bs :
  heap_ok st bs → 0 <= frames < 4294967295 →
  verify_heap_integrity frames st =
  Ok (bool_decide (all_intact (kernel_heap_start st) NULL bs ∧
                   Z.of_nat (length bs) <= frames + 1), st).
Proof.
  intros [Hh [Hr _] _ Hc He Hs _ _] Hf. unfold verify_heap_integrity. rewrite Hh.
  destruct bs as [|b bs]; [simpl in He; unfold KERNEL_HEAP_SIZE in He; lia |].
  pose proof (verify_chain_spec frames (b :: bs) (Z.to_nat (frames + 3)) (mem st)
    (kernel_heap_start st) NULL 0 Hr Hs Hc) as Hv. simpl first_of in Hv.
  rewrite Hv by lia. done.
Qed.

(** Whatever memory holds, a cycle of blocks included, the check ends. *)
Lemma verify_chain_ends frames : ∀ fuel m block count,
  0 <= frames < 4294967295 → 0 <= count <= frames + 1 → frames + 2 - count < Z.of_nat fuel →
  verify_chain fuel m frames block count ≠ None.
Proof.
  induction fuel as [|fuel IH]; intros m block count Hf Hc Hfuel; [lia |]. simpl.
  destruct (block =? NULL); [done |]. destruct (negb _); [done |].
  destruct (Z.ltb_spec frames count); [done |].
  rewrite u32_small by (unfold is_u32; lia). apply IH; lia.
Qed.

(** [verify_heap_integrity] ends on every memory content, even when the
    block list is circular, and changes nothing. *)
Theorem verify_heap_integrity_total frames st :
  0 <= frames < 4294967295 → ∃ b, verify_heap_integrity frames st = Ok (b, st).
Proof.
  intros Hf. unfold verify_heap_integrity.
  destruct (verify_chain _ _ _ _ _) as [b|] eqn:E; [by exists b |].
  exfalso. by apply (verify_chain_ends frames (Z.to_nat (frames + 3)) (mem st) (heap_head st) 0);
    [| lia | lia |].
Qed.

(** ** Histories of the heap

    The uses a client may make of the heap, in any order: allocations that
    return, frees of live allocations that return, and stores into a live
    payload. *)
Definition owned (st : heap_state) (p n : Z) : Prop :=
  ∃ bs, heap_ok st bs ∧ live st bs p n.

Inductive heap_step (st : heap_state) : heap_state → Prop :=
| step_kmalloc size p st' :
    0 < size <= 4294967292 → kmalloc size st = Ok (p, st') → heap_step st st'
| step_kmalloc_aligned size k p st' :
    0 < size → 0 <= k → size + 2 ^ k + 7 <= 4294967292 →
    kmalloc_aligned size (2 ^ k) st = Ok (p, st') → heap_step st st'
| step_kfree p n st' :
    owned st p n → kfree p st = Ok (tt, st') → heap_step st st'
| step_kfree_aligned p q n st' :
    owned st q n → load (mem st) (p - 4) = q - HDR → 4 <= p < 4294967296 →
    kfree_aligned p st = Ok (tt, st') → heap_step st st'
| step_store p n x v :
    owned st p n → p <= x < p + n → heap_step st (set_mem (store x v (mem st)) st).

Lemma heap_ok_stats st s bs : heap_ok st bs → heap_ok (set_stats s st) bs.
Proof. by intros []; split. Qed.

Lemma kmalloc_heap_ok size st bs p st' :
  heap_ok st bs → 0 < size <= 4294967292 → kmalloc size st = Ok (p, st') →
  ∃ bs', heap_ok st' bs'.
Proof.
  intros Hok Hs Hk. destruct (decide (p = NULL)) as [->|Hp].
  - rewrite (kmalloc_null size _ _ _ Hok Hs Hk). exists bs. by apply heap_ok_stats.
  - destruct (kmalloc_live size _ _ _ _ Hok Hs Hk Hp) as (bs' & n & Hok' & _). by exists bs'.
Qed.

Lemma kfree_heap_ok st bs p n st' :
  heap_ok st bs → live st bs p n → kfree p st = Ok (tt, st') → ∃ bs', heap_ok st' bs'.
Proof.
  intros Hok (pre & b & post & -> & Hu & -> & ->) Hk.
  destruct (decide (intact (last_of NULL (kernel_heap_start st) pre)
    (first_of (kernel_heap_start st + extent pre + span b) post NULL) b)) as [Hi|Hn].
  - destruct (kfree_released _ _ _ _ Hok Hu Hi) as (st2 & pre' & x & post' & Hk2 & Hrel).
    rewrite Hk in Hk2. simplify_eq. exists (pre' ++ x :: post'). apply Hrel.
  - destruct (kfree_panics _ _ _ _ Hok) as [Hrej _]. by rewrite (Hrej Hn) in Hk.
Qed.

(** [kfree_aligned] of an address whose bookkeeping word points at the header
    of a live block frees that block, or does not return. *)
Lemma kfree_aligned_kfree st p q st' :
  load (mem st) (p - 4) = q - HDR → 4 <= p < 4294967296 → is_u32 q →
  kfree_aligned p st = Ok (tt, st') → kfree q st = Ok (tt, st').
Proof.
  intros Hl Hp Hq. unfold kfree_aligned. unfold NULL at 1. destruct (Z.eqb_spec p 0); [lia |].
  cbv zeta. destruct (_ =? 0); [done |]. destruct (negb _); [done |].
  rewrite (u32_small (p - 4)), Hl by (unfold is_u32; lia).
  replace (q - HDR + HDR) with q by lia. by rewrite u32_small.
Qed.

Lemma live_range st bs p n : heap_ok st bs → live st bs p n → is_u32 p.
Proof.
  intros Hok (pre & b & post & -> & _ & -> & _).
  destruct (heap_ok_block _ _ _ _ Hok) as (He & [Hb _] & _ & _ & _ & Hend & _).
  destruct (ok_range _ _ Hok). unfold is_u32, span, HDR in *. lia.
Qed.

Lemma heap_step_ok st bs st' : heap_ok st bs → heap_step st st' → ∃ bs', heap_ok st' bs'.
Proof.
  intros Hok [size p ? Hs Hk|size k p ? Hs Hk Hb Hka|p n ? (bs1 & Hok1 & Hl) Hk
             |p q n ? (bs1 & Hok1 & Hl) Hq Hp Hk|p n x v (bs1 & Hok1 & Hl) Hx].
  - by eapply kmalloc_heap_ok.
  - destruct (kmalloc_aligned_cases size k st bs Hok Hs Hk Hb)
      as [(st2 & Hk2 & Hok2)|(p2 & st2 & bs2 & q & n & Hk2 & Hok2 & _)];
      rewrite Hka in Hk2; simplify_eq; by eexists.
  - by eapply kfree_heap_ok.
  - pose proof (kfree_aligned_kfree st p q _ Hq Hp (live_range _ _ _ _ Hok1 Hl) Hk) as Hk'.
    by eapply kfree_heap_ok.
  - exists bs1. by apply (client_store st bs1 p n).
Qed.

Lemma heap_reachable_ok image_end st0 st1 st :
  heap_init image_end st0 = Ok (tt, st1) → 0 < image_end < 4294967296 → image_end mod 4 = 0 →
  rtc heap_step st1 st → ∃ bs, heap_ok st bs.
Proof.
  intros Hi Hr Hm Hsteps.
  assert (∃ bs, heap_ok st1 bs) as [bs Hok].
  { pose proof (heap_init_cases image_end st0 Hr Hm) as H.
    destruct (_ <? _); [| congruence].
    destruct H as (st' & Hi' & _ & Hok'). rewrite Hi in Hi'. simplify_eq. by eexists. }
  clear Hi. revert bs Hok. induction Hsteps as [|? ? ? Hstep _ IH]; intros bs Hok; [by exists bs |].
  destruct (heap_step_ok _ _ _ Hok Hstep) as [bs' Hok']. by eapply IH.
Qed.


(** ** Requests near the top of the address space *)

(** The rounding of the request is not protected against wrap-around: a
    request for more than [2^32 - 4] bytes is served as one for 16 bytes. *)
Theorem kmalloc_size_wraps size st :
  4294967293 <= size < 4294967296 → kmalloc size st = kmalloc 16 st.
Proof.
  intros Hs. unfold kmalloc. destruct (Z.eqb_spec size 0); [lia |].
  replace (round_size size) with (round_size 16); [done |].
  assert (size = 4294967293 ∨ size = 4294967294 ∨ size = 4294967295) as [->|[->| ->]] by lia;
    done.
Qed.
