(* ===== verification/HeapWitness.v ===== *)
(** * Concrete heaps (src/kernel/mm.c, src/shell/shell.c)

    States computed by running the allocator from [heap_init], and the
    theorems of the heap applied to them. *)
From S2P Require Import Prelude Heap HeapSpec HeapAlloc HeapFree HeapAligned.

Definition exec {A} (c : cmd heap_state A) (st : heap_state) : heap_state :=
  match c st with Ok (_, st') => st' | _ => st end.
Definition blocks (st : heap_state) : list ablock := read_chain 20 (mem st) (heap_head st).

(** A kernel image that ends at 2 MB. *)
Definition image : Z := 0x200000.
Definition boot : heap_state := exec (heap_init image) heap_zero.
(** The three allocations of the shell's [cmd_test]. *)
Definition test1 : heap_state := exec (kmalloc 1024) boot.
Definition test2 : heap_state := exec (kmalloc 2048) test1.
Definition test3 : heap_state := exec (kmalloc 4096) test2.
(** ... and its first [kfree]. *)
Definition freed1 : heap_state := exec (kfree (image + 24)) test3.

Ltac heap_check := apply heap_okb_sound; vm_compute; reflexivity.

Lemma boot_ok : heap_ok boot (blocks boot).
Proof. heap_check. Qed.

Lemma test3_ok : heap_ok test3 (blocks test3).
Proof. heap_check. Qed.

Lemma freed1_ok : heap_ok freed1 (blocks freed1).
Proof. heap_check. Qed.

Lemma heap_init_ok_witness :
  ∃ st', heap_init image heap_zero = Ok (tt, st') ∧
    heap_ok st' [fresh_block NULL NULL (KERNEL_HEAP_SIZE - HDR) false].
Proof.
  destruct (heap_init_ok image heap_zero ltac:(unfold image; lia) eq_refl) as (st' & H1 & _ & H2).
  by exists st'.
Defined.

(** In the heap of [freed1] the first block is free and fits 500 bytes best. *)
Lemma kmalloc_refines_witness :
  ∃ st' bs', kmalloc 500 freed1 = Ok (image + 24, st') ∧ heap_ok st' bs' ∧
    shape bs' = [(500, true); (500, false); (2048, true); (4096, true); (16769952, false)].
Proof.
  destruct (kmalloc_refines 500 freed1 (blocks freed1) freed1_ok ltac:(lia))
    as [(pre & b & post & st' & bs' & Hbs & _ & Hk & Hok & _ & Hsh & _)|[_ Hk]].
  - exists st', bs'.
    assert (Hp : kernel_heap_start freed1 + extent pre + HDR = image + 24).
    { assert (E : match kmalloc 500 freed1 with Ok (p, _) => p | _ => 0 end = image + 24)
        by (vm_compute; reflexivity).
      rewrite Hk in E. exact E. }
    rewrite Hp in Hk. split; [done |]. split; [done |].
    destruct pre as [|c pre].
    + assert (Hb : blocks freed1 = b :: post) by exact Hbs.
      vm_compute in Hb. injection Hb as <- <-. exact Hsh.
    + exfalso. pose proof (ok_sizes _ _ freed1_ok) as Hs. rewrite Hbs in Hs.
      inversion Hs as [|? ? [Hc _] Hs']; subst. apply Forall_app in Hs' as [Hs' _].
      pose proof (extent_nonneg pre Hs').
      change (kernel_heap_start freed1) with image in Hp. simpl in Hp. unfold span, HDR in *. lia.
  - exfalso. assert (E : match kmalloc 500 freed1 with Ok (p, _) => p | _ => 0 end = image + 24)
      by (vm_compute; reflexivity).
    rewrite Hk in E. discriminate E.
Defined.

Lemma freed1_alloc : kmalloc 500 freed1 = Ok (image + 24, exec (kmalloc 500) freed1).
Proof. vm_compute. reflexivity. Qed.

(** The 2048-byte allocation of [cmd_test] is live in [freed1]. *)
Lemma freed1_live : live freed1 (blocks freed1) (image + 1072) 2048.
Proof.
  exists (take 1 (blocks freed1)).
  eexists (ABlock 2048 true _), (drop 2 (blocks freed1)).
  split_and!; vm_compute; reflexivity.
Qed.

Lemma kmalloc_safe_witness :
  ∃ bs' n, live (exec (kmalloc 500) freed1) bs' (image + 24) n ∧
    live (exec (kmalloc 500) freed1) bs' (image + 1072) 2048.
Proof.
  destruct (kmalloc_safe 500 freed1 (blocks freed1) _ _ freed1_ok ltac:(lia) freed1_alloc
    ltac:(discriminate)) as (bs' & n & _ & Hl & _ & _ & _ & _ & Hfr).
  exists bs', n. split; [done |]. apply (Hfr _ _ freed1_live).
Defined.

(** The block list of a concrete heap, cut at position [n]. *)
Definition cut (st : heap_state) (n : nat) : list ablock * ablock * list ablock :=
  (take n (blocks st), nth n (blocks st) (ABlock 0 false 0), drop (S n) (blocks st)).
Definition cut_pre st n : list ablock := (cut st n).1.1.
Definition cut_at st n : ablock := (cut st n).1.2.
Definition cut_post st n : list ablock := (cut st n).2.

Lemma test3_cut0 : heap_ok test3 (cut_pre test3 0 ++ cut_at test3 0 :: cut_post test3 0).
Proof. heap_check. Qed.

Lemma freed1_cut0 : heap_ok freed1 (cut_pre freed1 0 ++ cut_at freed1 0 :: cut_post freed1 0).
Proof. heap_check. Qed.

Lemma kfree_refines_witness :
  ∃ st' bs', kfree (image + 24) test3 = Ok (tt, st') ∧ heap_ok st' bs' ∧
    shape bs' = [(1024, false); (2048, true); (4096, true); (16769952, false)].
Proof.
  destruct (kfree_refines test3 (cut_pre test3 0) (cut_at test3 0) (cut_post test3 0)
    test3_cut0 eq_refl) as (st' & pre' & x & post' & Hk & Hok & Hsh & _).
  - vm_compute. reflexivity.
  - exists st', (pre' ++ x :: post'). split; [exact Hk |]. split; [done |].
    rewrite Hsh. vm_compute. reflexivity.
Defined.

Lemma kfree_rejects_witness : kfree (image + 24) freed1 = Panic "Double free detected".
Proof.
  destruct (kfree_rejects freed1 (cut_pre freed1 0) (cut_at freed1 0) (cut_post freed1 0)
    freed1_cut0) as [H _].
  exact (H eq_refl).
Defined.

Lemma kmalloc_kfree_witness :
  ∃ st2 bs2, kfree (image + 24) (exec (kmalloc 500) freed1) = Ok (tt, st2) ∧
    heap_ok st2 bs2 ∧ shape bs2 = shape (blocks freed1).
Proof.
  exact (kmalloc_kfree 500 freed1 (blocks freed1) _ _ freed1_ok ltac:(lia) freed1_alloc
    ltac:(discriminate)).
Defined.

Lemma kfree_safe_witness :
  ∃ bs', heap_ok freed1 bs' ∧ live freed1 bs' (image + 1072) 2048.
Proof.
  destruct (kfree_safe test3 (cut_pre test3 0) (cut_at test3 0) (cut_post test3 0) freed1
    test3_cut0 eq_refl) as (bs' & Hok & Hl).
  - vm_compute. reflexivity.
  - exists bs'. split; [done |]. apply Hl; [| vm_compute; discriminate].
    exists (take 1 (blocks test3)). eexists (ABlock 2048 true _), (drop 2 (blocks test3)).
    split_and!; vm_compute; reflexivity.
Defined.

(** The shell's [cmd_test] allocates three buffers and frees them in order:
    the second [kfree] poisons the third buffer's header, and the third
    [kfree] stops the kernel. *)
Lemma kfree_poisons_next_witness :
  ∃ st', kfree (image + 1072) freed1 = Ok (tt, st') ∧
    kfree (image + 3144) st' = Panic "Heap corruption detected in kfree".
Proof.
  destruct (kfree_poisons_next freed1 [] (cut_at freed1 0) (cut_at freed1 1) (cut_at freed1 2)
    (cut_post freed1 2)) as (st' & H1 & H2).
  - heap_check.
  - vm_compute. reflexivity.
  - vm_compute. reflexivity.
  - vm_compute. reflexivity.
  - vm_compute. reflexivity.
  - vm_compute. reflexivity.
  - vm_compute. discriminate.
  - exists st'. split; [exact H1 | exact H2].
Defined.

Lemma kmalloc_aligned_ok_witness :
  (∃ st', kmalloc_aligned 4096 (2 ^ 12) boot = Ok (NULL, st')) ∨
  (∃ p st', kmalloc_aligned 4096 (2 ^ 12) boot = Ok (p, st') ∧ p mod 2 ^ 12 = 0).
Proof.
  destruct (kmalloc_aligned_ok 4096 12 boot (blocks boot) boot_ok) as
    [(st' & H & _)|(p & st' & bs' & q & n & H & _ & _ & Hm & _)]; try lia.
  - left. exists st'. exact H.
  - right. exists p, st'. split; [exact H | exact Hm].
Defined.

Lemma kmalloc_aligned_kfree_aligned_witness :
  ∃ st2 bs2, kfree_aligned 0x201000 (exec (kmalloc_aligned 4096 (2 ^ 12)) boot) = Ok (tt, st2) ∧
    heap_ok st2 bs2 ∧ shape bs2 = shape (blocks boot).
Proof.
  apply (kmalloc_aligned_kfree_aligned 4096 12 boot (blocks boot) 0x201000 _ boot_ok);
    try lia; [vm_compute; reflexivity | discriminate].
Defined.

Lemma kmalloc_aligned_rejects_witness : kmalloc_aligned 64 0 boot = Ok (NULL, boot).
Proof.
  apply kmalloc_aligned_rejects; [unfold is_u32; lia |]. right. intros k Hk.
  pose proof (Z.pow_pos_nonneg 2 k). lia.
Defined.

Lemma verify_heap_integrity_spec_witness : verify_heap_integrity 32768 test3 = Ok (true, test3).
Proof.
  rewrite (verify_heap_integrity_spec 32768 test3 (blocks test3) test3_ok ltac:(lia)).
  match goal with |- Ok (?b, _) = _ => assert (E : b = true) by (vm_compute; reflexivity) end.
  rewrite E. reflexivity.
Defined.

Lemma verify_heap_integrity_total_witness : ∃ b, verify_heap_integrity 32768 heap_zero = Ok (b, heap_zero).
Proof. apply verify_heap_integrity_total. lia. Defined.


Lemma kmalloc_size_wraps_witness : kmalloc 4294967295 boot = kmalloc 16 boot.
Proof. apply kmalloc_size_wraps. lia. Defined.
