(* ===== verification/Frames.v ===== *)
(** * The physical frame allocator (src/kernel/mm.c)

    A bitmap in word memory, one bit per 4096-byte frame, searched next-fit
    from the last allocation.  It is proved to implement a finite set of
    allocated frame numbers. *)
From S2P Require Import Prelude Heap HeapSpec HeapAlloc HeapFree HeapAligned.

Definition PAGE_SIZE : Z := 4096.
Definition PAGE_ENTRIES : Z := 1024.

(** The static variables of mm.c: those of the heap, those of the frame
    allocator, the current page directory; and the two control registers that
    paging uses. *)
Record mm_state := MmState {
  heap : heap_state;
  frame_bitmap : Z;
  total_frames : Z;
  used_frames : Z;
  last_alloc_frame : Z;
  current_directory : Z;
  cr0 : Z;
  cr3 : Z;
}.

Definition set_heap (h : heap_state) (st : mm_state) : mm_state :=
  MmState h (frame_bitmap st) (total_frames st) (used_frames st)
          (last_alloc_frame st) (current_directory st) (cr0 st) (cr3 st).
Definition set_frames (used last : Z) (st : mm_state) : mm_state :=
  MmState (heap st) (frame_bitmap st) (total_frames st) used last (current_directory st)
          (cr0 st) (cr3 st).
Definition mm_mem (st : mm_state) : memory := mem (heap st).
Definition set_mm_mem (m : memory) (st : mm_state) : mm_state :=
  set_heap (set_mem m (heap st)) st.

(** Address of [frame_bitmap[i]]. *)
Definition bitmap_word (bitmap i : Z) : Z := u32 (bitmap + 4 * i).

(** The search loop of [alloc_frame]: [n] iterations are left, the loop
    variable is [i]. *)
Fixpoint find_frame (n : nat) (m : memory) (bitmap total start i : Z) : option Z :=
  match n with
  | O => None
  | S n =>
    let frame_index := u32 (start + i) mod total in
    let bitmap_index := frame_index / 32 in
    let bit_index := frame_index mod 32 in
    if Z.land (load m (bitmap_word bitmap bitmap_index)) (Z.shiftl 1 bit_index) =? 0
    then Some frame_index
    else find_frame n m bitmap total start (i + 1)
  end.

Definition alloc_frame : cmd mm_state Z := λ st,
  match find_frame (Z.to_nat (total_frames st)) (mm_mem st) (frame_bitmap st)
          (total_frames st) (last_alloc_frame st) 0 with
  | Some frame_index =>
    let bitmap_index := frame_index / 32 in
    let bit_index := frame_index mod 32 in
    let w := bitmap_word (frame_bitmap st) bitmap_index in
    let m := store w (Z.lor (load (mm_mem st) w) (Z.shiftl 1 bit_index)) (mm_mem st) in
    Ok (u32 (frame_index * PAGE_SIZE),
        set_frames (u32 (used_frames st + 1)) frame_index (set_mm_mem m st))
  | None => Ok (NULL, st)
  end.

Definition free_frame (frame : Z) : cmd mm_state unit := λ st,
  let frame_index := frame / PAGE_SIZE in
  let bitmap_index := frame_index / 32 in
  let bit_index := frame_index mod 32 in
  let w := bitmap_word (frame_bitmap st) bitmap_index in
  let m := store w (Z.land (load (mm_mem st) w) (not32 (Z.shiftl 1 bit_index))) (mm_mem st) in
  Ok (tt, set_frames (u32 (used_frames st - 1)) (last_alloc_frame st) (set_mm_mem m st)).

(** ** Specification *)

(** Bit of frame [f] in the bitmap. *)
Definition frame_bit (m : memory) (bitmap f : Z) : bool :=
  Z.testbit (load m (bitmap_word bitmap (f / 32))) (f mod 32).

(** The bitmap represents the set [X] of allocated frames. *)
Record frames_ok (st : mm_state) (X : gset Z) : Prop := {
  fr_total : 0 < total_frames st <= 1048576;
  fr_bitmap : 0 < frame_bitmap st ∧
    frame_bitmap st + 4 * ((total_frames st + 31) / 32) <= 4294967296;
  fr_last : 0 <= last_alloc_frame st < total_frames st;
  fr_set : ∀ f, f ∈ X ↔ 0 <= f < total_frames st ∧
                        frame_bit (mm_mem st) (frame_bitmap st) f = true;
  fr_words : ∀ i, 0 <= i < (total_frames st + 31) / 32 →
    is_u32 (load (mm_mem st) (bitmap_word (frame_bitmap st) i));
  fr_used : used_frames st = Z.of_nat (size X);
}.

(** ** The search *)
Lemma find_frame_spec m bitmap total start : ∀ n i,
  0 < total → 0 <= start < total → total <= 1048576 → 0 <= i → i + Z.of_nat n = total →
  match find_frame n m bitmap total start i with
  | Some f => ∃ j, i <= j < total ∧ f = (start + j) mod total ∧ frame_bit m bitmap f = false ∧
      ∀ k, i <= k < j → frame_bit m bitmap ((start + k) mod total) = true
  | None => ∀ k, i <= k < total → frame_bit m bitmap ((start + k) mod total) = true
  end.
Proof.
  induction n as [|n IH]; intros i Ht Hs Hmax Hi Hn; simpl; [lia |].
  rewrite (u32_small (start + i)) by (unfold is_u32; lia).
  pose proof (Z.mod_pos_bound (start + i) total Ht).
  rewrite land_bit by lia. fold (frame_bit m bitmap ((start + i) mod total)).
  destruct (frame_bit m bitmap ((start + i) mod total)) eqn:E; simpl.
  - specialize (IH (i + 1) Ht Hs Hmax ltac:(lia) ltac:(lia)).
    destruct (find_frame n _ _ _ _ _) as [f|].
    + destruct IH as (j & Hj & -> & Hf & Hb). exists j. split_and!; try done; try lia.
      intros k Hk. destruct (Z.eq_dec k i) as [->|]; [done |]. apply Hb. lia.
    + intros k Hk. destruct (Z.eq_dec k i) as [->|]; [done |]. apply IH. lia.
  - exists i. split_and!; try done; try lia.
Qed.

(** Every frame is visited by the search. *)
Lemma cyclic_cover start total f :
  0 <= start < total → 0 <= f < total → ∃ k, 0 <= k < total ∧ (start + k) mod total = f.
Proof.
  intros Hs Hf. destruct (Z.le_gt_cases start f).
  - exists (f - start). split; [lia |]. rewrite Z.mod_small; lia.
  - exists (f - start + total). split; [lia |].
    replace (start + (f - start + total)) with (f + 1 * total) by lia.
    rewrite Z.mod_add, Z.mod_small; lia.
Qed.

(** ** One bit rewritten *)
Lemma bitmap_word_inj st X i j :
  frames_ok st X →
  0 <= i < (total_frames st + 31) / 32 → 0 <= j < (total_frames st + 31) / 32 →
  bitmap_word (frame_bitmap st) i = bitmap_word (frame_bitmap st) j → i = j.
Proof.
  intros Hok Hi Hj. destruct (fr_bitmap _ _ Hok). unfold bitmap_word.
  rewrite !u32_small by (unfold is_u32; lia). lia.
Qed.

Lemma word_of_frame st X f :
  frames_ok st X → 0 <= f < total_frames st →
  is_u32 (load (mm_mem st) (bitmap_word (frame_bitmap st) (f / 32))).
Proof. intros Hok Hf. apply (fr_words _ _ Hok). lia. Qed.

(** Writing [b] into the bit of frame [f] turns the set [X] into [X']. *)
Lemma frames_set_bit st X X' f b v used last :
  let w := bitmap_word (frame_bitmap st) (f / 32) in
  frames_ok st X → 0 <= f < total_frames st → is_u32 v →
  (∀ i, 0 <= i → Z.testbit v i = if i =? f mod 32 then b else Z.testbit (load (mm_mem st) w) i) →
  (∀ g, g ∈ X' ↔ if g =? f then b = true else g ∈ X) →
  used = Z.of_nat (size X') → 0 <= last < total_frames st →
  frames_ok (set_frames used last (set_mm_mem (store w v (mm_mem st)) st)) X'.
Proof.
  intros w Hok Hf Hv Hbits HX Hused Hlast. pose proof (bitmap_word_inj st X) as Hinj.
  assert (Hbit : ∀ g, 0 <= g < total_frames st →
    frame_bit (store w v (mm_mem st)) (frame_bitmap st) g =
    if g =? f then b else frame_bit (mm_mem st) (frame_bitmap st) g).
  { intros g Hg. unfold frame_bit. destruct (Z.eq_dec (g / 32) (f / 32)) as [He|Hne].
    - rewrite He. fold w. rewrite load_store_eq, Hbits by lia.
      destruct (Z.eqb_spec g f) as [->|]; [by rewrite Z.eqb_refl |].
      destruct (Z.eqb_spec (g mod 32) (f mod 32)); [lia | done].
    - rewrite load_store_ne; [by destruct (Z.eqb_spec g f) as [->|] |].
      intros H. apply Hinj in H; [lia | done | lia | lia]. }
  destruct Hok as [K1 K2 K3 K4 K5 K6]. split; simpl; try done.
  - intros g. rewrite HX. unfold mm_mem at 1; simpl. destruct (Z.eqb_spec g f) as [->|Hne].
    + split; [intros ->; split; [done |] | intros [_ <-]];
        rewrite Hbit, Z.eqb_refl by done; done.
    + rewrite K4. split; intros [Hg Hb]; split; try done; rewrite ?Hbit in * by done;
        destruct (Z.eqb_spec g f); done.
  - intros i Hi. unfold mm_mem at 1; simpl.
    destruct (Z.eq_dec (bitmap_word (frame_bitmap st) i) w) as [->|Hne].
    + by rewrite load_store_eq.
    + rewrite load_store_ne by done. by apply K5.
Qed.

Lemma frames_size st X : frames_ok st X → Z.of_nat (size X) <= total_frames st.
Proof.
  intros Hok. pose proof (fr_total _ _ Hok).
  assert (H1 : X ⊆ list_to_set (seqZ 0 (total_frames st))).
  { intros g Hg. apply elem_of_list_to_set, elem_of_seqZ. apply (fr_set _ _ Hok) in Hg. lia. }
  apply subseteq_size in H1.
  rewrite size_list_to_set in H1 by apply NoDup_seqZ. rewrite length_seqZ in H1. lia.
Qed.

(** ** Allocation *)

(** C25. [alloc_frame] on a bitmap that represents the set [X] returns: when
    some frame is free it hands out the first free one in cyclic order from the
    last allocation, the bitmap then represents [X] with that frame added, the
    counter is right and only its bitmap word has changed; when every frame is
    allocated it answers NULL and changes nothing. *)
Theorem alloc_frame_refines st X :
  frames_ok st X →
  (∃ f j st', 0 <= j < total_frames st ∧ f = (last_alloc_frame st + j) mod total_frames st ∧
     f ∉ X ∧ (∀ k, 0 <= k < j → (last_alloc_frame st + k) mod total_frames st ∈ X) ∧
     alloc_frame st = Ok (f * PAGE_SIZE, st') ∧ frames_ok st' ({[f]} ∪ X) ∧
     ∀ x, x ≠ bitmap_word (frame_bitmap st) (f / 32) → load (mm_mem st') x = load (mm_mem st) x) ∨
  ((∀ f, 0 <= f < total_frames st → f ∈ X) ∧ alloc_frame st = Ok (NULL, st)).
Proof.
  intros Hok. destruct (fr_total _ _ Hok) as [Ht Hmax]. pose proof (fr_last _ _ Hok) as Hl.
  unfold alloc_frame.
  pose proof (find_frame_spec (mm_mem st) (frame_bitmap st) (total_frames st)
    (last_alloc_frame st) (Z.to_nat (total_frames st)) 0 Ht Hl Hmax ltac:(lia) ltac:(lia)) as Hs.
  destruct (find_frame _ _ _ _ _ _) as [f|].
  - left. destruct Hs as (j & Hj & Hfj & Hfree & Hbefore).
    pose proof (Z.mod_pos_bound (last_alloc_frame st + j) (total_frames st) Ht) as Hf.
    rewrite <- Hfj in Hf.
    assert (Hout : f ∉ X) by (intros [_ Hb]%(fr_set _ _ Hok); congruence).
    exists f, j. eexists. split; [lia |]. split; [done |]. split; [done |].
    split; [| split; [| split]].
    + intros k Hk. apply (fr_set _ _ Hok). split; [apply Z.mod_pos_bound; lia | by apply Hbefore].
    + rewrite u32_small by (unfold is_u32, PAGE_SIZE; lia). reflexivity.
    + eapply (frames_set_bit st X ({[f]} ∪ X) f true); [done | done | | | | | done].
      * apply lor_u32; [by eapply word_of_frame | apply bit_u32; lia].
      * intros i Hi. rewrite lor_bit by lia. by destruct (i =? f mod 32).
      * intros g. rewrite elem_of_union, elem_of_singleton. destruct (Z.eqb_spec g f); naive_solver.
      * pose proof (frames_size _ _ Hok). rewrite size_union, size_singleton by set_solver.
        rewrite (fr_used _ _ Hok), u32_small by (unfold is_u32; lia). lia.
    + intros x Hx. unfold mm_mem; simpl. by apply load_store_ne.
  - right. split; [| done]. intros f Hf.
    destruct (cyclic_cover _ _ f Hl Hf) as (k & Hk & <-).
    apply (fr_set _ _ Hok). split; [done | by apply Hs].
Qed.

(** [free_frame] of an allocated frame removes exactly that frame from
    the set; of a frame that is already free it leaves the set alone but still
    lowers the counter, which is then wrong (and wraps at zero). *)
Theorem free_frame_refines st X f :
  frames_ok st X → 0 <= f < total_frames st →
  ∃ st', free_frame (f * PAGE_SIZE) st = Ok (tt, st') ∧
    if decide (f ∈ X) then frames_ok st' (X ∖ {[f]})
    else used_frames st' = u32 (used_frames st - 1) ∧ used_frames st' ≠ Z.of_nat (size X) ∧
      frames_ok (set_frames (used_frames st) (last_alloc_frame st) st') X.
Proof.
  intros Hok Hf. pose proof (frames_size _ _ Hok) as Hsz. pose proof (fr_total _ _ Hok) as Ht.
  pose proof (fr_used _ _ Hok) as Hu. pose proof (word_of_frame _ _ f Hok Hf) as Hw.
  unfold free_frame. replace (f * PAGE_SIZE / PAGE_SIZE) with f by (unfold PAGE_SIZE; lia).
  eexists. split; [reflexivity |].
  assert (Hbits : ∀ i, 0 <= i →
    Z.testbit (Z.land (load (mm_mem st) (bitmap_word (frame_bitmap st) (f / 32)))
      (not32 (Z.shiftl 1 (f mod 32)))) i =
    if i =? f mod 32 then false
    else Z.testbit (load (mm_mem st) (bitmap_word (frame_bitmap st) (f / 32))) i).
  { intros i Hi. rewrite clear_bit by (done || lia). by destruct (i =? f mod 32). }
  destruct (decide (f ∈ X)) as [Hin|Hout].
  - eapply (frames_set_bit st X (X ∖ {[f]}) f false);
      [done | done | by apply land_u32 | exact Hbits | | | by apply (fr_last _ _ Hok)].
    + intros g. rewrite elem_of_difference, elem_of_singleton. destruct (Z.eqb_spec g f); naive_solver.
    + rewrite size_difference, size_singleton by set_solver.
      assert (size X ≠ 0%nat) by (intros H0%size_empty_inv; set_solver).
      rewrite Hu, u32_small by (unfold is_u32; lia). lia.
  - split_and!; [done | simpl; unfold u32; lia |].
    eapply (frames_set_bit st X X f false);
      [done | done | by apply land_u32 | exact Hbits | | done | by apply (fr_last _ _ Hok)].
    intros g. destruct (Z.eqb_spec g f); naive_solver.
Qed.

(** When frame 0 is free and next in turn, [alloc_frame] hands it out as
    the null pointer: the caller cannot tell the allocation from a failure,
    but the frame is taken. *)
Theorem alloc_frame_zero_is_null st X :
  frames_ok st X → last_alloc_frame st = 0 → 0 ∉ X →
  ∃ st', alloc_frame st = Ok (NULL, st') ∧ used_frames st' = used_frames st + 1 ∧
    frame_bit (mm_mem st) (frame_bitmap st) 0 = false ∧
    frame_bit (mm_mem st') (frame_bitmap st) 0 = true.
Proof.
  intros Hok Hl H0. destruct (fr_total _ _ Hok) as [Ht Hmax]. pose proof (frames_size _ _ Hok).
  pose proof (fr_used _ _ Hok).
  assert (Hb : frame_bit (mm_mem st) (frame_bitmap st) 0 = false).
  { apply not_true_is_false. intros Hb. apply H0, (fr_set _ _ Hok). split; [lia | done]. }
  unfold alloc_frame. rewrite Hl.
  destruct (Z.to_nat (total_frames st)) as [|n] eqn:En; [lia |]. simpl.
  change (u32 0) with 0. rewrite Z.mod_0_l by lia. rewrite land_bit by done.
  change (Z.testbit _ (0 mod 32)) with (frame_bit (mm_mem st) (frame_bitmap st) 0).
  rewrite Hb. simpl. eexists. split; [reflexivity |]. simpl.
  rewrite u32_small by (unfold is_u32; lia). split_and!; [done | done |].
  unfold frame_bit, mm_mem; simpl. rewrite load_store_eq.
  rewrite <- Z.bit0_odd, Z.lor_spec. apply orb_true_iff. by right.
Qed.
