(* ===== verification/Paging.v ===== *)
(** * Page tables (src/kernel/mm.c, src/include/mm.h)

    [map_page], [unmap_page] and [paging_init] on page directories and page
    tables laid out in word memory, against the two-level walk the processor
    makes. *)
From S2P Require Import Prelude Heap HeapSpec HeapAlloc HeapFree HeapAligned Frames.

(** ** Page entries

    [page_entry_t] is one word of bit fields. *)
Definition get_field (e lo width : Z) : Z := e / 2 ^ lo mod 2 ^ width.
Definition set_field (lo width v e : Z) : Z :=
  e - get_field e lo width * 2 ^ lo + v mod 2 ^ width * 2 ^ lo.

Definition present (e : Z) : Z := get_field e 0 1.
Definition frame (e : Z) : Z := get_field e 12 20.
Definition set_present (v e : Z) : Z := set_field 0 1 v e.
Definition set_rw (v e : Z) : Z := set_field 1 1 v e.
Definition set_user (v e : Z) : Z := set_field 2 1 v e.
Definition set_frame (v e : Z) : Z := set_field 12 20 v e.

(** Addresses of [dir->tables[i]], [dir->entries[i]], [dir->physical_addr] and
    of [table->pages[i]]. *)
Definition table_slot (dir i : Z) : Z := u32 (dir + 4 * i).
Definition dir_entry (dir i : Z) : Z := u32 (dir + 4096 + 4 * i).
Definition physical_addr (dir : Z) : Z := u32 (dir + 8192).
Definition page_slot (table i : Z) : Z := u32 (table + 4 * i).

(** An assignment to a bit field of the entry at [a]. *)
Definition update_entry (a : Z) (f : Z → Z) (m : memory) : memory :=
  store a (f (load m a)) m.

(** [for (i ...) table->pages[i].present = 0], with [n] iterations left. *)
Fixpoint clear_present (n : nat) (i table : Z) (m : memory) : memory :=
  match n with
  | O => m
  | S n => clear_present n (i + 1) table (update_entry (page_slot table i) (set_present 0) m)
  end.

(** ** [map_page] and [unmap_page] (the TLB is not modelled) *)

(** Creating the page table of directory slot [i]. *)
Definition make_table (dir i : Z) : cmd heap_state unit := λ st,
  '(table, st) ← kmalloc_aligned 4096 PAGE_SIZE st;
  let m := store (table_slot dir i) table (mem st) in
  let m := clear_present (Z.to_nat PAGE_ENTRIES) 0 (load m (table_slot dir i)) m in
  let m := update_entry (dir_entry dir i)
             (set_frame (Z.shiftr (load m (table_slot dir i)) 12)) m in
  let m := update_entry (dir_entry dir i) (set_present 1) m in
  let m := update_entry (dir_entry dir i) (set_rw 1) m in
  let m := update_entry (dir_entry dir i) (set_user 0) m in
  Ok (tt, set_mem m st).

Definition flag_bit (flags mask : Z) : Z := if Z.land flags mask =? 0 then 0 else 1.

Definition map_page (dir virt_addr phys_addr flags : Z) : cmd heap_state unit := λ st,
  let page_index := virt_addr / PAGE_SIZE in
  let table_index := page_index / PAGE_ENTRIES in
  let entry_index := page_index mod PAGE_ENTRIES in
  '(_, st) ←
    (if load (mem st) (table_slot dir table_index) =? NULL
     then make_table dir table_index st else Ok (tt, st));
  let entry m := page_slot (load m (table_slot dir table_index)) entry_index in
  let m := mem st in
  let m := update_entry (entry m) (set_frame (Z.shiftr phys_addr 12)) m in
  let m := update_entry (entry m) (set_present (flag_bit flags 1)) m in
  let m := update_entry (entry m) (set_rw (flag_bit flags 2)) m in
  let m := update_entry (entry m) (set_user (flag_bit flags 4)) m in
  Ok (tt, set_mem m st).

Definition unmap_page (dir virt_addr : Z) : cmd heap_state unit := λ st,
  let page_index := virt_addr / PAGE_SIZE in
  let table_index := page_index / PAGE_ENTRIES in
  let entry_index := page_index mod PAGE_ENTRIES in
  if load (mem st) (table_slot dir table_index) =? NULL then Ok (tt, st) else
  let table := load (mem st) (table_slot dir table_index) in
  Ok (tt, set_mem (update_entry (page_slot table entry_index) (set_present 0) (mem st)) st).

(** ** [paging_init] and [mm_init] *)

(** [for (i ...) frame_bitmap[i] = 0] *)
Fixpoint clear_words (n : nat) (i base : Z) (m : memory) : memory :=
  match n with
  | O => m
  | S n => clear_words n (i + 1) base (store (u32 (base + 4 * i)) 0 m)
  end.

(** The loop that clears the page directory. *)
Fixpoint clear_directory (n : nat) (i dir : Z) (m : memory) : memory :=
  match n with
  | O => m
  | S n =>
    let m := store (table_slot dir i) NULL m in
    let m := update_entry (dir_entry dir i) (set_present 0) m in
    let m := update_entry (dir_entry dir i) (set_rw 0) m in
    let m := update_entry (dir_entry dir i) (set_user 0) m in
    clear_directory n (i + 1) dir m
  end.

(** The identity mapping of [n] pages from page [i] on. *)
Fixpoint identity_map (n : nat) (i dir : Z) : cmd heap_state unit := λ st,
  match n with
  | O => Ok (tt, st)
  | S n =>
    '(_, st) ← map_page dir (i * PAGE_SIZE) (i * PAGE_SIZE) 3 st;
    identity_map n (i + 1) dir st
  end.

Definition sizeof_page_directory : Z := 8196.

Definition paging_init (mem_size : Z) : cmd mm_state unit := λ st,
  if mem_size <? 4 * 1024 * 1024
  then Panic "Insufficient memory for paging (minimum 4MB required)" else
  let frames := mem_size / PAGE_SIZE in
  let bitmap_size := (frames + 31) / 32 * 4 in
  '(bitmap, h) ← kmalloc bitmap_size (heap st);
  if bitmap =? NULL then Panic "Failed to allocate frame bitmap" else
  let h := set_mem (clear_words (Z.to_nat (bitmap_size / 4)) 0 bitmap (mem h)) h in
  '(dir, h) ← kmalloc_aligned sizeof_page_directory PAGE_SIZE h;
  if dir =? NULL then Panic "Failed to allocate page directory" else
  let m := store (physical_addr dir) dir (mem h) in
  let m := clear_directory (Z.to_nat PAGE_ENTRIES) 0 dir m in
  '(_, h) ← identity_map 1024 0 dir (set_mem m h);
  (* mov %cr3, physical_addr; mov physical_addr, %cr3 *)
  let h := set_mem (store (physical_addr dir) (cr3 st) (mem h)) h in
  let new_cr3 := load (mem h) (physical_addr dir) in
  if negb (Z.land (cr0 st) 0x80000000 =? 0) then Panic "Paging already enabled" else
  Ok (tt, MmState h bitmap frames 0 0 dir (Z.lor (cr0 st) 0x80000000) new_cr3).

Definition mm_init (image_end : Z) : cmd mm_state unit := λ st,
  '(_, h) ← heap_init image_end (heap st);
  paging_init (128 * 1024 * 1024) (set_heap h st).

(** ** The processor's walk

    Two-level translation from the page directory at [pd]: [None] is a page
    fault. *)
Definition walk (m : memory) (pd virt : Z) : option Z :=
  let pde := load m (pd + 4 * (virt / 4194304)) in
  if present pde =? 0 then None else
  let pte := load m (frame pde * 4096 + 4 * (virt / 4096 mod 1024)) in
  if present pte =? 0 then None else
  Some (frame pte * 4096 + virt mod 4096).

(** ** Bit fields *)
Ltac fields :=
  unfold present, frame, set_present, set_rw, set_user, set_frame, set_field, get_field;
  change (2 ^ 0) with 1; change (2 ^ 1) with 2; change (2 ^ 2) with 4;
  change (2 ^ 12) with 4096; change (2 ^ 20) with 1048576.

Lemma present_set_present v e : present (set_present v e) = v mod 2.
Proof. fields. lia. Qed.
Lemma present_set_frame v e : present (set_frame v e) = present e.
Proof. fields. lia. Qed.
Lemma present_set_rw v e : present (set_rw v e) = present e.
Proof. fields. lia. Qed.
Lemma present_set_user v e : present (set_user v e) = present e.
Proof. fields. lia. Qed.
Lemma frame_set_present v e : frame (set_present v e) = frame e.
Proof. fields. lia. Qed.
Lemma frame_set_frame v e : frame (set_frame v e) = v mod 1048576.
Proof. fields. lia. Qed.
Lemma frame_set_rw v e : frame (set_rw v e) = frame e.
Proof. fields. lia. Qed.
Lemma frame_set_user v e : frame (set_user v e) = frame e.
Proof. fields. lia. Qed.
#[export] Hint Rewrite present_set_present present_set_frame present_set_rw present_set_user
  frame_set_present frame_set_frame frame_set_rw frame_set_user : solix.

(** ** The invariant of a page directory *)

(** The [n] bytes at [p] lie in one live allocation. *)
Definition covered (st : heap_state) (bs : list ablock) (p n : Z) : Prop :=
  ∃ q k, live st bs q k ∧ q <= p ∧ p + n <= q + k.

Definition table_of (m : memory) (dir i : Z) : Z := load m (dir + 4 * i).
Definition pde_of (m : memory) (dir i : Z) : Z := load m (dir + 4096 + 4 * i).

(** Slot [i] is empty, or names a page-aligned table of its own in the heap,
    apart from the directory, and the hardware entry points to it. *)
Definition slot_ok (st : heap_state) (bs : list ablock) (dir i : Z) : Prop :=
  let t := table_of (mem st) dir i in
  let e := pde_of (mem st) dir i in
  (t = NULL ∧ present e = 0) ∨
  (0 < t ∧ t mod 4096 = 0 ∧ covered st bs t 4096 ∧
   (t + 4096 <= dir ∨ dir + 8196 <= t) ∧ present e = 1 ∧ frame e * 4096 = t).

Record dir_ok (st : heap_state) (bs : list ablock) (dir : Z) : Prop := {
  dk_heap : heap_ok st bs;
  dk_align : 0 < dir ∧ dir mod 4096 = 0;
  dk_covered : covered st bs dir 8196;
  dk_slot : ∀ i, 0 <= i < 1024 → slot_ok st bs dir i;
  dk_inj : ∀ i j, 0 <= i < 1024 → 0 <= j < 1024 → i ≠ j →
    table_of (mem st) dir i ≠ NULL → table_of (mem st) dir i ≠ table_of (mem st) dir j;
}.

Lemma covered_range st bs p n :
  heap_ok st bs → covered st bs p n → 0 < p ∧ p + n < 4294967296.
Proof.
  intros Hok (q & k & (pre & b & post & -> & _ & -> & ->) & H1 & H2).
  destruct (heap_ok_block _ _ _ _ Hok) as (He & [Hb _] & _ & _ & _ & Hend & _).
  destruct (ok_range _ _ Hok). unfold span, HDR in *. lia.
Qed.

(** Any change of memory inside one live payload keeps the heap well formed. *)
Lemma client_region st bs q k m' :
  heap_ok st bs → live st bs q k →
  (∀ x, x < q ∨ q + k <= x → load m' x = load (mem st) x) →
  heap_ok (set_mem m' st) bs.
Proof.
  intros [H1 H2 H3 Hc H5 Hs H7 H8] (pre & b & post & -> & Hu & -> & ->) Hfr.
  split; simpl; try done. apply Forall_app in Hs as [Hs1 Hs2].
  inversion Hs2 as [|? ? [Hb _] Hs3]; subst.
  pose proof (extent_nonneg pre Hs1). pose proof (extent_nonneg post Hs3).
  apply chain_app in Hc as [Hc1 [Hh Hc2]]. unfold span, HDR in *.
  apply chain_app. split; [| split].
  - eapply chain_agree; [done | | exact Hc1]. intros y Hy. apply Hfr. lia.
  - eapply hdr_at_agree; [| exact Hh]. intros y Hy. unfold HDR in *. apply Hfr. lia.
  - eapply chain_agree; [done | | exact Hc2]. intros y Hy. apply Hfr.
    unfold span, HDR in *. lia.
Qed.

Lemma client_covered st bs p n m' :
  heap_ok st bs → covered st bs p n →
  (∀ x, x < p ∨ p + n <= x → load m' x = load (mem st) x) →
  heap_ok (set_mem m' st) bs.
Proof.
  intros Hok (q & k & Hl & H1 & H2) Hfr. eapply client_region; [done | exact Hl |].
  intros x Hx. apply Hfr. lia.
Qed.

(** ** One page entry rewritten *)
Lemma dir_ok_store st bs dir i e w :
  dir_ok st bs dir → 0 <= i < 1024 → 0 <= e < 1024 → table_of (mem st) dir i ≠ NULL →
  let a := table_of (mem st) dir i + 4 * e in
  let st' := set_mem (store a w (mem st)) st in
  dir_ok st' bs dir ∧
  (∀ j, 0 <= j < 1024 → table_of (mem st') dir j = table_of (mem st) dir j ∧
                         pde_of (mem st') dir j = pde_of (mem st) dir j) ∧
  (∀ v, is_u32 v → walk (mem st') (dir + 4096) v =
     if v / 4096 =? i * 1024 + e
     then (if present w =? 0 then None else Some (frame w * 4096 + v mod 4096))
     else walk (mem st) (dir + 4096) v).
Proof.
  intros [Hok [Hd0 Hdm] Hcov Hslot Hinj] Hi He Hne a st'.
  destruct (Hslot i Hi) as [[? _]|(Ht & Htm & Htc & Htd & Hp & Hf)]; [done |].
  assert (Htab : ∀ j, 0 <= j < 1024 → table_of (mem st') dir j = table_of (mem st) dir j ∧
                      pde_of (mem st') dir j = pde_of (mem st) dir j).
  { intros j Hj. unfold table_of, pde_of, st', a; simpl. rewrite !load_store_ne by lia. done. }
  assert (Hok' : heap_ok st' bs).
  { eapply client_covered; [done | exact Htc |]. intros x Hx. apply load_store_ne. unfold a. lia. }
  split_and!; [| exact Htab |].
  - split; try done.
    + intros j Hj. destruct (Htab j Hj) as [E1 E2]. unfold slot_ok. rewrite E1, E2. by apply Hslot.
    + intros j k Hj Hk. destruct (Htab j Hj) as [-> _], (Htab k Hk) as [-> _]. by apply Hinj.
  - intros v Hv. unfold is_u32 in Hv.
    assert (Hj : 0 <= v / 4194304 < 1024) by lia.
    destruct (Htab _ Hj) as [_ E]. unfold walk. unfold pde_of in E. rewrite E.
    destruct (Hslot _ Hj) as [[E1 E2]|(Ht' & Htm' & _ & _ & Hp' & Hf')].
    + unfold pde_of in E2. rewrite E2. simpl.
      destruct (Z.eqb_spec (v / 4096) (i * 1024 + e)); [| done].
      replace (v / 4194304) with i in * by lia. done.
    + unfold pde_of in Hp', Hf'. rewrite Hp', Hf'. simpl.
      destruct (Z.eqb_spec (v / 4096) (i * 1024 + e)) as [Heq|Hneq].
      * replace (v / 4194304) with i in * by lia.
        replace (v / 4096 mod 1024) with e by lia. fold a. unfold st'. simpl.
        by rewrite load_store_eq.
      * unfold st'; simpl. rewrite load_store_ne; [done |]. unfold a.
        destruct (Z.eq_dec (v / 4194304) i) as [Hij|Hij]; [rewrite Hij; lia |].
        pose proof (Hinj i (v / 4194304) Hi Hj ltac:(lia) Hne).
        unfold table_of in *. lia.
Qed.

Lemma clear_present_spec t : ∀ n i m,
  0 <= t → t + 4096 < 4294967296 → 0 <= i → i + Z.of_nat n <= 1024 →
  (∀ x, x < t + 4 * i ∨ t + 4 * (i + Z.of_nat n) <= x →
     load (clear_present n i t m) x = load m x) ∧
  (∀ j, i <= j < i + Z.of_nat n → present (load (clear_present n i t m) (t + 4 * j)) = 0).
Proof.
  induction n as [|n IH]; intros i m Ht Hmax Hi Hn; simpl; [split; [done | lia] |].
  unfold update_entry, page_slot. rewrite u32_small by (unfold is_u32; lia).
  set (m1 := store _ _ m). destruct (IH (i + 1) m1 Ht Hmax ltac:(lia) ltac:(lia)) as [Hfr Hz].
  split.
  - intros x Hx. rewrite Hfr by lia. unfold m1. apply load_store_ne. lia.
  - intros j Hj. destruct (Z.eq_dec j i) as [->|]; [| apply Hz; lia].
    rewrite Hfr by lia. unfold m1. rewrite load_store_eq, present_set_present. done.
Qed.

(** The allocation of a page table: NULL, or a fresh page-aligned page. *)
Lemma table_alloc st bs t st1 :
  heap_ok st bs → kmalloc_aligned 4096 PAGE_SIZE st = Ok (t, st1) → t ≠ NULL →
  ∃ bs', heap_ok st1 bs' ∧ covered st1 bs' t 4096 ∧ t mod 4096 = 0 ∧
    (∀ p n, covered st bs p n → 0 < n →
       covered st1 bs' p n ∧ (p + n <= t ∨ t + 4096 <= p) ∧
       ∀ x, p <= x < p + n → load (mem st1) x = load (mem st) x) ∧
    (∀ r j, live st bs r j → live st1 bs' r j ∧
       (r + j <= t ∨ t + 4096 <= r) ∧ ∀ x, r <= x < r + j → load (mem st1) x = load (mem st) x).
Proof.
  intros Hok Hk Ht. change PAGE_SIZE with (2 ^ 12) in Hk.
  destruct (kmalloc_aligned_cases 4096 12 st bs Hok ltac:(lia) ltac:(lia) ltac:(lia))
    as [(st' & Hk' & _)|(p & st' & bs' & q & n & Hk' & Hok' & Hl & Hal & Hq & Hn & _ & _ & Hfr)];
    rewrite Hk in Hk'; simplify_eq.
  exists bs'. split_and!; [done | by exists q, n; split_and!; [| lia | lia] | done | |].
  - intros a len (r & j & Hr & H1 & H2) Hlen. destruct (Hfr r j Hr) as (Hr' & Hdis & Hmem).
    split_and!; [by exists r, j | lia |]. intros x Hx. apply Hmem. lia.
  - intros r j Hr. destruct (Hfr r j Hr) as (Hr' & Hdis & Hmem). split_and!; [done | lia | done].
Qed.

(** The directory words of slot [i] after its table [t] has been created. *)
Lemma make_table_steps st dir i t st1 :
  0 <= i < 1024 → 0 < dir → dir + 8196 < 4294967296 → 0 < t → t mod 4096 = 0 →
  t + 4096 < 4294967296 → t + 4096 <= dir ∨ dir + 8196 <= t →
  kmalloc_aligned 4096 PAGE_SIZE st = Ok (t, st1) →
  ∃ m', make_table dir i st = Ok (tt, set_mem m' st1) ∧
    load m' (dir + 4 * i) = t ∧
    present (load m' (dir + 4096 + 4 * i)) = 1 ∧
    frame (load m' (dir + 4096 + 4 * i)) * 4096 = t ∧
    (∀ e, 0 <= e < 1024 → present (load m' (t + 4 * e)) = 0) ∧
    (∀ x, x ≠ dir + 4 * i → x ≠ dir + 4096 + 4 * i → x < t ∨ t + 4096 <= x →
       load m' x = load (mem st1) x).
Proof.
  intros Hi Hd Hdm Ht Htm Htmax Hdis Hk. unfold make_table. rewrite Hk. unfold mbind, outcome_bind.
  unfold table_slot, dir_entry. rewrite !u32_small by (unfold is_u32; lia).
  set (m1 := store (dir + 4 * i) t (mem st1)).
  assert (E1 : load m1 (dir + 4 * i) = t) by apply load_store_eq. rewrite E1.
  destruct (clear_present_spec t (Z.to_nat PAGE_ENTRIES) 0 m1 ltac:(lia) Htmax ltac:(lia)
    ltac:(unfold PAGE_ENTRIES; lia)) as [Hfr Hz].
  set (m2 := clear_present _ _ _ _) in *.
  assert (E2 : load m2 (dir + 4 * i) = t)
    by (rewrite Hfr by (unfold PAGE_ENTRIES; lia); exact E1).
  unfold update_entry. rewrite E2. cbv zeta. rewrite !load_store_eq, !store_store.
  eexists. split; [reflexivity |]. mem_simpl. autorewrite with solix.
  rewrite Z.shiftr_div_pow2 by lia. split_and!.
  - exact E2.
  - done.
  - change (2 ^ 12) with 4096. lia.
  - intros e He. mem_simpl. apply Hz. unfold PAGE_ENTRIES. lia.
  - intros x H1 H2 H3. rewrite load_store_ne by done.
    rewrite Hfr by (unfold PAGE_ENTRIES; lia). unfold m1. by apply load_store_ne.
Qed.

(** What [map_page] leaves alone: live allocations outside the directory and
    the tables it already had. *)
Definition untouched (st : heap_state) (dir x : Z) : Prop :=
  (x < dir ∨ dir + 8196 <= x) ∧
  ∀ i, 0 <= i < 1024 → table_of (mem st) dir i ≠ NULL →
    x < table_of (mem st) dir i ∨ table_of (mem st) dir i + 4096 <= x.

Definition keeps_live (st : heap_state) (bs : list ablock) (dir : Z)
    (st' : heap_state) (bs' : list ablock) : Prop :=
  ∀ r k, live st bs r k → live st' bs' r k ∧
    ∀ x, r <= x < r + k → untouched st dir x → load (mem st') x = load (mem st) x.

Lemma covered_set_mem st bs p n m : covered st bs p n → covered (set_mem m st) bs p n.
Proof. intros (q & k & Hl & H). by exists q, k. Qed.

Lemma make_table_ok st bs dir i t st1 :
  dir_ok st bs dir → 0 <= i < 1024 → table_of (mem st) dir i = NULL →
  kmalloc_aligned 4096 PAGE_SIZE st = Ok (t, st1) → t ≠ NULL →
  ∃ st' bs', make_table dir i st = Ok (tt, st') ∧ dir_ok st' bs' dir ∧
    table_of (mem st') dir i = t ∧
    (∀ j, 0 <= j < 1024 → j ≠ i → table_of (mem st') dir j = table_of (mem st) dir j) ∧
    (∀ v, is_u32 v → walk (mem st') (dir + 4096) v = walk (mem st) (dir + 4096) v) ∧
    (∀ r k, live st bs r k → live st' bs' r k ∧ (r + k <= t ∨ t + 4096 <= r) ∧
       ∀ x, r <= x < r + k → x < dir ∨ dir + 8196 <= x → load (mem st') x = load (mem st) x).
Proof.
  intros [Hok [Hd0 Hdm] Hcov Hslot Hinj] Hi Hnull Hk Ht.
  destruct (table_alloc _ _ _ _ Hok Hk Ht) as (bs' & Hok1 & Htc & Htm & Hc1 & Hl1).
  destruct (Hc1 _ _ Hcov ltac:(lia)) as (Hcov1 & Hdis & Hmem).
  pose proof (covered_range _ _ _ _ Hok1 Hcov1) as [_ Hdmax].
  pose proof (covered_range _ _ _ _ Hok1 Htc) as [Ht0 Htmax].
  destruct (make_table_steps st dir i t st1 Hi Hd0 Hdmax Ht0 Htm Htmax ltac:(lia) Hk)
    as (m' & Hmk & E1 & E2 & E3 & E4 & Hfr).
  assert (Hother : ∀ j, 0 <= j < 1024 → j ≠ i →
    load m' (dir + 4 * j) = load (mem st) (dir + 4 * j) ∧
    load m' (dir + 4096 + 4 * j) = load (mem st) (dir + 4096 + 4 * j)).
  { intros j Hj Hji. rewrite !Hfr by lia. rewrite !Hmem by lia. done. }
  assert (Hnew : ∀ j, 0 <= j < 1024 → table_of (mem st) dir j ≠ NULL →
    covered st bs (table_of (mem st) dir j) 4096 ∧
    (table_of (mem st) dir j + 4096 <= t ∨ t + 4096 <= table_of (mem st) dir j)).
  { intros j Hj Hj0. destruct (Hslot j Hj) as [[? _]|(_ & _ & Hjc & _)]; [done |].
    split; [done |]. by destruct (Hc1 _ _ Hjc ltac:(lia)) as (_ & H & _). }
  assert (Hok2 : heap_ok (set_mem m' st1) bs').
  { set (mid := store (dir + 4 * i) t (store (dir + 4096 + 4 * i) (load m' (dir + 4096 + 4 * i)) (mem st1))).
    assert (heap_ok (set_mem mid st1) bs').
    { eapply client_covered; [done | exact Hcov1 |]. intros x Hx. unfold mid.
      rewrite !load_store_ne by lia. done. }
    apply (client_covered (set_mem mid st1) bs' t 4096 m'); [done | by apply covered_set_mem |].
    intros x Hx. simpl. unfold mid. destruct (Z.eq_dec x (dir + 4 * i)) as [->|];
      [by rewrite load_store_eq |]. rewrite load_store_ne by lia.
    destruct (Z.eq_dec x (dir + 4096 + 4 * i)) as [->|]; [by rewrite load_store_eq |].
    rewrite load_store_ne by lia. by apply Hfr. }
  exists (set_mem m' st1), bs'. split; [done |]. split; [| split; [exact E1 | split; [| split]]].
  - split; try done.
    + intros j Hj. destruct (Z.eq_dec j i) as [->|Hji].
      * right. unfold table_of, pde_of; simpl. rewrite E1. split_and!; try done.
        destruct Hdis; [by right | by left].
      * destruct (Hother j Hj Hji) as [F1 F2]. unfold slot_ok, table_of, pde_of; simpl. rewrite F1, F2.
        destruct (Hslot j Hj) as [H|(G1 & G2 & G3 & G4 & G5 & G6)]; [by left | right].
        destruct (Hc1 _ _ G3 ltac:(lia)) as (G3' & _). by split_and!.
    + unfold table_of; simpl. intros j k Hj Hk' Hjk.
      destruct (Z.eq_dec j i) as [->|Hji]; destruct (Z.eq_dec k i) as [->|Hki]; try done.
      * rewrite E1, (proj1 (Hother k Hk' Hki)). intros _ E.
        destruct (Hnew k Hk') as [_ Hd]; unfold table_of in *; [congruence | lia].
      * rewrite E1, (proj1 (Hother j Hj Hji)). intros H0 E.
        destruct (Hnew j Hj H0) as [_ Hd]. unfold table_of in *. lia.
      * rewrite (proj1 (Hother j Hj Hji)), (proj1 (Hother k Hk' Hki)).
        exact (Hinj j k Hj Hk' Hjk).
  - intros j Hj Hji. apply (Hother j Hj Hji).
  - intros v Hv. unfold is_u32 in Hv. assert (Hj : 0 <= v / 4194304 < 1024) by lia. unfold walk. simpl.
    destruct (Z.eq_dec (v / 4194304) i) as [Hvi|Hvi].
    + rewrite Hvi, E2, E3. simpl. rewrite E4 by lia.
      destruct (Hslot i Hi) as [[_ H]|[H _]]; unfold pde_of, NULL in *; [by rewrite H | lia].
    + destruct (Hother _ Hj Hvi) as [F1 F2]. rewrite F2.
      destruct (Hslot _ Hj) as [[_ H]|(G1 & G2 & G3 & G4 & G5 & G6)]; unfold pde_of in *; [by rewrite H |].
      rewrite G5, G6. simpl. destruct (Hc1 _ _ G3 ltac:(lia)) as (_ & Hd & Hm).
      rewrite Hfr by lia. rewrite Hm by lia. done.
  - intros r k Hr. destruct (Hl1 r k Hr) as (Hr' & Hd & Hm). split; [exact Hr' |]. split; [done |].
    intros x Hx Hxd. simpl. rewrite Hfr by lia. by apply Hm.
Qed.

(** The four assignments to one page entry. *)
Lemma write_page st bs dir i e phys flags :
  dir_ok st bs dir → 0 <= i < 1024 → 0 <= e < 1024 → table_of (mem st) dir i ≠ NULL →
  let entry m := page_slot (load m (table_slot dir i)) e in
  let m := mem st in
  let m := update_entry (entry m) (set_frame (Z.shiftr phys 12)) m in
  let m := update_entry (entry m) (set_present (flag_bit flags 1)) m in
  let m := update_entry (entry m) (set_rw (flag_bit flags 2)) m in
  let m := update_entry (entry m) (set_user (flag_bit flags 4)) m in
  ∃ w, m = store (table_of (mem st) dir i + 4 * e) w (mem st) ∧
    present w = flag_bit flags 1 ∧ frame w = phys / 4096 mod 1048576.
Proof.
  intros [Hok [Hd0 Hdm] Hcov Hslot _] Hi He Hne.
  destruct (Hslot i Hi) as [[? _]|(Ht & Htm & Htc & Htd & _)]; [done |].
  pose proof (covered_range _ _ _ _ Hok Htc) as [_ Htmax].
  pose proof (covered_range _ _ _ _ Hok Hcov) as [_ Hdmax].
  unfold table_slot, page_slot, update_entry. cbv zeta.
  rewrite (u32_small (dir + 4 * i)) by (unfold is_u32; lia). fold (table_of (mem st) dir i).
  set (t := table_of (mem st) dir i) in *.
  rewrite (u32_small (t + 4 * e)) by (unfold is_u32; lia).
  assert (Hl : ∀ v, load (store (t + 4 * e) v (mem st)) (dir + 4 * i) = t).
  { intros v. rewrite load_store_ne by lia. done. }
  do 3 (rewrite !Hl; rewrite ?(u32_small (t + 4 * e)) by (unfold is_u32; lia);
        rewrite !store_store, ?load_store_eq).
  eexists. split; [reflexivity |]. autorewrite with solix.
  rewrite Z.shiftr_div_pow2 by lia. split; [| done].
  unfold flag_bit. by destruct (_ =? 0).
Qed.

(** ** [map_page] *)

(** What the walk answers after [virt]'s page has been mapped. *)
Definition mapped (m : memory) (pd virt phys flags v : Z) : option Z :=
  if v / 4096 =? virt / 4096
  then (if flag_bit flags 1 =? 0 then None else Some (phys / 4096 * 4096 + v mod 4096))
  else walk m pd v.

Lemma map_page_present st bs dir virt phys flags :
  dir_ok st bs dir → is_u32 virt → is_u32 phys →
  table_of (mem st) dir (virt / 4194304) ≠ NULL →
  ∃ st', map_page dir virt phys flags st = Ok (tt, st') ∧ dir_ok st' bs dir ∧
    (∀ j, 0 <= j < 1024 → table_of (mem st') dir j = table_of (mem st) dir j) ∧
    (∀ v, is_u32 v → walk (mem st') (dir + 4096) v =
                     mapped (mem st) (dir + 4096) virt phys flags v) ∧
    keeps_live st bs dir st' bs.
Proof.
  intros Hdir Hv Hp Hne. pose proof Hdir as [Hok [Hd0 Hdm] Hcov _ _].
  unfold is_u32 in Hv, Hp. unfold map_page, PAGE_SIZE, PAGE_ENTRIES.
  replace (virt / 4096 / 1024) with (virt / 4194304) by lia.
  assert (Hi : 0 <= virt / 4194304 < 1024) by lia.
  assert (He : 0 <= virt / 4096 mod 1024 < 1024) by lia.
  pose proof (covered_range _ _ _ _ Hok Hcov) as [_ Hdmax].
  assert (Hts : load (mem st) (table_slot dir (virt / 4194304)) = table_of (mem st) dir (virt / 4194304)).
  { unfold table_slot. by rewrite u32_small by (unfold is_u32; lia). }
  rewrite Hts. apply Z.eqb_neq in Hne as Hne'. rewrite Hne'.
  unfold mbind, outcome_bind. destruct (write_page st bs dir _ _ phys flags Hdir Hi He Hne)
    as (w & Hw & Hw1 & Hw2). cbv zeta in Hw |- *. rewrite Hw. clear Hw.
  destruct (dir_ok_store st bs dir _ _ w Hdir Hi He Hne) as (Hd' & Ht' & Hwalk). cbv zeta in Hwalk.
  eexists. split; [reflexivity |]. split; [exact Hd' |]. split; [intros j Hj; apply Ht', Hj |]. split.
  - intros v Hv'. rewrite (Hwalk v Hv'), Hw1, Hw2. unfold mapped.
    replace (virt / 4194304 * 1024 + virt / 4096 mod 1024) with (virt / 4096) by lia.
    replace (phys / 4096 mod 1048576) with (phys / 4096) by lia. done.
  - intros r k Hr. split; [exact Hr |]. intros x Hx [_ Hun]. simpl.
    apply load_store_ne. specialize (Hun _ Hi Hne). lia.
Qed.

Lemma map_page_make st dir virt phys flags :
  0 < dir → dir + 8196 < 4294967296 → is_u32 virt →
  table_of (mem st) dir (virt / 4194304) = NULL →
  ∀ st', make_table dir (virt / 4194304) st = Ok (tt, st') →
  table_of (mem st') dir (virt / 4194304) ≠ NULL →
  map_page dir virt phys flags st = map_page dir virt phys flags st'.
Proof.
  intros Hd0 Hdmax Hv Hnull st' Hmk Hne. unfold is_u32 in Hv.
  unfold map_page, PAGE_SIZE, PAGE_ENTRIES.
  replace (virt / 4096 / 1024) with (virt / 4194304) by lia.
  assert (Hts : ∀ m, load m (table_slot dir (virt / 4194304)) = table_of m dir (virt / 4194304)).
  { intros m. unfold table_slot. by rewrite u32_small by (unfold is_u32; lia). }
  rewrite !Hts, Hnull, Hmk. apply Z.eqb_neq in Hne. by rewrite Hne.
Qed.

Lemma map_page_cases st bs dir virt phys flags :
  dir_ok st bs dir → is_u32 virt → is_u32 phys →
  (∃ st' bs', map_page dir virt phys flags st = Ok (tt, st') ∧ dir_ok st' bs' dir ∧
     (∀ v, is_u32 v → walk (mem st') (dir + 4096) v =
                      mapped (mem st) (dir + 4096) virt phys flags v) ∧
     keeps_live st bs dir st' bs' ∧
     (∀ j r k, 0 <= j < 1024 → table_of (mem st') dir j ≠ NULL → live st bs r k →
        table_of (mem st') dir j = table_of (mem st) dir j ∨
        (r + k <= table_of (mem st') dir j ∨ table_of (mem st') dir j + 4096 <= r))) ∨
  (table_of (mem st) dir (virt / 4194304) = NULL ∧
   ∃ st', kmalloc_aligned 4096 PAGE_SIZE st = Ok (NULL, st')).
Proof.
  intros Hdir Hv Hp. destruct (decide (table_of (mem st) dir (virt / 4194304) = NULL)) as [Hnull|Hne].
  2:{ left. destruct (map_page_present st bs dir virt phys flags Hdir Hv Hp Hne)
        as (st' & Hm & Hd & Ht & Hw & Hk).
      exists st', bs. split_and!; try done. intros j r k Hj _ _. left. by apply Ht. }
  pose proof Hdir as [Hok [Hd0 Hdm] Hcov _ _].
  pose proof (covered_range _ _ _ _ Hok Hcov) as [_ Hdmax].
  destruct (kmalloc_aligned_cases 4096 12 st bs Hok ltac:(lia) ltac:(lia) ltac:(lia))
    as [(st' & Hk & _)|(t & st1 & bs1 & q1 & n1 & Hk & _)].
  { right. split; [done |]. by exists st'. }
  destruct (decide (t = NULL)) as [->|Ht]; [right; split; [done | by exists st1] | left].
  assert (Hi : 0 <= virt / 4194304 < 1024) by (unfold is_u32 in Hv; lia).
  destruct (make_table_ok st bs dir _ t st1 Hdir Hi Hnull Hk Ht)
    as (st2 & bs2 & Hmk & Hd2 & Ht2 & Hto & Hw2 & Hl2).
  assert (Hne : table_of (mem st2) dir (virt / 4194304) ≠ NULL) by congruence.
  destruct (map_page_present st2 bs2 dir virt phys flags Hd2 Hv Hp Hne)
    as (st3 & Hm & Hd3 & Ht3 & Hw3 & Hk3).
  exists st3, bs2. split_and!.
  - by rewrite (map_page_make st dir virt phys flags Hd0 Hdmax Hv Hnull st2 Hmk Hne).
  - done.
  - intros v Hv'. rewrite (Hw3 v Hv'). unfold mapped. by rewrite (Hw2 v Hv').
  - intros r k Hr. destruct (Hl2 r k Hr) as (Hr2 & Hdis & Hm2). destruct (Hk3 r k Hr2) as [Hr3 Hm3].
    split; [done |]. intros x Hx [Hx1 Hx2]. rewrite Hm3; [by apply Hm2 | done |].
    split; [done |]. intros j Hj Hj0. destruct (Z.eq_dec j (virt / 4194304)) as [->|Hji].
    + rewrite Ht2. lia.
    + rewrite (Hto j Hj Hji) in *. by apply Hx2.
  - intros j r k Hj Hj0 Hr. rewrite (Ht3 j Hj) in *.
    destruct (Z.eq_dec j (virt / 4194304)) as [->|Hji]; [| left; by apply Hto].
    right. rewrite Ht2. by destruct (Hl2 r k Hr) as (_ & Hdis & _).
Qed.

(** C6. On a well-formed page directory [map_page] maps exactly one page: it
    returns, the directory and the heap are well formed again, the processor's
    walk sends every address of the page to the given frame at the same offset
    (or faults, when the present flag is clear), and every other address is
    translated as before.  The one exception is that no memory is left for a
    page table. *)
Theorem map_page_translates st bs dir virt phys flags :
  dir_ok st bs dir → is_u32 virt → is_u32 phys →
  (∃ st' bs', map_page dir virt phys flags st = Ok (tt, st') ∧ dir_ok st' bs' dir ∧
     ∀ v, is_u32 v → walk (mem st') (dir + 4096) v =
       if v / 4096 =? virt / 4096
       then (if flag_bit flags 1 =? 0 then None else Some (phys / 4096 * 4096 + v mod 4096))
       else walk (mem st) (dir + 4096) v) ∨
  (table_of (mem st) dir (virt / 4194304) = NULL ∧
   ∃ st', kmalloc_aligned 4096 PAGE_SIZE st = Ok (NULL, st')).
Proof.
  intros Hdir Hv Hp.
  destruct (map_page_cases st bs dir virt phys flags Hdir Hv Hp)
    as [(st' & bs' & Hm & Hd & Hw & _)|H]; [left | by right].
  exists st', bs'. by split_and!.
Qed.

(** [unmap_page] removes exactly one page from the translation. *)
Theorem unmap_page_translates st bs dir virt :
  dir_ok st bs dir → is_u32 virt →
  ∃ st', unmap_page dir virt st = Ok (tt, st') ∧ dir_ok st' bs dir ∧
    ∀ v, is_u32 v → walk (mem st') (dir + 4096) v =
      if v / 4096 =? virt / 4096 then None else walk (mem st) (dir + 4096) v.
Proof.
  intros Hdir Hv. unfold is_u32 in Hv. pose proof Hdir as [Hok [Hd0 Hdm] Hcov Hslot _].
  pose proof (covered_range _ _ _ _ Hok Hcov) as [_ Hdmax].
  assert (Hi : 0 <= virt / 4194304 < 1024) by lia.
  assert (He : 0 <= virt / 4096 mod 1024 < 1024) by lia.
  unfold unmap_page, PAGE_SIZE, PAGE_ENTRIES.
  replace (virt / 4096 / 1024) with (virt / 4194304) by lia.
  unfold table_slot. rewrite u32_small by (unfold is_u32; lia).
  fold (table_of (mem st) dir (virt / 4194304)).
  destruct (Z.eqb_spec (table_of (mem st) dir (virt / 4194304)) NULL) as [E|Hne].
  - exists st. split_and!; [done | done |]. intros v Hv'.
    destruct (Z.eqb_spec (v / 4096) (virt / 4096)) as [Hvv|]; [| done].
    unfold walk. replace (v / 4194304) with (virt / 4194304) by lia.
    destruct (Hslot _ Hi) as [[_ H]|[H _]]; [| unfold NULL in *; lia].
    unfold pde_of in H. by rewrite H.
  - destruct (Hslot _ Hi) as [[? _]|(Ht & _ & Htc & _)]; [done |].
    pose proof (covered_range _ _ _ _ Hok Htc) as [_ Htmax].
    unfold page_slot. rewrite u32_small by (unfold is_u32; lia). unfold update_entry.
    set (w := set_present 0 _).
    destruct (dir_ok_store st bs dir _ _ w Hdir Hi He Hne) as (Hd' & _ & Hwalk). cbv zeta in Hwalk.
    eexists. split; [reflexivity |]. split; [exact Hd' |].
    intros v Hv'. rewrite (Hwalk v Hv').
    replace (virt / 4194304 * 1024 + virt / 4096 mod 1024) with (virt / 4096) by lia.
    unfold w. by rewrite present_set_present.
Qed.
