(* ===== verification/PagingInit.v ===== *)
(** * Setting up paging (src/kernel/mm.c): [paging_init] and [mm_init] *)
From S2P Require Import Prelude Heap HeapSpec HeapAlloc HeapFree HeapAligned Frames Paging.

(** ** Room in the heap *)

(** Some free block has at least [n] bytes. *)
Definition has_room (bs : list ablock) (n : Z) : Prop := ∃ b, b ∈ bs ∧ fits n b.

(** A heap with room for more than the request serves it, and keeps the rest. *)
Lemma kmalloc_room size st bs n :
  heap_ok st bs → 0 < size <= 4294967292 → has_room bs n → round_size size + 40 < n →
  ∃ p st' bs', kmalloc size st = Ok (p, st') ∧ p ≠ NULL ∧ heap_ok st' bs' ∧
    has_room bs' (n - round_size size - HDR).
Proof.
  intros Hok Hsz (b0 & Hb0 & Hfree & Hn) Hroom.
  destruct (kmalloc_cases size st bs Hok Hsz)
    as [(pre & b & post & st' & -> & Hbf & Hk & (Hok' & _))|[Hnone _]].
  2:{ exfalso. apply (Hnone b0 Hb0). split; [done | lia]. }
  destruct (heap_ok_block _ _ _ _ Hok) as (He & _). pose proof (ok_range _ _ Hok) as [Hr _].
  destruct (round_size_spec size Hsz) as (_ & H16 & _).
  eexists _, st', _. split; [exact Hk |]. split; [unfold NULL, HDR; lia |]. split; [exact Hok' |].
  assert (Hcase : b0 ∈ pre ∨ b0 = b ∨ b0 ∈ post) by (by apply elem_of_app in Hb0 as [?|[?|?]%elem_of_cons]; auto).
  destruct Hcase as [Hin|[->|Hin]].
  - exists b0. split; [rewrite elem_of_app; by left |]. split; [done | unfold HDR; lia].
  - unfold carve. destruct (Z.ltb_spec (round_size size + HDR + 16) (a_size b)) as [_|Hge];
      [| unfold HDR in *; lia].
    eexists (fresh_block _ _ (a_size b - round_size size - HDR) false).
    split; [| split; [done | simpl; unfold HDR; lia]].
    rewrite elem_of_app. right. rewrite elem_of_app. left. rewrite !elem_of_cons. right. by left.
  - exists b0. split; [rewrite !elem_of_app; by right; right |]. split; [done | unfold HDR; lia].
Qed.

Lemma has_room_le bs n n' : has_room bs n → n' <= n → has_room bs n'.
Proof. intros (b & Hb & Hf & Hn) Hle. exists b. split; [done |]. split; [done | lia]. Qed.

(** The same for aligned allocations, with what they leave in place. *)
Lemma kmalloc_aligned_room size k st bs n :
  heap_ok st bs → 0 < size → 0 <= k → size + 2 ^ k + 7 <= 4294967292 →
  has_room bs n → size + 2 ^ k + 64 < n →
  ∃ p st' bs', kmalloc_aligned size (2 ^ k) st = Ok (p, st') ∧ p ≠ NULL ∧
    heap_ok st' bs' ∧ covered st' bs' p size ∧ p mod 2 ^ k = 0 ∧
    has_room bs' (n - (size + 2 ^ k + 64)) ∧
    (∀ r j, live st bs r j → live st' bs' r j ∧ (r + j <= p ∨ p + size <= r) ∧
       ∀ x, r <= x < r + j → load (mem st') x = load (mem st) x).
Proof.
  intros Hok Hsz Hk Hb Hroom Hn. pose proof (Z.pow_pos_nonneg 2 k ltac:(lia) Hk) as Hpos.
  pose proof (round_size_spec (size + 2 ^ k + 7) ltac:(lia)) as Hrs.
  pose proof (round_size_eq (size + 2 ^ k + 7) ltac:(lia)) as Hre.
  destruct (kmalloc_room (size + 2 ^ k + 7) st bs n Hok ltac:(lia) Hroom ltac:(lia))
    as (q & st1 & bs1 & Hm & Hq & Hok1 & Hroom1).
  pose proof (kmalloc_aligned_steps _ _ _ _ _ _ Hok Hsz Hk Hb Hm) as Hst.
  destruct (Z.eqb_spec q NULL) as [|_]; [done |]. destruct Hst as (p & Hka & Hal & Hp).
  destruct (kmalloc_live (size + 2 ^ k + 7) _ _ _ _ Hok ltac:(lia) Hm Hq)
    as (bs' & c & Hok1' & Hl1 & Hc & _ & Hlo & Hhi & Hfr).
  rewrite <- (heap_ok_functional _ _ _ Hok1 Hok1') in *.
  destruct (aligned_stores st1 bs1 q c p k Hok1 Hl1 ltac:(lia)) as [Hok2 Hl2].
  exists p. eexists. exists bs1. split; [exact Hka |].
  pose proof (ok_range _ _ Hok) as [Hr _]. unfold NULL, HDR in *.
  split_and!; [lia | done | | done | | ].
  - exists q, c. split_and!; [exact Hl2 | lia | lia].
  - eapply has_room_le; [exact Hroom1 | lia].
  - intros r j Hrj. destruct (Hfr r j Hrj) as (Hr1 & Hdis & Hmem).
    split_and!; [exact Hr1 | lia |]. intros x Hx. simpl. rewrite !load_store_ne by lia. by apply Hmem.
Qed.

(** ** The clearing loops *)
Lemma clear_words_spec base : ∀ n i m,
  0 <= base → 0 <= i → base + 4 * (i + Z.of_nat n) <= 4294967296 →
  (∀ x, x < base + 4 * i ∨ base + 4 * (i + Z.of_nat n) <= x →
     load (clear_words n i base m) x = load m x) ∧
  (∀ j, i <= j < i + Z.of_nat n → load (clear_words n i base m) (base + 4 * j) = 0).
Proof.
  induction n as [|n IH]; intros i m Hb Hi Hn; simpl; [split; [done | lia] |].
  rewrite u32_small by (unfold is_u32; lia). set (m1 := store _ _ m).
  destruct (IH (i + 1) m1 Hb ltac:(lia) ltac:(lia)) as [Hfr Hz]. split.
  - intros x Hx. rewrite Hfr by lia. unfold m1. apply load_store_ne. lia.
  - intros j Hj. destruct (Z.eq_dec j i) as [->|]; [| apply Hz; lia].
    rewrite Hfr by lia. unfold m1. apply load_store_eq.
Qed.

Lemma clear_directory_spec dir : ∀ n i m,
  0 < dir → dir + 8196 < 4294967296 → 0 <= i → i + Z.of_nat n <= 1024 →
  let m' := clear_directory n i dir m in
  (∀ x, x < dir ∨ dir + 8192 <= x → load m' x = load m x) ∧
  (∀ j, 0 <= j < i → load m' (dir + 4 * j) = load m (dir + 4 * j) ∧
                      load m' (dir + 4096 + 4 * j) = load m (dir + 4096 + 4 * j)) ∧
  (∀ j, i <= j < i + Z.of_nat n →
     load m' (dir + 4 * j) = NULL ∧ present (load m' (dir + 4096 + 4 * j)) = 0).
Proof.
  induction n as [|n IH]; intros i m Hd Hdm Hi Hn; simpl; [split_and!; [done | done | lia] |].
  unfold update_entry, table_slot, dir_entry. rewrite !u32_small by (unfold is_u32; lia).
  rewrite !load_store_eq, !store_store. rewrite load_store_ne by lia.
  set (e := set_user _ _). set (m1 := store _ e _).
  destruct (IH (i + 1) m1 Hd Hdm ltac:(lia) ltac:(lia)) as (Hfr & Hlo & Hz). split_and!.
  - intros x Hx. rewrite Hfr by done. unfold m1. rewrite !load_store_ne by lia. done.
  - intros j Hj. destruct (Hlo j ltac:(lia)) as [-> ->]. unfold m1. rewrite !load_store_ne by lia. done.
  - intros j Hj. destruct (Z.eq_dec j i) as [->|]; [| apply Hz; lia].
    destruct (Hlo i ltac:(lia)) as [-> ->]. unfold m1. rewrite load_store_eq.
    rewrite load_store_ne, load_store_eq by lia. unfold e. by autorewrite with solix.
Qed.

(** ** The identity mapping *)
Lemma identity_map_present dir : ∀ n i st bs,
  dir_ok st bs dir → table_of (mem st) dir 0 ≠ NULL → 0 <= i → i + Z.of_nat n <= 1024 →
  ∃ st', identity_map n i dir st = Ok (tt, st') ∧ dir_ok st' bs dir ∧
    (∀ j, 0 <= j < 1024 → table_of (mem st') dir j = table_of (mem st) dir j) ∧
    (∀ v, is_u32 v → walk (mem st') (dir + 4096) v =
       if (i <=? v / 4096) && (v / 4096 <? i + Z.of_nat n) then Some v
       else walk (mem st) (dir + 4096) v) ∧
    keeps_live st bs dir st' bs.
Proof.
  induction n as [|n IH]; intros i st bs Hdir Hne Hi Hn; simpl.
  { exists st. split_and!; try done. intros v Hv.
    destruct (Z.leb_spec i (v / 4096)), (Z.ltb_spec (v / 4096) (i + Z.of_nat 0)); simpl; try done; lia. }
  destruct (map_page_present st bs dir (i * PAGE_SIZE) (i * PAGE_SIZE) 3 Hdir
    ltac:(unfold is_u32, PAGE_SIZE; lia) ltac:(unfold is_u32, PAGE_SIZE; lia))
    as (st1 & Hm & Hd1 & Ht1 & Hw1 & Hk1).
  { replace (i * PAGE_SIZE / 4194304) with 0 by (unfold PAGE_SIZE; lia). done. }
  rewrite Hm. unfold mbind, outcome_bind.
  destruct (IH (i + 1) st1 bs Hd1 ltac:(rewrite Ht1 by lia; done) ltac:(lia) ltac:(lia))
    as (st2 & Hm2 & Hd2 & Ht2 & Hw2 & Hk2).
  exists st2. split_and!; [done | done | | |].
  - intros j Hj. by rewrite Ht2, Ht1.
  - intros v Hv. rewrite (Hw2 v Hv), (Hw1 v Hv). unfold mapped, PAGE_SIZE.
    replace (i * 4096 / 4096) with i by lia.
    destruct (Z.leb_spec i (v / 4096)), (Z.leb_spec (i + 1) (v / 4096)),
      (Z.ltb_spec (v / 4096) (i + 1 + Z.of_nat n)), (Z.ltb_spec (v / 4096) (i + Z.of_nat (S n))),
      (Z.eqb_spec (v / 4096) i); simpl; try done; try lia.
    f_equal. lia.
  - intros r k Hr. destruct (Hk1 r k Hr) as [Hr1 Hx1]. destruct (Hk2 r k Hr1) as [Hr2 Hx2].
    split; [done |]. intros x Hx Hun. rewrite Hx2; [by apply Hx1 | done |].
    destruct Hun as [Hun1 Hun2]. split; [done |]. intros j Hj. rewrite Ht1 by done. by apply Hun2.
Qed.

Lemma identity_map_S n i dir st :
  identity_map (S n) i dir st =
  ('(_, st) ← map_page dir (i * PAGE_SIZE) (i * PAGE_SIZE) 3 st; identity_map n (i + 1) dir st).
Proof. done. Qed.

(** Mapping the first 4 MB through a directory whose first slot is empty. *)
Lemma identity_map_fresh st bs dir n :
  dir_ok st bs dir → (∀ i, 0 <= i < 1024 → table_of (mem st) dir i = NULL) →
  has_room bs n → 9000 < n →
  ∃ st' bs', identity_map 1024 0 dir st = Ok (tt, st') ∧ dir_ok st' bs' dir ∧
    (∀ v, is_u32 v → walk (mem st') (dir + 4096) v = if v <? 4194304 then Some v else None) ∧
    (∀ r k, live st bs r k → live st' bs' r k ∧
       ∀ x, r <= x < r + k → x < dir ∨ dir + 8196 <= x → load (mem st') x = load (mem st) x).
Proof.
  intros Hdir Hempty Hroom Hn. pose proof Hdir as [Hok [Hd0 Hdm] Hcov Hslot _].
  pose proof (covered_range _ _ _ _ Hok Hcov) as [_ Hdmax].
  destruct (kmalloc_aligned_room 4096 12 st bs n Hok ltac:(lia) ltac:(lia) ltac:(lia) Hroom ltac:(lia))
    as (t & st1 & bs1 & Hk & Ht & _).
  destruct (make_table_ok st bs dir 0 t st1 Hdir ltac:(lia) ltac:(by apply Hempty) Hk Ht)
    as (st2 & bs2 & Hmk & Hd2 & Ht2 & Hto & Hw2 & Hl2).
  assert (Hne : table_of (mem st2) dir 0 ≠ NULL) by congruence.
  destruct (identity_map_present dir 1024 0 st2 bs2 Hd2 Hne ltac:(lia) ltac:(lia))
    as (st3 & Hm & Hd3 & _ & Hw3 & Hk3).
  exists st3, bs2. split_and!; [| done | |].
  - rewrite <- Hm. change 1024%nat with (S 1023). rewrite !identity_map_S.
    by rewrite (map_page_make st dir (0 * PAGE_SIZE) (0 * PAGE_SIZE) 3 Hd0 Hdmax
      ltac:(unfold is_u32, PAGE_SIZE; lia) ltac:(by apply Hempty) st2 Hmk Hne).
  - intros v Hv. rewrite (Hw3 v Hv), (Hw2 v Hv). unfold is_u32 in Hv.
    destruct (Z.leb_spec 0 (v / 4096)), (Z.ltb_spec (v / 4096) (0 + Z.of_nat 1024)),
      (Z.ltb_spec v 4194304); simpl; try done; try lia.
    unfold walk. assert (Hj : 0 <= v / 4194304 < 1024) by lia.
    destruct (Hslot _ Hj) as [[_ H']|[H' _]]; [unfold pde_of in H'; by rewrite H' |].
    rewrite Hempty in H' by done. unfold NULL in *. lia.
  - intros r k Hr. destruct (Hl2 r k Hr) as (Hr2 & Hdis & Hm2). destruct (Hk3 r k Hr2) as [Hr3 Hm3].
    split; [done |]. intros x Hx Hxd. rewrite Hm3; [by apply Hm2 | done |].
    split; [done |]. intros j Hj. destruct (Z.eq_dec j 0) as [->|Hji].
    + rewrite Ht2. lia.
    + rewrite (Hto j Hj Hji), Hempty by done. done.
Qed.

(** ** [paging_init] *)

(** A directory just cleared is well formed and maps nothing. *)
Lemma clear_directory_ok st bs dir m :
  heap_ok st bs → covered st bs dir sizeof_page_directory → dir mod 4096 = 0 → 0 < dir →
  (∀ x, x < dir ∨ dir + 8196 <= x → load m x = load (mem st) x) →
  let st' := set_mem (clear_directory (Z.to_nat PAGE_ENTRIES) 0 dir m) st in
  dir_ok st' bs dir ∧ (∀ i, 0 <= i < 1024 → table_of (mem st') dir i = NULL) ∧
  ∀ x, x < dir ∨ dir + 8196 <= x → load (mem st') x = load (mem st) x.
Proof.
  intros Hok Hcov Hal Hd0 Hm st'. unfold sizeof_page_directory in Hcov.
  pose proof (covered_range _ _ _ _ Hok Hcov) as [_ Hdmax].
  destruct (clear_directory_spec dir (Z.to_nat PAGE_ENTRIES) 0 m Hd0 Hdmax ltac:(lia)
    ltac:(unfold PAGE_ENTRIES; lia)) as (Hfr & _ & Hz).
  assert (Hempty : ∀ i, 0 <= i < 1024 → table_of (mem st') dir i = NULL ∧ present (pde_of (mem st') dir i) = 0).
  { intros i Hi. apply Hz. unfold PAGE_ENTRIES. lia. }
  assert (Hframe : ∀ x, x < dir ∨ dir + 8196 <= x → load (mem st') x = load (mem st) x).
  { intros x Hx. unfold st'. cbn [mem set_mem]. rewrite Hfr by lia. by apply Hm. }
  assert (Hok' : heap_ok st' bs) by exact (client_covered st bs dir 8196 _ Hok Hcov Hframe).
  assert (Hcov' : covered st' bs dir 8196) by exact (covered_set_mem st bs dir 8196 _ Hcov).
  clearbody st'. split; [| split; [intros i Hi; by apply Hempty | exact Hframe]].
  split; [exact Hok' | done | exact Hcov' | |].
  - intros i Hi. left. by apply Hempty.
  - intros i j Hi Hj _ H. by destruct (Hempty i Hi).
Qed.

(** The [physical_addr] field is not part of the translation. *)
Lemma dir_ok_phys st bs dir v :
  dir_ok st bs dir →
  let st' := set_mem (store (dir + 8192) v (mem st)) st in
  dir_ok st' bs dir ∧
  ∀ a, is_u32 a → walk (mem st') (dir + 4096) a = walk (mem st) (dir + 4096) a.
Proof.
  intros [Hok [Hd0 Hdm] Hcov Hslot Hinj] st'.
  assert (Ht : ∀ j, 0 <= j < 1024 → table_of (mem st') dir j = table_of (mem st) dir j ∧
                    pde_of (mem st') dir j = pde_of (mem st) dir j).
  { intros j Hj. unfold table_of, pde_of, st'; simpl. by rewrite !load_store_ne by lia. }
  split; [split; try done |].
  - eapply client_covered; [done | exact Hcov |]. intros x Hx. apply load_store_ne. lia.
  - intros j Hj. unfold slot_ok. destruct (Ht j Hj) as [-> ->]. by apply Hslot.
  - intros j k Hj Hk. destruct (Ht j Hj) as [-> _], (Ht k Hk) as [-> _]. by apply Hinj.
  - intros a Ha. unfold is_u32 in Ha. assert (Hj : 0 <= a / 4194304 < 1024) by lia.
    destruct (Ht _ Hj) as [_ E]. unfold walk. unfold pde_of in E. rewrite E.
    destruct (Hslot _ Hj) as [[_ H]|(_ & _ & _ & G4 & G5 & G6)]; unfold pde_of in *; [by rewrite H |].
    rewrite G5, G6. simpl. rewrite load_store_ne by lia. done.
Qed.

Lemma frames_ok_empty st :
  0 < total_frames st <= 1048576 → 0 < frame_bitmap st →
  frame_bitmap st + 4 * ((total_frames st + 31) / 32) <= 4294967296 →
  last_alloc_frame st = 0 → used_frames st = 0 →
  (∀ i, 0 <= i < (total_frames st + 31) / 32 → load (mm_mem st) (frame_bitmap st + 4 * i) = 0) →
  frames_ok st ∅.
Proof.
  intros Ht Hb Hbm Hl Hu Hz. split; try done; try lia.
  - intros f. split; [set_solver |]. intros [Hf Hbit]. exfalso.
    unfold frame_bit, bitmap_word in Hbit. rewrite u32_small in Hbit by (unfold is_u32; lia).
    rewrite Hz, Z.bits_0 in Hbit by lia. done.
  - intros i Hi. unfold bitmap_word. rewrite u32_small, Hz by (unfold is_u32; lia). unfold is_u32. lia.
Qed.

Lemma paging_init_cases mem_size st bs :
  heap_ok (heap st) bs → has_room bs 262144 → 4194304 <= mem_size < 4294967296 →
  Z.land (cr0 st) 0x80000000 = 0 →
  ∃ st' bs', paging_init mem_size st = Ok (tt, st') ∧
    heap_ok (heap st') bs' ∧ frames_ok st' ∅ ∧ total_frames st' = mem_size / 4096 ∧
    dir_ok (heap st') bs' (current_directory st') ∧
    (∀ v, is_u32 v → walk (mm_mem st') (current_directory st' + 4096) v =
                     if v <? 4194304 then Some v else None) ∧
    cr3 st' = cr3 st ∧ cr0 st' = Z.lor (cr0 st) 0x80000000.
Proof.
  intros Hok Hroom Hms Hcr. unfold paging_init, PAGE_SIZE.
  destruct (Z.ltb_spec mem_size (4 * 1024 * 1024)); [lia |].
  set (frames := mem_size / 4096). set (bsz := (frames + 31) / 32 * 4).
  assert (Hbsz : 0 < bsz <= 131072) by (unfold bsz, frames; lia).
  pose proof (round_size_eq bsz ltac:(lia)) as Hre.
  destruct (kmalloc_room bsz (heap st) bs 262144 Hok ltac:(lia) Hroom ltac:(lia))
    as (bm & h1 & bs1 & Hk1 & Hbm0 & Hok1 & Hroom1).
  destruct (kmalloc_live bsz _ _ _ _ Hok ltac:(lia) Hk1 Hbm0)
    as (bs1' & c & Hok1' & Hl1 & Hc & _ & Hlo & Hhi & _).
  rewrite <- (heap_ok_functional _ _ _ Hok1 Hok1') in *. clear bs1' Hok1'.
  pose proof (ok_range _ _ Hok) as [Hr1 Hr2].
  rewrite Hk1. unfold mbind, outcome_bind. apply Z.eqb_neq in Hbm0 as ->.
  destruct (clear_words_spec bm (Z.to_nat (bsz / 4)) 0 (mem h1) ltac:(unfold HDR in *; lia)
    ltac:(lia) ltac:(lia)) as [Hcfr Hcz].
  set (h2 := set_mem (clear_words _ _ _ _) h1).
  assert (Hok2 : heap_ok h2 bs1).
  { eapply client_region; [done | exact Hl1 |]. intros x Hx. apply Hcfr. lia. }
  destruct (kmalloc_aligned_room sizeof_page_directory 12 h2 bs1 (262144 - round_size bsz - HDR)
    Hok2 ltac:(unfold sizeof_page_directory; lia) ltac:(lia) ltac:(unfold sizeof_page_directory; lia)
    Hroom1 ltac:(unfold sizeof_page_directory, HDR; lia))
    as (dir & h3 & bs3 & Hk3 & Hd0 & Hok3 & Hcov3 & Hal3 & Hroom3 & Hfr3).
  change (2 ^ 12) with 4096 in Hk3, Hal3. rewrite Hk3. apply Z.eqb_neq in Hd0 as Hd0'. rewrite Hd0'.
  destruct (Hfr3 bm c Hl1) as (Hl3 & Hdis3 & Hmem3).
  pose proof (covered_range _ _ _ _ Hok3 Hcov3) as [Hdpos Hdmax]. unfold sizeof_page_directory in Hdmax.
  assert (Hphys : physical_addr dir = dir + 8192) by (unfold physical_addr; apply u32_small; unfold is_u32; lia).
  rewrite Hphys.
  destruct (clear_directory_ok h3 bs3 dir (store (dir + 8192) dir (mem h3)) Hok3 Hcov3 Hal3 Hdpos)
    as (Hdir4 & Hempty4 & Hfr4); [intros x Hx; apply load_store_ne; lia |].
  set (h4 := set_mem _ h3) in *.
  destruct (identity_map_fresh h4 bs3 dir _ Hdir4 Hempty4 Hroom3
    ltac:(unfold sizeof_page_directory, HDR; lia)) as (h5 & bs5 & Hm5 & Hdir5 & Hw5 & Hl5).
  rewrite Hm5. cbv beta iota zeta. cbn [mem set_mem]. rewrite load_store_eq, Hcr.
  change (negb (0 =? 0)) with false. cbv iota.
  destruct (Hl5 bm c Hl3) as [_ Hmem5].
  destruct (dir_ok_phys h5 bs5 dir (cr3 st) Hdir5) as [Hdir6 Hw6].
  set (h6 := set_mem (store (dir + 8192) (cr3 st) (mem h5)) h5) in *.
  assert (Hbits : ∀ i, 0 <= i < (frames + 31) / 32 → load (mem h6) (bm + 4 * i) = 0).
  { clear - Hcz Hmem5 Hfr4 Hmem3 Hdis3 Hc. intros i Hi. unfold h6, bsz, sizeof_page_directory in *. cbn [mem set_mem].
    rewrite load_store_ne by lia. rewrite Hmem5 by lia. rewrite Hfr4 by lia. rewrite Hmem3 by lia.
    unfold h2. cbn [mem set_mem]. apply Hcz. lia. }
  exists (MmState h6 bm frames 0 0 dir (Z.lor (cr0 st) 0x80000000) (cr3 st)), bs5.
  split; [reflexivity |].
  clearbody h6 h2 h4. cbn [heap mm_mem total_frames current_directory cr3 cr0].
  split; [apply Hdir6 |]. split; [| split; [reflexivity | split; [exact Hdir6 | split; [| done]]]].
  - apply frames_ok_empty; cbn; [unfold frames; lia | unfold HDR in *; lia | | done | done | done].
    unfold bsz, HDR in *. lia.
  - intros v Hv. unfold mm_mem; simpl. by rewrite (Hw6 v Hv), (Hw5 v Hv).
Qed.

(** C26. [paging_init] with room in the heap and paging off: every frame is
    free, the page directory is well formed, its hardware entries translate
    the first 4 MB to themselves and nothing else, and the paging bit is set.
    The processor's CR3, however, is read into the directory and written back:
    it still holds what it held before, so the directory is never installed. *)
Theorem paging_init_ok mem_size st bs :
  heap_ok (heap st) bs → has_room bs 262144 → 4194304 <= mem_size < 4294967296 →
  Z.land (cr0 st) 0x80000000 = 0 →
  ∃ st' bs', paging_init mem_size st = Ok (tt, st') ∧
    frames_ok st' ∅ ∧ total_frames st' = mem_size / 4096 ∧
    dir_ok (heap st') bs' (current_directory st') ∧
    (∀ v, is_u32 v → walk (mm_mem st') (current_directory st' + 4096) v =
                     if v <? 4194304 then Some v else None) ∧
    cr3 st' = cr3 st ∧ cr0 st' = Z.lor (cr0 st) 0x80000000.
Proof.
  intros Hok Hroom Hms Hcr.
  destruct (paging_init_cases mem_size st bs Hok Hroom Hms Hcr)
    as (st' & bs' & H1 & _ & H2).
  exists st', bs'. split; [exact H1 | exact H2].
Qed.

(** The boot sequence of the memory manager succeeds from any memory
    content: the heap is set up after the kernel image, 32768 frames are free
    and the identity mapping is in place. *)
Theorem mm_init_ok image_end st :
  0 < image_end → image_end mod 4 = 0 → image_end + KERNEL_HEAP_SIZE < 4294967296 →
  Z.land (cr0 st) 0x80000000 = 0 →
  ∃ st' bs', mm_init image_end st = Ok (tt, st') ∧
    heap_ok (heap st') bs' ∧ kernel_heap_start (heap st') + KERNEL_HEAP_SIZE <= 4294967296 ∧
    frames_ok st' ∅ ∧ total_frames st' = 32768 ∧
    ∀ v, is_u32 v → walk (mm_mem st') (current_directory st' + 4096) v =
                    if v <? 4194304 then Some v else None.
Proof.
  intros Hi Hm Hr Hcr. unfold mm_init.
  pose proof (heap_init_cases image_end (heap st) ltac:(unfold KERNEL_HEAP_SIZE in *; lia) Hm) as H.
  apply Z.ltb_lt in Hr as Hr'. rewrite Hr' in H. destruct H as (h & -> & Hs & Hok).
  unfold mbind, outcome_bind.
  destruct (paging_init_cases (128 * 1024 * 1024) (set_heap h st) _ Hok) as
    (st' & bs' & Hp & Hok' & Hf & Ht & _ & Hw & _); [| lia | done |].
  - eexists. split; [by apply list_elem_of_here |]. split; [done |].
    simpl. unfold KERNEL_HEAP_SIZE, HDR. lia.
  - exists st', bs'. pose proof (ok_range _ _ Hok') as [_ Hr2].
    split; [exact Hp |]. split; [exact Hok' |]. split; [lia |]. split; [exact Hf |]. split; [exact Ht | exact Hw].
Qed.

(** Had the directory been installed at the address the code stores in
    [physical_addr], the processor would take the kernel's table pointers for
    hardware entries: they are page aligned, so none is marked present and
    every access faults. *)
Theorem physical_addr_faults st bs dir v :
  dir_ok st bs dir → is_u32 v → walk (mem st) dir v = None.
Proof.
  intros [_ _ _ Hslot _] Hv. unfold is_u32 in Hv. unfold walk.
  assert (Hj : 0 <= v / 4194304 < 1024) by lia.
  assert (Hp : present (load (mem st) (dir + 4 * (v / 4194304))) = 0); [| by rewrite Hp].
  fold (table_of (mem st) dir (v / 4194304)).
  destruct (Hslot _ Hj) as [[-> _]|(_ & Hal & _)]; [done |].
  unfold present, get_field. change (2 ^ 0) with 1. change (2 ^ 1) with 2. lia.
Qed.
