(* ===== verification/MmWitness.v ===== *)
(** * Concrete frame bitmaps and page directories (src/kernel/mm.c)

    The theorems on frames and paging applied to a freshly booted memory
    manager and to a small frame bitmap. *)
From S2P Require Import Prelude Heap HeapSpec HeapAlloc HeapFree HeapAligned HeapWitness.
From S2P Require Import Frames Paging PagingInit.

(** A bitmap of 40 frames at address 4096, all free. *)
Definition small_frames : mm_state := MmState heap_zero 4096 40 0 0 0 0 0.

Lemma small_frames_ok : frames_ok small_frames ∅.
Proof. apply frames_ok_empty; simpl; try done. Qed.

Lemma alloc_frame_refines_witness :
  ∃ f st', alloc_frame small_frames = Ok (f * PAGE_SIZE, st') ∧ frames_ok st' {[f]}.
Proof.
  destruct (alloc_frame_refines small_frames ∅ small_frames_ok)
    as [(f & j & st' & _ & _ & _ & _ & H & Hok & _)|[H _]].
  - exists f, st'. split; [exact H |]. by rewrite (right_id_L ∅ (∪)) in Hok.
  - exfalso. specialize (H 0 ltac:(simpl; lia)). set_solver.
Defined.

Lemma free_frame_refines_witness :
  ∃ st', free_frame (5 * PAGE_SIZE) small_frames = Ok (tt, st') ∧ used_frames st' = 4294967295.
Proof.
  destruct (free_frame_refines small_frames ∅ 5 small_frames_ok ltac:(simpl; lia)) as (st' & H & Hd).
  exists st'. split; [exact H |].
  destruct (decide (5 ∈ (∅ : gset Z))) as [Hin|_]; [set_solver | apply Hd].
Defined.

Lemma alloc_frame_zero_is_null_witness :
  ∃ st', alloc_frame small_frames = Ok (NULL, st') ∧ used_frames st' = 1.
Proof.
  destruct (alloc_frame_zero_is_null small_frames ∅ small_frames_ok eq_refl ltac:(set_solver))
    as (st' & H & Hu & _).
  by exists st'.
Defined.

(** The memory manager before [paging_init], with the heap of [boot]. *)
Definition pre_paging : mm_state := MmState boot 0 0 0 0 0 0x11 0x1000.

Lemma boot_room : has_room (blocks boot) 262144.
Proof.
  exists (cut_at boot 0). split; [| split; [by vm_compute | vm_compute; congruence]].
  replace (blocks boot) with [cut_at boot 0]; [apply list_elem_of_here | by vm_compute].
Qed.

(** A directory that maps the first 4 MB. *)
Lemma booted_dir : ∃ st bs dir, dir_ok st bs dir.
Proof.
  destruct (paging_init_cases 0x8000000 pre_paging (blocks boot) boot_ok boot_room)
    as (st' & bs' & _ & _ & _ & _ & H & _); [lia | done |].
  by exists (heap st'), bs', (current_directory st').
Qed.

Lemma map_page_translates_witness :
  ∃ st bs dir, dir_ok st bs dir ∧
    ((∃ st', map_page dir 0x400000 0x5000 3 st = Ok (tt, st') ∧
             walk (mem st') (dir + 4096) 0x400123 = Some 0x5123) ∨
     ∃ st', kmalloc_aligned 4096 PAGE_SIZE st = Ok (NULL, st')).
Proof.
  destruct booted_dir as (st & bs & dir & Hd). exists st, bs, dir. split; [done |].
  destruct (map_page_translates st bs dir 0x400000 0x5000 3 Hd ltac:(unfold is_u32; lia)
    ltac:(unfold is_u32; lia)) as [(st' & bs' & Hm & _ & Hw)|[_ H]]; [left | by right].
  exists st'. split; [done |]. rewrite Hw by (unfold is_u32; lia). reflexivity.
Defined.

Lemma unmap_page_translates_witness :
  ∃ st bs dir st', dir_ok st bs dir ∧ unmap_page dir 0x3000 st = Ok (tt, st') ∧
    walk (mem st') (dir + 4096) 0x3abc = None.
Proof.
  destruct booted_dir as (st & bs & dir & Hd).
  destruct (unmap_page_translates st bs dir 0x3000 Hd ltac:(unfold is_u32; lia)) as (st' & Hm & _ & Hw).
  exists st, bs, dir, st'. split; [done |]. split; [done |].
  rewrite Hw by (unfold is_u32; lia). reflexivity.
Defined.

Lemma paging_init_ok_witness :
  ∃ st', paging_init 0x8000000 pre_paging = Ok (tt, st') ∧ cr3 st' = 0x1000 ∧
    walk (mm_mem st') (current_directory st' + 4096) 0x12345 = Some 0x12345.
Proof.
  destruct (paging_init_ok 0x8000000 pre_paging (blocks boot) boot_ok boot_room)
    as (st' & bs' & H & _ & _ & _ & Hw & Hc & _); [lia | done |].
  exists st'. split; [exact H |]. split; [exact Hc |]. rewrite Hw by (unfold is_u32; lia). reflexivity.
Defined.

Lemma mm_init_ok_witness :
  ∃ st', mm_init image (MmState heap_zero 0 0 0 0 0 0 0) = Ok (tt, st') ∧ total_frames st' = 32768.
Proof.
  destruct (mm_init_ok image (MmState heap_zero 0 0 0 0 0 0 0))
    as (st' & bs' & H & _ & _ & _ & Ht & _); [done | done | done | done |].
  exists st'. split; [exact H | exact Ht].
Defined.

Lemma physical_addr_faults_witness :
  ∃ st bs dir, dir_ok st bs dir ∧ walk (mem st) dir 0x1000 = None.
Proof.
  destruct booted_dir as (st & bs & dir & Hd). exists st, bs, dir. split; [done |].
  apply (physical_addr_faults st bs dir 0x1000 Hd). unfold is_u32. lia.
Defined.
