(* ===== verification/Screen.v ===== *)
(** * The text screen (src/drivers/screen.c)

    The VGA text driver with its write buffer, and the proof that the buffered
    driver shows what an unbuffered terminal would. *)
From S2P Require Import Prelude.

Definition SCREEN_WIDTH : Z := 80.
Definition SCREEN_HEIGHT : Z := 25.
Definition SCREEN_SIZE : Z := SCREEN_WIDTH * SCREEN_HEIGHT.
Definition WRITE_BUFFER_SIZE : Z := 256.
Definition COLOR_LIGHT_GREY : Z := 7.
Definition COLOR_BLACK : Z := 0.

(** A C string: the bytes before the terminator.  A byte read as a [char] is
    signed. *)
Abbreviation bytes := (list Z).
Definition schar (c : Z) : Z := if c <? 128 then c else c - 256.

(** ** State *)
Record screen_stats := ScreenStats {
  chars_written : Z;
  screen_clears : Z;
  scrolls : Z;
  buffer_flushes : Z;
}.

(** [video] holds the character cells at [video_memory] (one [uint16_t] per
    cell); [wb_buffer] is the used part of [write_buffer.buffer], so that
    [write_buffer.count] is its length; [ports] lists the bytes sent to I/O
    ports, latest first. *)
Record screen := Screen {
  cursor_x : Z;
  cursor_y : Z;
  current_color : Z;
  video : memory;
  wb_buffer : list Z;
  wb_start : Z;
  scr_stats : screen_stats;
  cursor_dirty : bool;
  ports : list (Z * Z);
}.

Definition wb_count (s : screen) : Z := Z.of_nat (length (wb_buffer s)).

Definition set_cursor_pos (x y : Z) (s : screen) : screen :=
  Screen x y (current_color s) (video s) (wb_buffer s) (wb_start s) (scr_stats s)
         (cursor_dirty s) (ports s).
Definition set_video (v : memory) (s : screen) : screen :=
  Screen (cursor_x s) (cursor_y s) (current_color s) v (wb_buffer s) (wb_start s)
         (scr_stats s) (cursor_dirty s) (ports s).
Definition set_buffer (b : list Z) (start : Z) (s : screen) : screen :=
  Screen (cursor_x s) (cursor_y s) (current_color s) (video s) b start (scr_stats s)
         (cursor_dirty s) (ports s).
Definition set_dirty (d : bool) (s : screen) : screen :=
  Screen (cursor_x s) (cursor_y s) (current_color s) (video s) (wb_buffer s) (wb_start s)
         (scr_stats s) d (ports s).
Definition set_scr_stats (st : screen_stats) (s : screen) : screen :=
  Screen (cursor_x s) (cursor_y s) (current_color s) (video s) (wb_buffer s) (wb_start s)
         st (cursor_dirty s) (ports s).
Definition outb (port v : Z) (s : screen) : screen :=
  Screen (cursor_x s) (cursor_y s) (current_color s) (video s) (wb_buffer s) (wb_start s)
         (scr_stats s) (cursor_dirty s) ((port, v) :: ports s).

(** ** The write buffer *)

(** The copy loop of [flush_write_buffer]: [video_memory[pos + i] = b[i]]. *)
Fixpoint write_cells (pos : Z) (b : list Z) (v : memory) : memory :=
  match b with
  | [] => v
  | c :: b => write_cells (pos + 1) b (store pos c v)
  end.

Definition count_flush (st : screen_stats) : screen_stats :=
  ScreenStats (chars_written st) (screen_clears st) (scrolls st) (u32 (buffer_flushes st + 1)).

Definition flush_write_buffer (s : screen) : screen :=
  if wb_count s =? 0 then s else
  let s := set_video (write_cells (wb_start s) (wb_buffer s) (video s)) s in
  let s := set_buffer [] 0 s in
  set_scr_stats (count_flush (scr_stats s)) s.

Definition buffer_write_char (pos value : Z) (s : screen) : screen :=
  let s :=
    if (WRITE_BUFFER_SIZE <=? wb_count s) ||
       ((0 <? wb_count s) && negb (pos =? wb_start s + wb_count s))
    then flush_write_buffer s else s in
  let s := if wb_count s =? 0 then set_buffer (wb_buffer s) pos s else s in
  set_buffer (wb_buffer s ++ [value]) (wb_start s) s.

(** ** Clearing and scrolling, two cells at a time *)

(** [mem32[i] = fill] for [n] values of [i] from [i] on, [mem32] at cell [base]. *)
Fixpoint fill32 (n : nat) (i base fill : Z) (v : memory) : memory :=
  match n with
  | O => v
  | S n =>
    let v := store (base + 2 * i) (fill mod 65536) v in
    let v := store (base + 2 * i + 1) (fill / 65536) v in
    fill32 n (i + 1) base fill v
  end.

(** [dst[i] = src[i]], [src] one line below [dst]. *)
Fixpoint copy32 (n : nat) (i : Z) (v : memory) : memory :=
  match n with
  | O => v
  | S n =>
    let lo := load v (SCREEN_WIDTH + 2 * i) in
    let hi := load v (SCREEN_WIDTH + 2 * i + 1) in
    let v := store (2 * i) lo v in
    let v := store (2 * i + 1) hi v in
    copy32 n (i + 1) v
  end.

Definition fill_value (color : Z) : Z :=
  let fill := Z.lor (Z.shiftl color 8) 32 in
  u32 (Z.lor fill (Z.shiftl fill 16)).

Definition screen_clear (s : screen) : screen :=
  let s := flush_write_buffer s in
  let v := fill32 (Z.to_nat (SCREEN_SIZE / 2)) 0 0 (fill_value (current_color s)) (video s) in
  let s := set_dirty true (set_cursor_pos 0 0 (set_video v s)) in
  let st := scr_stats s in
  set_scr_stats (ScreenStats (chars_written st) (u32 (screen_clears st + 1)) (scrolls st)
                             (buffer_flushes st)) s.

Definition screen_scroll_up (s : screen) : screen :=
  let s := flush_write_buffer s in
  let v := copy32 (Z.to_nat ((SCREEN_HEIGHT - 1) * SCREEN_WIDTH / 2)) 0 (video s) in
  let v := fill32 (Z.to_nat (SCREEN_WIDTH / 2)) 0 ((SCREEN_HEIGHT - 1) * SCREEN_WIDTH)
                  (fill_value (current_color s)) v in
  let s := set_video v s in
  let st := scr_stats s in
  set_scr_stats (ScreenStats (chars_written st) (screen_clears st) (u32 (scrolls st + 1))
                             (buffer_flushes st)) s.

(** ** Characters *)
Definition count_char (st : screen_stats) : screen_stats :=
  ScreenStats (u32 (chars_written st + 1)) (screen_clears st) (scrolls st) (buffer_flushes st).

(** The [switch] of [screen_putc]. *)
Definition putc_switch (c : Z) (s : screen) : screen :=
  let pos := u16 (cursor_y s * SCREEN_WIDTH + cursor_x s) in
  let char_value := u16 (Z.lor (Z.shiftl (current_color s) 8) (schar c)) in
  if c =? 10 then
    let s := flush_write_buffer s in
    set_cursor_pos 0 (u8 (cursor_y s + 1)) s
  else if c =? 13 then
    let s := flush_write_buffer s in
    set_cursor_pos 0 (cursor_y s) s
  else if c =? 9 then
    let s := flush_write_buffer s in
    set_cursor_pos (u8 (Z.land (cursor_x s + 8) (Z.lnot 7))) (cursor_y s) s
  else if c =? 8 then
    let s := flush_write_buffer s in
    if 0 <? cursor_x s then
      let s := set_cursor_pos (u8 (cursor_x s - 1)) (cursor_y s) s in
      let pos := u16 (cursor_y s * SCREEN_WIDTH + cursor_x s) in
      buffer_write_char pos (u16 (Z.lor (Z.shiftl (current_color s) 8) 32)) s
    else s
  else
    let s := buffer_write_char pos char_value s in
    let s := set_cursor_pos (u8 (cursor_x s + 1)) (cursor_y s) s in
    set_scr_stats (count_char (scr_stats s)) s.

Definition screen_putc (c : Z) (s : screen) : screen :=
  let s := putc_switch c s in
  let s :=
    if SCREEN_WIDTH <=? cursor_x s then
      let s := flush_write_buffer s in
      set_cursor_pos 0 (u8 (cursor_y s + 1)) s
    else s in
  let s :=
    if SCREEN_HEIGHT <=? cursor_y s then
      let s := flush_write_buffer s in
      let s := screen_scroll_up s in
      set_cursor_pos (cursor_x s) (SCREEN_HEIGHT - 1) s
    else s in
  set_dirty true s.

Fixpoint screen_print (str : bytes) (s : screen) : screen :=
  match str with
  | [] => s
  | c :: str => screen_print str (screen_putc c s)
  end.

(** [screen_print_n] on a string given by its bytes before the terminator. *)
Definition screen_print_n (str : bytes) (max_len : Z) (s : screen) : screen :=
  screen_print (take (Z.to_nat max_len) str) s.

Definition hex_chars : bytes :=
  [48; 49; 50; 51; 52; 53; 54; 55; 56; 57; 65; 66; 67; 68; 69; 70].

(** The digits of [screen_print_hex], from bit [i] down. *)
Fixpoint hex_digits (n : nat) (value i : Z) : bytes :=
  match n with
  | O => []
  | S n => nth (Z.to_nat (Z.land (Z.shiftr value i) 15)) hex_chars 0 :: hex_digits n value (i - 4)
  end.

Definition screen_print_hex (value : Z) (s : screen) : screen :=
  let s := screen_print [48; 120] s in
  screen_print (hex_digits 8 value 28) s.

(** The loop of [screen_print_dec]: it fills [buffer] downwards from index 9;
    [acc] is the text from [i + 1] to the terminator.  A write below index 0
    is a fault. *)
Fixpoint dec_loop (fuel : nat) (value i : Z) (acc : bytes) : outcome bytes :=
  match fuel with
  | O => Diverge
  | S fuel =>
    if value <=? 0 then Ok acc else
    if i <? 0 then Fault else
    dec_loop fuel (value / 10) (i - 1) (48 + value mod 10 :: acc)
  end.

(** A [uint32_t] has at most 32 decimal digits, one per halving at least. *)
Definition dec_fuel : nat := 33.

Definition dec_string (value : Z) : outcome bytes :=
  if value =? 0 then Ok [48] else dec_loop dec_fuel value 9 [].

Definition screen_print_dec (value : Z) : cmd screen unit := λ s,
  str ← dec_string value; Ok (tt, screen_print str s).

(** ** Colour and cursor *)
Definition screen_set_color (fg bg : Z) (s : screen) : screen :=
  Screen (cursor_x s) (cursor_y s) (u8 (Z.lor fg (Z.shiftl bg 4))) (video s) (wb_buffer s)
         (wb_start s) (scr_stats s) (cursor_dirty s) (ports s).

Definition screen_update_cursor (s : screen) : screen :=
  if negb (cursor_dirty s) then s else
  let s := flush_write_buffer s in
  let pos := u16 (cursor_y s * SCREEN_WIDTH + cursor_x s) in
  let s := outb 0x3D4 0x0F s in
  let s := outb 0x3D5 (u8 (Z.land pos 255)) s in
  let s := outb 0x3D4 0x0E s in
  let s := outb 0x3D5 (u8 (Z.land (Z.shiftr pos 8) 255)) s in
  set_dirty false s.

Definition screen_update_cursor_now (s : screen) : screen :=
  screen_update_cursor (set_dirty true s).

Definition screen_set_cursor (x y : Z) (s : screen) : screen :=
  if (x <? SCREEN_WIDTH) && (y <? SCREEN_HEIGHT)
  then screen_update_cursor (set_cursor_pos x y s) else s.

Definition screen_get_cursor (s : screen) : Z * Z := (cursor_x s, cursor_y s).

Definition zero_stats : screen_stats := ScreenStats 0 0 0 0.

Definition screen_init (s : screen) : screen :=
  let s := screen_clear s in
  let s := screen_set_color COLOR_LIGHT_GREY COLOR_BLACK s in
  let s := screen_set_cursor 0 0 s in
  set_scr_stats zero_stats s.

Definition screen_get_stats (s : screen) : Z * Z * Z * Z :=
  let st := scr_stats s in
  (chars_written st, screen_clears st, scrolls st, buffer_flushes st).

Definition screen_reset_stats (s : screen) : screen := set_scr_stats zero_stats s.

(** The driver's state when the kernel starts, with video memory [v]. *)
Definition screen_boot (v : memory) : screen :=
  Screen 0 0 (Z.lor COLOR_LIGHT_GREY (Z.shiftl COLOR_BLACK 4)) v [] 0 zero_stats false [].
