(* ===== verification/ScreenSpec.v ===== *)
(** * What the screen shows (src/drivers/screen.c)

    An unbuffered terminal: a cursor, a colour and one cell per position.  The
    buffered driver of [Screen] is proved to refine it. *)
From S2P Require Import Prelude Screen.

#[local] Arguments buffer_write_char : simpl never.
#[local] Arguments flush_write_buffer : simpl never.

(** ** The terminal *)
Record term := Term { t_x : Z; t_y : Z; t_color : Z; t_cell : Z → Z }.

Definition t_move (x y : Z) (t : term) : term := Term x y (t_color t) (t_cell t).
Definition t_write (p v : Z) (t : term) : term :=
  Term (t_x t) (t_y t) (t_color t) (λ q, if q =? p then v else t_cell t q).
Definition blank (color : Z) : Z := color * 256 + 32.

(** Every line moves up by one; the last one is blank. *)
Definition t_scroll (t : term) : term :=
  Term (t_x t) (t_y t) (t_color t)
    (λ p, if (0 <=? p) && (p <? 1920) then t_cell t (p + 80)
          else if (1920 <=? p) && (p <? 2000) then blank (t_color t)
          else t_cell t p).

Definition t_clear (t : term) : term :=
  Term 0 0 (t_color t)
    (λ p, if (0 <=? p) && (p <? 2000) then blank (t_color t) else t_cell t p).

Definition glyph (color c : Z) : Z := u16 (Z.lor (Z.shiftl color 8) (schar c)).

Definition t_type (c : Z) (t : term) : term :=
  let x := t_x t in
  let y := t_y t in
  if c =? 10 then t_move 0 (y + 1) t
  else if c =? 13 then t_move 0 y t
  else if c =? 9 then t_move (8 * (x / 8 + 1)) y t
  else if c =? 8 then
    if 0 <? x then t_move (x - 1) y (t_write (80 * y + x - 1) (blank (t_color t)) t) else t
  else t_move (x + 1) y (t_write (80 * y + x) (glyph (t_color t) c) t).

Definition t_putc (c : Z) (t : term) : term :=
  let t := t_type c t in
  let t := if 80 <=? t_x t then t_move 0 (t_y t + 1) t else t in
  if 25 <=? t_y t then t_move (t_x t) 24 (t_scroll t) else t.

Fixpoint t_print (str : bytes) (t : term) : term :=
  match str with [] => t | c :: str => t_print str (t_putc c t) end.

(** ** The refinement relation

    What the driver will have put in video memory once its buffer is flushed. *)
Definition shown (s : screen) : memory := write_cells (wb_start s) (wb_buffer s) (video s).

Record shows (s : screen) (t : term) : Prop := {
  sh_x : cursor_x s = t_x t;
  sh_y : cursor_y s = t_y t;
  sh_color : current_color s = t_color t;
  sh_cell : ∀ p, load (shown s) p = t_cell t p;
}.

(** The cursor is on the screen and the buffer holds at most 256 cells, all of
    them on the screen. *)
Record screen_ok (s : screen) : Prop := {
  so_x : 0 <= cursor_x s < 80;
  so_y : 0 <= cursor_y s < 25;
  so_color : is_u8 (current_color s);
  so_count : wb_count s <= 256;
  so_range : wb_buffer s = [] ∨ (0 <= wb_start s ∧ wb_start s + wb_count s <= 2000);
}.

(** ** Cell writes *)
Lemma write_cells_app pos b x v :
  write_cells pos (b ++ [x]) v = store (pos + Z.of_nat (length b)) x (write_cells pos b v).
Proof.
  revert pos v; induction b as [|c b IH]; intros pos v; simpl; [by rewrite Z.add_0_r |].
  rewrite IH. f_equal. lia.
Qed.

Lemma fill32_spec base fill : ∀ n i v p,
  0 <= i →
  load (fill32 n i base fill v) p =
  if (base + 2 * i <=? p) && (p <? base + 2 * (i + Z.of_nat n))
  then (if (p - base) mod 2 =? 0 then fill mod 65536 else fill / 65536) else load v p.
Proof.
  induction n as [|n IH]; intros i v p Hi; simpl fill32.
  - destruct (Z.leb_spec (base + 2 * i) p), (Z.ltb_spec p (base + 2 * (i + Z.of_nat 0)));
      simpl; try done; lia.
  - rewrite IH by lia.
    destruct (Z.leb_spec (base + 2 * (i + 1)) p), (Z.ltb_spec p (base + 2 * (i + 1 + Z.of_nat n))),
      (Z.leb_spec (base + 2 * i) p), (Z.ltb_spec p (base + 2 * (i + Z.of_nat (S n))));
      simpl; try done; try lia; try (rewrite !load_store_ne by lia; done).
    assert (p = base + 2 * i ∨ p = base + 2 * i + 1) as [->| ->] by lia.
    + rewrite load_store_ne, load_store_eq by lia.
      destruct (Z.eqb_spec ((base + 2 * i - base) mod 2) 0); [done | lia].
    + rewrite load_store_eq. destruct (Z.eqb_spec ((base + 2 * i + 1 - base) mod 2) 0); [lia | done].
Qed.

Lemma copy32_spec : ∀ n i v p,
  0 <= i →
  load (copy32 n i v) p =
  if (2 * i <=? p) && (p <? 2 * (i + Z.of_nat n)) then load v (p + 80) else load v p.
Proof.
  induction n as [|n IH]; intros i v p Hi; simpl copy32.
  - destruct (Z.leb_spec (2 * i) p), (Z.ltb_spec p (2 * (i + Z.of_nat 0))); simpl; try done; lia.
  - rewrite IH by lia. unfold SCREEN_WIDTH.
    destruct (Z.leb_spec (2 * (i + 1)) p), (Z.ltb_spec p (2 * (i + 1 + Z.of_nat n))),
      (Z.leb_spec (2 * i) p), (Z.ltb_spec p (2 * (i + Z.of_nat (S n))));
      simpl; try done; try lia; try (rewrite !load_store_ne by lia; done).
    assert (p = 2 * i ∨ p = 2 * i + 1) as [->| ->] by lia.
    + rewrite load_store_ne, load_store_eq by lia. f_equal. lia.
    + rewrite load_store_eq. f_equal. lia.
Qed.

Lemma fill_value_blank color : is_u8 color → fill_value color = blank color * 65537.
Proof.
  intros Hc.
  assert (H : forallb (λ c, fill_value c =? blank c * 65537) (seqZ 0 256) = true)
    by (vm_compute; reflexivity).
  apply Z.eqb_eq. rewrite forallb_forall in H. apply H, list_elem_of_In, elem_of_seqZ.
  unfold is_u8 in Hc. lia.
Qed.

Lemma blank_value color :
  is_u8 color → u16 (Z.lor (Z.shiftl color 8) 32) = blank color.
Proof.
  intros Hc.
  assert (H : forallb (λ c, u16 (Z.lor (Z.shiftl c 8) 32) =? blank c) (seqZ 0 256) = true)
    by (vm_compute; reflexivity).
  apply Z.eqb_eq. rewrite forallb_forall in H. apply H, list_elem_of_In, elem_of_seqZ.
  unfold is_u8 in Hc. lia.
Qed.

(** ** The buffer is transparent *)
Lemma flush_shown s :
  shown (flush_write_buffer s) = shown s ∧ video (flush_write_buffer s) = shown s ∧
  wb_buffer (flush_write_buffer s) = [].
Proof.
  unfold flush_write_buffer, shown, wb_count. destruct (wb_buffer s) eqn:E; simpl; [by rewrite E |].
  done.
Qed.

Lemma flush_fields s :
  cursor_x (flush_write_buffer s) = cursor_x s ∧ cursor_y (flush_write_buffer s) = cursor_y s ∧
  current_color (flush_write_buffer s) = current_color s.
Proof. unfold flush_write_buffer. by destruct (wb_count s =? 0). Qed.

Lemma flush_ok s t : screen_ok s → shows s t →
  screen_ok (flush_write_buffer s) ∧ shows (flush_write_buffer s) t.
Proof.
  intros [H1 H2 H3 H4 H5] [G1 G2 G3 G4].
  destruct (flush_shown s) as (E1 & _ & E2), (flush_fields s) as (F1 & F2 & F3).
  split; split; unfold wb_count; rewrite ?E2, ?F1, ?F2, ?F3; simpl; try done; try lia.
  - by left.
  - intros p. rewrite E1. apply G4.
Qed.

Lemma buffer_write_shown pos value s :
  wb_count s <= 256 → shown (buffer_write_char pos value s) = store pos value (shown s).
Proof.
  intros Hc. unfold buffer_write_char, WRITE_BUFFER_SIZE.
  destruct ((256 <=? wb_count s) || ((0 <? wb_count s) && negb (pos =? wb_start s + wb_count s))) eqn:E.
  - destruct (flush_shown s) as (E1 & E2 & E3).
    assert (wb_count (flush_write_buffer s) = 0) as -> by (unfold wb_count; by rewrite E3).
    unfold shown at 1; simpl. by rewrite E3, E2.
  - destruct (Z.eqb_spec (wb_count s) 0) as [H0|H0].
    + unfold shown; simpl. unfold wb_count in H0. destruct (wb_buffer s); simpl in *; [done | lia].
    + unfold shown; simpl. rewrite write_cells_app. fold (wb_count s).
      apply orb_false_iff in E as [_ E]. apply andb_false_iff in E as [E|E]; bool_prop; [unfold wb_count in *; lia |].
      by rewrite E.
Qed.

Lemma buffer_write_fields pos value s :
  cursor_x (buffer_write_char pos value s) = cursor_x s ∧
  cursor_y (buffer_write_char pos value s) = cursor_y s ∧
  current_color (buffer_write_char pos value s) = current_color s.
Proof.
  unfold buffer_write_char. destruct (flush_fields s) as (F1 & F2 & F3).
  destruct (_ || _); simpl; destruct (_ =? 0); simpl; done.
Qed.

Lemma buffer_write_range pos value s :
  screen_ok s → 0 <= pos < 2000 →
  let s' := buffer_write_char pos value s in
  wb_count s' <= 256 ∧ 0 <= wb_start s' ∧ wb_start s' + wb_count s' <= 2000.
Proof.
  intros [_ _ _ Hc Hr] Hp. unfold buffer_write_char, WRITE_BUFFER_SIZE.
  destruct ((256 <=? wb_count s) || ((0 <? wb_count s) && negb (pos =? wb_start s + wb_count s))) eqn:E.
  - destruct (flush_shown s) as (E1 & E2 & E3).
    assert (wb_count (flush_write_buffer s) = 0) as -> by (unfold wb_count; by rewrite E3).
    unfold wb_count; simpl. rewrite E3. simpl. lia.
  - apply orb_false_iff in E as [E1 E2].
    destruct (Z.eqb_spec (wb_count s) 0) as [H0|H0]; unfold wb_count in *; simpl;
      rewrite length_app; simpl.
    + lia.
    + apply andb_false_iff in E2 as [E2|E2]; bool_prop; [lia |].
      destruct Hr as [Hr|Hr]; [rewrite Hr in H0; done | lia].
Qed.

(** ** [screen_putc] *)

(** The driver's state between the [switch] and the end of [screen_putc]: the
    cursor may be one column or one line too far. *)
Record screen_mid (w h : Z) (s : screen) : Prop := {
  sm_x : 0 <= cursor_x s <= w;
  sm_y : 0 <= cursor_y s <= h;
  sm_color : is_u8 (current_color s);
  sm_count : wb_count s <= 256;
  sm_range : wb_buffer s = [] ∨ (0 <= wb_start s ∧ wb_start s + wb_count s <= 2000);
}.

Lemma move_ok s t x y w h :
  shows s t → 0 <= x <= w → 0 <= y <= h → is_u8 (current_color s) → wb_count s <= 256 →
  (wb_buffer s = [] ∨ (0 <= wb_start s ∧ wb_start s + wb_count s <= 2000)) →
  shows (set_cursor_pos x y s) (t_move x y t) ∧ screen_mid w h (set_cursor_pos x y s).
Proof. intros [G1 G2 G3 G4] Hx Hy Hc Hn Hr. split; split; simpl; done. Qed.

Lemma buffer_write_shows pos value s t :
  screen_ok s → shows s t → 0 <= pos < 2000 →
  let s' := buffer_write_char pos value s in
  shows s' (t_write pos value t) ∧ is_u8 (current_color s') ∧ wb_count s' <= 256 ∧
  (wb_buffer s' = [] ∨ (0 <= wb_start s' ∧ wb_start s' + wb_count s' <= 2000)).
Proof.
  intros Hok [G1 G2 G3 G4] Hp s'. destruct (buffer_write_fields pos value s) as (F1 & F2 & F3).
  destruct (buffer_write_range pos value s Hok Hp) as (R1 & R2 & R3). fold s' in F1, F2, F3, R1, R2, R3.
  split; [| split_and!; [rewrite F3; apply Hok | done | by right]].
  split; rewrite ?F1, ?F2, ?F3; try done.
  intros p. unfold s'. rewrite buffer_write_shown by apply Hok. simpl.
  destruct (Z.eqb_spec p pos) as [->|Hne]; [apply load_store_eq |].
  rewrite load_store_ne by done. apply G4.
Qed.

Lemma putc_switch_shows c s t :
  screen_ok s → shows s t →
  shows (putc_switch c s) (t_type c t) ∧ screen_mid 80 25 (putc_switch c s) ∧
  (cursor_y (putc_switch c s) = 25 → cursor_x (putc_switch c s) = 0).
Proof.
  intros Hok Hsh. destruct (flush_ok s t Hok Hsh) as [Hok1 Hsh1].
  pose proof Hok as [Hx Hy Hcol Hn Hr]. pose proof Hok1 as [Hx1 Hy1 Hcol1 Hn1 Hr1].
  destruct (flush_fields s) as (F1 & F2 & F3).
  pose proof Hsh as [G1 G2 G3 G4]. pose proof Hsh1 as [K1 K2 K3 K4].
  unfold putc_switch, t_type, SCREEN_WIDTH.
  rewrite <- G1, <- G2, <- G3.
  destruct (c =? 10); [| destruct (c =? 13); [| destruct (c =? 9); [| destruct (c =? 8)]]].
  - rewrite F2, u8_small by (unfold is_u8; lia).
    destruct (move_ok _ _ 0 (cursor_y s + 1) 80 25 Hsh1) as [H1 H2]; try done; try lia.
  - rewrite F2. destruct (move_ok _ _ 0 (cursor_y s) 80 25 Hsh1) as [H1 H2]; try done; try lia.
  - rewrite F1, F2.
    replace (Z.land (cursor_x s + 8) (Z.lnot 7)) with (8 * (cursor_x s / 8 + 1)).
    2:{ rewrite <- Z.ldiff_land. change 7 with (2 ^ 3 - 1). rewrite ldiff_pow2 by lia.
        change (2 ^ 3) with 8. lia. }
    rewrite u8_small by (unfold is_u8; lia).
    destruct (move_ok _ _ (8 * (cursor_x s / 8 + 1)) (cursor_y s) 80 25 Hsh1) as [H1 H2]; try done; try lia.
    split; [done | split; [done | simpl; lia]].
  - rewrite F1. destruct (Z.ltb_spec 0 (cursor_x s)).
    2:{ split; [done | split; [split; try done; lia | lia]]. }
    rewrite F2. cbv zeta. cbn [cursor_x cursor_y current_color set_cursor_pos].
    rewrite u8_small by (unfold is_u8; lia).
    rewrite u16_small by (unfold is_u16; lia).
    set (s1 := set_cursor_pos _ _ _).
    assert (Hok2 : screen_ok s1) by (split; simpl; try done; lia).
    assert (Hsh2 : shows s1 (t_move (cursor_x s - 1) (cursor_y s) t)) by (split; simpl; try done; lia).
    rewrite F3, blank_value by done.
    destruct (buffer_write_shows (cursor_y s * 80 + (cursor_x s - 1)) (blank (current_color s)) s1 _
      Hok2 Hsh2 ltac:(lia)) as (Hsh3 & Hc3 & Hn3 & Hr3).
    destruct (buffer_write_fields (cursor_y s * 80 + (cursor_x s - 1)) (blank (current_color s)) s1)
      as (B1 & B2 & B3).
    split; [| split].
    + replace (80 * cursor_y s + cursor_x s - 1) with (cursor_y s * 80 + (cursor_x s - 1)) by lia. done.
    + split; try done; [rewrite B1 | rewrite B2]; simpl; lia.
    + rewrite B2. simpl. lia.
  - rewrite u16_small by (unfold is_u16; lia).
    destruct (buffer_write_shows (cursor_y s * 80 + cursor_x s) (glyph (current_color s) c) s t
      Hok Hsh ltac:(lia)) as (Hsh3 & Hc3 & Hn3 & Hr3).
    destruct (buffer_write_fields (cursor_y s * 80 + cursor_x s) (glyph (current_color s) c) s)
      as (B1 & B2 & B3).
    unfold glyph in *. rewrite B1, B2, u8_small by (unfold is_u8; lia).
    replace (80 * cursor_y s + cursor_x s) with (cursor_y s * 80 + cursor_x s) by lia.
    destruct (move_ok _ _ (cursor_x s + 1) (cursor_y s) 80 25 Hsh3) as [H1 H2]; try done; try lia.
    split; [| split; [| simpl; lia]].
    + destruct H1 as [J1 J2 J3 J4]. by split.
    + destruct H2 as [J1 J2 J3 J4 J5]. by split.
Qed.

Lemma scroll_shows s t :
  is_u8 (current_color s) → shows s t → shows (screen_scroll_up s) (t_scroll t).
Proof.
  intros Hc [G1 G2 G3 G4]. destruct (flush_shown s) as (E1 & E2 & E3), (flush_fields s) as (F1 & F2 & F3).
  unfold screen_scroll_up, SCREEN_WIDTH, SCREEN_HEIGHT. cbv zeta.
  split; cbn [cursor_x cursor_y current_color set_video set_scr_stats t_x t_y t_color t_scroll];
    [congruence.. |].
  intros p. unfold shown. cbn [wb_start wb_buffer video set_video set_scr_stats t_cell t_scroll].
  rewrite E3. cbn [write_cells].
  rewrite fill32_spec, copy32_spec, F3, fill_value_blank, E2, !G4, G3 by (done || lia).
  change (Z.of_nat (Z.to_nat ((25 - 1) * 80 / 2))) with 960.
  change (Z.of_nat (Z.to_nat (80 / 2))) with 40.
  rewrite G3 in Hc. unfold is_u8, blank in *.
  destruct (Z.leb_spec ((25 - 1) * 80 + 2 * 0) p), (Z.ltb_spec p ((25 - 1) * 80 + 2 * (0 + 40))),
    (Z.leb_spec 0 p), (Z.leb_spec (2 * 0) p), (Z.ltb_spec p 1920), (Z.ltb_spec p (2 * (0 + 960))),
    (Z.leb_spec 1920 p), (Z.ltb_spec p 2000); simpl; try done; try lia.
  destruct (_ =? 0); lia.
Qed.

Lemma scroll_mid s : screen_mid 79 25 s → cursor_x s < 80 →
  screen_ok (set_cursor_pos (cursor_x s) 24 (screen_scroll_up s)).
Proof.
  intros [Hx Hy Hc Hn Hr] Hx'. destruct (flush_shown s) as (E1 & E2 & E3), (flush_fields s) as (F1 & F2 & F3).
  unfold screen_scroll_up. cbv zeta.
  split; unfold wb_count;
    cbn [cursor_x cursor_y current_color set_video set_scr_stats set_cursor_pos wb_buffer wb_start];
    rewrite ?E3, ?F3; simpl; [lia | lia | done | lia | by left].
Qed.

Lemma screen_putc_step c s t :
  screen_ok s → shows s t → screen_ok (screen_putc c s) ∧ shows (screen_putc c s) (t_putc c t).
Proof.
  intros Hok Hsh. destruct (putc_switch_shows c s t Hok Hsh) as (Hsh1 & Hm1 & Hcorner).
  unfold screen_putc, t_putc. set (s1 := putc_switch c s) in *. set (t1 := t_type c t) in *.
  clearbody s1 t1. unfold SCREEN_WIDTH, SCREEN_HEIGHT. cbv zeta.
  pose proof Hsh1 as [G1 G2 G3 G4]. pose proof Hm1 as [M1 M2 M3 M4 M5].
  rewrite <- G1.
  assert (Hwrap : ∃ s2 t2,
    (if 80 <=? cursor_x s1
     then set_cursor_pos 0 (u8 (cursor_y (flush_write_buffer s1) + 1)) (flush_write_buffer s1)
     else s1) = s2 ∧
    (if 80 <=? cursor_x s1 then t_move 0 (t_y t1 + 1) t1 else t1) = t2 ∧
    shows s2 t2 ∧ screen_mid 79 25 s2).
  { destruct (Z.leb_spec 80 (cursor_x s1)) as [Hw|Hw].
    - destruct (flush_shown s1) as (E1 & E2 & E3), (flush_fields s1) as (F1 & F2 & F3).
      eexists _, _. split; [done |]. split; [done |]. cbv zeta.
      rewrite F2, u8_small by (unfold is_u8; lia). rewrite <- G2.
      apply move_ok; rewrite ?F3; unfold wb_count; rewrite ?E3; simpl; try done; try lia; [| by left].
      split; rewrite ?F1, ?F2, ?F3; try done. intros p. rewrite E1. apply G4.
    - exists s1, t1. split_and!; try done. split; try done; lia. }
  destruct Hwrap as (s2 & t2 & -> & -> & Hsh2 & Hm2).
  pose proof Hsh2 as [J1 J2 J3 J4]. pose proof Hm2 as [N1 N2 N3 N4 N5]. rewrite <- J1, <- J2.
  destruct (Z.leb_spec 25 (cursor_y s2)) as [Hs|Hs].
  - destruct (flush_shown s2) as (E1 & E2 & E3), (flush_fields s2) as (F1 & F2 & F3).
    assert (Hsh3 : shows (flush_write_buffer s2) t2).
    { split; rewrite ?F1, ?F2, ?F3; try done. intros p. rewrite E1. apply J4. }
    assert (Hm3 : screen_mid 79 25 (flush_write_buffer s2)).
    { split; rewrite ?F1, ?F2, ?F3; try done; unfold wb_count; rewrite E3; simpl; [lia | by left]. }
    pose proof (scroll_shows _ _ (sm_color _ _ _ Hm3) Hsh3) as Hsh4.
    pose proof (scroll_mid _ Hm3 ltac:(rewrite F1; lia)) as Hok4.
    assert (Hcx : cursor_x (screen_scroll_up (flush_write_buffer s2)) = cursor_x (flush_write_buffer s2)).
    { unfold screen_scroll_up. cbv zeta. cbn [cursor_x set_video set_scr_stats].
      by destruct (flush_fields (flush_write_buffer s2)) as (-> & _). }
    cbv zeta. rewrite Hcx. clear - Hok4 Hsh4 Hcx F1.
    set (s4 := screen_scroll_up _) in *. clearbody s4. split.
    + destruct Hok4. by split.
    + destruct Hsh4 as [P1 P2 P3 P4]. by split.
  - split; [split; try done; simpl; lia |]. by split.
Qed.

Lemma screen_print_step str : ∀ s t,
  screen_ok s → shows s t → screen_ok (screen_print str s) ∧ shows (screen_print str s) (t_print str t).
Proof.
  induction str as [|c str IH]; intros s t Hok Hsh; simpl; [done |].
  destruct (screen_putc_step c s t Hok Hsh). by apply IH.
Qed.

(** C22. Printing a string through the write buffer shows exactly what an
    unbuffered terminal shows: after any string the cursor, the colour and
    every cell (once flushed) agree, cells outside the 80 by 25 screen
    included, the cursor stays on the screen and the buffer stays within its
    256 entries. *)
Theorem screen_print_refines str s t :
  screen_ok s → shows s t →
  screen_ok (screen_print str s) ∧ shows (screen_print str s) (t_print str t).
Proof. apply screen_print_step. Qed.

(** Flushing through the cursor update makes video memory agree. *)
Theorem screen_update_cursor_now_shows s t :
  screen_ok s → shows s t →
  (∀ p, load (video (screen_update_cursor_now s)) p = t_cell t p) ∧
  screen_ok (screen_update_cursor_now s) ∧ shows (screen_update_cursor_now s) t ∧
  ∃ rest, ports (screen_update_cursor_now s) =
    [(0x3D5, (80 * t_y t + t_x t) / 256); (0x3D4, 0x0E);
     (0x3D5, (80 * t_y t + t_x t) mod 256); (0x3D4, 0x0F)] ++ rest.
Proof.
  intros Hok Hsh. unfold screen_update_cursor_now, screen_update_cursor.
  set (s1 := set_dirty true s). change (negb (cursor_dirty s1)) with false. cbv iota zeta.
  assert (Hok1 : screen_ok s1) by (by destruct Hok).
  assert (Hsh1 : shows s1 t) by (by destruct Hsh).
  destruct (flush_ok s1 t Hok1 Hsh1) as [Hok2 Hsh2].
  destruct (flush_shown s1) as (_ & E2 & _). pose proof Hok2 as [Hx Hy _ _ _].
  pose proof Hsh2 as [G1 G2 _ _].
  set (s2 := flush_write_buffer s1) in *. clearbody s2. split_and!.
  - intros p. simpl. rewrite E2. apply (sh_cell _ _ Hsh1).
  - by destruct Hok2.
  - by destruct Hsh2.
  - eexists. simpl. rewrite <- G1, <- G2. unfold SCREEN_WIDTH.
    rewrite u16_small by (unfold is_u16; lia).
    rewrite Z.shiftr_div_pow2 by lia. change 255 with (Z.ones 8). rewrite !Z.land_ones by lia.
    change (2 ^ 8) with 256. rewrite !u8_small by (unfold is_u8; lia).
    replace (cursor_y s2 * 80 + cursor_x s2) with (80 * cursor_y s2 + cursor_x s2) by lia.
    rewrite (Z.mod_small (_ / 256)) by lia. reflexivity.
Qed.

(** ** Clearing *)
Lemma screen_clear_shows s t :
  screen_ok s → shows s t → screen_ok (screen_clear s) ∧ shows (screen_clear s) (t_clear t).
Proof.
  intros Hok Hsh. destruct (flush_ok s t Hok Hsh) as [Hok1 Hsh1].
  destruct (flush_shown s) as (_ & E2 & E3). unfold screen_clear.
  set (s1 := flush_write_buffer s) in *. clearbody s1.
  pose proof Hok1 as [Hx Hy Hc Hn Hr]. pose proof Hsh1 as [G1 G2 G3 G4]. cbv zeta. split.
  - split; unfold wb_count; cbn [cursor_x cursor_y current_color wb_buffer wb_start set_scr_stats
      set_dirty set_cursor_pos set_video]; rewrite ?E3; simpl; try done; try lia. by left.
  - split; cbn [cursor_x cursor_y current_color set_scr_stats set_dirty set_cursor_pos set_video
      t_x t_y t_color t_clear]; try done.
    intros p. unfold shown. cbn [wb_start wb_buffer video set_video set_scr_stats set_dirty
      set_cursor_pos t_cell t_clear]. rewrite E3. cbn [write_cells].
    rewrite fill32_spec by lia.
    rewrite fill_value_blank, G3 by done.
    assert (Hv : load (video s1) p = t_cell t p).
    { rewrite <- (G4 p). unfold shown. by rewrite E3. }
    rewrite Hv. change (Z.of_nat (Z.to_nat (SCREEN_SIZE / 2))) with 1000.
    rewrite G3 in Hc. unfold is_u8, blank in *.
    destruct (Z.leb_spec (0 + 2 * 0) p), (Z.ltb_spec p (0 + 2 * (0 + 1000))), (Z.leb_spec 0 p),
      (Z.ltb_spec p 2000); simpl; try done; try lia.
    destruct (_ =? 0); lia.
Qed.

(** ** Numbers *)

(** The number a string of decimal digits stands for. *)
Definition digits_value (base : Z) (ds : list Z) : Z :=
  fold_left (λ a d, a * base + d) ds 0.
Definition dec_value (str : bytes) : Z := digits_value 10 (map (λ c, c - 48) str).

Lemma dec_value_app str c : dec_value (str ++ [c]) = dec_value str * 10 + (c - 48).
Proof. unfold dec_value, digits_value. by rewrite map_app, fold_left_app. Qed.

Lemma dec_loop_spec : ∀ fuel value i acc,
  -1 <= i → 0 <= value < 10 ^ (i + 1) → i + 1 < Z.of_nat fuel →
  ∃ ds, dec_loop fuel value i acc = Ok (ds ++ acc) ∧ Z.of_nat (length ds) <= i + 1 ∧
    Forall (λ c, 48 <= c <= 57) ds ∧ dec_value ds = value ∧
    (0 < value → ∃ c ds', ds = c :: ds' ∧ c ≠ 48) ∧ (value = 0 → ds = []).
Proof.
  induction fuel as [|fuel IH]; intros value i acc Hi Hv Hf; [lia |]. simpl.
  destruct (Z.leb_spec value 0) as [H0|H0].
  { exists []. split_and!; [done | simpl; lia | done | unfold dec_value, digits_value; simpl; lia | lia | done]. }
  destruct (Z.ltb_spec i 0) as [Hn|Hn].
  { assert (i = -1) as -> by lia. simpl in Hv. lia. }
  assert (Hp : 10 ^ (i + 1) = 10 * 10 ^ i) by (rewrite Z.pow_add_r by lia; lia).
  destruct (IH (value / 10) (i - 1) (48 + value mod 10 :: acc)) as (ds & -> & Hl & Hd & Hval & Hlead & Hnil);
    [lia | replace (i - 1 + 1) with i by lia; lia | lia |].
  exists (ds ++ [48 + value mod 10]). rewrite <- app_assoc. split_and!; [done | | | | | lia].
  - rewrite length_app. simpl. lia.
  - apply Forall_app. split; [done |]. repeat constructor; lia.
  - rewrite dec_value_app, Hval. lia.
  - intros _. destruct (Z.eq_dec (value / 10) 0) as [Hz|Hz].
    + rewrite (Hnil Hz). eexists _, []. split; [done |]. lia.
    + destruct Hlead as (c & ds' & -> & Hc); [lia |]. by eexists _, _.
Qed.

Lemma dec_string_ok value :
  is_u32 value →
  ∃ str, dec_string value = Ok str ∧ (length str <= 10)%nat ∧
    Forall (λ c, 48 <= c <= 57) str ∧ dec_value str = value ∧
    (str = [48] ∨ ∃ c str', str = c :: str' ∧ c ≠ 48).
Proof.
  intros Hv. unfold is_u32 in Hv. unfold dec_string.
  destruct (Z.eqb_spec value 0) as [->|H0].
  { exists [48]. split_and!; [done | simpl; lia | by repeat constructor | done | by left]. }
  destruct (dec_loop_spec dec_fuel value 9 []) as (ds & Hds & Hl & Hd & Hval & Hlead & _);
    [lia | change (10 ^ (9 + 1)) with 10000000000; lia | unfold dec_fuel; lia |].
  rewrite app_nil_r in Hds. exists ds. split_and!; [done | lia | done | done |].
  right. apply Hlead. lia.
Qed.

(** [screen_print_dec] of any [uint32_t] returns (its 11-byte buffer is
    never left) and prints the number's decimal digits, without leading
    zeros. *)
Theorem screen_print_dec_ok value s :
  is_u32 value →
  ∃ str, screen_print_dec value s = Ok (tt, screen_print str s) ∧
    (length str <= 10)%nat ∧ Forall (λ c, 48 <= c <= 57) str ∧ dec_value str = value ∧
    (str = [48] ∨ ∃ c str', str = c :: str' ∧ c ≠ 48).
Proof.
  intros Hv. destruct (dec_string_ok value Hv) as (str & Hs & H).
  exists str. unfold screen_print_dec. by rewrite Hs.
Qed.

(** The value of a hexadecimal digit character. *)
Definition hex_value (c : Z) : Z := if c <? 58 then c - 48 else c - 55.

Lemma hex_char_value d : 0 <= d < 16 → hex_value (nth (Z.to_nat d) hex_chars 0) = d.
Proof.
  intros Hd.
  assert (H : forallb (λ d, hex_value (nth (Z.to_nat d) hex_chars 0) =? d) (seqZ 0 16) = true)
    by reflexivity.
  apply Z.eqb_eq. rewrite forallb_forall in H. apply H, list_elem_of_In, elem_of_seqZ. lia.
Qed.

Lemma hex_digits_value value : 0 <= value → ∀ n i a,
  i = 4 * (Z.of_nat n - 1) →
  fold_left (λ a d, a * 16 + d) (map hex_value (hex_digits n value i)) a =
  a * 16 ^ Z.of_nat n + value mod 16 ^ Z.of_nat n.
Proof.
  intros Hv. induction n as [|n IH]; intros i a Hi; [simpl; rewrite Z.mod_1_r; lia |].
  cbn [hex_digits map fold_left].
  rewrite hex_char_value; [| change 15 with (Z.ones 4); rewrite Z.land_ones by lia;
    apply Z.mod_pos_bound; lia].
  rewrite (IH (i - 4)) by lia.
  change 15 with (Z.ones 4). rewrite Z.land_ones, Z.shiftr_div_pow2 by lia.
  replace (2 ^ i) with (16 ^ Z.of_nat n)
    by (change 16 with (2 ^ 4); rewrite <- Z.pow_mul_r by lia; f_equal; lia).
  change (2 ^ 4) with 16. rewrite Nat2Z.inj_succ, Z.pow_succ_r by lia.
  pose proof (Z.pow_pos_nonneg 16 (Z.of_nat n)).
  rewrite (Z.mul_comm 16 (16 ^ Z.of_nat n)), (Z.rem_mul_r value) by lia. lia.
Qed.

(** [screen_print_hex] prints [0x] and eight digits that stand for the value. *)
Theorem screen_print_hex_ok value s :
  is_u32 value →
  ∃ ds, screen_print_hex value s = screen_print ds (screen_print [48; 120] s) ∧
    length ds = 8%nat ∧ digits_value 16 (map hex_value ds) = value.
Proof.
  intros Hv. exists (hex_digits 8 value 28). split_and!; [done | done |].
  unfold digits_value, is_u32 in *. rewrite hex_digits_value by lia.
  change (16 ^ Z.of_nat 8) with 4294967296. lia.
Qed.

(** ** Witnesses *)
Lemma screen_boot_ok v : screen_ok (screen_boot v).
Proof. split; simpl; unfold is_u8, wb_count; simpl; try lia; try done; by left. Qed.

Lemma screen_boot_shows v : shows (screen_boot v) (Term 0 0 7 (load v)).
Proof. by split. Qed.

(** "Hi", a newline and a backspace on a fresh screen. *)
Lemma screen_print_refines_witness :
  shows (screen_print [72; 105; 10; 8; 33] (screen_boot ∅))
        (t_print [72; 105; 10; 8; 33] (Term 0 0 7 (load ∅))).
Proof.
  apply (screen_print_refines [72; 105; 10; 8; 33] (screen_boot ∅) (Term 0 0 7 (load ∅))
    (screen_boot_ok ∅) (screen_boot_shows ∅)).
Defined.

Lemma screen_print_dec_ok_witness :
  ∃ str, screen_print_dec 4294967295 (screen_boot ∅) = Ok (tt, screen_print str (screen_boot ∅)) ∧
    dec_value str = 4294967295.
Proof.
  destruct (screen_print_dec_ok 4294967295 (screen_boot ∅) ltac:(unfold is_u32; lia))
    as (str & H & _ & _ & Hv & _).
  exists str. split; [exact H | exact Hv].
Defined.
