(* ===== verification/CString.v ===== *)
(** * The C string functions the programs of the system use

    [strtok], [atoi], [strstr], [strchr], [tolower] and [isspace] on strings given by their
    bytes before the terminator, with the laws that their users rely on. *)
From S2P Require Import Prelude Screen.

Definition isspace (c : Z) : bool := (c =? 32) || ((9 <=? c) && (c <=? 13)).
Definition tolower (c : Z) : Z := if (65 <=? c) && (c <=? 90) then c + 32 else c.

(** [strncmp(s, p, strlen(p)) == 0] *)
Fixpoint starts (p s : bytes) : bool :=
  match p, s with
  | [], _ => true
  | c :: p, d :: s => (c =? d) && starts p s
  | _ :: _, [] => false
  end.

(** [strchr] and [strstr]: the rest of the string from the first occurrence on. *)
Fixpoint strchr (c : Z) (s : bytes) : option bytes :=
  match s with
  | [] => None
  | d :: s' => if d =? c then Some s else strchr c s'
  end.
Fixpoint strstr (p s : bytes) : option bytes :=
  if starts p s then Some s else
  match s with
  | [] => None
  | _ :: s => strstr p s
  end.

(** ** [atoi]: the number at the start, after blanks and a sign; a number that
    is not an [int] is undefined *)
Fixpoint skip_space (s : bytes) : bytes :=
  match s with
  | c :: l => if isspace c then skip_space l else s
  | [] => []
  end.
Fixpoint number (s : bytes) (acc : Z) : Z :=
  match s with
  | c :: s => if (48 <=? c) && (c <=? 57) then number s (acc * 10 + (c - 48)) else acc
  | [] => acc
  end.
Definition to_int (x : Z) : outcome Z :=
  if (-2147483648 <=? x) && (x <? 2147483648) then Ok x else Fault.
Definition atoi (s : bytes) : outcome Z :=
  match skip_space s with
  | 45 :: l => to_int (- number l 0)
  | 43 :: l => to_int (number l 0)
  | l => to_int (number l 0)
  end.

(** ** [strtok]: [d] tells the delimiters *)
Section Strtok.
Variable d : Z → bool.

Fixpoint skip_delims (line : bytes) : bytes :=
  match line with
  | c :: l => if d c then skip_delims l else line
  | [] => []
  end.
(** A token and what follows the delimiter after it. *)
Fixpoint take_token (line : bytes) : bytes * bytes :=
  match line with
  | [] => ([], [])
  | c :: l => if d c then ([], l) else let '(t, r) := take_token l in (c :: t, r)
  end.
Definition strtok (line : bytes) : option (bytes * bytes) :=
  match skip_delims line with
  | [] => None
  | l => Some (take_token l)
  end.

(** *** The words of a string: its non-empty pieces between delimiters *)
Fixpoint pieces (line : bytes) : list bytes :=
  match line with
  | [] => [[]]
  | c :: l =>
    if d c then [] :: pieces l
    else match pieces l with
         | p :: ps => (c :: p) :: ps
         | [] => [[c]]
         end
  end.
Definition words (line : bytes) : list bytes := filter (λ p, p ≠ []) (pieces line).
Definition is_word (w : bytes) : Prop := w ≠ [] ∧ Forall (λ c, d c = false) w.
#[export] Instance is_word_dec w : Decision (is_word w) := _.

Lemma words_skip line : words (skip_delims line) = words line.
Proof.
  induction line as [| c l IH]; [done |]. cbn [skip_delims]. destruct (d c) eqn:E; [| done].
  rewrite IH. unfold words. cbn [pieces]. rewrite E. by rewrite filter_cons_False by naive_solver.
Qed.

Lemma pieces_token line t rest :
  take_token line = (t, rest) → pieces line = t :: pieces rest ∨ (pieces line = [t] ∧ rest = []).
Proof.
  revert t rest. induction line as [| c l IH]; intros t rest; cbn [take_token pieces].
  - intros [= <- <-]. auto.
  - destruct (d c).
    + intros [= <- <-]. auto.
    + destruct (take_token l) as [t' r'] eqn:E. intros [= <- <-].
      destruct (IH t' r' eq_refl) as [-> | [-> ->]]; auto.
Qed.

Lemma words_token line t rest : take_token line = (t, rest) → t ≠ [] → words line = t :: words rest.
Proof.
  intros [E | [E ->]]%pieces_token Ht; unfold words; rewrite E, filter_cons_True by done; [done |].
  reflexivity.
Qed.

Lemma skip_delims_head line c l : skip_delims line = c :: l → d c = false.
Proof.
  induction line as [| e r IH]; cbn; [done |]. destruct (d e) eqn:E; [done |]. by intros [= <- <-].
Qed.

Lemma strtok_words line :
  match strtok line with
  | None => words line = []
  | Some (t, rest) => words line = t :: words rest
  end.
Proof.
  unfold strtok. rewrite <- (words_skip line). destruct (skip_delims line) as [| c l] eqn:E; [reflexivity |].
  apply skip_delims_head in E. destruct (take_token (c :: l)) as [t rest] eqn:T.
  apply words_token; [done |]. cbn in T. rewrite E in T. destruct (take_token l). by injection T as <- <-.
Qed.

Lemma pieces_no_delim line : Forall (Forall (λ c, d c = false)) (pieces line).
Proof.
  induction line as [| c l IH]; cbn [pieces]; [by repeat constructor |].
  destruct (d c) eqn:E; [by constructor |].
  destruct (pieces l); constructor; inversion IH; subst; auto.
Qed.

Lemma words_are_words line : Forall is_word (words line).
Proof.
  apply Forall_forall. intros w [Hw Hin]%list_elem_of_filter. split; [done |].
  by apply (proj1 (Forall_forall _ _) (pieces_no_delim line)).
Qed.

Lemma take_token_word w c rest : Forall (λ c, d c = false) w → d c = true → take_token (w ++ c :: rest) = (w, rest).
Proof. intros Hw Hc. induction Hw as [| a w Ha _ IH]; cbn; [by rewrite Hc | by rewrite Ha, IH]. Qed.

Lemma take_token_end w : Forall (λ c, d c = false) w → take_token w = (w, []).
Proof. intros Hw. induction Hw as [| a w Ha _ IH]; cbn; [done | by rewrite Ha, IH]. Qed.

Lemma strtok_word w c rest : is_word w → d c = true → strtok (w ++ c :: rest) = Some (w, rest).
Proof.
  intros [Hne Hw] Hc. unfold strtok. destruct Hw as [| a w Ha Hw]; [done |]. cbn [app skip_delims]. rewrite Ha.
  f_equal. apply (take_token_word (a :: w)); [by constructor | done].
Qed.

Lemma strtok_end w : is_word w → strtok w = Some (w, []).
Proof.
  intros [Hne Hw]. unfold strtok. destruct Hw as [| a w Ha Hw]; [done |]. cbn [skip_delims]. rewrite Ha.
  f_equal. apply (take_token_end (a :: w)). by constructor.
Qed.

Lemma words_word w : is_word w → words w = [w].
Proof. intros Hw. pose proof (strtok_words w) as H. by rewrite strtok_end in H. Qed.

Lemma words_cons w c line : is_word w → d c = true → words (w ++ c :: line) = w :: words line.
Proof. intros Hw Hc. pose proof (strtok_words (w ++ c :: line)) as H. by rewrite strtok_word in H. Qed.

(** Words with one delimiter [c] between them. *)
Fixpoint unwords (c : Z) (ws : list bytes) : bytes :=
  match ws with
  | [] => []
  | [w] => w
  | w :: ws => w ++ c :: unwords c ws
  end.

Lemma words_unwords c ws : d c = true → Forall is_word ws → words (unwords c ws) = ws.
Proof.
  intros Hc. induction 1 as [| w [| w' ws] Hw _ IH]; [reflexivity | by apply words_word |].
  change (unwords c (w :: w' :: ws)) with (w ++ c :: unwords c (w' :: ws)). by rewrite words_cons, IH.
Qed.
End Strtok.

(** ** Searching *)
Lemma starts_spec p s : starts p s = true ↔ ∃ r, s = p ++ r.
Proof.
  revert s. induction p as [| c p IH]; intros s; cbn; [naive_solver |].
  destruct s as [| e s]; cbn; [naive_solver |].
  rewrite andb_true_iff, Z.eqb_eq, IH. naive_solver.
Qed.

(** [strstr] finds the first occurrence. *)
Lemma strstr_some p s r : strstr p s = Some r →
  ∃ pre post, s = pre ++ r ∧ r = p ++ post ∧
    ∀ pre' post', s = pre' ++ p ++ post' → (length pre <= length pre')%nat.
Proof.
  revert r. induction s as [| c s IH]; intros r; cbn [strstr].
  - destruct (starts p []) eqn:E; [| done]. intros [= <-]. apply starts_spec in E as [r ->].
    exists [], r. split_and!; [done.. | cbn; lia].
  - destruct (starts p (c :: s)) eqn:E.
    + intros [= <-]. apply starts_spec in E as [r ->]. exists [], r. split_and!; [done.. | cbn; lia].
    + intros (pre & post & -> & -> & Hmin)%IH. exists (c :: pre), post. split_and!; [done.. |].
      intros [| c' pre'] post' H; [| cbn in *; injection H as -> H; apply Hmin in H; lia].
      exfalso. apply (Bool.diff_false_true). rewrite <- E. apply starts_spec. by exists post'.
Qed.

Lemma strstr_none p s : strstr p s = None ↔ ¬ ∃ pre post, s = pre ++ p ++ post.
Proof.
  induction s as [| c s IH]; cbn [strstr].
  - destruct (starts p []) eqn:E.
    + apply starts_spec in E as [r E]. split; [done |]. intros []. by exists [], r.
    + split; [| done]. intros _ (pre & post & H). destruct pre; [| done].
      apply Bool.diff_false_true. rewrite <- E. apply starts_spec. by exists post.
  - destruct (starts p (c :: s)) eqn:E.
    + apply starts_spec in E as [r E]. split; [done |]. intros []. by exists [], r.
    + rewrite IH. split; intros H (pre & post & Hs); apply H.
      * destruct pre as [| c' pre].
        { exfalso. apply Bool.diff_false_true. rewrite <- E. apply starts_spec. by exists post. }
        injection Hs as -> Hs. by exists pre, post.
      * exists (c :: pre), post. by rewrite Hs.
Qed.

Lemma strchr_app c pre post : c ∉ pre → strchr c (pre ++ c :: post) = Some (c :: post).
Proof.
  induction pre as [| e pre IH]; cbn; intros H; [by rewrite Z.eqb_refl |].
  apply not_elem_of_cons in H as [Hne H]. destruct (Z.eqb_spec e c); [done | by apply IH].
Qed.

Lemma strchr_none c s : c ∉ s → strchr c s = None.
Proof.
  induction s as [| e s IH]; cbn; intros H; [done |].
  apply not_elem_of_cons in H as [Hne H]. destruct (Z.eqb_spec e c); [done | by apply IH].
Qed.

Lemma strchr_not_none c s : c ∈ s → strchr c s ≠ None.
Proof.
  induction s as [| e s IH]; cbn; [by intros ?%not_elem_of_nil |]. intros [-> | H]%elem_of_cons.
  - by rewrite Z.eqb_refl.
  - destruct (e =? c); [done | by apply IH].
Qed.

Lemma strchr_some c s r : strchr c s = Some r → ∃ pre post, s = pre ++ c :: post ∧ r = c :: post ∧ c ∉ pre.
Proof.
  revert r. induction s as [| e s IH]; intros r; cbn; [done |].
  destruct (Z.eqb_spec e c) as [-> | Hne].
  - intros [= <-]. exists [], s. split_and!; [done.. |]. apply not_elem_of_nil.
  - intros (pre & post & -> & -> & H)%IH. exists (e :: pre), post. split_and!; [done.. |].
    apply not_elem_of_cons. naive_solver.
Qed.

(** ** Numbers *)
Lemma number_app s : Forall (λ c, 48 <= c <= 57) s → ∀ acc r, number (s ++ r) acc = number r (number s acc).
Proof.
  induction 1 as [| c s Hc _ IH]; intros acc r; [done |]. cbn [app number].
  destruct (Z.leb_spec 48 c), (Z.leb_spec c 57); [| lia..]. apply IH.
Qed.
