(* ===== verification/Keyboard.v ===== *)
(** * Keyboard and timer (src/drivers/keyboard.c, src/drivers/timer.c)

    The keyboard interrupt handler decodes scancodes into a ring buffer that
    [keyboard_getchar] reads; the ring is proved to be a queue.  The timer
    counts ticks and [timer_wait] waits for a number of them. *)
From S2P Require Import Prelude.

(** ** Keyboard state *)
Record keyboard := Keyboard {
  keyboard_buffer : memory;
  buffer_head : Z;
  buffer_tail : Z;
  shift_pressed : bool;
  caps_lock : bool;
}.

Definition KEY_BACKSPACE : Z := 8.
Definition KEY_TAB : Z := 9.
Definition KEY_ENTER : Z := 10.
Definition KEY_ESCAPE : Z := 27.

(** The layout tables; entries past the initialisers are 0. *)
Definition scancode_to_char : list Z :=
  [0; 0; 49; 50; 51; 52; 53; 54; 55; 56; 57; 48; 45; 61; 8; 9; 113; 119; 101; 114; 116;
   121; 117; 105; 111; 112; 91; 93; 10; 0; 97; 115; 100; 102; 103; 104; 106; 107; 108;
   59; 39; 96; 0; 92; 122; 120; 99; 118; 98; 110; 109; 44; 46; 47; 0; 42; 0; 32; 0; 0;
   0; 0; 0; 0; 0; 0; 0; 0; 0; 0; 0; 0; 0; 0; 0; 0; 0; 0; 0; 0; 0; 45; 0; 0; 0; 43; 0;
   0; 0; 0; 0; 0; 0].

Definition scancode_to_char_shift : list Z :=
  [0; 0; 33; 64; 35; 36; 37; 94; 38; 42; 40; 41; 95; 43; 8; 9; 81; 87; 69; 82; 84; 89;
   85; 73; 79; 80; 123; 125; 10; 0; 65; 83; 68; 70; 71; 72; 74; 75; 76; 58; 34; 126; 0;
   124; 90; 88; 67; 86; 66; 78; 77; 60; 62; 63; 0; 42; 0; 32; 0; 0; 0; 0; 0; 0; 0; 0;
   0; 0; 0; 0; 0; 0; 0; 0; 0; 0; 0; 0; 0; 0; 0; 45; 0; 0; 0; 43; 0; 0; 0; 0; 0; 0; 0].

Definition set_modifiers (shift caps : bool) (k : keyboard) : keyboard :=
  Keyboard (keyboard_buffer k) (buffer_head k) (buffer_tail k) shift caps.

(** [keyboard_init] (the registration of the handler is in [interrupts.c]). *)
Definition keyboard_init (k : keyboard) : keyboard :=
  Keyboard (keyboard_buffer k) 0 0 false false.

(** The character a key press puts in the buffer; 0 for none. *)
Definition press_char (scancode : Z) (k : keyboard) : Z :=
  if (scancode =? 42) || (scancode =? 54) then 0
  else if scancode =? 14 then KEY_BACKSPACE
  else if scancode =? 15 then KEY_TAB
  else if scancode =? 28 then KEY_ENTER
  else if scancode =? 1 then KEY_ESCAPE
  else if scancode <? 128 then
    if xorb (shift_pressed k) (caps_lock k)
    then nth (Z.to_nat scancode) scancode_to_char_shift 0
    else nth (Z.to_nat scancode) scancode_to_char 0
  else 0.

(** [keyboard_handler] on the byte [scancode] read from port 0x60. *)
Definition keyboard_handler (scancode : Z) (k : keyboard) : keyboard :=
  if negb (Z.land scancode 128 =? 0) then
    let scancode := Z.land scancode 127 in
    if (scancode =? 42) || (scancode =? 54) then set_modifiers false (caps_lock k) k
    else if scancode =? 58 then set_modifiers (shift_pressed k) (negb (caps_lock k)) k
    else k
  else
    let c := press_char scancode k in
    let k :=
      if (scancode =? 42) || (scancode =? 54) then set_modifiers true (caps_lock k) k else k in
    if negb (c =? 0) then
      let next_head := (buffer_head k + 1) mod 256 in
      if negb (next_head =? buffer_tail k) then
        Keyboard (store (buffer_head k) c (keyboard_buffer k)) next_head (buffer_tail k)
                 (shift_pressed k) (caps_lock k)
      else k
    else k.

Definition keyboard_available (k : keyboard) : bool := negb (buffer_head k =? buffer_tail k).

(** [keyboard_getchar]; [None] while it waits for a key. *)
Definition keyboard_getchar (k : keyboard) : option (Z * keyboard) :=
  if buffer_head k =? buffer_tail k then None else
  let c := load (keyboard_buffer k) (buffer_tail k) in
  Some (c, Keyboard (keyboard_buffer k) (buffer_head k) ((buffer_tail k + 1) mod 256)
                    (shift_pressed k) (caps_lock k)).

(** ** Timer *)
Definition TIMER_FREQUENCY : Z := 100.

Definition timer_divisor : Z := 1193180 / TIMER_FREQUENCY.

(** [timer_init]: the tick counter and the bytes sent to the PIT, in order. *)
Definition timer_init : Z * list (Z * Z) :=
  (0, [(0x43, 0x36); (0x40, Z.land timer_divisor 255);
       (0x40, Z.land (Z.shiftr timer_divisor 8) 255)]).

Definition timer_handler (timer_ticks : Z) : Z := u32 (timer_ticks + 1).

(** [timer_wait]: the loop test, made once per interrupt; the wait is over at
    the first tick count for which it fails. *)
Definition still_waiting (start ticks timer_ticks : Z) : bool := u32 (timer_ticks - start) <? ticks.

Fixpoint timer_wait (fuel : nat) (start ticks timer_ticks : Z) : option Z :=
  match fuel with
  | O => None
  | S fuel =>
    if still_waiting start ticks timer_ticks
    then timer_wait fuel start ticks (timer_handler timer_ticks)
    else Some timer_ticks
  end.

(** ** The ring buffer is a queue *)
Record keyboard_ok (k : keyboard) : Prop := {
  ko_head : 0 <= buffer_head k < 256;
  ko_tail : 0 <= buffer_tail k < 256;
}.

Definition queue_length (k : keyboard) : Z := (buffer_head k - buffer_tail k) mod 256.
Definition queue (k : keyboard) : list Z :=
  map (λ i, load (keyboard_buffer k) ((buffer_tail k + i) mod 256)) (seqZ 0 (queue_length k)).

Lemma length_queue k : Z.of_nat (length (queue k)) = queue_length k.
Proof. unfold queue, queue_length. rewrite length_map, length_seqZ. lia. Qed.

(** What a key press means. *)
Definition enqueue (c : Z) (q : list Z) : list Z :=
  if c =? 0 then q else if decide (length q < 255)%nat then q ++ [c] else q.

Lemma press_queue c k :
  keyboard_ok k →
  let k' :=
    if negb (c =? 0) then
      let next_head := (buffer_head k + 1) mod 256 in
      if negb (next_head =? buffer_tail k) then
        Keyboard (store (buffer_head k) c (keyboard_buffer k)) next_head (buffer_tail k)
                 (shift_pressed k) (caps_lock k)
      else k
    else k in
  keyboard_ok k' ∧ queue k' = enqueue c (queue k) ∧
  shift_pressed k' = shift_pressed k ∧ caps_lock k' = caps_lock k.
Proof.
  intros [Hh Ht]. unfold enqueue. destruct (c =? 0); [done |]. cbv zeta. simpl.
  pose proof (length_queue k) as Hl.
  destruct (Z.eqb_spec ((buffer_head k + 1) mod 256) (buffer_tail k)) as [Hfull|Hfree]; simpl.
  - split_and!; try done. rewrite decide_False; [done |]. unfold queue_length in Hl. lia.
  - split_and!; try done.
    + split; simpl; lia.
    + rewrite decide_True by (unfold queue_length in Hl; lia).
      unfold queue. simpl.
      assert (Hlen : queue_length {| keyboard_buffer := store (buffer_head k) c (keyboard_buffer k);
                buffer_head := (buffer_head k + 1) mod 256; buffer_tail := buffer_tail k;
                shift_pressed := shift_pressed k; caps_lock := caps_lock k |} = queue_length k + 1)
        by (unfold queue_length; simpl; lia).
      rewrite Hlen, seqZ_app, map_app by (unfold queue_length; lia). simpl. f_equal.
      * apply map_ext_in. intros i Hi%list_elem_of_In. apply elem_of_seqZ in Hi.
        apply load_store_ne. unfold queue_length in *. lia.
      * replace ((buffer_tail k + (Z.of_nat 0 + (0 + queue_length k))) mod 256) with (buffer_head k)
          by (unfold queue_length; lia).
        by rewrite load_store_eq.
Qed.

(** C23. The keyboard buffer is a first-in first-out queue of at most 255
    characters: the handler appends the character of a key press (or drops it
    when the queue is full) and changes nothing else of it; a key release
    only changes the modifiers; [keyboard_getchar] takes the oldest character,
    and waits exactly when the queue is empty. *)
Theorem keyboard_is_queue k scancode :
  keyboard_ok k → is_u8 scancode →
  let k' := keyboard_handler scancode k in
  keyboard_ok k' ∧
  queue k' = (if scancode <? 128 then enqueue (press_char scancode k) (queue k) else queue k) ∧
  match keyboard_getchar k with
  | None => queue k = [] ∧ keyboard_available k = false
  | Some (c, k'') => queue k = c :: queue k'' ∧ keyboard_ok k'' ∧ keyboard_available k = true
  end.
Proof.
  intros Hok Hs k'. pose proof Hok as [Hh Ht]. unfold is_u8 in Hs.
  assert (Hbit : (Z.land scancode 128 =? 0) = (scancode <? 128)).
  { assert (H : forallb (λ s, Bool.eqb (Z.land s 128 =? 0) (s <? 128)) (seqZ 0 256) = true)
      by (vm_compute; reflexivity).
    rewrite forallb_forall in H. apply eqb_prop, H, list_elem_of_In, elem_of_seqZ. lia. }
  assert (H12 : keyboard_ok k' ∧ queue k' =
    (if scancode <? 128 then enqueue (press_char scancode k) (queue k) else queue k)).
  { unfold k', keyboard_handler. rewrite Hbit. destruct (scancode <? 128); simpl.
    - destruct ((scancode =? 42) || (scancode =? 54)) eqn:Em.
      + unfold press_char. rewrite Em. simpl. done.
      + destruct (press_queue (press_char scancode k) k Hok) as (H1 & H2 & _). split; done.
    - destruct (_ || _); [done |]. by destruct (_ =? 58). }
  destruct H12 as [H1 H2]. split; [done |]. split; [done |].
  unfold keyboard_getchar, keyboard_available.
  destruct (Z.eqb_spec (buffer_head k) (buffer_tail k)) as [He|Hne].
  - unfold queue, queue_length. rewrite He, Z.sub_diag. done.
  - split_and!; [| split; simpl; lia | done].
    unfold queue at 1. assert (Hl : 0 < queue_length k) by (unfold queue_length; lia).
    rewrite seqZ_cons by done. cbn [map].
    rewrite Z.add_0_r, (Z.mod_small (buffer_tail k)) by lia. f_equal. unfold queue. cbn [keyboard_buffer buffer_tail].
    assert (queue_length (Keyboard (keyboard_buffer k) (buffer_head k) ((buffer_tail k + 1) mod 256)
              (shift_pressed k) (caps_lock k)) = Z.pred (queue_length k)) as ->
      by (unfold queue_length in *; simpl; lia).
    replace (Z.succ 0) with (1 + 0) by lia. rewrite <- (fmap_add_seqZ 1 0).
    change (Z.add 1 <$> seqZ 0 (Z.pred (queue_length k)))
      with (map (Z.add 1) (seqZ 0 (Z.pred (queue_length k)))).
    rewrite map_map. apply map_ext. intros i. f_equal. lia.
Qed.

(** [timer_wait] ends after exactly [ticks] timer interrupts, even when
    the tick counter wraps around in between. *)
Theorem timer_wait_ticks start ticks :
  is_u32 start → is_u32 ticks →
  timer_wait (S (Z.to_nat ticks)) start ticks start = Some (u32 (start + ticks)).
Proof.
  intros Hs Ht. unfold is_u32 in *.
  assert (H : ∀ n i, Z.of_nat n = ticks - i → 0 <= i <= ticks →
    timer_wait (S n) start ticks (u32 (start + i)) = Some (u32 (start + ticks))).
  { induction n as [|n IH]; intros i Hn Hi; cbn [timer_wait]; unfold still_waiting.
    - destruct (Z.ltb_spec (u32 (u32 (start + i) - start)) ticks) as [Hlt|]; [unfold u32 in *; lia |].
      do 2 f_equal. lia.
    - destruct (Z.ltb_spec (u32 (u32 (start + i) - start)) ticks) as [|Hge]; [| unfold u32 in *; lia].
      replace (timer_handler (u32 (start + i))) with (u32 (start + (i + 1)))
        by (unfold timer_handler, u32; lia).
      apply IH; lia. }
  specialize (H (Z.to_nat ticks) 0 ltac:(lia) ltac:(lia)).
  rewrite Z.add_0_r in H. by rewrite (u32_small start) in H by (unfold is_u32; lia).
Qed.

(** ** Witnesses *)
Definition idle_keyboard : keyboard := keyboard_init (Keyboard ∅ 0 0 false false).

Lemma keyboard_is_queue_witness :
  queue (keyboard_handler 30 idle_keyboard) = [97] ∧ keyboard_getchar idle_keyboard = None.
Proof.
  destruct (keyboard_is_queue idle_keyboard 30 ltac:(split; simpl; lia) ltac:(unfold is_u8; lia))
    as (_ & H & _).
  split; [exact H | reflexivity].
Defined.

Lemma timer_wait_ticks_witness : timer_wait 4 4294967294 3 4294967294 = Some 1.
Proof. exact (timer_wait_ticks 4294967294 3 ltac:(unfold is_u32; lia) ltac:(unfold is_u32; lia)). Defined.
