(* ===== verification/Process.v ===== *)
(** * Processes (src/kernel/kernel.c)

    The process table, the bitmap of its slots and the round-robin scheduler
    of [kernel.c].  Process creation and exit use the kernel heap. *)
From S2P Require Import Prelude Heap HeapSpec HeapAlloc HeapFree HeapAligned Frames.

Definition MAX_PROCESSES : Z := 256.
Definition MAX_OPEN_FILES : Z := 32.
Definition KERNEL_STACK_SIZE : Z := 16384.
Definition USER_STACK_TOP : Z := 0x7FFFF000.

(** Process states. *)
Inductive pstate := RUNNING | READY | BLOCKED | TERMINATED.
#[export] Instance pstate_eq_dec : EqDecision pstate.
Proof. solve_decision. Defined.

(** The fields of [process_t] that kernel.c reads or writes; [fd_inodes] are
    the [inode] fields of the file descriptor table. *)
Record process := Process {
  pid : Z;
  ppid : Z;
  state : pstate;
  kernel_stack : Z;
  user_stack : Z;
  exit_code : Z;
  fd_inodes : list Z;
  cwd_inode : Z;
}.
#[export] Instance process_inhabited : Inhabited process :=
  populate (Process 0 0 RUNNING 0 0 0 [] 0).

Definition set_state (s : pstate) (p : process) : process :=
  Process (pid p) (ppid p) s (kernel_stack p) (user_stack p) (exit_code p) (fd_inodes p) (cwd_inode p).
Definition set_exit (code : Z) (p : process) : process :=
  Process (pid p) (ppid p) (state p) (kernel_stack p) (user_stack p) code (fd_inodes p) (cwd_inode p).

(** ** Kernel state

    [current] is the index of [current_process] in the table; [sched_index] is
    the static [current_index] of [process_schedule]; [kheap] is the kernel heap. *)
Record kstate := KState {
  process_table : list process;
  process_bitmap : list Z;
  current : option nat;
  next_pid : Z;
  sched_index : nat;
  kheap : heap_state;
}.

Definition set_table (t : list process) (k : kstate) : kstate :=
  KState t (process_bitmap k) (current k) (next_pid k) (sched_index k) (kheap k).
Definition set_bitmap (b : list Z) (k : kstate) : kstate :=
  KState (process_table k) b (current k) (next_pid k) (sched_index k) (kheap k).
Definition set_current (c : option nat) (k : kstate) : kstate :=
  KState (process_table k) (process_bitmap k) c (next_pid k) (sched_index k) (kheap k).
Definition set_next_pid (n : Z) (k : kstate) : kstate :=
  KState (process_table k) (process_bitmap k) (current k) n (sched_index k) (kheap k).
Definition set_sched_index (i : nat) (k : kstate) : kstate :=
  KState (process_table k) (process_bitmap k) (current k) (next_pid k) i (kheap k).
Definition set_kheap (h : heap_state) (k : kstate) : kstate :=
  KState (process_table k) (process_bitmap k) (current k) (next_pid k) (sched_index k) h.

(** ** The slot bitmap *)
Definition slot_bit (b : list Z) (i : nat) : bool :=
  Z.testbit (b !!! (i / 32)%nat) (Z.of_nat (i mod 32)).
Definition take_slot (b : list Z) (i : nat) : list Z :=
  <[(i / 32)%nat := Z.lor (b !!! (i / 32)%nat) (Z.shiftl 1 (Z.of_nat (i mod 32)))]> b.
Definition drop_slot (b : list Z) (i : nat) : list Z :=
  <[(i / 32)%nat := Z.land (b !!! (i / 32)%nat) (not32 (Z.shiftl 1 (Z.of_nat (i mod 32))))]> b.
Definition slot_free (b : list Z) (i : nat) : bool :=
  Z.land (b !!! (i / 32)%nat) (Z.shiftl 1 (Z.of_nat (i mod 32))) =? 0.

(** The loop of [find_free_pid], [n] iterations left. *)
Fixpoint find_free_from (n i : nat) (b : list Z) : option nat :=
  match n with
  | O => None
  | S n => if slot_free b i then Some i else find_free_from n (S i) b
  end.

(** [find_free_pid]: the slot index and the bitmap. *)
Definition find_free_pid (b : list Z) : nat * list Z :=
  match find_free_from 256 0 b with
  | Some i => (i, take_slot b i)
  | None => (0%nat, b)
  end.

(** ** Operations of kernel.c *)
Definition process_init : cmd kstate unit := λ k,
  let t := map (set_state TERMINATED) (process_table k) in
  let b := replicate 8 0 in
  let p := t !!! 0%nat in
  let new_pid := next_pid k in
  '(stack, h) ← kmalloc KERNEL_STACK_SIZE (kheap k);
  let p := Process new_pid 0 RUNNING stack USER_STACK_TOP (exit_code p) (fd_inodes p) (cwd_inode p) in
  Ok (tt, KState (<[0%nat := p]> t) (<[0%nat := Z.lor (b !!! 0%nat) 1]> b) (Some 0%nat)
            (u32 (new_pid + 1)) (sched_index k) h).

Definition process_create : cmd kstate Z := λ k,
  let '(index, b) := find_free_pid (process_bitmap k) in
  let k := set_bitmap b k in
  if (index =? 0)%nat then Ok (0, k) else
  let new_pid := next_pid k in
  match current k with
  | None => Fault  (* current_process->pcb with a null pointer *)
  | Some c =>
    let parent := pid (process_table k !!! c) in
    '(stack, h) ← kmalloc KERNEL_STACK_SIZE (kheap k);
    let p := process_table k !!! index in
    let p := Process new_pid parent READY stack USER_STACK_TOP 0
               (replicate (Z.to_nat MAX_OPEN_FILES) 0) 1 in
    Ok (new_pid, set_kheap h (set_next_pid (u32 (new_pid + 1))
                   (set_table (<[index := p]> (process_table k)) k)))
  end.

(** [process_schedule]'s loop: [n] iterations left, [index] the static
    [current_index]. *)
Fixpoint find_ready (n index : nat) (t : list process) : option nat :=
  match n with
  | O => None
  | S n =>
    let index := ((index + 1) mod 256)%nat in
    if decide (state (t !!! index) = READY) then Some index else find_ready n index t
  end.

(** [process_switch] returns at once. *)
Definition process_switch (k : kstate) : kstate := k.

Definition process_schedule : cmd kstate unit := λ k,
  match find_ready 256 (sched_index k) (process_table k) with
  | Some i =>
    let k := set_sched_index i k in
    let t := process_table k in
    let t :=
      match current k with
      | Some c =>
        if decide (state (t !!! c) = RUNNING) then <[c := set_state READY (t !!! c)]> t else t
      | None => t
      end in
    let t := <[i := set_state RUNNING (t !!! i)]> t in
    Ok (tt, process_switch (set_current (Some i) (set_table t k)))
  | None => Panic "No runnable processes"
  end.

Definition process_exit (code : Z) : cmd kstate unit := λ k,
  match current k with
  | None => Ok (tt, k)
  | Some c =>
    let p := set_state TERMINATED (set_exit code (process_table k !!! c)) in
    let k := set_table (<[c := p]> (process_table k)) k in
    '(_, h) ← kfree (kernel_stack p) (kheap k);
    let k := set_bitmap (drop_slot (process_bitmap k) c) (set_kheap h k) in
    process_schedule k
  end.

(** ** The invariant *)

(** The bitmap marks exactly the slots in use, at most the current process is
    running, and the processes in use have distinct identifiers below
    [next_pid]. *)
Record proc_base (k : kstate) : Prop := {
  pb_table : length (process_table k) = 256%nat;
  pb_bitmap : length (process_bitmap k) = 8%nat;
  pb_words : Forall is_u32 (process_bitmap k);
  pb_bits : ∀ i, (i < 256)%nat →
    (slot_bit (process_bitmap k) i = true ↔ state (process_table k !!! i) ≠ TERMINATED);
  pb_current : ∃ c, current k = Some c ∧ (c < 256)%nat;
  pb_running : ∀ i, (i < 256)%nat → state (process_table k !!! i) = RUNNING → current k = Some i;
  pb_pids : ∀ i, (i < 256)%nat → state (process_table k !!! i) ≠ TERMINATED →
    0 < pid (process_table k !!! i) < next_pid k;
  pb_distinct : ∀ i j, (i < 256)%nat → (j < 256)%nat →
    state (process_table k !!! i) ≠ TERMINATED → state (process_table k !!! j) ≠ TERMINATED →
    pid (process_table k !!! i) = pid (process_table k !!! j) → i = j;
  pb_sched : (sched_index k < 256)%nat;
}.

(** The current process is running. *)
Definition current_runs (k : kstate) : Prop :=
  ∃ c, current k = Some c ∧ state (process_table k !!! c) = RUNNING.

(** ** The bitmap *)
Lemma slot_word b i :
  Forall is_u32 b → (i < 32 * length b)%nat → is_u32 (b !!! (i / 32)%nat).
Proof.
  intros Hw Hi. assert (i / 32 < length b)%nat by (apply Nat.Div0.div_lt_upper_bound; lia).
  rewrite Forall_lookup in Hw. destruct (lookup_lt_is_Some_2 b (i / 32)) as [w Hlw]; [lia |].
  rewrite (list_lookup_total_correct _ _ _ Hlw). by eapply Hw.
Qed.

Lemma slot_free_bit b i : slot_free b i = negb (slot_bit b i).
Proof. unfold slot_free, slot_bit. by rewrite land_bit by lia. Qed.

Lemma slot_index i j :
  (i / 32 = j / 32)%nat → Z.of_nat (i mod 32) = Z.of_nat (j mod 32) → i = j.
Proof.
  intros H1 H2%Nat2Z.inj. rewrite (Nat.div_mod_eq i 32), (Nat.div_mod_eq j 32). lia.
Qed.

(** Rewriting one bit of the bitmap. *)
Lemma slot_bit_insert b i j v (x : bool) :
  (i < 32 * length b)%nat →
  (∀ n, 0 <= n → Z.testbit v n = if n =? Z.of_nat (i mod 32) then x else Z.testbit (b !!! (i / 32)%nat) n) →
  slot_bit (<[(i / 32)%nat := v]> b) j = if decide (j = i) then x else slot_bit b j.
Proof.
  intros Hi Hv. assert (i / 32 < length b)%nat by (apply Nat.Div0.div_lt_upper_bound; lia).
  unfold slot_bit. destruct (decide (j / 32 = i / 32)%nat) as [He|Hne].
  - rewrite He, list_lookup_total_insert_eq by lia. rewrite Hv by lia.
    destruct (decide (j = i)) as [->|Hji]; [by rewrite Z.eqb_refl |].
    destruct (Z.eqb_spec (Z.of_nat (j mod 32)) (Z.of_nat (i mod 32))) as [Hm|]; [| done].
    by destruct Hji; apply slot_index.
  - rewrite list_lookup_total_insert_ne by done.
    destruct (decide (j = i)) as [->|]; done.
Qed.

Lemma take_slot_bit b i j :
  (i < 32 * length b)%nat →
  slot_bit (take_slot b i) j = if decide (j = i) then true else slot_bit b j.
Proof.
  intros Hi. apply slot_bit_insert; [done |]. intros n Hn.
  rewrite lor_bit by lia. by destruct (_ =? _).
Qed.

Lemma drop_slot_bit b i j :
  Forall is_u32 b → (i < 32 * length b)%nat →
  slot_bit (drop_slot b i) j = if decide (j = i) then false else slot_bit b j.
Proof.
  intros Hw Hi. apply slot_bit_insert; [done |]. intros n Hn.
  rewrite clear_bit by (done || lia || by apply slot_word). by destruct (_ =? _).
Qed.

Lemma slot_shift i : is_u32 (Z.shiftl 1 (Z.of_nat (i mod 32))).
Proof. apply bit_u32. pose proof (Nat.mod_upper_bound i 32). lia. Qed.

Lemma take_slot_words b i :
  Forall is_u32 b → (i < 32 * length b)%nat →
  length (take_slot b i) = length b ∧ Forall is_u32 (take_slot b i).
Proof.
  intros Hw Hi. unfold take_slot. rewrite length_insert. split; [done |].
  apply Forall_insert; [done |]. apply lor_u32; [by apply slot_word | apply slot_shift].
Qed.

Lemma drop_slot_words b i :
  Forall is_u32 b → (i < 32 * length b)%nat →
  length (drop_slot b i) = length b ∧ Forall is_u32 (drop_slot b i).
Proof.
  intros Hw Hi. unfold drop_slot. rewrite length_insert. split; [done |].
  apply Forall_insert; [done |]. apply land_u32. by apply slot_word.
Qed.

Lemma find_free_from_spec b : ∀ n i,
  match find_free_from n i b with
  | Some j => (i <= j < i + n)%nat ∧ slot_bit b j = false ∧ ∀ l, (i <= l < j)%nat → slot_bit b l = true
  | None => ∀ l, (i <= l < i + n)%nat → slot_bit b l = true
  end.
Proof.
  induction n as [|n IH]; intros i; simpl; [lia |]. rewrite slot_free_bit.
  destruct (slot_bit b i) eqn:E; simpl.
  - specialize (IH (S i)). destruct (find_free_from n (S i) b) as [j|].
    + destruct IH as (Hj & Hb & Hl). split_and!; [lia | lia | done |].
      intros l Hll. destruct (decide (l = i)) as [->|]; [done |]. apply Hl. lia.
    + intros l Hll. destruct (decide (l = i)) as [->|]; [done |]. apply IH. lia.
  - split_and!; [lia | lia | done | lia].
Qed.

(** ** Creation *)

(** Filling a free slot with a ready process that has the next identifier. *)
Lemma fill_slot_base k i p h :
  proc_base k → (i < 256)%nat → slot_bit (process_bitmap k) i = false →
  pid p = next_pid k → state p = READY → 0 < next_pid k → next_pid k + 1 < 4294967296 →
  proc_base (set_kheap h (set_next_pid (u32 (next_pid k + 1)) (set_table (<[i := p]> (process_table k))
    (set_bitmap (take_slot (process_bitmap k) i) k)))).
Proof.
  intros [B1 B2 B3 B4 B5 B6 B7 B8 B9] Hi Hfree Hpid Hst Hn0 Hn. rewrite u32_small by (unfold is_u32; lia).
  destruct (take_slot_words (process_bitmap k) i B3 ltac:(lia)) as [W1 W2]. rewrite B2 in W1.
  assert (Ht : ∀ j, (j < 256)%nat → <[i:=p]> (process_table k) !!! j =
                    if decide (j = i) then p else process_table k !!! j).
  { intros j Hj. destruct (decide (j = i)) as [->|];
      [apply list_lookup_total_insert_eq; lia | by apply list_lookup_total_insert_ne]. }
  split; simpl; try done.
  - by rewrite length_insert.
  - intros j Hj. rewrite take_slot_bit, Ht by (done || lia).
    destruct (decide (j = i)); [by rewrite Hst | by apply B4].
  - intros j Hj. rewrite Ht by done. destruct (decide (j = i)); [by rewrite Hst | by apply B6].
  - intros j Hj. rewrite Ht by done. destruct (decide (j = i)); [lia |].
    intros Hs. specialize (B7 j Hj Hs). lia.
  - intros j l Hj Hl. rewrite !Ht by done.
    destruct (decide (j = i)) as [->|], (decide (l = i)) as [->|]; intros H1 H2 He; try done.
    + specialize (B7 l Hl H2). lia.
    + specialize (B7 j Hj H1). lia.
    + by apply B8.
Qed.

Lemma process_create_cases k bs :
  proc_base k → heap_ok (kheap k) bs → slot_bit (process_bitmap k) 0 = true →
  0 < next_pid k → next_pid k + 1 < 4294967296 →
  (∃ i k', (0 < i < 256)%nat ∧ state (process_table k !!! i) = TERMINATED ∧
     (∀ j, (j < i)%nat → state (process_table k !!! j) ≠ TERMINATED) ∧
     process_create k = Ok (next_pid k, k') ∧ proc_base k' ∧ current k' = current k ∧
     pid (process_table k' !!! i) = next_pid k ∧ state (process_table k' !!! i) = READY ∧
     (∀ c, current k = Some c → ppid (process_table k' !!! i) = pid (process_table k !!! c)) ∧
     ∀ j, j ≠ i → process_table k' !!! j = process_table k !!! j) ∨
  ((∀ j, (j < 256)%nat → state (process_table k !!! j) ≠ TERMINATED) ∧
   process_create k = Ok (0, k)).
Proof.
  intros Hbase Hheap H0 Hn0 Hn. pose proof Hbase as [B1 B2 B3 B4 B5 B6 B7 B8 B9].
  unfold process_create, find_free_pid.
  pose proof (find_free_from_spec (process_bitmap k) 256 0) as Hf.
  destruct (find_free_from 256 0 (process_bitmap k)) as [i|].
  2:{ right. split; [| by destruct k]. intros j Hj. apply B4; [done |]. apply Hf. lia. }
  left. destruct Hf as (Hi & Hfree & Hbefore).
  assert (Hi0 : i ≠ 0%nat) by (intros ->; congruence).
  destruct (Nat.eqb_spec i 0) as [|_]; [done |].
  destruct B5 as (c & Hc & Hc'). simpl. rewrite Hc.
  destruct (kmalloc_returns KERNEL_STACK_SIZE (kheap k) bs Hheap) as (stack & h & Hk);
    [unfold KERNEL_STACK_SIZE; lia |].
  rewrite Hk. simpl.
  assert (Hterm : state (process_table k !!! i) = TERMINATED).
  { destruct (decide (state (process_table k !!! i) = TERMINATED)) as [|Hne]; [done |].
    apply B4 in Hne; [congruence | lia]. }
  exists i. eexists. split; [lia |]. split; [done |]. split.
  { intros j Hj. apply B4; [lia |]. apply Hbefore. lia. }
  split; [reflexivity |]. split; [by apply fill_slot_base; try done; lia |].
  simpl. rewrite !list_lookup_total_insert_eq by lia. split_and!; try done.
  - intros c' [= <-]. done.
  - intros j Hj. by apply list_lookup_total_insert_ne.
Qed.

(** [process_create] fills the first free slot with a ready process that
    has a fresh identifier and the current process as parent, keeps every other
    process and the invariant; when all slots are in use it answers 0 and
    changes nothing. *)
Theorem process_create_ok k bs :
  proc_base k → heap_ok (kheap k) bs → slot_bit (process_bitmap k) 0 = true →
  0 < next_pid k → next_pid k + 1 < 4294967296 →
  (∃ i k', (0 < i < 256)%nat ∧ state (process_table k !!! i) = TERMINATED ∧
     (∀ j, (j < i)%nat → state (process_table k !!! j) ≠ TERMINATED) ∧
     process_create k = Ok (next_pid k, k') ∧ proc_base k' ∧ current k' = current k ∧
     pid (process_table k' !!! i) = next_pid k ∧ state (process_table k' !!! i) = READY ∧
     (∀ c, current k = Some c → ppid (process_table k' !!! i) = pid (process_table k !!! c)) ∧
     ∀ j, j ≠ i → process_table k' !!! j = process_table k !!! j) ∨
  ((∀ j, (j < 256)%nat → state (process_table k !!! j) ≠ TERMINATED) ∧
   process_create k = Ok (0, k)).
Proof. apply process_create_cases. Qed.

(** When slot 0 is free (the init process has exited), [process_create]
    takes that slot, reports failure and leaves the slot marked as used though
    no process is in it: the slot is lost. *)
Theorem process_create_leaks_slot_zero k :
  proc_base k → slot_bit (process_bitmap k) 0 = false →
  ∃ k', process_create k = Ok (0, k') ∧ process_table k' = process_table k ∧
    state (process_table k' !!! 0%nat) = TERMINATED ∧ slot_bit (process_bitmap k') 0 = true.
Proof.
  intros [B1 B2 B3 B4 _ _ _ _ _] H0. unfold process_create, find_free_pid.
  change (find_free_from 256 0 (process_bitmap k)) with
    (if slot_free (process_bitmap k) 0 then Some 0%nat else find_free_from 255 1 (process_bitmap k)).
  rewrite slot_free_bit, H0. simpl. eexists. split; [done |]. split; [done |].
  split; [| simpl; by rewrite take_slot_bit by (rewrite ?B2; lia)].
  simpl. destruct (decide (state (process_table k !!! 0%nat) = TERMINATED)) as [|Hne]; [done |].
  apply B4 in Hne; [congruence | lia].
Qed.

(** ** Scheduling *)
Lemma find_ready_spec t : ∀ n idx,
  match find_ready n idx t with
  | Some j => ∃ d, (1 <= d <= n)%nat ∧ j = ((idx + d) mod 256)%nat ∧ state (t !!! j) = READY ∧
      ∀ e, (1 <= e < d)%nat → state (t !!! ((idx + e) mod 256)%nat) ≠ READY
  | None => ∀ e, (1 <= e <= n)%nat → state (t !!! ((idx + e) mod 256)%nat) ≠ READY
  end.
Proof.
  induction n as [|n IH]; intros idx; cbn [find_ready]; [lia |].
  assert (Hmod : ∀ e, (((idx + 1) mod 256 + e) mod 256 = (idx + S e) mod 256)%nat).
  { intros e. rewrite Nat.Div0.add_mod_idemp_l. f_equal. lia. }
  destruct (decide (state (t !!! ((idx + 1) mod 256)%nat) = READY)) as [Hr|Hr].
  - exists 1%nat. split_and!; [lia | lia | done | done | lia].
  - specialize (IH ((idx + 1) mod 256)%nat). destruct (find_ready n _ t) as [j|].
    + destruct IH as (d & Hd & -> & Hj & Hb). exists (S d). rewrite Hmod in *.
      split_and!; [lia | lia | done | done |]. intros e He.
      destruct (decide (e = 1%nat)) as [->|]; [done |].
      specialize (Hb (e - 1)%nat ltac:(lia)). rewrite Hmod in Hb.
      replace (S (e - 1)) with e in Hb by lia. done.
    + intros e He. destruct (decide (e = 1%nat)) as [->|]; [done |].
      specialize (IH (e - 1)%nat ltac:(lia)). rewrite Hmod in IH.
      replace (S (e - 1)) with e in IH by lia. done.
Qed.

(** Every slot is visited by the scheduler's loop. *)
Lemma cyclic_slot idx i :
  (idx < 256)%nat → (i < 256)%nat → ∃ e, (1 <= e <= 256)%nat ∧ ((idx + e) mod 256 = i)%nat.
Proof.
  intros H1 H2. destruct (decide (idx < i)%nat).
  - exists (i - idx)%nat. split; [lia |]. replace (idx + (i - idx))%nat with i by lia.
    by apply Nat.mod_small.
  - exists (i + 256 - idx)%nat. split; [lia |].
    replace (idx + (i + 256 - idx))%nat with (i + 1 * 256)%nat by lia.
    rewrite Nat.Div0.mod_add. by apply Nat.mod_small.
Qed.

(** What a process's state becomes when another one is scheduled. *)
Definition preempt (s : pstate) : pstate := match s with RUNNING => READY | s => s end.

Lemma process_schedule_cases k :
  proc_base k →
  (∃ d i k', (1 <= d <= 256)%nat ∧ i = ((sched_index k + d) mod 256)%nat ∧
     state (process_table k !!! i) = READY ∧
     (∀ e, (1 <= e < d)%nat → state (process_table k !!! ((sched_index k + e) mod 256)%nat) ≠ READY) ∧
     process_schedule k = Ok (tt, k') ∧ proc_base k' ∧ current k' = Some i ∧ sched_index k' = i ∧
     (∀ j, (j < 256)%nat → process_table k' !!! j =
        set_state (if decide (j = i) then RUNNING else preempt (state (process_table k !!! j)))
          (process_table k !!! j))) ∨
  ((∀ j, (j < 256)%nat → state (process_table k !!! j) ≠ READY) ∧
   process_schedule k = Panic "No runnable processes").
Proof.
  intros Hb. pose proof Hb as [B1 B2 B3 B4 (c & Hc & Hc') B6 B7 B8 B9].
  unfold process_schedule. pose proof (find_ready_spec (process_table k) 256 (sched_index k)) as Hf.
  destruct (find_ready 256 (sched_index k) (process_table k)) as [i|].
  2:{ right. split; [| done]. intros j Hj. destruct (cyclic_slot _ _ B9 Hj) as (e & He & <-). by apply Hf. }
  left. destruct Hf as (d & Hd & Hi & Hready & Hbefore).
  assert (Hi256 : (i < 256)%nat) by (rewrite Hi; apply Nat.mod_upper_bound; lia).
  exists d, i. simpl. rewrite Hc.
  set (t1 := if decide (state (process_table k !!! c) = RUNNING)
             then <[c:=set_state READY (process_table k !!! c)]> (process_table k)
             else process_table k).
  assert (Hl1 : length t1 = 256%nat) by (unfold t1; case_decide; [by rewrite length_insert | done]).
  assert (Ht1 : ∀ j, (j < 256)%nat →
    t1 !!! j = set_state (preempt (state (process_table k !!! j))) (process_table k !!! j)).
  { intros j Hj. assert (Hsame : state (process_table k !!! j) ≠ RUNNING →
      process_table k !!! j = set_state (preempt (state (process_table k !!! j))) (process_table k !!! j)).
    { intros Hn. destruct (process_table k !!! j) as [? ? []]; done. }
    unfold t1. case_decide as Hcr.
    - destruct (decide (j = c)) as [->|Hjc].
      + rewrite list_lookup_total_insert_eq by lia. by rewrite Hcr.
      + rewrite list_lookup_total_insert_ne by done. apply Hsame. intros Hr.
        specialize (B6 j Hj Hr). congruence.
    - apply Hsame. intros Hr. specialize (B6 j Hj Hr). congruence. }
  assert (Ht : ∀ j, (j < 256)%nat → <[i:=set_state RUNNING (t1 !!! i)]> t1 !!! j =
    set_state (if decide (j = i) then RUNNING else preempt (state (process_table k !!! j)))
      (process_table k !!! j)).
  { intros j Hj. case_decide as Hji.
    - subst j. rewrite list_lookup_total_insert_eq, Ht1 by lia. done.
    - rewrite list_lookup_total_insert_ne by done. by apply Ht1. }
  eexists. split; [done |]. split; [done |]. split; [done |]. split; [done |].
  split; [reflexivity |]. split; [| split; [done | split; [done | exact Ht]]].
  assert (Hlive : ∀ j, (j < 256)%nat →
    (state (<[i:=set_state RUNNING (t1 !!! i)]> t1 !!! j) ≠ TERMINATED ↔
     state (process_table k !!! j) ≠ TERMINATED) ∧
    pid (<[i:=set_state RUNNING (t1 !!! i)]> t1 !!! j) = pid (process_table k !!! j)).
  { intros j Hj. rewrite Ht by done. split; [| done]. simpl.
    case_decide as Hji; [subst j; by rewrite Hready |].
    by destruct (state (process_table k !!! j)). }
  split; simpl; try done.
  - by rewrite length_insert.
  - intros j Hj. rewrite (B4 j Hj). symmetry. by apply Hlive.
  - by exists i.
  - intros j Hj. rewrite Ht by done. simpl. case_decide; [by subst |].
    by destruct (state (process_table k !!! j)).
  - intros j Hj Hs. destruct (Hlive j Hj) as [H1 ->]. by apply B7, H1.
  - intros j l Hj Hl Hsj Hsl. destruct (Hlive j Hj) as [H1 ->], (Hlive l Hl) as [H2 ->].
    apply B8; [done | done | by apply H1 | by apply H2].
Qed.

(** C20. [process_schedule] is round robin: it runs the first ready process
    after the one it chose last, in cyclic slot order, puts the interrupted
    process back to ready, and changes no other process; the invariant is kept
    and exactly the chosen process is running.  With no ready process it
    panics. *)
Theorem process_schedule_round_robin k :
  proc_base k →
  (∃ d i k', (1 <= d <= 256)%nat ∧ i = ((sched_index k + d) mod 256)%nat ∧
     state (process_table k !!! i) = READY ∧
     (∀ e, (1 <= e < d)%nat → state (process_table k !!! ((sched_index k + e) mod 256)%nat) ≠ READY) ∧
     process_schedule k = Ok (tt, k') ∧ proc_base k' ∧ current_runs k' ∧ current k' = Some i ∧
     ∀ j, (j < 256)%nat → j ≠ i → process_table k' !!! j =
        set_state (preempt (state (process_table k !!! j))) (process_table k !!! j)) ∨
  ((∀ j, (j < 256)%nat → state (process_table k !!! j) ≠ READY) ∧
   process_schedule k = Panic "No runnable processes").
Proof.
  intros Hb. destruct (process_schedule_cases k Hb)
    as [(d & i & k' & Hd & Hi & Hr & Hbe & Hs & Hb' & Hc & Hx & Ht)|H]; [left | by right].
  assert (Hi256 : (i < 256)%nat) by (rewrite Hi; apply Nat.mod_upper_bound; lia).
  exists d, i, k'. split_and!; try done; try lia.
  - exists i. split; [done |]. rewrite Ht by done. by rewrite decide_True.
  - intros j Hj Hji. rewrite Ht by done. by rewrite decide_False.
Qed.

(** ** Fairness *)
Fixpoint schedule_times (n : nat) : cmd kstate unit := λ k,
  match n with
  | O => Ok (tt, k)
  | S n => '(_, k) ← process_schedule k; schedule_times n k
  end.

Lemma schedule_reaches : ∀ d k i,
  proc_base k → (i < 256)%nat → state (process_table k !!! i) = READY →
  (1 <= d <= 256)%nat → i = ((sched_index k + d) mod 256)%nat →
  ∃ n k', (1 <= n <= d)%nat ∧ schedule_times n k = Ok (tt, k') ∧ current k' = Some i.
Proof.
  induction d as [d IH] using lt_wf_ind. intros k i Hb Hi Hr Hd Hid.
  destruct (process_schedule_cases k Hb)
    as [(d' & j & k' & Hd' & Hj & Hrj & Hbe & Hs & Hb' & Hc & Hx & Ht)|[Hnone _]].
  2:{ by destruct (Hnone i Hi). }
  assert (Hle : (d' <= d)%nat).
  { destruct (decide (d < d')%nat) as [Hlt|]; [| lia]. exfalso. apply (Hbe d); [lia |]. by rewrite <- Hid. }
  destruct (decide (j = i)) as [->|Hji].
  - exists 1%nat, k'. split; [lia |]. simpl. rewrite Hs. done.
  - assert (d' ≠ d) by congruence.
    destruct (IH (d - d')%nat ltac:(lia) k' i Hb' Hi) as (n & k'' & Hn & Hs' & Hc').
    + rewrite Ht by done. rewrite decide_False by done. by rewrite Hr.
    + lia.
    + rewrite Hx, Hj, Nat.Div0.add_mod_idemp_l, Hid. f_equal. lia.
    + exists (S n), k''. split; [lia |]. split; [| done]. simpl. rewrite Hs. done.
Qed.

(** C21. Scheduling is fair: a ready process runs after at most 256 scheduling
    decisions, whatever the other processes are. *)
Theorem process_schedule_fair k i :
  proc_base k → (i < 256)%nat → state (process_table k !!! i) = READY →
  ∃ n k', (1 <= n <= 256)%nat ∧ schedule_times n k = Ok (tt, k') ∧ current k' = Some i.
Proof.
  intros Hb Hi Hr. destruct (cyclic_slot (sched_index k) i (pb_sched _ Hb) Hi) as (e & He & Hie).
  destruct (schedule_reaches e k i Hb Hi Hr He (eq_sym Hie)) as (n & k' & Hn & H).
  exists n, k'. split; [lia | done].
Qed.

(** ** Exit *)

(** The state of [process_exit] just before it schedules. *)
Lemma exit_base k c code h :
  proc_base k → current k = Some c → (c < 256)%nat →
  let p := set_state TERMINATED (set_exit code (process_table k !!! c)) in
  let k1 := set_bitmap (drop_slot (process_bitmap k) c)
              (set_kheap h (set_table (<[c := p]> (process_table k)) k)) in
  proc_base k1 ∧
  (∀ j, (j < 256)%nat → process_table k1 !!! j = if decide (j = c) then p else process_table k !!! j).
Proof.
  intros [B1 B2 B3 B4 B5 B6 B7 B8 B9] Hc Hc256 p k1.
  assert (Ht : ∀ j, (j < 256)%nat → process_table k1 !!! j = if decide (j = c) then p else process_table k !!! j).
  { intros j Hj. simpl. case_decide as Hji; [subst; apply list_lookup_total_insert_eq; lia |].
    by apply list_lookup_total_insert_ne. }
  split; [| done]. destruct (drop_slot_words (process_bitmap k) c B3 ltac:(lia)) as [W1 W2]. rewrite B2 in W1.
  split; try done.
  - simpl. by rewrite length_insert.
  - intros j Hj. rewrite Ht by done. simpl. rewrite drop_slot_bit by (done || lia).
    case_decide; [simpl; naive_solver | by apply B4].
  - intros j Hj. rewrite Ht by done. case_decide; [done |]. by apply B6.
  - intros j Hj. rewrite Ht by done. case_decide; [done |]. by apply B7.
  - intros j l Hj Hl. rewrite !Ht by done. do 2 case_decide; try done. by apply B8.
Qed.

(** [process_exit] of the running process, when its kernel stack can be
    freed, ends that process: its slot is free again with the exit code
    recorded, every other process is kept, the next ready process runs; when
    no process is ready the kernel panics. *)
Theorem process_exit_ok k c code h :
  proc_base k → current k = Some c →
  kfree (kernel_stack (process_table k !!! c)) (kheap k) = Ok (tt, h) →
  (∃ i k', (i < 256)%nat ∧ i ≠ c ∧ state (process_table k !!! i) = READY ∧
     process_exit code k = Ok (tt, k') ∧ proc_base k' ∧ current k' = Some i ∧ current_runs k' ∧
     state (process_table k' !!! c) = TERMINATED ∧ exit_code (process_table k' !!! c) = code ∧
     slot_bit (process_bitmap k') c = false ∧
     ∀ j, (j < 256)%nat → j ≠ c → j ≠ i → process_table k' !!! j = process_table k !!! j) ∨
  ((∀ j, (j < 256)%nat → j ≠ c → state (process_table k !!! j) ≠ READY) ∧
   process_exit code k = Panic "No runnable processes").
Proof.
  intros Hb Hc Hfree. pose proof Hb as [_ _ _ _ (c' & Hc' & Hc256) B6 _ _ _].
  assert (c' = c) as -> by congruence.
  destruct (exit_base k c code h Hb Hc Hc256) as [Hb1 Ht1].
  unfold process_exit. rewrite Hc. simpl. rewrite Hfree. simpl.
  set (k1 := set_bitmap _ _) in *.
  destruct (process_schedule_cases k1 Hb1)
    as [(d & i & k' & Hd & Hi & Hr & _ & Hs & Hb' & Hcur & _ & Ht)|[Hnone Hs]].
  2:{ right. split; [| done]. intros j Hj Hjc. specialize (Hnone j Hj). rewrite Ht1 in Hnone by done.
      by rewrite decide_False in Hnone. }
  left. assert (Hi256 : (i < 256)%nat) by (rewrite Hi; apply Nat.mod_upper_bound; lia).
  rewrite Ht1 in Hr by done. case_decide as Hic; [done |].
  assert (Hend : state (process_table k' !!! c) = TERMINATED).
  { rewrite Ht by done. rewrite decide_False by done. rewrite Ht1 by done. by rewrite decide_True. }
  exists i, k'. split_and!; try done.
  - exists i. split; [done |]. rewrite Ht by done. by rewrite decide_True.
  - rewrite Ht, decide_False by done. by rewrite Ht1, decide_True by done.
  - apply not_true_is_false. intros Hbit. by apply (pb_bits _ Hb' c Hc256) in Hbit.
  - intros j Hj Hjc Hji. rewrite Ht, decide_False by done. rewrite Ht1, decide_False by done.
    assert (Hnr : state (process_table k !!! j) ≠ RUNNING).
    { intros Hrun. specialize (B6 j Hj Hrun). congruence. }
    by destruct (process_table k !!! j) as [? ? []].
Qed.

(** ** Boot *)
Lemma kmalloc_no_heap size st :
  0 < size → heap_head st = NULL → kmalloc size st = Ok (NULL, set_stats (count_fragmentation (stats st)) st).
Proof.
  intros Hs Hh. unfold kmalloc. destruct (Z.eqb_spec size 0); [lia |].
  assert (Hf : ∀ fuel m sz b z, fuel ≠ O → find_best_fit fuel m sz NULL b z = Some b)
    by (intros [|?]; done).
  rewrite Hh, Hf by (unfold heap_fuel, KERNEL_HEAP_SIZE; lia). done.
Qed.

(** [process_init] leaves one process, init, running in slot 0. *)
Lemma process_init_base k stack h :
  length (process_table k) = 256%nat → next_pid k = 1 → (sched_index k < 256)%nat →
  kmalloc KERNEL_STACK_SIZE (kheap k) = Ok (stack, h) →
  ∃ k', process_init k = Ok (tt, k') ∧ proc_base k' ∧ current k' = Some 0%nat ∧
    next_pid k' = 2 ∧ kheap k' = h ∧ kernel_stack (process_table k' !!! 0%nat) = stack ∧
    slot_bit (process_bitmap k') 0 = true ∧
    ∀ j, (j < 256)%nat → state (process_table k' !!! j) = if decide (j = 0%nat) then RUNNING else TERMINATED.
Proof.
  intros Hl Hn Hs Hk. unfold process_init. rewrite Hk. simpl mbind. rewrite Hn.
  set (t := map (set_state TERMINATED) (process_table k)).
  set (p := Process _ _ _ _ _ _ _ _).
  assert (Ht : ∀ j, (j < 256)%nat → state (<[0%nat:=p]> t !!! j) = if decide (j = 0%nat) then RUNNING else TERMINATED).
  { intros j Hj. unfold t. case_decide as Hj0.
    - subst. by rewrite list_lookup_total_insert_eq by (rewrite length_map; lia).
    - rewrite list_lookup_total_insert_ne by done.
      destruct (lookup_lt_is_Some_2 (process_table k) j) as [q Hq]; [lia |].
      by rewrite (list_lookup_total_correct (map (set_state TERMINATED) (process_table k)) j
        (set_state TERMINATED q)) by (rewrite list_lookup_fmap, Hq; done). }
  assert (Hp0 : <[0%nat:=p]> t !!! 0%nat = p)
    by (apply list_lookup_total_insert_eq; unfold t; rewrite length_map; lia).
  change (<[0%nat:=_]> (replicate 8 0)) with (take_slot (replicate 8 0) 0).
  assert (Hbit : ∀ j, (j < 256)%nat → slot_bit (take_slot (replicate 8 0) 0) j = bool_decide (j = 0%nat)).
  { intros j Hj. rewrite take_slot_bit by (rewrite length_replicate; lia). case_decide as Hj0.
    - by rewrite bool_decide_true.
    - rewrite bool_decide_false by done. unfold slot_bit.
      rewrite lookup_total_replicate_2; [apply Z.bits_0 |]. apply Nat.Div0.div_lt_upper_bound. lia. }
  destruct (take_slot_words (replicate 8 0) 0) as [W1 W2];
    [apply Forall_replicate; unfold is_u32; lia | rewrite length_replicate; lia |].
  eexists. split; [reflexivity |].
  split; [| split_and!; [done | done | done | simpl; by rewrite Hp0 | simpl; by rewrite Hbit by lia | exact Ht]].
  split; cbn [process_table process_bitmap current next_pid sched_index]; try done.
  - rewrite length_insert. unfold t. by rewrite length_map.
  - intros j Hj. rewrite Ht, Hbit by done. case_decide; [by rewrite bool_decide_true |].
    rewrite bool_decide_false by done. naive_solver.
  - exists 0%nat. split; [done | lia].
  - intros j Hj. rewrite Ht by done. case_decide; [by subst | done].
  - intros j Hj. rewrite Ht by done. case_decide; [| done]. intros _. subst. rewrite Hp0.
    unfold p; simpl. unfold u32. lia.
  - intros j l Hj Hl'. rewrite !Ht by done. do 2 case_decide; congruence.
Qed.

(** [kernel_init] runs [process_init] before the heap exists: the init
    process gets a null kernel stack.  The process table is well formed, but
    init is running and no process is ready, so the first timer interrupt,
    which calls [process_schedule], panics the kernel. *)
Theorem first_tick_panics k :
  length (process_table k) = 256%nat → heap_head (kheap k) = NULL → next_pid k = 1 →
  (sched_index k < 256)%nat →
  ∃ k', process_init k = Ok (tt, k') ∧ proc_base k' ∧ current k' = Some 0%nat ∧
    kernel_stack (process_table k' !!! 0%nat) = NULL ∧
    process_schedule k' = Panic "No runnable processes".
Proof.
  intros Hl Hh Hn Hs.
  destruct (process_init_base k NULL _ Hl Hn Hs
    (kmalloc_no_heap KERNEL_STACK_SIZE (kheap k) ltac:(unfold KERNEL_STACK_SIZE; lia) Hh))
    as (k' & Hi & Hb & Hc & _ & _ & Hst & _ & Ht).
  exists k'. split_and!; try done.
  destruct (process_schedule_cases k' Hb) as [(d & i & k'' & _ & Hi' & Hr & _)|[_ H]]; [| exact H].
  exfalso. rewrite Ht in Hr by (rewrite Hi'; apply Nat.mod_upper_bound; lia). by case_decide.
Qed.
