(* ===== verification/ProcessWitness.v ===== *)
(** * Concrete process tables (src/kernel/kernel.c) *)
From S2P Require Import Prelude Heap HeapSpec HeapAlloc HeapFree HeapAligned HeapWitness.
From S2P Require Import Frames Process.

(** The kernel's static variables at boot, with the heap [h]. *)
Definition kernel_boot (h : heap_state) : kstate :=
  KState (replicate 256 inhabitant) (replicate 8 0) None 1 0 h.

Lemma first_tick_panics_witness :
  ∃ k', process_init (kernel_boot heap_zero) = Ok (tt, k') ∧
    process_schedule k' = Panic "No runnable processes".
Proof.
  destruct (first_tick_panics (kernel_boot heap_zero)) as (k' & H & _ & _ & _ & Hs);
    [done | done | done | simpl; lia |].
  by exists k'.
Defined.

(** The kernel after [process_init] and then [heap_init], as [kernel_init]
    orders them: init runs, with a null kernel stack. *)
Lemma running_init :
  ∃ k, proc_base k ∧ kheap k = boot ∧ slot_bit (process_bitmap k) 0 = true ∧ next_pid k = 2 ∧
    current k = Some 0%nat ∧ kernel_stack (process_table k !!! 0%nat) = NULL ∧
    (∀ j, (j < 256)%nat → state (process_table k !!! j) = if decide (j = 0%nat) then RUNNING else TERMINATED).
Proof.
  destruct (process_init_base (kernel_boot heap_zero) NULL _ eq_refl eq_refl ltac:(simpl; lia)
    (kmalloc_no_heap KERNEL_STACK_SIZE heap_zero ltac:(unfold KERNEL_STACK_SIZE; lia) eq_refl))
    as (k & _ & Hb & Hc & Hn & _ & Hst & Hbit & Ht).
  exists (set_kheap boot k). split; [by destruct Hb |].
  split; [reflexivity |]. split; [exact Hbit |]. split; [exact Hn |]. split; [exact Hc |].
  split; [exact Hst | exact Ht].
Qed.

Lemma running_init_heap k : kheap k = boot → heap_ok (kheap k) (blocks boot).
Proof. intros ->. exact boot_ok. Qed.

Lemma process_create_ok_witness :
  ∃ k k', proc_base k ∧ process_create k = Ok (2, k') ∧ proc_base k'.
Proof.
  destruct running_init as (k & Hb & Hh & Hbit & Hn & Hc & _ & Ht).
  destruct (process_create_ok k (blocks boot) Hb (running_init_heap k Hh) Hbit)
    as [(i & k' & _ & _ & _ & H & Hb' & _)|[H _]]; [lia | lia | |].
  - exists k, k'. rewrite Hn in H. split; [exact Hb |]. split; [exact H | exact Hb'].
  - exfalso. specialize (H 1%nat ltac:(lia)). rewrite Ht in H by lia. by rewrite decide_False in H.
Defined.

Lemma process_schedule_round_robin_witness :
  ∃ k, proc_base k ∧ process_schedule k = Panic "No runnable processes".
Proof.
  destruct running_init as (k & Hb & _ & _ & _ & _ & _ & Ht). exists k. split; [done |].
  destruct (process_schedule_round_robin k Hb) as [(d & i & k' & _ & Hi & Hr & _)|[_ H]]; [| exact H].
  exfalso. rewrite Ht in Hr by (rewrite Hi; apply Nat.mod_upper_bound; lia). by case_decide.
Defined.

(** Two processes: init and a ready child. *)
Lemma ready_child :
  ∃ k i, proc_base k ∧ (0 < i < 256)%nat ∧ state (process_table k !!! i) = READY ∧
    current k = Some 0%nat ∧ kernel_stack (process_table k !!! 0%nat) = NULL.
Proof.
  destruct running_init as (k & Hb & Hh & Hbit & Hn & Hc & Hst & Ht).
  destruct (process_create_cases k (blocks boot) Hb (running_init_heap k Hh) Hbit)
    as [(i & k' & Hi & _ & _ & _ & Hb' & Hc' & _ & Hr & _ & Hsame)|[H _]]; [lia | lia | |].
  - exists k', i. split; [exact Hb' |]. split; [exact Hi |]. split; [exact Hr |].
    split; [by rewrite Hc' |]. rewrite Hsame by lia. exact Hst.
  - exfalso. specialize (H 1%nat ltac:(lia)). rewrite Ht in H by lia. by rewrite decide_False in H.
Qed.

Lemma process_schedule_fair_witness :
  ∃ k i n k', proc_base k ∧ schedule_times n k = Ok (tt, k') ∧ current k' = Some i.
Proof.
  destruct ready_child as (k & i & Hb & Hi & Hr & _).
  destruct (process_schedule_fair k i Hb ltac:(lia) Hr) as (n & k' & _ & H & Hc).
  exists k, i, n, k'. split; [exact Hb |]. split; [exact H | exact Hc].
Defined.

Lemma process_exit_ok_witness :
  ∃ k k', process_exit 7 k = Ok (tt, k') ∧ state (process_table k' !!! 0%nat) = TERMINATED ∧
    exit_code (process_table k' !!! 0%nat) = 7.
Proof.
  destruct ready_child as (k & i & Hb & Hi & Hr & Hc & Hst).
  assert (Hf : kfree (kernel_stack (process_table k !!! 0%nat)) (kheap k) = Ok (tt, kheap k))
    by (rewrite Hst; reflexivity).
  destruct (process_exit_ok k 0%nat 7 (kheap k) Hb Hc Hf)
    as [(j & k' & _ & _ & _ & H & _ & _ & _ & Ht & He & _)|[H _]].
  - exists k, k'. split; [exact H |]. split; [exact Ht | exact He].
  - exfalso. apply (H i); [lia | lia | exact Hr].
Defined.

Lemma process_create_leaks_slot_zero_witness :
  ∃ k k', process_create k = Ok (0, k') ∧ slot_bit (process_bitmap k') 0 = true.
Proof.
  destruct ready_child as (k & i & Hb & Hi & Hr & Hc & Hst).
  destruct (exit_base k 0%nat 7 (kheap k) Hb Hc ltac:(lia)) as [Hb1 Ht1].
  set (k1 := set_bitmap _ _) in *.
  destruct (process_create_leaks_slot_zero k1 Hb1) as (k' & H & _ & _ & Hbit).
  - apply not_true_is_false. intros Hbit. apply (pb_bits _ Hb1 0%nat) in Hbit; [| lia].
    rewrite Ht1 in Hbit by lia. by rewrite decide_True in Hbit.
  - exists k1, k'. split; [exact H | exact Hbit].
Defined.
