(* ===== verification/Interrupts.v ===== *)
(** * Interrupts (src/kernel/interrupts.c)

    The interrupt descriptor table, the dispatch of hardware interrupts to the
    timer and keyboard drivers and to the scheduler, exceptions and system
    calls. *)
From S2P Require Import Prelude Heap Process Keyboard Screen ScreenSpec.

(** ** The descriptor table *)
Record idt_entry := IdtEntry {
  base_low : Z;
  selector : Z;
  zero : Z;
  type_attr : Z;
  base_high : Z;
}.
#[export] Instance idt_entry_inhabited : Inhabited idt_entry := populate (IdtEntry 0 0 0 0 0).
#[export] Instance idt_entry_eq_dec : EqDecision idt_entry.
Proof. solve_decision. Defined.

Definition make_gate (base sel flags : Z) : idt_entry :=
  IdtEntry (Z.land base 0xFFFF) sel 0 flags (Z.land (Z.shiftr base 16) 0xFFFF).

Definition idt_set_gate (num : nat) (base sel flags : Z) (idt : list idt_entry) : list idt_entry :=
  <[num := make_gate base sel flags]> idt.

(** The address the processor jumps to. *)
Definition gate_target (e : idt_entry) : Z := base_low e + 65536 * base_high e.

Definition SYSCALL_INT : nat := 128.

(** The gates of [interrupts_init], in the order of the code; [isr] and [irq]
    are the addresses of the assembly stubs, [syscall] that of
    [syscall_handler]. *)
Fixpoint set_gates (first n : nat) (stub : nat → Z) (offset : nat) (idt : list idt_entry)
  : list idt_entry :=
  match n with
  | O => idt
  | S n => set_gates (S first) n stub offset
             (idt_set_gate (offset + first) (stub first) 0x08 0x8E idt)
  end.

Fixpoint clear_gates (n i : nat) (idt : list idt_entry) : list idt_entry :=
  match n with
  | O => idt
  | S n => clear_gates n (S i) (idt_set_gate i 0 0 0 idt)
  end.

Definition init_idt (isr irq : nat → Z) (syscall : Z) (idt : list idt_entry) : list idt_entry :=
  let idt := clear_gates 256 0 idt in
  let idt := set_gates 0 20 isr 0 idt in
  let idt := set_gates 0 16 irq 32 idt in
  idt_set_gate SYSCALL_INT syscall 0x08 0x8E idt.

(** The bytes sent to the interrupt controllers, in order. *)
Definition pic_init : list (Z * Z) :=
  [(0x20, 0x11); (0xA0, 0x11); (0x20, 0x20); (0xA0, 0x28); (0x20, 0x04); (0xA0, 0x02);
   (0x20, 0x01); (0xA0, 0x01); (0x20, 0x00); (0xA0, 0x00)].

(** ** The machine

    The parts of the kernel that interrupt handlers act on.  The registered
    handlers are the two drivers' ones. *)
Inductive handler := TimerHandler | KeyboardHandler.
#[export] Instance handler_eq_dec : EqDecision handler.
Proof. solve_decision. Defined.

Record machine := Machine {
  m_idt : list idt_entry;
  m_handlers : list (option handler);
  m_ticks : Z;
  m_keyboard : keyboard;
  m_kernel : kstate;
  m_ports : list (Z * Z);
}.

Definition set_ticks (t : Z) (m : machine) : machine :=
  Machine (m_idt m) (m_handlers m) t (m_keyboard m) (m_kernel m) (m_ports m).
Definition set_keyboard (k : keyboard) (m : machine) : machine :=
  Machine (m_idt m) (m_handlers m) (m_ticks m) k (m_kernel m) (m_ports m).
Definition set_kernel (k : kstate) (m : machine) : machine :=
  Machine (m_idt m) (m_handlers m) (m_ticks m) (m_keyboard m) k (m_ports m).
Definition send (port v : Z) (m : machine) : machine :=
  Machine (m_idt m) (m_handlers m) (m_ticks m) (m_keyboard m) (m_kernel m) ((port, v) :: m_ports m).

Definition interrupts_init (isr irq : nat → Z) (syscall : Z) (m : machine) : machine :=
  Machine (init_idt isr irq syscall (m_idt m)) (m_handlers m) (m_ticks m) (m_keyboard m)
          (m_kernel m) (rev pic_init ++ m_ports m).

(** [irq_register_handler]: the array has 16 entries. *)
Definition irq_register_handler (irq : nat) (h : handler) : cmd machine unit := λ m,
  if (irq <? 16)%nat then
    Ok (tt, Machine (m_idt m) (<[irq := Some h]> (m_handlers m)) (m_ticks m) (m_keyboard m)
              (m_kernel m) (m_ports m))
  else Fault.

(** A handler's effect; [scancode] is the byte port 0x60 delivers. *)
Definition call_handler (h : handler) (scancode : Z) (m : machine) : machine :=
  match h with
  | TimerHandler => set_ticks (timer_handler (m_ticks m)) m
  | KeyboardHandler => set_keyboard (keyboard_handler scancode (m_keyboard m)) m
  end.

Definition irq_handler (irq : nat) (scancode : Z) : cmd machine unit := λ m,
  if negb (irq <? 16)%nat then Fault else
  let m := match m_handlers m !! irq with Some (Some h) => call_handler h scancode m | _ => m end in
  let m := if (8 <=? irq)%nat then send 0xA0 0x20 m else m in
  let m := send 0x20 0x20 m in
  if (irq =? 0)%nat then
    '(_, k) ← process_schedule (m_kernel m); Ok (tt, set_kernel k m)
  else Ok (tt, m).

(** ** Exceptions *)
Definition exception_messages : list string :=
  ["Division by Zero"; "Debug"; "Non-Maskable Interrupt"; "Breakpoint"; "Overflow";
   "Bound Range Exceeded"; "Invalid Opcode"; "Device Not Available"; "Double Fault";
   "Coprocessor Segment Overrun"; "Invalid TSS"; "Segment Not Present"; "Stack-Segment Fault";
   "General Protection Fault"; "Page Fault"; "Reserved"; "x87 FPU Error"; "Alignment Check";
   "Machine Check"; "SIMD Floating-Point Exception"]%string.

(** What [exception_handler] prints before it panics. *)
Definition exception_text (exc_num : nat) : bytes :=
  10 :: bytes_of "!!! KERNEL EXCEPTION !!!" ++ [10] ++
  (if (exc_num <? length exception_messages)%nat
   then bytes_of "Exception: " ++ bytes_of (nth exc_num exception_messages EmptyString) ++ [10]
   else bytes_of "Unknown exception" ++ [10]).

Definition exception_handler (exc_num : nat) (s : screen) : screen * outcome unit :=
  (screen_print (exception_text exc_num) s, Panic "Unrecoverable exception").

(** ** System calls: the kernel state and the screen. *)
Definition SYS_EXIT : Z := 1.
Definition SYS_FORK : Z := 2.
Definition SYS_READ : Z := 3.
Definition SYS_WRITE : Z := 4.

Definition syscall_handler (eax ebx : Z) : cmd (kstate * screen) unit := λ st,
  let '(k, s) := st in
  if eax =? SYS_EXIT then '(_, k) ← process_exit ebx k; Ok (tt, (k, s))
  else if eax =? SYS_FORK then '(_, k) ← process_create k; Ok (tt, (k, s))
  else if (eax =? SYS_READ) || (eax =? SYS_WRITE) then Ok (tt, (k, s))
  else
    let s := screen_print (bytes_of "Unknown system call: ") s in
    let s := screen_print_hex eax s in
    Ok (tt, (k, screen_print [10] s)).

(** ** The descriptor table after [interrupts_init] *)
Lemma gate_target_make base sel flags : is_u32 base → gate_target (make_gate base sel flags) = base.
Proof.
  intros Hb. unfold is_u32 in Hb. unfold gate_target, make_gate; simpl.
  change 65535 with (Z.ones 16). rewrite !Z.land_ones, Z.shiftr_div_pow2 by lia.
  change (2 ^ 16) with 65536. lia.
Qed.

Lemma clear_gates_spec : ∀ n i idt j,
  length idt = 256%nat → (i + n <= 256)%nat → (j < 256)%nat →
  length (clear_gates n i idt) = 256%nat ∧
  clear_gates n i idt !!! j =
    if decide (i <= j < i + n)%nat then make_gate 0 0 0 else idt !!! j.
Proof.
  induction n as [|n IH]; intros i idt j Hl Hn Hj; simpl.
  - split; [done |]. by rewrite decide_False by lia.
  - destruct (IH (S i) (idt_set_gate i 0 0 0 idt) j) as [H1 H2];
      [unfold idt_set_gate; by rewrite length_insert | lia | done |].
    split; [done |]. rewrite H2. unfold idt_set_gate. destruct (decide (j = i)) as [->|Hne].
    + rewrite decide_False, decide_True by lia. apply list_lookup_total_insert_eq. lia.
    + rewrite list_lookup_total_insert_ne by done. by do 2 case_decide; try lia.
Qed.

Lemma set_gates_spec stub offset : ∀ n first idt j,
  length idt = 256%nat → (offset + first + n <= 256)%nat → (j < 256)%nat →
  length (set_gates first n stub offset idt) = 256%nat ∧
  set_gates first n stub offset idt !!! j =
    if decide (offset + first <= j < offset + first + n)%nat
    then make_gate (stub (j - offset)%nat) 8 142 else idt !!! j.
Proof.
  induction n as [|n IH]; intros first idt j Hl Hn Hj; simpl.
  - split; [done |]. by rewrite decide_False by lia.
  - destruct (IH (S first) (idt_set_gate (offset + first) (stub first) 8 142 idt) j) as [H1 H2];
      [unfold idt_set_gate; by rewrite length_insert | lia | done |].
    split; [done |]. rewrite H2. unfold idt_set_gate.
    destruct (decide (j = offset + first)%nat) as [->|Hne].
    + rewrite decide_False, decide_True by lia. rewrite list_lookup_total_insert_eq by lia.
      by replace (offset + first - offset)%nat with first by lia.
    + rewrite list_lookup_total_insert_ne by done. by do 2 case_decide; try lia.
Qed.

(** After [interrupts_init] the processor enters the right stub for every
    vector: exceptions 0 to 19, hardware interrupts 32 to 47 and the system
    call vector 128 have present gates in the kernel code segment that lead to
    their stubs; every other vector has an absent gate. *)
Theorem interrupts_init_gates isr irq syscall m v :
  length (m_idt m) = 256%nat → (v < 256)%nat →
  (∀ i, is_u32 (isr i)) → (∀ i, is_u32 (irq i)) → is_u32 syscall →
  let e := m_idt (interrupts_init isr irq syscall m) !!! v in
  let target := if (v <? 20)%nat then Some (isr v)
                else if ((32 <=? v) && (v <? 48))%nat then Some (irq (v - 32)%nat)
                else if (v =? 128)%nat then Some syscall else None in
  match target with
  | Some a => gate_target e = a ∧ selector e = 8 ∧ type_attr e = 142
  | None => type_attr e = 0 ∧ gate_target e = 0
  end.
Proof.
  intros Hl Hv Hisr Hirq Hsys e target.
  assert (He : e = match target with Some a => make_gate a 8 142 | None => make_gate 0 0 0 end).
  { unfold e, interrupts_init, init_idt, SYSCALL_INT. cbn [m_idt].
    destruct (clear_gates_spec 256 0 (m_idt m) v Hl ltac:(lia) Hv) as [L1 E1].
    set (i1 := clear_gates 256 0 (m_idt m)) in *.
    destruct (set_gates_spec isr 0 20 0 i1 v L1 ltac:(lia) Hv) as [L2 E2].
    set (i2 := set_gates 0 20 isr 0 i1) in *.
    destruct (set_gates_spec irq 32 16 0 i2 v L2 ltac:(lia) Hv) as [L3 E3].
    set (i3 := set_gates 0 16 irq 32 i2) in *. clearbody i1 i2 i3.
    unfold idt_set_gate, target. destruct (decide (v = 128)%nat) as [->|Hne].
    - rewrite list_lookup_total_insert_eq by lia. done.
    - rewrite list_lookup_total_insert_ne by done. rewrite E3, E2, E1.
      rewrite (decide_True (P := (0 <= v < 0 + 256)%nat)) by lia. replace (v - 0)%nat with v by lia.
      destruct (Nat.ltb_spec v 20) as [H20|H20].
      { rewrite decide_False, decide_True by lia. done. }
      rewrite (decide_False (P := (0 + 0 <= v < 0 + 0 + 20)%nat)) by lia.
      destruct (Nat.leb_spec 32 v) as [H32|H32], (Nat.ltb_spec v 48) as [H48|H48]; simpl.
      1: by rewrite decide_True by lia.
      all: rewrite decide_False by lia; destruct (Nat.eqb_spec v 128); [lia | done]. }
  rewrite He. unfold target.
  destruct (v <? 20)%nat; [| destruct (_ && _); [| destruct (v =? 128)%nat]];
    rewrite ?gate_target_make by (done || (unfold is_u32; lia)); done.
Qed.

(** ** Hardware interrupts *)

(** A hardware interrupt is handled and acknowledged: a timer interrupt
    adds one tick and then schedules, a keyboard interrupt feeds the scancode
    to the keyboard queue, an interrupt without a handler changes no driver;
    the end-of-interrupt byte goes to the master controller last, and to the
    slave first when the line is 8 or more. *)
Theorem irq_handler_ok irq scancode m :
  (irq < 16)%nat → m_handlers m = <[1%nat := Some KeyboardHandler]>
    (<[0%nat := Some TimerHandler]> (replicate 16 None)) →
  let eoi := if (8 <=? irq)%nat then [(0x20, 0x20); (0xA0, 0x20)] else [(0x20, 0x20)] in
  match irq_handler irq scancode m with
  | Ok (_, m') =>
    m_ports m' = eoi ++ m_ports m ∧
    m_ticks m' = (if (irq =? 0)%nat then u32 (m_ticks m + 1) else m_ticks m) ∧
    m_keyboard m' =
      (if (irq =? 1)%nat then keyboard_handler scancode (m_keyboard m) else m_keyboard m) ∧
    (if (irq =? 0)%nat then process_schedule (m_kernel m) = Ok (tt, m_kernel m')
     else m_kernel m' = m_kernel m)
  | Panic msg => irq = 0%nat ∧ process_schedule (m_kernel m) = Panic msg
  | Fault | Diverge => False
  end.
Proof.
  intros Hi Hh eoi. unfold irq_handler. destruct (Nat.ltb_spec irq 16); [| lia]. simpl. rewrite Hh.
  destruct irq as [|irq].
  { simpl. unfold process_schedule. destruct (find_ready _ _ _); simpl; split_and!; done. }
  do 15 (destruct irq as [|irq]; [simpl; split_and!; reflexivity |]). lia.
Qed.

(** ** Witnesses *)
Definition quiet_machine : machine :=
  Machine (replicate 256 inhabitant)
    (<[1%nat := Some KeyboardHandler]> (<[0%nat := Some TimerHandler]> (replicate 16 None)))
    0 idle_keyboard (KState [] [] None 1 0 heap_zero) [].

Lemma interrupts_init_gates_witness :
  gate_target (m_idt (interrupts_init (λ i, 0x100000 + 16 * Z.of_nat (i mod 32))
    (λ i, 0x100800 + 16 * Z.of_nat (i mod 32)) 0x101000 quiet_machine) !!! 33%nat) = 0x100810.
Proof.
  destruct (interrupts_init_gates (λ i, 0x100000 + 16 * Z.of_nat (i mod 32))
    (λ i, 0x100800 + 16 * Z.of_nat (i mod 32)) 0x101000 quiet_machine 33 eq_refl)
    as [H _].
  - lia.
  - intros i. pose proof (Nat.mod_upper_bound i 32). unfold is_u32. lia.
  - intros i. pose proof (Nat.mod_upper_bound i 32). unfold is_u32. lia.
  - unfold is_u32. lia.
  - exact H.
Defined.

Lemma irq_handler_ok_witness :
  ∃ m', irq_handler 1 30 quiet_machine = Ok (tt, m') ∧
    m_keyboard m' = keyboard_handler 30 idle_keyboard.
Proof.
  pose proof (irq_handler_ok 1 30 quiet_machine ltac:(lia) eq_refl) as H.
  destruct (irq_handler 1 30 quiet_machine) as [[[] m']|msg| |]; try done.
  - exists m'. split; [done | apply H].
  - by destruct H.
Defined.
