(* ===== verification/Net.v ===== *)
(** * The network stack (src/net/net.c, src/include/net.h)

    Ethernet, ARP, IP and ICMP on byte lists.  The buffers packets are built in
    come from the kernel heap; their contents are kept as byte lists. *)
From S2P Require Import Prelude Heap Screen ScreenSpec.

(** ** Byte order *)
Definition htons (x : Z) : Z :=
  Z.lor (Z.shiftl (Z.land x 0xFF) 8) (Z.land (Z.shiftr x 8) 0xFF).
Definition ntohs (x : Z) : Z := htons x.

Definition htonl (x : Z) : Z :=
  u32 (Z.lor (Z.lor (Z.lor (Z.shiftl (Z.land x 0xFF) 24) (Z.shiftl (Z.land x 0xFF00) 8))
       (Z.land (Z.shiftr x 8) 0xFF00)) (Z.land (Z.shiftr x 24) 0xFF)).
Definition ntohl (x : Z) : Z := htonl x.

(** A [uint16_t] or [uint32_t] as it lies in memory, and read back. *)
Definition le16 (x : Z) : bytes := [x mod 256; x / 256 mod 256].
Definition le32 (x : Z) : bytes := [x mod 256; x / 256 mod 256; x / 65536 mod 256; x / 16777216 mod 256].
Definition byte_at (d : bytes) (i : nat) : Z := nth i d 0.
Definition get16 (d : bytes) (i : nat) : Z := byte_at d i + 256 * byte_at d (S i).
Definition get32 (d : bytes) (i : nat) : Z := get16 d i + 65536 * get16 d (S (S i)).

(** ** [net_checksum] *)
Fixpoint sum16 (d : bytes) (sum : Z) : Z :=
  match d with
  | lo :: hi :: d => sum16 d (u32 (sum + (lo + 256 * hi)))
  | [b] => u32 (sum + b)
  | [] => sum
  end.

(** [while (sum >> 16) sum = (sum & 0xFFFF) + (sum >> 16)]; [fold_fuel] is
    enough for every [uint32_t] ([NetSpec.fold_carries_ends]). *)
Fixpoint fold_carries (fuel : nat) (sum : Z) : option Z :=
  if Z.shiftr sum 16 =? 0 then Some sum else
  match fuel with
  | O => None
  | S fuel => fold_carries fuel (Z.land sum 0xFFFF + Z.shiftr sum 16)
  end.
Definition fold_fuel : nat := 3.

Definition net_checksum (d : bytes) : outcome Z :=
  match fold_carries fold_fuel (sum16 d 0) with
  | Some sum => Ok (u16 (Z.lnot sum))
  | None => Diverge
  end.

(** ** Addresses *)
Fixpoint aton_loop (s : bytes) (ip octet : Z) : Z :=
  match s with
  | [] => Z.lor (u32 (Z.shiftl ip 8)) (u32 octet)
  | c :: s =>
    if c =? 46 then aton_loop s (Z.lor (u32 (Z.shiftl ip 8)) (u32 octet)) 0
    else if (48 <=? schar c) && (schar c <=? 57) then aton_loop s ip (s32 (octet * 10 + (c - 48)))
    else aton_loop s ip octet
  end.
Definition ip_aton (ip_str : bytes) : Z := aton_loop ip_str 0 0.

(** What [sprintf] writes for [%d] and a value below 1000. *)
Definition fmt_octet (n : Z) : bytes :=
  if n <? 10 then [48 + n]
  else if n <? 100 then [48 + n / 10; 48 + n mod 10]
  else [48 + n / 100; 48 + n / 10 mod 10; 48 + n mod 10].

Definition ip_ntoa (ip : Z) : bytes :=
  fmt_octet (Z.land (Z.shiftr ip 24) 0xFF) ++ [46] ++
  fmt_octet (Z.land (Z.shiftr ip 16) 0xFF) ++ [46] ++
  fmt_octet (Z.land (Z.shiftr ip 8) 0xFF) ++ [46] ++
  fmt_octet (Z.land ip 0xFF).

Definition ETH_ALEN : nat := 6.
Definition mac_equal (a b : bytes) : bool := bool_decide (take ETH_ALEN a = take ETH_ALEN b).

(** ** State *)
Definition ETH_P_IP : Z := 0x0800.
Definition ETH_P_ARP : Z := 0x0806.
Definition IPPROTO_ICMP : Z := 1.
Definition IPPROTO_TCP : Z := 6.
Definition IPPROTO_UDP : Z := 17.
Definition TCP_FLAG_SYN : Z := 0x02.
Definition TCP_FLAG_ACK : Z := 0x10.
Definition TCP_MAX_WINDOW : Z := 65535.
Definition ARP_REQUEST : Z := 1.
Definition ARP_REPLY : Z := 2.

(** A device: [dev_id] stands for its address; [transmit] says whether the
    driver set that pointer. *)
Record net_device := NetDevice {
  dev_id : Z;
  dev_name : bytes;
  mac : bytes;
  ip_addr : Z;
  up : bool;
  transmit : bool;
}.

Record arp_entry := ArpEntry { arp_ip : Z; arp_mac : bytes; arp_time : Z }.

Record socket := Socket {
  protocol : Z;
  local_port : Z;
  sock_state : Z;
}.

(** [devices], [arp_cache] and [sockets] are the used parts of the arrays, so
    that the counters are their lengths; [wire] lists the frames handed to the
    drivers, oldest first; [ticks] is what [timer_get_ticks] returns. *)
Record net := Net {
  devices : list net_device;
  arp_cache : list arp_entry;
  sockets : list socket;
  ticks : Z;
  net_heap : heap_state;
  wire : list (net_device * bytes);
  net_screen : screen;
}.

Definition set_devices (d : list net_device) (n : net) : net :=
  Net d (arp_cache n) (sockets n) (ticks n) (net_heap n) (wire n) (net_screen n).
Definition set_arp_cache (c : list arp_entry) (n : net) : net :=
  Net (devices n) c (sockets n) (ticks n) (net_heap n) (wire n) (net_screen n).
Definition set_sockets (s : list socket) (n : net) : net :=
  Net (devices n) (arp_cache n) s (ticks n) (net_heap n) (wire n) (net_screen n).
Definition set_net_heap (h : heap_state) (n : net) : net :=
  Net (devices n) (arp_cache n) (sockets n) (ticks n) h (wire n) (net_screen n).
Definition put_on_wire (d : net_device) (f : bytes) (n : net) : net :=
  Net (devices n) (arp_cache n) (sockets n) (ticks n) (net_heap n) (wire n ++ [(d, f)]) (net_screen n).
Definition net_print (s : bytes) (n : net) : net :=
  Net (devices n) (arp_cache n) (sockets n) (ticks n) (net_heap n) (wire n)
      (screen_print s (net_screen n)).

Definition net_kmalloc (size : Z) : cmd net Z := λ n,
  '(p, h) ← kmalloc size (net_heap n); Ok (p, set_net_heap h n).
Definition net_kfree (p : Z) : cmd net unit := λ n,
  '(_, h) ← kfree p (net_heap n); Ok (tt, set_net_heap h n).

(** ** Devices *)
Definition net_register_device (dev : net_device) : cmd net Z := λ n,
  if (16 <=? length (devices n))%nat then Ok (-1, n) else
  let n := set_devices (devices n ++ [dev]) n in
  Ok (0, net_print (bytes_of "Registered network device: " ++ dev_name dev ++ [10]) n).

(** Removing entry [i]: the last device takes its place. *)
Definition remove_device (i : nat) (l : list net_device) : list net_device :=
  match last l with
  | Some d => removelast (<[i := d]> l)
  | None => l
  end.

Fixpoint find_index {A} (f : A → bool) (l : list A) : option nat :=
  match l with
  | [] => None
  | x :: l => if f x then Some O else S <$> find_index f l
  end.

Definition net_unregister_device (dev : net_device) : cmd net Z := λ n,
  match find_index (λ d, dev_id d =? dev_id dev) (devices n) with
  | Some i => Ok (0, set_devices (remove_device i (devices n)) n)
  | None => Ok (-1, n)
  end.

Definition net_get_device (name : bytes) (n : net) : option net_device :=
  List.find (λ d, bool_decide (dev_name d = name)) (devices n).

Definition first_up (n : net) : option net_device := List.find up (devices n).

(** ** The ARP cache *)
Definition arp_cache_add (ip : Z) (hw : bytes) (n : net) : net :=
  match find_index (λ e, arp_ip e =? ip) (arp_cache n) with
  | Some i => set_arp_cache (<[i := ArpEntry ip (take ETH_ALEN hw) (ticks n)]> (arp_cache n)) n
  | None =>
    if (length (arp_cache n) <? 64)%nat
    then set_arp_cache (arp_cache n ++ [ArpEntry ip (take ETH_ALEN hw) (ticks n)]) n
    else n
  end.

Definition arp_lookup (ip : Z) (n : net) : option bytes :=
  arp_mac <$> List.find (λ e, arp_ip e =? ip) (arp_cache n).

(** ** Transmission

    [drv] is the driver's [transmit] function: the value it returns for a
    frame. *)
Section transmit.
Context (drv : net_device → bytes → Z).

Definition eth_header (dest src : bytes) (type : Z) : bytes :=
  take ETH_ALEN dest ++ take ETH_ALEN src ++ le16 (htons type).

Definition eth_transmit (dev : net_device) (dest : bytes) (type : Z) (data : bytes) : cmd net Z := λ n,
  if negb (transmit dev) || negb (up dev) then Ok (-1, n) else
  let total_len := 14 + Z.of_nat (length data) in
  '(p, n) ← net_kmalloc total_len n;
  if p =? NULL then Ok (-1, n) else
  let frame := eth_header dest (mac dev) type ++ data in
  let ret := drv dev frame in
  let n := put_on_wire dev frame n in
  '(_, n) ← net_kfree p n;
  Ok (ret, n).

Definition broadcast_mac : bytes := replicate 6 255.

Definition arp_packet (oper : Z) (sha : bytes) (spa : Z) (tha : bytes) (tpa : Z) : bytes :=
  le16 (htons 1) ++ le16 (htons ETH_P_IP) ++ [6; 4] ++ le16 (htons oper) ++
  take ETH_ALEN sha ++ le32 (htonl spa) ++ take ETH_ALEN tha ++ le32 (htonl tpa).

(** [arp_request] and [arp_reply] allocate the packet, send it and free it. *)
Definition send_arp (dest : bytes) (make : net_device → bytes) : cmd net Z := λ n,
  match first_up n with
  | None => Ok (-1, n)
  | Some dev =>
    '(p, n) ← net_kmalloc 28 n;
    if p =? NULL then Ok (-1, n) else
    '(ret, n) ← eth_transmit dev dest ETH_P_ARP (make dev) n;
    '(_, n) ← net_kfree p n;
    Ok (ret, n)
  end.

Definition arp_request (target_ip : Z) : cmd net Z :=
  send_arp broadcast_mac
    (λ dev, arp_packet ARP_REQUEST (mac dev) (ip_addr dev) (replicate 6 0) target_ip).

Definition arp_reply (target_ip : Z) (target_mac : bytes) : cmd net Z :=
  send_arp target_mac
    (λ dev, arp_packet ARP_REPLY (mac dev) (ip_addr dev) target_mac target_ip).

(** The IP header with a given checksum field. *)
Definition ip_header (total_len protocol check src dest : Z) : bytes :=
  [0x45; 0] ++ le16 (htons (u16 total_len)) ++ le16 (htons 1) ++ [0; 0] ++ [64; protocol] ++
  le16 check ++ le32 (htonl src) ++ le32 (htonl dest).

Definition ip_transmit (src dest protocol : Z) (data : bytes) : cmd net Z := λ n,
  match first_up n with
  | None => Ok (-1, n)
  | Some dev =>
    match arp_lookup dest n with
    | None => '(_, n) ← arp_request dest n; Ok (-1, n)
    | Some dest_mac =>
      let total_len := 20 + Z.of_nat (length data) in
      '(p, n) ← net_kmalloc total_len n;
      if p =? NULL then Ok (-1, n) else
      check ← net_checksum (ip_header total_len protocol 0 src dest);
      let packet := ip_header total_len protocol check src dest ++ data in
      '(ret, n) ← eth_transmit dev dest_mac ETH_P_IP packet n;
      '(_, n) ← net_kfree p n;
      Ok (ret, n)
    end
  end.

(** [icmp_ping]: the device named eth0 is dereferenced without a check. *)
Definition icmp_packet (type check : Z) (rest : bytes) : bytes := [type; 0] ++ le16 check ++ rest.

Definition icmp_ping (target_ip : Z) : cmd net Z := λ n,
  '(p, n) ← net_kmalloc 12 n;
  if p =? NULL then Ok (-1, n) else
  let rest := le32 0 ++ le32 (ticks n) in
  check ← net_checksum (icmp_packet 8 0 rest);
  match net_get_device (bytes_of "eth0") n with
  | None => Fault
  | Some dev =>
    '(ret, n) ← ip_transmit (ip_addr dev) target_ip IPPROTO_ICMP (icmp_packet 8 check rest) n;
    '(_, n) ← net_kfree p n;
    Ok (ret, n)
  end.

(** ** Reception *)
Definition arp_receive (dev : net_device) (data : bytes) : cmd net unit := λ n,
  if (length data <? 28)%nat then Ok (tt, n) else
  let oper := ntohs (get16 data 6) in
  if negb (ntohs (get16 data 0) =? 1) || negb (ntohs (get16 data 2) =? ETH_P_IP) then Ok (tt, n) else
  let sha := take 6 (drop 8 data) in
  let spa := ntohl (get32 data 14) in
  let tpa := ntohl (get32 data 24) in
  let n := arp_cache_add spa sha n in
  if (oper =? ARP_REQUEST) && (tpa =? ip_addr dev)
  then '(_, n) ← arp_reply spa sha n; Ok (tt, n)
  else Ok (tt, n).

(** [icmp_receive]; [src] is the source address read from the IP header that
    lies before [data].  In the echo-reply branch the code copies the
    uninitialised [timestamp] into the packet; [stale] is its value. *)
Definition icmp_receive (dev : net_device) (src : Z) (stale : Z) (data : bytes) : cmd net unit := λ n,
  if (length data <? 8)%nat then Ok (tt, n) else
  if byte_at data 0 =? 8 then
    '(p, n) ← net_kmalloc (Z.of_nat (length data)) n;
    if p =? NULL then Ok (tt, n) else
    let reply := <[0%nat := 0]> data in
    let reply := <[2%nat := 0]> (<[3%nat := 0]> reply) in
    check ← net_checksum reply;
    let reply := <[2%nat := check mod 256]> (<[3%nat := check / 256]> reply) in
    '(_, n) ← ip_transmit (ip_addr dev) src IPPROTO_ICMP reply n;
    '(_, n) ← net_kfree p n;
    Ok (tt, n)
  else if byte_at data 0 =? 0 then
    let n := net_print (bytes_of "Ping reply received, time: ") n in
    str ← dec_string (u32 (ticks n - stale));
    Ok (tt, net_print (str ++ bytes_of " ms" ++ [10]) n)
  else Ok (tt, n).

Definition tcp_reply (local_port src_port seq : Z) : bytes :=
  le16 (htons local_port) ++ le16 (htons src_port) ++ le32 0 ++
  le32 (htonl (u32 (ntohl seq + 1))) ++ [5 * 16; Z.lor TCP_FLAG_SYN TCP_FLAG_ACK] ++
  le16 (htons TCP_MAX_WINDOW) ++ le16 0 ++ le16 0.

Definition set_sock_state (st : Z) (s : socket) : socket := Socket (protocol s) (local_port s) st.

Definition tcp_receive_packet (dev : net_device) (src : Z) (data : bytes) : cmd net unit := λ n,
  if (length data <? 20)%nat then Ok (tt, n) else
  let src_port := ntohs (get16 data 0) in
  let dest_port := ntohs (get16 data 2) in
  match find_index (λ s, (local_port s =? dest_port) && (protocol s =? IPPROTO_TCP)) (sockets n) with
  | None => Ok (tt, n)
  | Some i =>
    let flags := byte_at data 13 in
    let set st n := set_sockets (alter (set_sock_state st) i (sockets n)) n in
    if negb (Z.land flags TCP_FLAG_SYN =? 0) then
      '(_, n) ← ip_transmit (ip_addr dev) src IPPROTO_TCP
                  (tcp_reply dest_port src_port (get32 data 4)) n;
      Ok (tt, set 1 n)
    else if negb (Z.land flags TCP_FLAG_ACK =? 0) then Ok (tt, set 2 n)
    else Ok (tt, n)
  end.

(** [udp_receive_packet] finds the socket and drops the payload. *)
Definition udp_receive_packet (dev : net_device) (data : bytes) : cmd net unit := λ n, Ok (tt, n).

Definition ip_receive (dev : net_device) (stale : Z) (data : bytes) : cmd net unit := λ n,
  if (length data <? 20)%nat then Ok (tt, n) else
  check ← net_checksum (take 20 data);
  if negb (check =? 0) then Ok (tt, n) else
  let dest_ip := ntohl (get32 data 16) in
  if negb (dest_ip =? ip_addr dev) && negb (dest_ip =? 0xFFFFFFFF) then Ok (tt, n) else
  let payload := drop 20 data in
  let src := ntohl (get32 data 12) in
  let proto := byte_at data 9 in
  if proto =? IPPROTO_ICMP then icmp_receive dev src stale payload n
  else if proto =? IPPROTO_TCP then tcp_receive_packet dev src payload n
  else if proto =? IPPROTO_UDP then udp_receive_packet dev payload n
  else Ok (tt, n).

Definition eth_receive (dev : net_device) (stale : Z) (data : bytes) : cmd net unit := λ n,
  if (length data <? 14)%nat then Ok (tt, n) else
  let type := ntohs (get16 data 12) in
  let dest := take 6 data in
  if negb (mac_equal dest (mac dev)) && negb (mac_equal dest broadcast_mac) then Ok (tt, n) else
  let payload := drop 14 data in
  if type =? ETH_P_IP then ip_receive dev stale payload n
  else if type =? ETH_P_ARP then arp_receive dev payload n
  else Ok (tt, n).

End transmit.
