(* ===== verification/NetSpec.v ===== *)
(** * Correctness of the network stack (src/net/net.c) *)
From S2P Require Import Prelude Heap Screen ScreenSpec Net.

(** ** Byte order *)
Lemma lor_add a b k : 0 <= k → 0 <= b < 2 ^ k → Z.lor (Z.shiftl a k) b = a * 2 ^ k + b.
Proof.
  intros Hk Hb. rewrite <- Z.shiftl_mul_pow2 by done.
  assert (Hz : Z.land (Z.shiftl a k) b = 0).
  { apply Z.bits_inj'. intros i Hi. rewrite Z.land_spec, Z.bits_0.
    destruct (Z.lt_ge_cases i k).
    - rewrite Z.shiftl_spec_low by done. done.
    - replace b with (b mod 2 ^ k) by (apply Z.mod_small; lia).
      rewrite Z.mod_pow2_bits_high by lia. apply andb_false_r. }
  rewrite Z.add_nocarry_lxor by done. symmetry. by apply Z.lxor_lor.
Qed.

Lemma land_ff x : Z.land x 0xFF = x mod 256.
Proof. change 0xFF with (Z.ones 8). by rewrite Z.land_ones. Qed.

Lemma htons_eq x : is_u16 x → htons x = x mod 256 * 256 + x / 256.
Proof.
  intros Hx. unfold is_u16 in Hx. unfold htons. rewrite !land_ff, Z.shiftr_div_pow2 by lia.
  change (2 ^ 8) with 256. rewrite lor_add by (change (2 ^ 8) with 256; lia).
  change (2 ^ 8) with 256. lia.
Qed.

Lemma htonl_eq x :
  is_u32 x →
  htonl x = x mod 256 * 16777216 + x / 256 mod 256 * 65536 + x / 65536 mod 256 * 256 + x / 16777216.
Proof.
  intros Hx. unfold is_u32 in Hx. unfold htonl. rewrite !land_ff.
  assert (Hff00 : ∀ y, Z.land y 0xFF00 = Z.shiftl (y / 256 mod 256) 8).
  { intros y. rewrite <- land_ff. change 256 with (2 ^ 8). rewrite <- Z.shiftr_div_pow2 by lia.
    rewrite Z.shiftl_land. change (Z.shiftl 255 8) with 0xFF00.
    apply Z.bits_inj'. intros i Hi. rewrite !Z.land_spec.
    destruct (Z.lt_ge_cases i 8).
    - change 0xFF00 with (Z.shiftl 255 8). rewrite !Z.shiftl_spec_low by done. by rewrite !andb_false_r.
    - rewrite Z.shiftl_spec, Z.shiftr_spec by lia. by replace (i - 8 + 8) with i by lia. }
  rewrite !Hff00, !Z.shiftr_div_pow2, Z.shiftl_shiftl by lia.
  change (8 + 8) with 16. change (2 ^ 8) with 256. change (2 ^ 24) with 16777216.
  replace (x / 256 / 256) with (x / 65536) by lia.
  set (a := x mod 256). set (b := x / 256 mod 256). set (c := x / 65536 mod 256).
  set (d := x / 16777216 mod 256).
  rewrite <- !Z.lor_assoc.
  rewrite (lor_add c d 8) by (change (2 ^ 8) with 256; unfold d; lia). change (2 ^ 8) with 256.
  rewrite (lor_add b (c * 256 + d) 16) by (change (2 ^ 16) with 65536; unfold c, d; lia). change (2 ^ 16) with 65536.
  rewrite (lor_add a (b * 65536 + (c * 256 + d)) 24) by (change (2 ^ 24) with 16777216; unfold b, c, d; lia).
  change (2 ^ 24) with 16777216. unfold u32, a, b, c, d. lia.
Qed.

Lemma le16_htons x : is_u16 x → le16 (htons x) = [x / 256; x mod 256].
Proof. intros Hx. unfold is_u16 in *. unfold le16. rewrite htons_eq by done. list_lia. Qed.

Lemma le32_htonl x :
  is_u32 x → le32 (htonl x) = [x / 16777216; x / 65536 mod 256; x / 256 mod 256; x mod 256].
Proof. intros Hx. unfold is_u32 in *. unfold le32. rewrite htonl_eq by done. list_lia. Qed.

(** A [uint32_t] by its bytes. *)
Lemma split32 y :
  is_u32 y → ∃ a b c d, is_u8 a ∧ is_u8 b ∧ is_u8 c ∧ is_u8 d ∧
    y = a + 256 * b + 65536 * c + 16777216 * d.
Proof.
  intros Hy. unfold is_u32 in Hy.
  exists (y mod 256), (y / 256 mod 256), (y / 65536 mod 256), (y / 16777216). unfold is_u8. lia.
Qed.

Lemma htonl_bytes a b c d :
  is_u8 a → is_u8 b → is_u8 c → is_u8 d →
  htonl (a + 256 * b + 65536 * c + 16777216 * d) = d + 256 * c + 65536 * b + 16777216 * a.
Proof.
  unfold is_u8. intros Ha Hb Hc Hd. rewrite htonl_eq by (unfold is_u32; lia).
  set (y := a + 256 * b + 65536 * c + 16777216 * d).
  assert (y mod 256 = a) as -> by (unfold y; lia).
  assert (y / 256 mod 256 = b) as -> by (unfold y; lia).
  assert (y / 65536 mod 256 = c) as -> by (unfold y; lia).
  assert (y / 16777216 = d) as -> by (unfold y; lia). lia.
Qed.

Lemma ntohl_htonl y : is_u32 y → ntohl (htonl y) = y.
Proof.
  intros Hy. destruct (split32 y Hy) as (a & b & c & d & Ha & Hb & Hc & Hd & ->).
  unfold ntohl. rewrite htonl_bytes by done.
  by rewrite htonl_bytes by done.
Qed.

Lemma ntohs_htons x : is_u16 x → ntohs (htons x) = x.
Proof.
  intros Hx. unfold ntohs. unfold is_u16 in *. rewrite (htons_eq x) by done.
  rewrite htons_eq by (unfold is_u16; lia). lia.
Qed.

(** [ntohs] and [ntohl] undo [htons] and [htonl], and what is stored in memory
    is in network byte order, most significant byte first. *)
Theorem byte_order x y :
  is_u16 x → is_u32 y →
  ntohs (htons x) = x ∧ ntohl (htonl y) = y ∧
  le16 (htons x) = [x / 256; x mod 256] ∧
  le32 (htonl y) = [y / 16777216; y / 65536 mod 256; y / 256 mod 256; y mod 256].
Proof.
  intros Hx Hy. split_and!; [| | by apply le16_htons | by apply le32_htonl].
  - by apply ntohs_htons.
  - by apply ntohl_htonl.
Qed.

(** ** Checksums *)

(** The sum of the 16-bit words of a packet. *)
Fixpoint word_sum (d : bytes) : Z :=
  match d with
  | lo :: hi :: d => lo + 256 * hi + word_sum d
  | [b] => b
  | [] => 0
  end.

(** Two-step induction on byte lists. *)
Lemma pair_ind (P : bytes → Prop) :
  P [] → (∀ b, P [b]) → (∀ a b d, P d → P (a :: b :: d)) → ∀ d, P d.
Proof.
  intros H0 H1 H2. fix IH 1. intros [|a [|b d]]; [exact H0 | apply H1 | apply H2, IH].
Qed.

Lemma word_sum_range d :
  Forall is_u8 d → 0 <= word_sum d <= 65535 * Z.of_nat (length d).
Proof.
  induction d as [|b|a b d IH] using pair_ind; intros Hd; simpl; [lia | |].
  - inversion Hd as [|? ? Hb _]; subst. unfold is_u8 in *. lia.
  - inversion Hd as [|? ? Ha Hd']; subst. inversion Hd' as [|? ? Hb Hd'']; subst.
    specialize (IH Hd''). unfold is_u8 in *. lia.
Qed.

Lemma sum16_eq d : ∀ s,
  Forall is_u8 d → 0 <= s → s + 65535 * Z.of_nat (length d) < 4294967296 →
  sum16 d s = s + word_sum d.
Proof.
  induction d as [|b|a b d IH] using pair_ind; intros s Hd Hs Hmax; simpl in *; [lia | |].
  - inversion Hd as [|? ? Hb _]; subst. unfold is_u8 in *. apply u32_small. unfold is_u32. lia.
  - inversion Hd as [|? ? Ha Hd']; subst. inversion Hd' as [|? ? Hb Hd'']; subst.
    unfold is_u8 in *. rewrite u32_small by (unfold is_u32; lia).
    rewrite IH by (done || lia). lia.
Qed.

Lemma fold_carries_step n s :
  fold_carries (S n) s =
  if s / 65536 =? 0 then Some s else fold_carries n (s mod 65536 + s / 65536).
Proof.
  cbn [fold_carries]. change 0xFFFF with (Z.ones 16).
  rewrite Z.land_ones, Z.shiftr_div_pow2 by lia. done.
Qed.

(** Folding ends for every 32-bit sum, with a 16-bit value congruent to it
    modulo 65535 that is 0 only for the sum 0. *)
Lemma fold_carries_ends s :
  is_u32 s → ∃ r, fold_carries fold_fuel s = Some r ∧ 0 <= r <= 65535 ∧
    r mod 65535 = s mod 65535 ∧ (r = 0 ↔ s = 0).
Proof.
  intros Hs. unfold is_u32 in Hs. unfold fold_fuel. rewrite !fold_carries_step.
  destruct (Z.eqb_spec (s / 65536) 0) as [|Hn0]; [exists s; split; [done | lia] |].
  set (s1 := s mod 65536 + s / 65536).
  assert (H1 : 0 < s1 <= 131070 ∧ s1 mod 65535 = s mod 65535) by (unfold s1; lia).
  clearbody s1. destruct (Z.eqb_spec (s1 / 65536) 0); [exists s1; split; [done | lia] |].
  set (s2 := s1 mod 65536 + s1 / 65536).
  assert (H2 : 0 < s2 <= 65535 ∧ s2 mod 65535 = s1 mod 65535) by (unfold s2; lia).
  clearbody s2. destruct (Z.eqb_spec (s2 / 65536) 0); [exists s2; split; [done | lia] | lia].
Qed.

(** A checksum of data that sums to [S], added to the data, makes the sum
    check. *)
Lemma checksum_verifies s :
  0 <= s → s + 65535 < 4294967296 →
  ∀ r, fold_carries fold_fuel s = Some r → fold_carries fold_fuel (s + (65535 - r)) = Some 65535.
Proof.
  intros H0 Hs r Hr.
  destruct (fold_carries_ends s) as (r' & E & H1 & H2 & H3); [unfold is_u32; lia |].
  rewrite Hr in E. simplify_eq.
  destruct (fold_carries_ends (s + (65535 - r'))) as (q & E & G1 & G2 & G3); [unfold is_u32; lia |].
  rewrite E. f_equal. lia.
Qed.

Lemma not16 r : 0 <= r <= 65535 → u16 (Z.lnot r) = 65535 - r.
Proof. intros Hr. unfold Z.lnot, u16. lia. Qed.

Lemma ip_header_bytes tl proto check src dest :
  is_u8 proto → is_u16 check → is_u32 src → is_u32 dest →
  Forall is_u8 (ip_header tl proto check src dest).
Proof.
  intros Hp Hc Hs Hd. unfold ip_header. rewrite !le16_htons, !le32_htonl by (done || apply u16_range || (unfold is_u16; lia)).
  pose proof (u16_range tl). unfold is_u8, is_u16, is_u32, le16 in *.
  repeat (apply Forall_cons; split; [lia |]). done.
Qed.

Lemma ip_header_sum tl proto check src dest :
  is_u16 check →
  word_sum (ip_header tl proto check src dest) = word_sum (ip_header tl proto 0 src dest) + check.
Proof.
  intros Hc. unfold is_u16 in Hc. unfold ip_header, le16, le32. cbn [app word_sum]. lia.
Qed.

Lemma ip_header_checksum tl proto src dest :
  is_u8 proto → is_u32 src → is_u32 dest →
  ∃ check, net_checksum (ip_header tl proto 0 src dest) = Ok check ∧ is_u16 check ∧
    net_checksum (ip_header tl proto check src dest) = Ok 0.
Proof.
  intros Hp Hs Hd. set (h0 := ip_header tl proto 0 src dest).
  assert (H0 : Forall is_u8 h0) by (apply ip_header_bytes; try done; unfold is_u16; lia).
  assert (Hlen : ∀ c, Z.of_nat (length (ip_header tl proto c src dest)) = 20) by reflexivity.
  pose proof (word_sum_range h0 H0) as Hr. change (Z.of_nat (length h0)) with 20 in Hr.
  assert (Hsum0 : sum16 h0 0 = word_sum h0)
    by (rewrite sum16_eq by (done || (unfold h0; rewrite ?Hlen; lia)); lia).
  destruct (fold_carries_ends (word_sum h0)) as (r & Er & Hr1 & _ & _); [unfold is_u32; lia |].
  assert (Hc : is_u16 (65535 - r)) by (unfold is_u16; lia).
  exists (65535 - r). unfold net_checksum. rewrite Hsum0, Er, not16 by done.
  split; [done |]. split; [done |].
  assert (H1 : Forall is_u8 (ip_header tl proto (65535 - r) src dest)) by (by apply ip_header_bytes).
  rewrite sum16_eq by (done || (rewrite ?Hlen; lia)).
  rewrite Z.add_0_l, ip_header_sum by done. fold h0.
  rewrite (checksum_verifies (word_sum h0)) by (done || lia). done.
Qed.

(** The checksum [ip_transmit] puts into a header makes the header pass
    the check of [ip_receive]: both computations end, and the sum over the
    complete header is 0. *)
Theorem ip_checksum_verifies tl proto src dest :
  is_u8 proto → is_u32 src → is_u32 dest →
  ∃ check, net_checksum (ip_header tl proto 0 src dest) = Ok check ∧ is_u16 check ∧
    net_checksum (ip_header tl proto check src dest) = Ok 0.
Proof. apply ip_header_checksum. Qed.

(** ** Frames *)
Section frames.
Context (drv : net_device → bytes → Z).

Lemma eth_receive_frame dev stale dest src type data n :
  length dest = 6%nat → length src = 6%nat → is_u16 type →
  eth_receive drv dev stale (eth_header dest src type ++ data) n =
  if negb (mac_equal dest (mac dev)) && negb (mac_equal dest broadcast_mac) then Ok (tt, n)
  else if type =? ETH_P_IP then ip_receive drv dev stale data n
  else if type =? ETH_P_ARP then arp_receive drv dev data n
  else Ok (tt, n).
Proof.
  intros Hd Hs Ht. unfold eth_receive, eth_header.
  rewrite le16_htons by done. unfold is_u16 in Ht.
  do 7 (destruct dest as [|? dest]; try done). do 7 (destruct src as [|? src]; try done).
  cbn [take ETH_ALEN app length Nat.ltb Nat.leb].
  assert (Hty : ntohs (get16 (z :: z0 :: z1 :: z2 :: z3 :: z4 :: z5 :: z6 :: z7 :: z8 :: z9 :: z10 ::
            type / 256 :: type mod 256 :: data) 12) = type).
  { unfold get16, byte_at. cbn [nth]. unfold ntohs. rewrite htons_eq by (unfold is_u16; lia). lia. }
  rewrite Hty. reflexivity.
Qed.

(** The value read back from four bytes in network order. *)
Lemma get32_be a b c d rest i :
  is_u8 a → is_u8 b → is_u8 c → is_u8 d →
  byte_at rest i = a → byte_at rest (S i) = b → byte_at rest (S (S i)) = c →
  byte_at rest (S (S (S i))) = d →
  ntohl (get32 rest i) = d + 256 * c + 65536 * b + 16777216 * a.
Proof.
  intros Ha Hb Hc Hd E1 E2 E3 E4. unfold ntohl, get32, get16. rewrite E1, E2, E3, E4.
  replace (a + 256 * b + 65536 * (c + 256 * d)) with (a + 256 * b + 65536 * c + 16777216 * d) by lia.
  by apply htonl_bytes.
Qed.

(** Which receiver [ip_receive] calls. *)
Definition ip_dispatch (dev : net_device) (src stale proto : Z) (data : bytes) : cmd net unit :=
  if proto =? IPPROTO_ICMP then icmp_receive drv dev src stale data
  else if proto =? IPPROTO_TCP then tcp_receive_packet drv dev src data
  else if proto =? IPPROTO_UDP then udp_receive_packet dev data
  else λ n, Ok (tt, n).

Lemma ip_receive_packet dev stale tl proto check src dest data n :
  is_u8 proto → is_u16 check → is_u32 src → is_u32 dest →
  net_checksum (ip_header tl proto check src dest) = Ok 0 →
  dest = ip_addr dev ∨ dest = 0xFFFFFFFF →
  ip_receive drv dev stale (ip_header tl proto check src dest ++ data) n =
  ip_dispatch dev src stale proto data n.
Proof.
  intros Hp Hc Hs Hd Hsum Hdest. unfold ip_receive.
  set (h := ip_header tl proto check src dest) in *.
  assert (Hlen : length h = 20%nat) by reflexivity.
  rewrite length_app, Hlen. destruct (Nat.ltb_spec (20 + length data) 20); [lia |].
  rewrite take_app_length', drop_app_length' by done. rewrite Hsum. cbn [mbind outcome_bind].
  change (negb (0 =? 0)) with false. cbv iota.
  assert (Hb : ∀ i, (i < 20)%nat → byte_at (h ++ data) i = byte_at h i).
  { intros i Hi. unfold byte_at. apply app_nth1. lia. }
  destruct (split32 src Hs) as (a & b & c & d & Ha & Hb' & Hc' & Hd' & Esrc).
  destruct (split32 dest Hd) as (a2 & b2 & c2 & d2 & Ha2 & Hb2 & Hc2 & Hd2 & Edest).
  assert (Hsrc : ntohl (get32 (h ++ data) 12) = src).
  { rewrite (get32_be d c b a) by (done || (rewrite Hb by lia; unfold h, ip_header;
      rewrite !le32_htonl by done; unfold is_u8 in *; cbn; lia)). lia. }
  assert (Hdst : ntohl (get32 (h ++ data) 16) = dest).
  { rewrite (get32_be d2 c2 b2 a2) by (done || (rewrite Hb by lia; unfold h, ip_header;
      rewrite !le32_htonl by done; unfold is_u8 in *; cbn; lia)). lia. }
  rewrite Hdst, Hsrc, Hb by lia. change (byte_at h 9) with proto.
  assert (Hacc : negb (dest =? ip_addr dev) && negb (dest =? 0xFFFFFFFF) = false).
  { destruct Hdest as [-> | ->]; [by rewrite Z.eqb_refl | by rewrite andb_comm]. }
  rewrite Hacc. unfold ip_dispatch. by repeat case_match.
Qed.
(** No memory for the packet or for the frame around it. *)
Definition no_buffer (data : bytes) (h : heap_state) : Prop :=
  (∃ h', kmalloc (20 + Z.of_nat (length data)) h = Ok (NULL, h')) ∨
  (∃ p h1 h2, kmalloc (20 + Z.of_nat (length data)) h = Ok (p, h1) ∧
     kmalloc (14 + (20 + Z.of_nat (length data))) h1 = Ok (NULL, h2)).

(** C10. What [ip_transmit] sends, the addressed host receives: when the
    destination's hardware address is known and a device is up, exactly one
    frame goes out on that device (unless no buffer could be allocated, when
    the answer is -1), and [eth_receive] on a host with that hardware and IP
    address passes the same payload, protocol and source address on to the
    protocol's receiver. *)
Theorem ip_transmit_received src dest proto data dev dmac n ret n' :
  first_up n = Some dev → transmit dev = true → length (mac dev) = 6%nat →
  arp_lookup dest n = Some dmac → length dmac = 6%nat →
  is_u8 proto → is_u32 src → is_u32 dest →
  ip_transmit drv src dest proto data n = Ok (ret, n') →
  (ret = -1 ∧ wire n' = wire n ∧ no_buffer data (net_heap n)) ∨
  ∃ frame, wire n' = wire n ++ [(dev, frame)] ∧ ret = drv dev frame ∧
    ∀ rcv stale m, take 6 (mac rcv) = dmac → ip_addr rcv = dest →
      eth_receive drv rcv stale frame m = ip_dispatch rcv src stale proto data m.
Proof.
  intros Hup Htr Hmac Harp Hdm Hp Hs Hd. unfold ip_transmit. rewrite Hup, Harp.
  assert (Hisup : up dev = true) by (by apply List.find_some in Hup as [_ ?]).
  destruct (ip_header_checksum (20 + Z.of_nat (length data)) proto src dest Hp Hs Hd)
    as (check & Hck & Hc16 & Hver).
  unfold net_kmalloc. destruct (kmalloc _ (net_heap n)) as [[p h1]|?| |] eqn:E1; try done.
  cbn [mbind outcome_bind]. destruct (Z.eqb_spec p NULL) as [->|Hp0].
  { intros [= <- <-]. left. split; [done |]. split; [done |]. left. by exists h1. }
  rewrite Hck. cbn [mbind outcome_bind]. unfold eth_transmit, net_kmalloc. rewrite Htr, Hisup.
  change (negb true || negb true) with false. cbv iota.
  rewrite length_app. change (length (ip_header _ _ _ _ _)) with 20%nat.
  rewrite Nat2Z.inj_add. change (Z.of_nat 20) with 20.
  destruct (kmalloc (14 + _) _) as [[p2 h2]|?| |] eqn:E2; try done. cbn [mbind outcome_bind].
  cbn [net_heap set_net_heap] in E2.
  destruct (Z.eqb_spec p2 NULL) as [->|Hp2]; cbn [mbind outcome_bind].
  { unfold net_kfree. destruct (kfree p _) as [[[] h3]|?| |]; try done.
    cbn [mbind outcome_bind]. intros [= <- <-]. left. split; [done |]. split; [done |].
    right. by exists p, h1, h2. }
  unfold net_kfree. destruct (kfree p2 _) as [[[] h3]|?| |]; try done. cbn [mbind outcome_bind].
  destruct (kfree p _) as [[[] h4]|?| |]; try done. cbn [mbind outcome_bind].
  intros [= <- <-]. right. eexists. split; [reflexivity |]. split; [reflexivity |].
  intros rcv stale m Hrm Hri.
  rewrite eth_receive_frame by (done || (unfold is_u16, ETH_P_IP; lia)).
  assert (Heq : mac_equal dmac (mac rcv) = true).
  { unfold mac_equal, ETH_ALEN. apply bool_decide_true. rewrite Hrm. by apply take_ge; lia. }
  rewrite Heq. cbn [negb andb]. change (ETH_P_IP =? ETH_P_IP) with true. cbv iota.
  apply ip_receive_packet; try done. by left.
Qed.

(** ** ARP *)

(** An ARP request for the device's own address, as [arp_request] builds
    it, teaches the receiver the sender's hardware address and makes it send a
    reply; a request for another address only teaches it; an ARP reply only
    teaches it. *)
Theorem arp_receive_packet dev oper sha spa tha tpa n :
  length sha = 6%nat → length tha = 6%nat → is_u16 oper → is_u32 spa → is_u32 tpa →
  arp_receive drv dev (arp_packet oper sha spa tha tpa) n =
  let n := arp_cache_add spa sha n in
  if (oper =? ARP_REQUEST) && (tpa =? ip_addr dev)
  then '(_, n) ← arp_reply drv spa sha n; Ok (tt, n)
  else Ok (tt, n).
Proof.
  intros Hsha Htha Hop Hspa Htpa. unfold arp_receive, arp_packet, ETH_P_IP.
  rewrite !le16_htons, !le32_htonl by (done || (unfold is_u16; lia)).
  do 7 (destruct sha as [|? sha]; try done). do 7 (destruct tha as [|? tha]; try done).
  cbn [take ETH_ALEN app length Nat.ltb Nat.leb drop].
  destruct (split32 spa Hspa) as (a & b & c & d & Ha & Hb & Hc & Hd & Es).
  destruct (split32 tpa Htpa) as (a2 & b2 & c2 & d2 & Ha2 & Hb2 & Hc2 & Hd2 & Et).
  rewrite (get32_be d c b a _ 14) by (done || (unfold byte_at, is_u8 in *; cbn [nth]; lia)).
  rewrite (get32_be d2 c2 b2 a2 _ 24) by (done || (unfold byte_at, is_u8 in *; cbn [nth]; lia)).
  replace (a + 256 * b + 65536 * c + 16777216 * d) with spa by lia.
  replace (a2 + 256 * b2 + 65536 * c2 + 16777216 * d2) with tpa by lia.
  unfold get16, byte_at. cbn [nth]. unfold is_u16 in Hop.
  replace (ntohs (oper / 256 + 256 * (oper mod 256))) with oper.
  2:{ unfold ntohs. rewrite htons_eq by (unfold is_u16; lia). lia. }
  change (ntohs (1 / 256 + 256 * (1 mod 256))) with 1.
  change (ntohs (0x0800 / 256 + 256 * (0x0800 mod 256))) with 0x0800. reflexivity.
Qed.
End frames.

Lemma find_index_find {A} (f : A → bool) l i :
  find_index f l = Some i → ∃ x, l !! i = Some x ∧ f x = true ∧ List.find f l = Some x.
Proof.
  revert i; induction l as [|x l IH]; intros i; simpl; [done |].
  destruct (f x) eqn:E; [intros [= <-]; by exists x |].
  destruct (find_index f l) as [j|]; [| done]. intros [= <-]. by apply IH.
Qed.

Lemma find_index_none {A} (f : A → bool) l : find_index f l = None → List.find f l = None.
Proof.
  induction l as [|x l IH]; simpl; [done |]. destruct (f x); [done |].
  destruct (find_index f l); [done | auto].
Qed.

Lemma find_insert_other (l : list arp_entry) i (e x : arp_entry) ip :
  l !! i = Some x → arp_ip x ≠ ip → arp_ip e ≠ ip →
  List.find (λ e, arp_ip e =? ip) (<[i := e]> l) = List.find (λ e, arp_ip e =? ip) l.
Proof.
  intros Hl Hx He. revert i Hl; induction l as [|y l IH]; intros [|i] Hl; simplify_eq/=; try done.
  - by destruct (Z.eqb_spec (arp_ip e) ip), (Z.eqb_spec (arp_ip x) ip).
  - by rewrite IH.
Qed.

Lemma find_insert_same (l : list arp_entry) i (e : arp_entry) ip :
  find_index (λ e, arp_ip e =? ip) l = Some i → arp_ip e = ip →
  List.find (λ e, arp_ip e =? ip) (<[i := e]> l) = Some e.
Proof.
  revert i; induction l as [|y l IH]; intros i; simpl; [done |].
  destruct (Z.eqb_spec (arp_ip y) ip) as [Hy|Hy].
  - intros [= <-] He. simpl. rewrite He, Z.eqb_refl. done.
  - destruct (find_index _ l) as [j|] eqn:E; [| done]. intros [= <-] He. simpl.
    destruct (Z.eqb_spec (arp_ip y) ip); [done |]. by apply IH.
Qed.

Lemma find_app {A} (f : A → bool) l1 l2 :
  List.find f (l1 ++ l2) = match List.find f l1 with Some x => Some x | None => List.find f l2 end.
Proof. induction l1 as [|x l1 IH]; simpl; [done |]. by destruct (f x). Qed.

(** The ARP cache is a bounded map: after [arp_cache_add] the address
    looks up to the new hardware address, every other address to what it did
    before, and the cache holds at most 64 entries.  A full cache ignores an
    unknown address: no entry is ever evicted. *)
Theorem arp_cache_map ip hw n :
  (length (arp_cache n) <= 64)%nat →
  let n' := arp_cache_add ip hw n in
  (length (arp_cache n') <= 64)%nat ∧
  (arp_lookup ip n = None → length (arp_cache n) = 64%nat → n' = n) ∧
  (arp_lookup ip n ≠ None ∨ (length (arp_cache n) < 64)%nat → arp_lookup ip n' = Some (take 6 hw)) ∧
  ∀ ip', ip' ≠ ip → arp_lookup ip' n' = arp_lookup ip' n.
Proof.
  intros Hl. unfold arp_cache_add, arp_lookup.
  destruct (find_index _ (arp_cache n)) as [i|] eqn:E.
  - destruct (find_index_find _ _ _ E) as (x & Hx & Hf & Hfind). apply Z.eqb_eq in Hf.
    rewrite Hfind. cbn [arp_cache set_arp_cache]. split_and!.
    + by rewrite length_insert.
    + done.
    + intros _. by rewrite (find_insert_same _ _ _ ip E).
    + intros ip' Hne. by rewrite (find_insert_other _ _ _ x ip') by (simpl; congruence).
  - rewrite (find_index_none _ _ E). destruct (Nat.ltb_spec (length (arp_cache n)) 64) as [Hlt|Hge].
    + cbn [arp_cache set_arp_cache]. split_and!.
      * rewrite length_app. simpl. lia.
      * lia.
      * intros _. rewrite find_app, (find_index_none _ _ E). simpl. by rewrite Z.eqb_refl.
      * intros ip' Hne. rewrite find_app. simpl.
        destruct (List.find _ _); [done |]. by destruct (Z.eqb_spec ip ip').
    + split_and!; try done. intros [H|H]; [done | lia].
Qed.

(** ** Textual addresses *)
Lemma aton_octet o rest ip :
  is_u8 o → aton_loop (fmt_octet o ++ rest) ip 0 = aton_loop rest ip o.
Proof.
  intros Ho. unfold is_u8 in Ho.
  assert (Hdig : ∀ k, 0 <= k <= 9 → ∀ r i oc, 0 <= oc < 1000 →
    aton_loop (48 + k :: r) i oc = aton_loop r i (oc * 10 + k)).
  { intros k Hk r i oc Hoc. cbn [aton_loop].
    destruct (Z.eqb_spec (48 + k) 46); [lia |].
    unfold schar. destruct (Z.ltb_spec (48 + k) 128); [| lia].
    destruct (Z.leb_spec 48 (48 + k)); [| lia]. destruct (Z.leb_spec (48 + k) 57); [| lia].
    cbn [andb]. f_equal. unfold s32, u32. destruct (Z.ltb_spec ((oc * 10 + (48 + k - 48)) mod 4294967296) 2147483648); lia. }
  unfold fmt_octet. destruct (Z.ltb_spec o 10); [| destruct (Z.ltb_spec o 100)]; cbn [app].
  - rewrite Hdig by lia. by rewrite Z.mul_0_l.
  - rewrite !Hdig by lia. f_equal. lia.
  - rewrite !Hdig by lia. f_equal. lia.
Qed.

(** [ip_aton] reads back every address [ip_ntoa] prints. *)
Theorem ip_aton_ntoa ip : is_u32 ip → ip_aton (ip_ntoa ip) = ip.
Proof.
  intros Hip. destruct (split32 ip Hip) as (a & b & c & d & Ha & Hb & Hc & Hd & ->).
  unfold ip_aton, ip_ntoa. rewrite !land_ff, !Z.shiftr_div_pow2 by lia.
  change (2 ^ 24) with 16777216. change (2 ^ 16) with 65536. change (2 ^ 8) with 256.
  unfold is_u8 in *. set (ip := a + 256 * b + 65536 * c + 16777216 * d).
  assert (ip / 16777216 mod 256 = d) as -> by (unfold ip; lia).
  assert (ip / 65536 mod 256 = c) as -> by (unfold ip; lia).
  assert (ip / 256 mod 256 = b) as -> by (unfold ip; lia).
  assert (ip mod 256 = a) as -> by (unfold ip; lia).
  assert (Hacc : ∀ x o, 0 <= x < 16777216 → 0 <= o < 256 → Z.lor (u32 (Z.shiftl x 8)) (u32 o) = x * 256 + o).
  { intros x o Hx Ho. rewrite (u32_small o) by (unfold is_u32; lia).
    rewrite u32_small by (unfold is_u32; rewrite Z.shiftl_mul_pow2 by lia; change (2 ^ 8) with 256; lia).
    rewrite lor_add by (change (2 ^ 8) with 256; lia). done. }
  rewrite aton_octet by (unfold is_u8; lia). cbn [app aton_loop]. change (46 =? 46) with true. cbv iota.
  rewrite Hacc by lia.
  rewrite aton_octet by (unfold is_u8; lia). cbn [app aton_loop]. change (46 =? 46) with true. cbv iota.
  rewrite Hacc by lia.
  rewrite aton_octet by (unfold is_u8; lia). cbn [app aton_loop]. change (46 =? 46) with true. cbv iota.
  rewrite Hacc by lia.
  rewrite <- (app_nil_r (fmt_octet a)), aton_octet by (unfold is_u8; lia). cbn [aton_loop].
  rewrite Hacc by lia. unfold ip. lia.
Qed.
