(* ===== verification/NetWitness.v ===== *)
(** * A small network (src/net/net.c) *)
From S2P Require Import Prelude Heap HeapWitness Screen ScreenSpec Net NetSpec.

(** 10.0.0.1 with one device, and a neighbour 10.0.0.2 in its ARP cache. *)
Definition eth0 : net_device :=
  NetDevice 1 (bytes_of "eth0") [2; 0; 0; 0; 0; 1] 0x0A000001 true true.
Definition neighbour_mac : bytes := [2; 0; 0; 0; 0; 2].
Definition host : net :=
  Net [eth0] [ArpEntry 0x0A000002 neighbour_mac 0] [] 0 boot [] (screen_boot ∅).
Definition driver (d : net_device) (f : bytes) : Z := Z.of_nat (length f).

Lemma ip_checksum_verifies_witness :
  ∃ check, net_checksum (ip_header 60 IPPROTO_ICMP check 0x0A000001 0x0A000002) = Ok 0.
Proof.
  destruct (ip_checksum_verifies 60 IPPROTO_ICMP 0x0A000001 0x0A000002) as (check & _ & _ & H);
    [unfold is_u8, IPPROTO_ICMP; lia | unfold is_u32; lia | unfold is_u32; lia |].
  exists check. exact H.
Defined.

Definition sent_state : net :=
  match ip_transmit driver 0x0A000001 0x0A000002 17 [1; 2; 3] host with Ok (_, n) => n | _ => host end.

Lemma ip_transmit_received_witness :
  ∃ frame, wire sent_state = [(eth0, frame)] ∧
    ∀ rcv stale m, take 6 (mac rcv) = neighbour_mac → ip_addr rcv = 0x0A000002 →
      eth_receive driver rcv stale frame m = ip_dispatch driver rcv 0x0A000001 stale 17 [1; 2; 3] m.
Proof.
  destruct (ip_transmit_received driver 0x0A000001 0x0A000002 17 [1; 2; 3] eth0 neighbour_mac host
    37 sent_state) as [[H _]|(frame & Hw & _ & Hr)].
  - reflexivity.
  - reflexivity.
  - reflexivity.
  - reflexivity.
  - reflexivity.
  - unfold is_u8. lia.
  - unfold is_u32. lia.
  - unfold is_u32. lia.
  - vm_compute. reflexivity.
  - discriminate H.
  - exists frame. split; [exact Hw | exact Hr].
Defined.

Lemma arp_receive_packet_witness :
  arp_receive driver eth0 (arp_packet ARP_REPLY neighbour_mac 0x0A000002 (mac eth0) 0x0A000001) host =
  Ok (tt, arp_cache_add 0x0A000002 neighbour_mac host).
Proof.
  rewrite (arp_receive_packet driver eth0 ARP_REPLY neighbour_mac 0x0A000002 (mac eth0) 0x0A000001 host
    eq_refl eq_refl); [reflexivity | | |]; unfold is_u16, is_u32, ARP_REPLY; lia.
Defined.

Lemma arp_cache_map_witness : arp_lookup 7 (arp_cache_add 7 neighbour_mac host) = Some neighbour_mac.
Proof.
  destruct (arp_cache_map 7 neighbour_mac host) as (_ & _ & H & _); [simpl; lia |].
  apply H. right. simpl. lia.
Defined.

Lemma ip_aton_ntoa_witness : ip_aton (ip_ntoa 0xC0A80101) = 0xC0A80101.
Proof. apply ip_aton_ntoa. unfold is_u32. lia. Defined.
