(* ===== verification/Solixfs.v ===== *)
(** * The SolixFS filesystem (src/fs/solixfs.c)

    Block and inode bitmaps, directory lookup, and reading and writing of
    regular files through twelve direct blocks.  The disk driver is not part of
    the sources: it is an interface. *)
From S2P Require Import Prelude Screen.

Definition SOLIXFS_BLOCK_SIZE : Z := 4096.
Definition SOLIXFS_DIR_ENTRY_SIZE : Z := 260.
Definition SOLIXFS_MAGIC : Z := 0x534F4C58.
Definition FT_REGULAR : Z := 1.
Definition FT_DIRECTORY : Z := 2.

(** ** The disk driver

    [disk_read d b n] are the [n] bytes read from block [b] on, [disk_write]
    stores bytes from block [b] on. *)
Class Disk (D : Type) := {
  disk_read : D → Z → nat → bytes;
  disk_write : D → Z → bytes → D;
}.

(** What the filesystem relies on: a read has the requested length; a whole
    block written is read back; other blocks keep their contents. *)
Class DiskLaws (D : Type) `{Disk D} : Prop := {
  disk_read_length d b n : length (disk_read d b n) = n;
  disk_read_written d b data :
    length data = Z.to_nat SOLIXFS_BLOCK_SIZE →
    disk_read (disk_write d b data) b (Z.to_nat SOLIXFS_BLOCK_SIZE) = data;
  disk_read_other d b b' data :
    length data = Z.to_nat SOLIXFS_BLOCK_SIZE → b ≠ b' →
    disk_read (disk_write d b data) b' (Z.to_nat SOLIXFS_BLOCK_SIZE) =
    disk_read d b' (Z.to_nat SOLIXFS_BLOCK_SIZE);
}.

(** ** State *)
Record superblock := Superblock {
  magic : Z;
  version : Z;
  block_size : Z;
  total_blocks : Z;
  free_blocks : Z;
  inode_count : Z;
  free_inodes : Z;
  inode_table_block : Z;
  data_blocks : Z;
  bitmap_blocks : Z;
}.

Record inode := Inode {
  mode : Z;
  uid : Z;
  gid : Z;
  isize : Z;
  atime : Z;
  mtime : Z;
  ctime : Z;
  links : Z;
  blocks : Z;
  direct : list Z;
  indirect : Z;
  double_indirect : Z;
}.
#[export] Instance inode_inhabited : Inhabited inode :=
  populate (Inode 0 0 0 0 0 0 0 0 0 [] 0 0).

Definition set_isize (s : Z) (i : inode) : inode :=
  Inode (mode i) (uid i) (gid i) s (atime i) (mtime i) (ctime i) (links i) (blocks i) (direct i)
        (indirect i) (double_indirect i).
(** [direct[k] = b; blocks++] *)
Definition add_block (k : nat) (b : Z) (i : inode) : inode :=
  Inode (mode i) (uid i) (gid i) (isize i) (atime i) (mtime i) (ctime i) (links i)
        (u32 (blocks i + 1)) (<[k := b]> (direct i)) (indirect i) (double_indirect i).

(** [sb.free_blocks = n] and [sb.free_inodes = n] *)
Definition sb_free_blocks (n : Z) (s : superblock) : superblock :=
  Superblock (magic s) (version s) (block_size s) (total_blocks s) n (inode_count s) (free_inodes s)
             (inode_table_block s) (data_blocks s) (bitmap_blocks s).
Definition sb_free_inodes (n : Z) (s : superblock) : superblock :=
  Superblock (magic s) (version s) (block_size s) (total_blocks s) (free_blocks s) (inode_count s) n
             (inode_table_block s) (data_blocks s) (bitmap_blocks s).

(** The allocation bitmaps and the disk. *)
Record fs (D : Type) := Fs {
  sb : superblock;
  block_bitmap : list Z;
  inode_bitmap : list Z;
  inode_table : list inode;
  disk_buffer : bytes;
  disk : D;
}.
Arguments Fs {D}.
Arguments sb {D}.
Arguments block_bitmap {D}.
Arguments inode_bitmap {D}.
Arguments inode_table {D}.
Arguments disk_buffer {D}.
Arguments disk {D}.

(** A little-endian word of the bytes [d]. *)
Definition get_u32 (d : bytes) (i : nat) : Z :=
  nth i d 0 + 256 * nth (i + 1) d 0 + 65536 * nth (i + 2) d 0 + 16777216 * nth (i + 3) d 0.

Definition put_u32 (x : Z) : bytes :=
  [x mod 256; x / 256 mod 256; x / 65536 mod 256; x / 16777216 mod 256].

(** The structures as they are on disk (packed, 40 and 92 bytes). *)
Definition decode_superblock (d : bytes) : superblock :=
  Superblock (get_u32 d 0) (get_u32 d 4) (get_u32 d 8) (get_u32 d 12) (get_u32 d 16) (get_u32 d 20)
             (get_u32 d 24) (get_u32 d 28) (get_u32 d 32) (get_u32 d 36).
Definition SOLIXFS_INODE_SIZE : Z := 92.
Definition decode_inode (d : bytes) : inode :=
  Inode (get_u32 d 0) (get_u32 d 4) (get_u32 d 8) (get_u32 d 12) (get_u32 d 16) (get_u32 d 20)
        (get_u32 d 24) (get_u32 d 28) (get_u32 d 32)
        ((λ k, get_u32 d (36 + 4 * k)) <$> seq 0 12) (get_u32 d 84) (get_u32 d 88).
Definition decode_inodes (n : nat) (d : bytes) : list inode :=
  (λ i, decode_inode (take 92 (drop (92 * i) d))) <$> seq 0 n.

Section solixfs.
Context {D : Type} `{!Disk D}.

Definition set_blocks (free : Z) (bm : list Z) (f : fs D) : fs D :=
  Fs (sb_free_blocks free (sb f)) bm (inode_bitmap f) (inode_table f) (disk_buffer f) (disk f).
Definition set_inodes (free : Z) (bm : list Z) (f : fs D) : fs D :=
  Fs (sb_free_inodes free (sb f)) (block_bitmap f) bm (inode_table f) (disk_buffer f) (disk f).
Definition set_inode_table (t : list inode) (f : fs D) : fs D :=
  Fs (sb f) (block_bitmap f) (inode_bitmap f) t (disk_buffer f) (disk f).
Definition set_disk_buffer (b : bytes) (f : fs D) : fs D :=
  Fs (sb f) (block_bitmap f) (inode_bitmap f) (inode_table f) b (disk f).
Definition set_disk (d : D) (f : fs D) : fs D :=
  Fs (sb f) (block_bitmap f) (inode_bitmap f) (inode_table f) (disk_buffer f) d.

(** [solixfs_init]: [None] when the magic number is wrong.  [buffer] is what the
    freshly allocated disk buffer holds; the sizes in bytes wrap around at 32
    bits. *)
Definition solixfs_init (d : D) (buffer : bytes) : option (fs D) :=
  let sb := decode_superblock (disk_read d 0 40) in
  if negb (magic sb =? SOLIXFS_MAGIC) then None else
  let bitmap_size := u32 (total_blocks sb + 7) / 8 in
  let table_size := u32 (inode_count sb * SOLIXFS_INODE_SIZE) in
  let inodes := disk_read d (inode_table_block sb) (Z.to_nat table_size) in
  let blocks := disk_read d (u32 (inode_table_block sb + table_size / SOLIXFS_BLOCK_SIZE))
                  (Z.to_nat bitmap_size) in
  let ibits := disk_read d (u32 (inode_table_block sb + table_size / SOLIXFS_BLOCK_SIZE +
                                 bitmap_size / SOLIXFS_BLOCK_SIZE))
                 (Z.to_nat (u32 (inode_count sb + 7) / 8)) in
  Some (Fs sb blocks ibits (decode_inodes (Z.to_nat (table_size / SOLIXFS_INODE_SIZE)) inodes) buffer d).

(** ** Bitmaps: one bit per block or inode, eight to a byte *)
Definition bit_clear (bm : list Z) (i : Z) : bool :=
  Z.land (bm !!! Z.to_nat (i / 8)) (Z.shiftl 1 (i mod 8)) =? 0.
Definition set_bit (bm : list Z) (i : Z) : list Z :=
  <[Z.to_nat (i / 8) := Z.lor (bm !!! Z.to_nat (i / 8)) (Z.shiftl 1 (i mod 8))]> bm.
Definition clear_bit8 (bm : list Z) (i : Z) : list Z :=
  <[Z.to_nat (i / 8) := u8 (Z.land (bm !!! Z.to_nat (i / 8)) (Z.lnot (Z.shiftl 1 (i mod 8))))]> bm.

(** The search loop, [n] iterations left. *)
Fixpoint find_clear (n : nat) (i : Z) (bm : list Z) : option Z :=
  match n with
  | O => None
  | S n => if bit_clear bm i then Some i else find_clear n (i + 1) bm
  end.

(** [alloc_block]: the block number, or 0 when there is none. *)
Definition alloc_block (f : fs D) : Z * fs D :=
  match find_clear (Z.to_nat (total_blocks (sb f))) 0 (block_bitmap f) with
  | Some i => (i, set_blocks (u32 (free_blocks (sb f) - 1)) (set_bit (block_bitmap f) i) f)
  | None => (0, f)
  end.

Definition free_block (block : Z) (f : fs D) : fs D :=
  if negb (bit_clear (block_bitmap f) block)
  then set_blocks (u32 (free_blocks (sb f) + 1)) (clear_bit8 (block_bitmap f) block) f else f.

(** [alloc_inode]: inode numbers start at 1; 0 when there is none. *)
Definition alloc_inode (f : fs D) : Z * fs D :=
  match find_clear (Z.to_nat (inode_count (sb f))) 0 (inode_bitmap f) with
  | Some i => (i + 1, set_inodes (u32 (free_inodes (sb f) - 1)) (set_bit (inode_bitmap f) i) f)
  | None => (0, f)
  end.

Definition free_inode (ino : Z) (f : fs D) : fs D :=
  if ino =? 0 then f else
  if negb (bit_clear (inode_bitmap f) (ino - 1))
  then set_inodes (u32 (free_inodes (sb f) + 1)) (clear_bit8 (inode_bitmap f) (ino - 1)) f else f.

(** ** Blocks *)
Definition BLOCK : nat := Z.to_nat SOLIXFS_BLOCK_SIZE.
Definition block_address (f : fs D) (block : Z) : Z := u32 (data_blocks (sb f) + block).

(** [read_block(block, disk_buffer)] *)
Definition read_block (block : Z) (f : fs D) : fs D :=
  set_disk_buffer (disk_read (disk f) (block_address f block) BLOCK) f.
(** [write_block(block, buffer)] *)
Definition write_block_from (block : Z) (buffer : bytes) (f : fs D) : fs D :=
  set_disk (disk_write (disk f) (block_address f block) buffer) f.
(** [write_block(block, disk_buffer)] *)
Definition write_block (block : Z) (f : fs D) : fs D := write_block_from block (disk_buffer f) f.

(** ** Directories *)
(** The bytes before the terminator. *)
Fixpoint c_string (d : bytes) : bytes :=
  match d with
  | [] => []
  | c :: d => if c =? 0 then [] else c :: c_string d
  end.

Definition entry_at (d : bytes) (j : nat) : bytes := take 260 (drop (260 * j) d).
Definition entry_inode (e : bytes) : Z := get_u32 e 0.
Definition entry_name (e : bytes) : bytes := c_string (drop 4 e).
Definition ENTRY_COUNT : nat := Z.to_nat (SOLIXFS_BLOCK_SIZE / SOLIXFS_DIR_ENTRY_SIZE).

(** The inner loop of [find_in_dir]. *)
Fixpoint find_entry (n j : nat) (d : bytes) (name : bytes) : option Z :=
  match n with
  | O => None
  | S n =>
    let e := entry_at d j in
    if negb (entry_inode e =? 0) && bool_decide (entry_name e = name) then Some (entry_inode e)
    else find_entry n (S j) d name
  end.

(** The outer loop, over the first [n] blocks from [i] on. *)
Fixpoint search_blocks (n i : nat) (dir : inode) (name : bytes) (f : fs D) : Z * fs D :=
  match n with
  | O => (0, f)
  | S n =>
    if (Z.of_nat i <? blocks dir) && (i <? 12)%nat then
      let f := read_block (direct dir !!! i) f in
      match find_entry ENTRY_COUNT 0 (disk_buffer f) name with
      | Some ino => (ino, f)
      | None => search_blocks n (S i) dir name f
      end
    else (0, f)
  end.

(** [find_in_dir]; reading the inode table outside its bounds is a fault. *)
Definition find_in_dir (dir_inode : Z) (name : bytes) : cmd (fs D) Z := λ f,
  match inode_table f !! Z.to_nat (u32 (dir_inode - 1)) with
  | None => Fault
  | Some dir =>
    if negb (mode dir =? FT_DIRECTORY) then Ok (0, f)
    else Ok (search_blocks 13 0 dir name f)
  end.

(** ** Regular files

    A vnode's inode number and offset. *)
Record vnode := Vnode { inode_num : Z; offset : Z }.

(** The copying loop of [dir_read]: entries [j], [j+1], ... of the block, [n] of
    them left, at most [room] copied. *)
Fixpoint copy_entries (n j room : nat) (d : bytes) (acc : bytes) (off : Z) : bytes * Z :=
  match n, room with
  | S n, S room' =>
    let e := entry_at d j in
    if negb (entry_inode e =? 0)
    then copy_entries n (S j) room' d (acc ++ e) (u32 (off + SOLIXFS_DIR_ENTRY_SIZE))
    else copy_entries n (S j) room d acc off
  | _, _ => (acc, off)
  end.

(** [dir_read]: [None] is the refusal of something that is not a directory. *)
Definition dir_read (v : vnode) (count : Z) (f : fs D) : option bytes * vnode * fs D :=
  let dir := inode_table f !!! Z.to_nat (inode_num v - 1) in
  if negb (mode dir =? FT_DIRECTORY) then (None, v, f) else
  let entry_count := Z.to_nat (count / SOLIXFS_DIR_ENTRY_SIZE) in
  let block_offset := offset v / SOLIXFS_BLOCK_SIZE in
  let entry_offset := Z.to_nat (offset v mod SOLIXFS_BLOCK_SIZE / SOLIXFS_DIR_ENTRY_SIZE) in
  if (blocks dir <=? block_offset) || (12 <=? block_offset) then (Some [], v, f) else
  let f := read_block (direct dir !!! Z.to_nat block_offset) f in
  let '(data, off) :=
    copy_entries (ENTRY_COUNT - entry_offset) entry_offset entry_count (disk_buffer f) [] (offset v) in
  (Some data, Vnode (inode_num v) off, f).

(** [dir_write] always fails. *)
Definition dir_write (v : vnode) (buf : bytes) (f : fs D) : option Z * vnode * fs D := (None, v, f).

(** The reading loop of [file_read]; [want] bytes are still to be read.  Each
    round reaches the end of a block or of the request, so 13 rounds are enough
    ([SolixfsSpec.read_loop_spec]). *)
Fixpoint read_loop (fuel : nat) (ino : inode) (off want : Z) (acc : bytes) (f : fs D)
  : option (bytes * Z * fs D) :=
  if want <=? 0 then Some (acc, off, f) else
  match fuel with
  | O => None
  | S fuel =>
    let block_offset := off / SOLIXFS_BLOCK_SIZE in
    let offset_in_block := off mod SOLIXFS_BLOCK_SIZE in
    let bytes_in_block := Z.min (SOLIXFS_BLOCK_SIZE - offset_in_block) want in
    if block_offset <? 12 then
      let f := read_block (direct ino !!! Z.to_nat block_offset) f in
      let chunk := take (Z.to_nat bytes_in_block) (drop (Z.to_nat offset_in_block) (disk_buffer f)) in
      read_loop fuel ino (off + bytes_in_block) (want - bytes_in_block) (acc ++ chunk) f
    else Some (acc, off, f)
  end.

(** [file_read]: the bytes read and the vnode and filesystem after. *)
Definition file_read (v : vnode) (count : Z) (f : fs D) : option (bytes * vnode * fs D) :=
  let ino := inode_table f !!! Z.to_nat (inode_num v - 1) in
  if isize ino <=? offset v then Some ([], v, f) else
  let want := if isize ino <? u32 (offset v + count) then isize ino - offset v else count in
  '(data, off, f) ← read_loop 14 ino (offset v) want [] f;
  Some (data, Vnode (inode_num v) off, f).

(** [memcpy(disk_buffer + off, data, length data)] *)
Definition splice (off : nat) (data buf : bytes) : bytes :=
  take off buf ++ data ++ drop (off + length data) buf.

(** [write_block] of the [chunk] placed at [o] in block [b]; the old block is
    read first unless it is overwritten completely. *)
Definition write_chunk (b : Z) (o : nat) (chunk : bytes) (f : fs D) : fs D :=
  let f := if (0 <? Z.of_nat o) || (Z.of_nat (length chunk) <? SOLIXFS_BLOCK_SIZE)
           then read_block b f else f in
  let f := set_disk_buffer (splice o chunk (disk_buffer f)) f in
  write_block b f.

(** The block of the file at index [k], allocated if there is none; false when
    the allocation fails. *)
Definition ensure_block (k : nat) (ino : inode) (f : fs D) : bool * inode * fs D :=
  if direct ino !!! k =? 0 then
    let '(new_block, f) := alloc_block f in
    if new_block =? 0 then (false, ino, f) else (true, add_block k new_block ino, f)
  else (true, ino, f).

(** The writing loop of [file_write]: [buf] is what is left to write.  The
    result is the number of bytes written, the inode, the offset and the
    filesystem. *)
Fixpoint write_loop (fuel : nat) (ino : inode) (off : Z) (buf : bytes) (written : Z) (f : fs D)
  : option (Z * inode * Z * fs D) :=
  match buf with
  | [] => Some (written, ino, off, f)
  | _ =>
    match fuel with
    | O => None
    | S fuel =>
      let block_offset := off / SOLIXFS_BLOCK_SIZE in
      let offset_in_block := off mod SOLIXFS_BLOCK_SIZE in
      let bytes_in_block := Z.min (SOLIXFS_BLOCK_SIZE - offset_in_block) (Z.of_nat (length buf)) in
      if 12 <=? block_offset then Some (written, ino, off, f) else
      let k := Z.to_nat block_offset in
      let '(ok, ino, f) := ensure_block k ino f in
      if negb ok then Some (written, ino, off, f) else
      let chunk := take (Z.to_nat bytes_in_block) buf in
      let f := write_chunk (direct ino !!! k) (Z.to_nat offset_in_block) chunk f in
      let off := off + bytes_in_block in
      let ino := if isize ino <? off then set_isize off ino else ino in
      write_loop fuel ino off (drop (Z.to_nat bytes_in_block) buf) (written + bytes_in_block) f
    end
  end.

Definition file_write (v : vnode) (buf : bytes) (f : fs D) : option (Z * vnode * fs D) :=
  let i := Z.to_nat (inode_num v - 1) in
  '(written, ino, off, f) ← write_loop 14 (inode_table f !!! i) (offset v) buf 0 f;
  Some (written, Vnode (inode_num v) off, set_inode_table (<[i := ino]> (inode_table f)) f).

(** [file_seek]: the status and the vnode after. *)
Definition SEEK_SET : Z := 0.
Definition SEEK_CUR : Z := 1.
Definition SEEK_END : Z := 2.
Definition file_seek (v : vnode) (off whence : Z) (f : fs D) : Z * vnode :=
  let size := isize (inode_table f !!! Z.to_nat (inode_num v - 1)) in
  let clamp o := (0, Vnode (inode_num v) (if size <? o then size else o)) in
  if whence =? SEEK_SET then clamp off
  else if whence =? SEEK_CUR then clamp (u32 (offset v + off))
  else if whence =? SEEK_END then clamp size
  else (-1, v).
(** [dir_seek] has the same body. *)
Definition dir_seek (v : vnode) (off whence : Z) (f : fs D) : Z * vnode := file_seek v off whence f.
Definition file_close (v : vnode) : Z := 0.
Definition dir_close (v : vnode) : Z := 0.

End solixfs.
