(* ===== verification/SolixfsSpec.v ===== *)
(** * Correctness of SolixFS files (src/fs/solixfs.c)

    A regular file is a flat array of bytes: writing replaces a range of it and
    reading returns a range of it, for every disk that obeys [DiskLaws]. *)
From S2P Require Import Prelude Screen Solixfs.

Section spec.
Context {D : Type} `{!Disk D} `{!DiskLaws D}.
Implicit Types (f : fs D) (ino : inode).

(** ** Bitmaps *)
Lemma bit_clear_testbit bm i :
  0 <= i → bit_clear bm i = negb (Z.testbit (bm !!! Z.to_nat (i / 8)) (i mod 8)).
Proof. intros Hi. unfold bit_clear. apply land_bit. lia. Qed.

Lemma bit_clear_set bm i j :
  0 <= i < 8 * Z.of_nat (length bm) → 0 <= j →
  bit_clear (set_bit bm i) j = if j =? i then false else bit_clear bm j.
Proof.
  intros Hi Hj. rewrite !bit_clear_testbit by lia. unfold set_bit.
  destruct (Z.eq_dec (j / 8) (i / 8)) as [He|Hne].
  - rewrite He, list_lookup_total_insert_eq, lor_bit by lia.
    destruct (Z.eqb_spec j i) as [->|Hji]; [by rewrite Z.eqb_refl |].
    destruct (Z.eqb_spec (j mod 8) (i mod 8)); [lia | done].
  - rewrite list_lookup_total_insert_ne by lia. by destruct (Z.eqb_spec j i) as [->|].
Qed.

Lemma find_clear_spec bm : ∀ n i,
  0 <= i →
  match find_clear n i bm with
  | Some j => i <= j < i + Z.of_nat n ∧ bit_clear bm j = true ∧
      ∀ l, i <= l < j → bit_clear bm l = false
  | None => ∀ l, i <= l < i + Z.of_nat n → bit_clear bm l = false
  end.
Proof.
  induction n as [|n IH]; intros i Hi; simpl; [lia |]. destruct (bit_clear bm i) eqn:E.
  - split_and!; [lia | lia | done | lia].
  - specialize (IH (i + 1) ltac:(lia)). destruct (find_clear n (i + 1) bm) as [j|].
    + destruct IH as (Hj & Hc & Hl). split_and!; [lia | lia | done |]. intros l Hll.
      destruct (Z.eq_dec l i) as [->|]; [done | apply Hl; lia].
    + intros l Hll. destruct (Z.eq_dec l i) as [->|]; [done | apply IH; lia].
Qed.

(** ** Invariants *)

(** The block bitmap covers the disk, block 0 is never handed out, and block
    addresses do not wrap around. *)
Record fs_ok f : Prop := {
  fk_buffer : length (disk_buffer f) = BLOCK;
  fk_total : 0 < total_blocks (sb f) <= 8 * Z.of_nat (length (block_bitmap f));
  fk_address : 0 <= data_blocks (sb f) ∧ data_blocks (sb f) + total_blocks (sb f) < 4294967296;
  fk_zero : bit_clear (block_bitmap f) 0 = false;
}.

Definition block_of ino (k : Z) : Z := direct ino !!! Z.to_nat k.

(** The blocks of a file exist up to its size, are marked in the bitmap and are
    used once. *)
Record file_ok f ino : Prop := {
  fo_direct : length (direct ino) = 12%nat;
  fo_size : 0 <= isize ino <= 49152;
  fo_alloc : ∀ k, 0 <= k < 12 → k * 4096 < isize ino → block_of ino k ≠ 0;
  fo_used : ∀ k, 0 <= k < 12 → block_of ino k ≠ 0 →
    0 < block_of ino k < total_blocks (sb f) ∧ bit_clear (block_bitmap f) (block_of ino k) = false;
  fo_inj : ∀ j k, 0 <= j < 12 → 0 <= k < 12 → j ≠ k → block_of ino j ≠ 0 →
    block_of ino j ≠ block_of ino k;
}.

(** ** The file as an array of bytes *)
Definition block_bytes f (b : Z) : bytes := disk_read (disk f) (block_address f b) BLOCK.
Definition file_byte f ino (pos : Z) : Z :=
  nth (Z.to_nat (pos mod 4096)) (block_bytes f (block_of ino (pos / 4096))) 0.
Definition file_range f ino (off n : Z) : bytes := map (file_byte f ino) (seqZ off n).

Lemma read_written d b data :
  length data = BLOCK → disk_read (disk_write d b data) b BLOCK = data.
Proof. apply disk_read_written. Qed.

Lemma read_other d b b' data :
  length data = BLOCK → b ≠ b' → disk_read (disk_write d b data) b' BLOCK = disk_read d b' BLOCK.
Proof. apply disk_read_other. Qed.

Lemma length_block_bytes f b : length (block_bytes f b) = BLOCK.
Proof. apply disk_read_length. Qed.

(** ** Allocation *)
Lemma alloc_block_spec f :
  fs_ok f →
  (∃ b, alloc_block f = (b, set_blocks (u32 (free_blocks (sb f) - 1)) (set_bit (block_bitmap f) b) f) ∧
     0 < b < total_blocks (sb f) ∧ bit_clear (block_bitmap f) b = true) ∨
  (alloc_block f = (0, f) ∧ ∀ b, 0 <= b < total_blocks (sb f) → bit_clear (block_bitmap f) b = false).
Proof.
  intros [_ Ht _ Hz]. unfold alloc_block.
  pose proof (find_clear_spec (block_bitmap f) (Z.to_nat (total_blocks (sb f))) 0 ltac:(lia)) as Hs.
  destruct (find_clear _ 0 _) as [b|].
  - left. destruct Hs as (Hb & Hc & _). exists b. split; [done |].
    assert (b ≠ 0) by congruence. split; [lia | done].
  - right. split; [done |]. intros b Hb. apply Hs. lia.
Qed.

(** With block 0 free, as on an empty filesystem, the first [alloc_block]
    takes block 0 and returns the value that means failure: the block is lost
    and the first write to a new file fails with the whole disk free. *)
Theorem alloc_block_zero f :
  0 < total_blocks (sb f) <= 8 * Z.of_nat (length (block_bitmap f)) →
  bit_clear (block_bitmap f) 0 = true →
  ∃ f', alloc_block f = (0, f') ∧ bit_clear (block_bitmap f') 0 = false ∧
    free_blocks (sb f') = u32 (free_blocks (sb f) - 1).
Proof.
  intros Ht Hz. unfold alloc_block.
  destruct (Z.to_nat (total_blocks (sb f))) as [|n] eqn:E; [lia |]. simpl. rewrite Hz.
  eexists. split; [done |]. split; [| done]. simpl. by rewrite bit_clear_set by lia.
Qed.

Lemma alloc_fs_ok f b v :
  fs_ok f → 0 < b < total_blocks (sb f) → fs_ok (set_blocks v (set_bit (block_bitmap f) b) f).
Proof.
  intros [K1 K2 K3 K4] Hb. split; simpl; try done.
  - unfold set_bit. by rewrite length_insert.
  - rewrite bit_clear_set by lia. by destruct (0 =? b).
Qed.

(** A fresh block added to a file. *)
Lemma alloc_file_ok f ino b k v :
  fs_ok f → file_ok f ino → 0 < b < total_blocks (sb f) → bit_clear (block_bitmap f) b = true →
  0 <= k < 12 → block_of ino k = 0 →
  let f' := set_blocks v (set_bit (block_bitmap f) b) f in
  let ino' := add_block (Z.to_nat k) b ino in
  file_ok f' ino' ∧ block_of ino' k = b ∧
  (∀ j, 0 <= j < 12 → j ≠ k → block_of ino' j = block_of ino j) ∧
  (∀ pos, 0 <= pos < isize ino → file_byte f' ino' pos = file_byte f ino pos).
Proof.
  intros Hfs [K1 K2 K3 K4 K5] Hb Hclear Hk Hk0 f' ino'.
  assert (Hnew : block_of ino' k = b)
    by (unfold block_of, ino'; simpl; apply list_lookup_total_insert_eq; lia).
  assert (Hold : ∀ j, 0 <= j < 12 → j ≠ k → block_of ino' j = block_of ino j)
    by (intros j Hj Hjk; unfold block_of, ino'; simpl; apply list_lookup_total_insert_ne; lia).
  assert (Hfresh : ∀ j, 0 <= j < 12 → block_of ino j ≠ b).
  { intros j Hj Heq. destruct (Z.eq_dec (block_of ino j) 0) as [|Hn]; [lia |].
    destruct (K4 j Hj Hn) as [_ Hc]. rewrite Heq in Hc. congruence. }
  split; [| split; [done | split; [done |]]].
  - split; try done.
    + unfold ino'; simpl. by rewrite length_insert.
    + intros j Hj Hs. destruct (Z.eq_dec j k) as [->|]; [rewrite Hnew; lia |].
      rewrite Hold by done. by apply K3.
    + intros j Hj. destruct (Z.eq_dec j k) as [->|Hjk].
      * rewrite Hnew. intros _. split; [done |]. simpl.
        rewrite bit_clear_set by (destruct Hfs; lia). by rewrite Z.eqb_refl.
      * rewrite Hold by done. intros Hn. destruct (K4 j Hj Hn) as [Hr Hc]. split; [done |]. simpl.
        rewrite bit_clear_set by (destruct Hfs; lia). by destruct (_ =? b).
    + intros i j Hi Hj Hij. destruct (Z.eq_dec i k) as [->|]; destruct (Z.eq_dec j k) as [->|]; try done.
      * rewrite Hnew, Hold by done. intros _ E. by apply (Hfresh j Hj).
      * rewrite Hnew, Hold by done. intros _ E. by apply (Hfresh i Hi).
      * rewrite !Hold by done. by apply K5.
  - intros pos Hpos. unfold file_byte, block_bytes.
    assert (Hp : 0 <= pos / 4096 < 12) by lia.
    destruct (Z.eq_dec (pos / 4096) k) as [Hpk|Hpk]; [| by rewrite Hold by done].
    exfalso. apply (K3 (pos / 4096) Hp); [lia |]. by rewrite Hpk.
Qed.

(** ** One block written *)
Lemma nth_splice o data buf i :
  (o <= length buf)%nat →
  nth i (splice o data buf) 0 =
  if ((o <=? i) && (i <? o + length data))%nat then nth (i - o) data 0 else nth i buf 0.
Proof.
  intros Ho. unfold splice. destruct (Nat.leb_spec o i) as [H1|H1]; simpl.
  - rewrite app_nth2 by (rewrite length_take; lia). rewrite length_take.
    replace (o `min` length buf)%nat with o by lia.
    destruct (Nat.ltb_spec i (o + length data)) as [H2|H2].
    + rewrite app_nth1 by lia. done.
    + rewrite app_nth2 by lia. rewrite nth_skipn. f_equal. lia.
  - rewrite app_nth1 by (rewrite length_take; lia).
    rewrite <- (take_drop o buf) at 2. rewrite app_nth1 by (rewrite length_take; lia). done.
Qed.

Lemma length_splice o data buf :
  (o <= length buf)%nat → length (splice o data buf) = Nat.max (length buf) (o + length data).
Proof. intros H. unfold splice. rewrite !length_app, length_take, length_drop. lia. Qed.

Lemma splice_nil o buf : splice o [] buf = buf.
Proof. unfold splice. simpl. by rewrite Nat.add_0_r, take_drop. Qed.

(** Two adjacent writes are one. *)
Lemma splice_splice o c d buf :
  (o <= length buf)%nat → splice (o + length c) d (splice o c buf) = splice o (c ++ d) buf.
Proof.
  intros Ho. unfold splice.
  rewrite (app_assoc _ c), take_app_length' by (rewrite length_app, length_take; lia).
  rewrite drop_app_ge by (rewrite length_app, length_take; lia).
  rewrite length_app, length_take, drop_drop, <- !app_assoc, length_app. do 4 f_equal. lia.
Qed.

(** What was written is what is there. *)
Lemma take_drop_splice o c buf :
  (o <= length buf)%nat → take (length c) (drop o (splice o c buf)) = c.
Proof.
  intros Ho. unfold splice. rewrite drop_app_length' by (rewrite length_take; lia).
  apply take_app_length.
Qed.

Lemma write_chunk_bytes f b o chunk :
  fs_ok f → (o + length chunk <= BLOCK)%nat →
  let f' := write_chunk b o chunk f in
  fs_ok f' ∧ sb f' = sb f ∧ block_bitmap f' = block_bitmap f ∧ inode_table f' = inode_table f ∧
  (∀ i, (i < BLOCK)%nat → nth i (block_bytes f' b) 0 =
     if ((o <=? i) && (i <? o + length chunk))%nat then nth (i - o) chunk 0
     else nth i (block_bytes f b) 0) ∧
  (∀ b', block_address f b' ≠ block_address f b → block_bytes f' b' = block_bytes f b').
Proof.
  intros [K1 K2 K3 K4] Ho. unfold write_chunk.
  set (full := (0 <? Z.of_nat o) || (Z.of_nat (length chunk) <? SOLIXFS_BLOCK_SIZE)).
  set (f1 := if full then read_block b f else f).
  assert (H1 : sb f1 = sb f ∧ block_bitmap f1 = block_bitmap f ∧ inode_table f1 = inode_table f ∧
               disk f1 = disk f ∧ length (disk_buffer f1) = BLOCK).
  { unfold f1. destruct full; simpl; split_and!; try done. apply disk_read_length. }
  destruct H1 as (E1 & E2 & E3 & E4 & E5).
  assert (Hbuf : ∀ i, (i < BLOCK)%nat → nth i (splice o chunk (disk_buffer f1)) 0 =
     if ((o <=? i) && (i <? o + length chunk))%nat then nth (i - o) chunk 0
     else nth i (block_bytes f b) 0).
  { intros i Hi. rewrite nth_splice by lia.
    destruct ((o <=? i) && (i <? o + length chunk))%nat eqn:Ei; [done |].
    unfold f1. destruct full eqn:Ef; [done |]. exfalso. unfold full in Ef.
    apply orb_false_iff in Ef as [Ef1 Ef2]. bool_prop. unfold BLOCK, SOLIXFS_BLOCK_SIZE in *.
    destruct (Nat.leb_spec o i), (Nat.ltb_spec i (o + length chunk)); simpl in Ei; try done; lia. }
  assert (Hlen : length (splice o chunk (disk_buffer f1)) = BLOCK) by (rewrite length_splice; lia).
  assert (Hadr : ∀ x y, block_address (set_disk_buffer y f1) x = block_address f x)
    by (intros; unfold block_address; simpl; by rewrite E1).
  assert (Hdisk : ∀ x, block_bytes (write_block b (set_disk_buffer (splice o chunk (disk_buffer f1)) f1)) x =
    disk_read (disk_write (disk f) (block_address f b) (splice o chunk (disk_buffer f1)))
      (block_address f x) BLOCK).
  { intros x. unfold block_bytes, write_block, write_block_from. rewrite Hadr. simpl. rewrite E4.
    f_equal. apply (Hadr x (disk_buffer f1)). }
  split_and!.
  - split; simpl; rewrite ?E1, ?E2; done.
  - done.
  - done.
  - done.
  - intros i Hi. rewrite Hdisk, read_written by done. by apply Hbuf.
  - intros b' Hb'. rewrite Hdisk. by rewrite read_other by (done || congruence).
Qed.

Lemma block_address_inj f a b :
  fs_ok f → 0 <= a < total_blocks (sb f) → 0 <= b < total_blocks (sb f) →
  block_address f a = block_address f b → a = b.
Proof.
  intros [_ _ [K1 K2] _] Ha Hb. unfold block_address. rewrite !u32_small by (unfold is_u32; lia). lia.
Qed.

(** The same in terms of the file's bytes. *)
Lemma write_chunk_file f ino k o chunk :
  fs_ok f → file_ok f ino → 0 <= k < 12 → block_of ino k ≠ 0 →
  0 <= o → o + Z.of_nat (length chunk) <= 4096 →
  let f' := write_chunk (block_of ino k) (Z.to_nat o) chunk f in
  fs_ok f' ∧ sb f' = sb f ∧ block_bitmap f' = block_bitmap f ∧ inode_table f' = inode_table f ∧
  (∀ pos, 0 <= pos < 49152 → block_of ino (pos / 4096) ≠ 0 →
    file_byte f' ino pos =
    if (k * 4096 + o <=? pos) && (pos <? k * 4096 + o + Z.of_nat (length chunk))
    then nth (Z.to_nat (pos - (k * 4096 + o))) chunk 0 else file_byte f ino pos).
Proof.
  intros Hfs Hfile Hk Hbk Ho Hlen.
  destruct (write_chunk_bytes f (block_of ino k) (Z.to_nat o) chunk Hfs) as (H1 & H2 & H3 & H4 & H5 & H6);
    [unfold BLOCK, SOLIXFS_BLOCK_SIZE; lia |].
  split_and!; try done. intros pos Hpos Hbp. unfold file_byte.
  destruct (fo_used _ _ Hfile k Hk Hbk) as [Hrk _].
  destruct (fo_used _ _ Hfile (pos / 4096) ltac:(lia) Hbp) as [Hrp _].
  destruct (Z.eq_dec (pos / 4096) k) as [Hpk|Hpk].
  - rewrite Hpk, H5 by (unfold BLOCK, SOLIXFS_BLOCK_SIZE; lia).
    destruct (Nat.leb_spec (Z.to_nat o) (Z.to_nat (pos mod 4096))),
      (Nat.ltb_spec (Z.to_nat (pos mod 4096)) (Z.to_nat o + length chunk)),
      (Z.leb_spec (k * 4096 + o) pos), (Z.ltb_spec pos (k * 4096 + o + Z.of_nat (length chunk)));
      simpl; try done; try lia. f_equal. lia.
  - rewrite H6.
    + destruct (Z.leb_spec (k * 4096 + o) pos), (Z.ltb_spec pos (k * 4096 + o + Z.of_nat (length chunk)));
        simpl; try done; lia.
    + intros E. apply (block_address_inj f) in E; [| done | lia | lia].
      by apply (fo_inj _ _ Hfile (pos / 4096) k); [lia | lia | lia | done |].
Qed.
(** ** Whole files *)

(** The abstract file: its bytes. *)
Definition contents f ino : bytes := file_range f ino 0 (isize ino).

(** No block is free. *)
Definition disk_full f : Prop :=
  ∀ b, 0 <= b < total_blocks (sb f) → bit_clear (block_bitmap f) b = false.

Lemma length_contents f ino : length (contents f ino) = Z.to_nat (isize ino).
Proof. unfold contents, file_range. rewrite length_map. apply length_seqZ. Qed.

Lemma nth_contents f ino i :
  (i < Z.to_nat (isize ino))%nat → nth i (contents f ino) 0 = file_byte f ino (Z.of_nat i).
Proof.
  intros Hi. unfold contents, file_range. apply nth_lookup_Some.
  rewrite list_lookup_fmap, lookup_seqZ_lt by lia. done.
Qed.

Lemma contents_ext f f' ino ino' :
  isize ino' = isize ino →
  (∀ pos, 0 <= pos < isize ino → file_byte f' ino' pos = file_byte f ino pos) →
  contents f' ino' = contents f ino.
Proof.
  intros Hs Hb. apply (nth_ext _ _ 0 0); rewrite !length_contents, Hs; [done |].
  intros i Hi. rewrite !nth_contents by lia. apply Hb. lia.
Qed.

(** Two files share no block. *)
Definition apart ino ino2 : Prop :=
  ∀ j k, 0 <= j < 12 → 0 <= k < 12 → block_of ino j ≠ 0 → block_of ino j ≠ block_of ino2 k.

(** A change of the file [ino] into [ino'] leaves every other file alone. *)
Definition frame f ino f' ino' : Prop :=
  ∀ o, file_ok f o → apart ino o → file_ok f' o ∧ apart ino' o ∧ contents f' o = contents f o.

Lemma frame_refl f ino : frame f ino f ino.
Proof. intros o. auto. Qed.

Lemma frame_trans f1 i1 f2 i2 f3 i3 : frame f1 i1 f2 i2 → frame f2 i2 f3 i3 → frame f1 i1 f3 i3.
Proof.
  intros H1 H2 o Ho Ha. destruct (H1 o Ho Ha) as (A1 & A2 & A3).
  destruct (H2 o A1 A2) as (B1 & B2 & B3). split_and!; [done | done | congruence].
Qed.

Lemma alloc_frame_rule f ino b k v :
  fs_ok f → length (direct ino) = 12%nat → 0 < b < total_blocks (sb f) →
  bit_clear (block_bitmap f) b = true → 0 <= k < 12 →
  frame f ino (set_blocks v (set_bit (block_bitmap f) b) f) (add_block (Z.to_nat k) b ino).
Proof.
  intros Hfs Hlen Hb Hc Hk o [K1 K2 K3 K4 K5] Ha. split; [split; try done | split; [| done]].
  - intros j Hj Hn. destruct (K4 j Hj Hn) as [Hr Hu]. split; [done |]. simpl.
    rewrite bit_clear_set by (destruct Hfs; lia). by destruct (_ =? b).
  - intros j l Hj Hl. unfold block_of at 1 2. simpl. destruct (Z.eq_dec j k) as [->|Hjk].
    + rewrite list_lookup_total_insert_eq by lia. intros _ E.
      destruct (K4 l Hl ltac:(lia)) as [_ Hu]. congruence.
    + rewrite list_lookup_total_insert_ne by lia. by apply Ha.
Qed.

Lemma write_frame_rule f ino k o chunk ino' :
  fs_ok f → file_ok f ino → 0 <= k < 12 → block_of ino k ≠ 0 → (o + length chunk <= BLOCK)%nat →
  direct ino' = direct ino →
  frame f ino (write_chunk (block_of ino k) o chunk f) ino'.
Proof.
  intros Hfs Hfile Hk Hb Ho Hd i Hi Ha.
  destruct (write_chunk_bytes f (block_of ino k) o chunk Hfs Ho) as (H1 & H2 & H3 & H4 & H5 & H6).
  set (f' := write_chunk _ _ _ _) in *. split; [| split].
  - destruct Hi as [K1 K2 K3 K4 K5]. split; try done. intros j. rewrite H2, H3. apply K4.
  - intros j l. unfold block_of at 1 2. rewrite Hd. apply Ha.
  - apply contents_ext; [done |]. intros pos Hpos. unfold file_byte. rewrite H6; [done |].
    pose proof (fo_size _ _ Hi) as Hs. assert (Hp : 0 <= pos / 4096 < 12) by lia.
    pose proof (fo_alloc _ _ Hi (pos / 4096) Hp ltac:(lia)) as Hn.
    destruct (fo_used _ _ Hi (pos / 4096) Hp Hn) as [Hr1 _].
    destruct (fo_used _ _ Hfile k Hk Hb) as [Hr2 _].
    intros E. apply (block_address_inj f) in E; [| done | lia | lia]. by apply (Ha k (pos / 4096)).
Qed.

Lemma ensure_block_spec f ino k :
  fs_ok f → file_ok f ino → 0 <= k < 12 →
  (∃ ino' f', ensure_block (Z.to_nat k) ino f = (true, ino', f') ∧ fs_ok f' ∧ file_ok f' ino' ∧
     block_of ino' k ≠ 0 ∧ isize ino' = isize ino ∧ inode_table f' = inode_table f ∧
     contents f' ino' = contents f ino ∧ frame f ino f' ino') ∨
  (ensure_block (Z.to_nat k) ino f = (false, ino, f) ∧ disk_full f).
Proof.
  intros Hfs Hfile Hk. unfold ensure_block. fold (block_of ino k).
  destruct (Z.eqb_spec (block_of ino k) 0) as [Hz|Hz]; [| left; exists ino, f; split_and!; try done; apply frame_refl].
  destruct (alloc_block_spec f Hfs) as [(b & -> & Hb & Hc)|[-> Hfull]]; [| right; done].
  left. destruct (Z.eqb_spec b 0) as [|_]; [lia |].
  destruct (alloc_file_ok f ino b k (u32 (free_blocks (sb f) - 1))) as (H1 & H2 & _ & H4); try done.
  eexists _, _. split; [done |]. split_and!; try done.
  - by apply alloc_fs_ok.
  - rewrite H2. lia.
  - by apply contents_ext.
  - apply alloc_frame_rule; try done. apply Hfile.
Qed.

(** One round of the writing loop. *)
Lemma write_round f ino off chunk :
  fs_ok f → file_ok f ino → 0 <= off <= isize ino → block_of ino (off / 4096) ≠ 0 → off < 49152 →
  0 < Z.of_nat (length chunk) <= 4096 - off mod 4096 →
  let f' := write_chunk (block_of ino (off / 4096)) (Z.to_nat (off mod 4096)) chunk f in
  let off' := off + Z.of_nat (length chunk) in
  let ino' := if isize ino <? off' then set_isize off' ino else ino in
  fs_ok f' ∧ file_ok f' ino' ∧ off' <= isize ino' ∧ inode_table f' = inode_table f ∧
  contents f' ino' = splice (Z.to_nat off) chunk (contents f ino) ∧ frame f ino f' ino'.
Proof.
  intros Hfs Hfile Hoff Hb Hmax Hlen f' off' ino'.
  destruct (write_chunk_file f ino (off / 4096) (off mod 4096) chunk) as (H1 & H2 & H3 & H4 & H5);
    [done | done | lia | done | lia | lia |]. fold f' in H1, H2, H3, H4, H5.
  assert (Hd : direct ino' = direct ino) by (unfold ino'; by destruct (_ <? _)).
  assert (Hs : isize ino' = Z.max (isize ino) off')
    by (unfold ino'; destruct (Z.ltb_spec (isize ino) off'); simpl; lia).
  assert (Hbo : ∀ k, block_of ino' k = block_of ino k) by (intros; unfold block_of; by rewrite Hd).
  assert (Hok : file_ok f' ino').
  { destruct Hfile as [K1 K2 K3 K4 K5]. split; rewrite ?Hd, ?Hs; [done | lia | | |].
    - intros k Hk Hks. rewrite Hbo. destruct (Z.eq_dec k (off / 4096)) as [->|]; [done |].
      apply K3; lia.
    - intros k. rewrite Hbo, H2, H3. apply K4.
    - intros j k. rewrite !Hbo. apply K5. }
  split_and!; [done | done | lia | done | |
    apply write_frame_rule; try done; [lia | unfold BLOCK, SOLIXFS_BLOCK_SIZE; lia]].
  apply (nth_ext _ _ 0 0).
  { rewrite length_splice; rewrite !length_contents; lia. }
  intros i Hi. rewrite length_contents in Hi. rewrite nth_contents, nth_splice
    by (rewrite ?length_contents; lia).
  assert (Hblk : block_of ino (Z.of_nat i / 4096) ≠ 0).
  { rewrite <- Hbo. apply (fo_alloc _ _ Hok); [| lia]. pose proof (fo_size _ _ Hok). lia. }
  transitivity (file_byte f' ino (Z.of_nat i)); [unfold file_byte; by rewrite Hbo |].
  rewrite H5 by (done || (pose proof (fo_size _ _ Hok); lia)).
  replace (off / 4096 * 4096 + off mod 4096) with off by lia.
  destruct (Z.leb_spec off (Z.of_nat i)), (Z.ltb_spec (Z.of_nat i) (off + Z.of_nat (length chunk))),
    (Nat.leb_spec (Z.to_nat off) i), (Nat.ltb_spec i (Z.to_nat off + length chunk)); simpl; try lia;
    try (rewrite nth_contents by lia; done).
  f_equal. lia.
Qed.

(** What a write of [buf] at [off] promises: a prefix of [buf] replaces that
    range of the file, all of [buf] unless the file reaches its largest size or
    the disk is full. *)
Definition write_post f ino off buf (n : nat) f' ino' : Prop :=
  (n <= length buf)%nat ∧ fs_ok f' ∧ file_ok f' ino' ∧ off + Z.of_nat n <= isize ino' ∧
  inode_table f' = inode_table f ∧
  contents f' ino' = splice (Z.to_nat off) (take n buf) (contents f ino) ∧
  ((n < length buf)%nat → off + Z.of_nat n = 49152 ∨ disk_full f') ∧
  frame f ino f' ino'.

Lemma write_post_stop f ino off buf written :
  fs_ok f → file_ok f ino → 0 <= off <= isize ino → (buf ≠ [] → off = 49152 ∨ disk_full f) →
  ∃ n ino' f', Some (written, ino, off, f) = Some (written + Z.of_nat n, ino', off + Z.of_nat n, f') ∧
    write_post f ino off buf n f' ino'.
Proof.
  intros Hfs Hfile Hoff Hend. exists 0%nat, ino, f. unfold write_post. rewrite !Z.add_0_r, splice_nil.
  split_and!; try done; try lia. destruct buf; [simpl; lia | auto].
Qed.

(** The loop, unfolded once. *)
Lemma write_loop_cons fuel ino off buf written f :
  buf ≠ [] →
  write_loop (S fuel) ino off buf written f =
  if 12 <=? off / 4096 then Some (written, ino, off, f) else
  let '(ok, ino, f) := ensure_block (Z.to_nat (off / 4096)) ino f in
  if negb ok then Some (written, ino, off, f) else
  let m := Z.min (4096 - off mod 4096) (Z.of_nat (length buf)) in
  let f := write_chunk (block_of ino (off / 4096)) (Z.to_nat (off mod 4096)) (take (Z.to_nat m) buf) f in
  write_loop fuel (if isize ino <? off + m then set_isize (off + m) ino else ino)
    (off + m) (drop (Z.to_nat m) buf) (written + m) f.
Proof. by destruct buf. Qed.

Lemma write_loop_spec : ∀ fuel ino off buf written f,
  fs_ok f → file_ok f ino → 0 <= off <= isize ino →
  buf = [] ∨ 13 <= Z.of_nat fuel + off / 4096 →
  ∃ n ino' f', write_loop fuel ino off buf written f =
      Some (written + Z.of_nat n, ino', off + Z.of_nat n, f') ∧ write_post f ino off buf n f' ino'.
Proof.
  induction fuel as [|fuel IH]; intros ino off buf written f Hfs Hfile Hoff Hfuel;
    pose proof (fo_size _ _ Hfile) as Hsize.
  { destruct Hfuel as [->|]; [| lia]. by apply write_post_stop. }
  destruct (decide (buf = [])) as [->|Hne]; [by apply write_post_stop |].
  rewrite write_loop_cons by done. destruct Hfuel as [|Hfuel]; [done |].
  assert (Hlen : (0 < length buf)%nat) by (destruct buf; [done | simpl; lia]).
  destruct (Z.leb_spec 12 (off / 4096)) as [H12|H12].
  { apply write_post_stop; try done. left. lia. }
  destruct (ensure_block_spec f ino (off / 4096) Hfs Hfile ltac:(lia))
    as [(ino1 & f1 & -> & K1 & K2 & K3 & K4 & K5 & K6 & K7)|[-> Hfull]];
    [| apply write_post_stop; auto].
  cbn [negb]. cbv zeta. set (m := Z.min (4096 - off mod 4096) (Z.of_nat (length buf))).
  assert (Hlm : Z.of_nat (length (take (Z.to_nat m) buf)) = m) by (rewrite length_take; lia).
  destruct (write_round f1 ino1 off (take (Z.to_nat m) buf)) as (R1 & R2 & R3 & R4 & R5 & R6);
    [done | done | lia | done | lia | lia |]. rewrite Hlm in R2, R3, R5, R6.
  destruct (IH _ (off + m) (drop (Z.to_nat m) buf) (written + m) _ R1 R2)
    as (n & ino2 & f2 & E & S1 & S2 & S3 & S4 & S5 & S6 & S7 & S8); [lia | |].
  { destruct (Z.eq_dec m (4096 - off mod 4096)) as [Hm|Hm]; [right | left].
    - replace (off + m) with ((off / 4096 + 1) * 4096) by lia. rewrite Z.div_mul by lia. lia.
    - apply nil_length_inv. rewrite length_drop. lia. }
  rewrite length_drop in S1, S7. exists (Z.to_nat m + n)%nat, ino2, f2.
  replace (written + Z.of_nat (Z.to_nat m + n)) with (written + m + Z.of_nat n) by lia.
  replace (off + Z.of_nat (Z.to_nat m + n)) with (off + m + Z.of_nat n) by lia.
  split; [done |]. unfold write_post.
  replace (off + Z.of_nat (Z.to_nat m + n)) with (off + m + Z.of_nat n) by lia.
  split_and!; try done; try lia; [congruence | | intros; apply S7; lia |
    by eapply frame_trans; [| eapply frame_trans]].
  rewrite S6, R5, K6.
  replace (Z.to_nat (off + m)) with (Z.to_nat off + length (take (Z.to_nat m) buf))%nat by lia.
  rewrite splice_splice by (rewrite length_contents; lia). by rewrite take_take_drop.
Qed.

(** ** Reading *)
Lemma contents_chunk f ino off m :
  0 <= off → 0 <= m → m <= 4096 - off mod 4096 → off + m <= isize ino → file_ok f ino →
  take (Z.to_nat m) (drop (Z.to_nat (off mod 4096)) (block_bytes f (block_of ino (off / 4096)))) =
  take (Z.to_nat m) (drop (Z.to_nat off) (contents f ino)).
Proof.
  intros Ho Hm Hblk Hsz Hfile.
  assert (HB : BLOCK = 4096%nat) by reflexivity.
  apply (nth_ext _ _ 0 0).
  { rewrite !length_take, !length_drop, length_contents, length_block_bytes, HB. lia. }
  rewrite length_take, length_drop, length_block_bytes, HB. intros i Hi.
  assert (Him : (i <? Z.to_nat m)%nat = true) by (apply Nat.ltb_lt; lia).
  rewrite !nth_firstn, Him, !nth_skipn, nth_contents by lia. unfold file_byte.
  replace (Z.of_nat (Z.to_nat off + i) / 4096) with (off / 4096) by lia. f_equal. lia.
Qed.

(** Reading only changes the disk buffer. *)
Lemma read_block_same b f ino :
  contents (read_block b f) ino = contents f ino ∧ (fs_ok f → fs_ok (read_block b f)) ∧
  (file_ok f ino → file_ok (read_block b f) ino).
Proof.
  split; [done |]. split; intros []; split; try done. apply disk_read_length.
Qed.

Lemma read_loop_spec : ∀ fuel ino off want acc f,
  fs_ok f → file_ok f ino → 0 <= off → 0 <= want → off + want <= isize ino →
  want = 0 ∨ 13 <= Z.of_nat fuel + off / 4096 →
  ∃ f', read_loop fuel ino off want acc f =
    Some (acc ++ take (Z.to_nat want) (drop (Z.to_nat off) (contents f ino)), off + want, f') ∧
    fs_ok f' ∧ (∀ i, file_ok f i → file_ok f' i) ∧ inode_table f' = inode_table f ∧
    (∀ i, contents f' i = contents f i).
Proof.
  induction fuel as [|fuel IH]; intros ino off want acc f Hfs Hfile Hoff Hw Hsz Hfuel;
    pose proof (fo_size _ _ Hfile) as Hsize; simpl; (destruct (Z.leb_spec want 0) as [H0|H0];
    [exists f; replace want with 0 by lia; simpl; rewrite app_nil_r, Z.add_0_r; by split_and! |]).
  { lia. }
  destruct Hfuel as [|Hfuel]; [lia |]. unfold SOLIXFS_BLOCK_SIZE.
  destruct (Z.ltb_spec (off / 4096) 12) as [_|]; [| lia].
  set (b := direct ino !!! Z.to_nat (off / 4096)). set (m := Z.min (4096 - off mod 4096) want).
  destruct (read_block_same b f ino) as (R1 & R2 & R3).
  destruct (IH ino (off + m) (want - m)
    (acc ++ take (Z.to_nat m) (drop (Z.to_nat (off mod 4096)) (disk_buffer (read_block b f))))
    (read_block b f) (R2 Hfs) (R3 Hfile)) as (f' & E & S1 & S2 & S3 & S4); [lia | lia | lia | |].
  { destruct (Z.eq_dec m (4096 - off mod 4096)) as [Hm|Hm]; [right | left; lia].
    replace (off + m) with ((off / 4096 + 1) * 4096) by lia. rewrite Z.div_mul by lia. lia. }
  exists f'. split_and!; try done.
  - etransitivity; [exact E |]. rewrite R1. replace (off + m + (want - m)) with (off + want) by lia.
    do 3 f_equal. rewrite <- app_assoc. f_equal.
    change (disk_buffer (read_block b f)) with (block_bytes f (block_of ino (off / 4096))).
    rewrite contents_chunk by (done || lia).
    replace (Z.to_nat (off + m)) with (Z.to_nat off + Z.to_nat m)%nat by lia.
    rewrite <- drop_drop, take_take_drop. f_equal. lia.
  - intros i Hi. apply S2. by apply read_block_same.
Qed.

(** ** The operations on files *)

(** A vnode refers to a well-formed file and its offset is within it. *)
Record vnode_ok f (v : vnode) : Prop := {
  vo_num : 1 <= inode_num v <= Z.of_nat (length (inode_table f));
  vo_file : file_ok f (inode_table f !!! Z.to_nat (inode_num v - 1));
  vo_offset : 0 <= offset v <= isize (inode_table f !!! Z.to_nat (inode_num v - 1));
}.

(** The bytes of the file a vnode refers to. *)
Definition vnode_contents f (v : vnode) : bytes :=
  contents f (inode_table f !!! Z.to_nat (inode_num v - 1)).

Lemma file_write_cases f v buf :
  fs_ok f → vnode_ok f v →
  ∃ n f' v', file_write v buf f = Some (Z.of_nat n, v', f') ∧ (n <= length buf)%nat ∧
    fs_ok f' ∧ vnode_ok f' v' ∧ inode_num v' = inode_num v ∧ offset v' = offset v + Z.of_nat n ∧
    vnode_contents f' v' = splice (Z.to_nat (offset v)) (take n buf) (vnode_contents f v) ∧
    ((n < length buf)%nat → offset v' = 49152 ∨ disk_full f') ∧
    frame f (inode_table f !!! Z.to_nat (inode_num v - 1))
          f' (inode_table f' !!! Z.to_nat (inode_num v - 1)) ∧
    (∀ i, i ≠ Z.to_nat (inode_num v - 1) → inode_table f' !!! i = inode_table f !!! i) ∧
    length (inode_table f') = length (inode_table f).
Proof.
  intros Hfs [Hn Hfile Hoff]. unfold file_write. set (i := Z.to_nat (inode_num v - 1)) in *.
  destruct (write_loop_spec 14 (inode_table f !!! i) (offset v) buf 0 f Hfs Hfile Hoff)
    as (n & ino' & f' & -> & K1 & K2 & K3 & K4 & K5 & K6 & K7 & K8); [right; lia |].
  simpl. set (f'' := set_inode_table _ _).
  assert (Hlen : (i < length (inode_table f'))%nat) by (rewrite K5; lia).
  assert (Hi : inode_table f'' !!! i = ino') by (unfold f''; simpl; by apply list_lookup_total_insert_eq).
  assert (Hframe : frame f (inode_table f !!! i) f'' ino').
  { intros o Ho Ha. destruct (K8 o Ho Ha) as ([] & A2 & A3). by split_and!. }
  exists n, f'', (Vnode (inode_num v) (offset v + Z.of_nat n)).
  split; [done |]. split; [done |]. split; [by destruct K2; split |].
  split.
  { constructor; cbn [inode_num offset]; fold i; rewrite ?Hi.
    - unfold f''. simpl. rewrite length_insert, K5. lia.
    - by destruct K3.
    - lia. }
  split; [done |]. split; [done |]. split; [| split; [exact K7 | split; [rewrite Hi; exact Hframe |]]].
  - unfold vnode_contents. cbn [inode_num]. fold i. rewrite Hi. exact K6.
  - unfold f''. simpl. rewrite length_insert, K5. split; [| done].
    intros j Hj. by rewrite list_lookup_total_insert_ne by done.
Qed.

Lemma file_read_cases f v count :
  fs_ok f → vnode_ok f v → 0 <= count < 4294967296 - 49152 →
  ∃ f' v', file_read v count f =
    Some (take (Z.to_nat count) (drop (Z.to_nat (offset v)) (vnode_contents f v)), v', f') ∧
    fs_ok f' ∧ vnode_ok f' v' ∧ inode_num v' = inode_num v ∧
    offset v' = Z.min (offset v + count) (isize (inode_table f !!! Z.to_nat (inode_num v - 1))) ∧
    (∀ w, vnode_contents f' w = vnode_contents f w).
Proof.
  intros Hfs [Hn Hfile Hoff] Hc. unfold file_read, vnode_contents.
  set (i := Z.to_nat (inode_num v - 1)) in *. set (ino := inode_table f !!! i) in *.
  pose proof (fo_size _ _ Hfile) as Hsize.
  destruct (Z.leb_spec (isize ino) (offset v)) as [He|He].
  { exists f, v. rewrite drop_ge by (rewrite length_contents; lia). rewrite take_nil.
    split_and!; try done; lia. }
  rewrite u32_small by (unfold is_u32; lia).
  set (want := if isize ino <? offset v + count then isize ino - offset v else count).
  assert (Hwant : want = Z.min count (isize ino - offset v))
    by (unfold want; destruct (Z.ltb_spec (isize ino) (offset v + count)); lia).
  destruct (read_loop_spec 14 ino (offset v) want [] f Hfs Hfile) as (f' & -> & K1 & K2 & K3 & K4);
    [lia | lia | lia | right; lia |]. simpl. exists f', (Vnode (inode_num v) (offset v + want)).
  split; [| split; [done |]].
  { do 3 f_equal. apply (nth_ext _ _ 0 0).
    - rewrite !length_take, !length_drop, length_contents. lia.
    - rewrite length_take, length_drop, length_contents. intros j Hj. rewrite !nth_firstn.
      destruct (Nat.ltb_spec j (Z.to_nat want)), (Nat.ltb_spec j (Z.to_nat count)); done || lia. }
  split; [| split_and!; simpl; try done; [lia | intros w; by rewrite K3, K4]].
  split; simpl; fold i; rewrite K3; fold ino; [done | by apply K2 | lia].
Qed.

(** C4. Writing to a file replaces the bytes from the offset on by a prefix of
    the buffer and leaves every other byte of the file alone, extends the file
    if needed, advances the offset by the number of bytes returned, and stops
    short only when the file has its largest size (12 blocks) or no block is
    free; the allocation invariants hold after. *)
Theorem file_write_refines f v buf :
  fs_ok f → vnode_ok f v →
  ∃ n f' v', file_write v buf f = Some (Z.of_nat n, v', f') ∧ (n <= length buf)%nat ∧
    fs_ok f' ∧ vnode_ok f' v' ∧ inode_num v' = inode_num v ∧ offset v' = offset v + Z.of_nat n ∧
    vnode_contents f' v' = splice (Z.to_nat (offset v)) (take n buf) (vnode_contents f v) ∧
    ((n < length buf)%nat → offset v' = 49152 ∨ disk_full f').
Proof.
  intros Hfs Hv. destruct (file_write_cases f v buf Hfs Hv)
    as (n & f' & v' & H1 & H2 & H3 & H4 & H5 & H6 & H7 & H8 & _).
  exists n, f', v'. split_and!; done.
Qed.

(** C18. Writing to one file changes no other: another well-formed file that
    shares no block with it stays well formed, keeps every byte and still shares
    no block with it. *)
Theorem file_write_isolated f v w buf n v' f' :
  fs_ok f → vnode_ok f v → vnode_ok f w → inode_num w ≠ inode_num v →
  apart (inode_table f !!! Z.to_nat (inode_num v - 1)) (inode_table f !!! Z.to_nat (inode_num w - 1)) →
  file_write v buf f = Some (n, v', f') →
  vnode_ok f' w ∧ vnode_contents f' w = vnode_contents f w ∧
  apart (inode_table f' !!! Z.to_nat (inode_num v - 1)) (inode_table f' !!! Z.to_nat (inode_num w - 1)).
Proof.
  intros Hfs Hv [Wn Wf Wo] Hvw Ha Hwr. pose proof (vo_num _ _ Hv) as Vn.
  destruct (file_write_cases f v buf Hfs Hv)
    as (n1 & f1 & v1 & H1 & _ & _ & _ & _ & _ & _ & _ & H8 & H9 & H10).
  rewrite H1 in Hwr. simplify_eq.
  destruct (H8 _ Wf Ha) as (A1 & A2 & A3).
  assert (Hw : inode_table f' !!! Z.to_nat (inode_num w - 1) = inode_table f !!! Z.to_nat (inode_num w - 1))
    by (apply H9; lia).
  rewrite !Hw. split_and!; [split; rewrite ?Hw, ?H10; done | | done].
  unfold vnode_contents. by rewrite Hw.
Qed.

(** Reading returns the bytes of the file from the offset on, as many as
    are asked for or as there are, advances the offset by that number and
    changes no file. *)
Theorem file_read_refines f v count :
  fs_ok f → vnode_ok f v → 0 <= count < 4294967296 - 49152 →
  ∃ f' v', file_read v count f =
    Some (take (Z.to_nat count) (drop (Z.to_nat (offset v)) (vnode_contents f v)), v', f') ∧
    fs_ok f' ∧ vnode_ok f' v' ∧ inode_num v' = inode_num v ∧
    offset v' = Z.min (offset v + count) (isize (inode_table f !!! Z.to_nat (inode_num v - 1))) ∧
    (∀ w, vnode_contents f' w = vnode_contents f w).
Proof. apply file_read_cases. Qed.

Lemma vnode_ok_clamp f v o :
  vnode_ok f v → 0 <= o →
  let size := isize (inode_table f !!! Z.to_nat (inode_num v - 1)) in
  vnode_ok f (Vnode (inode_num v) (if size <? o then size else o)).
Proof.
  intros [Hn Hfile Hoff] Ho size. split; simpl; fold size; try done. case Z.ltb_spec; lia.
Qed.

(** Seeking clamps the offset to the size of the file and refuses an unknown
    origin, so every offset a vnode can reach is one that reads and writes are
    correct at. *)
Theorem file_seek_ok f v off w :
  vnode_ok f v → 0 <= off →
  ∃ r v', file_seek v off w f = (r, v') ∧ vnode_ok f v' ∧ inode_num v' = inode_num v ∧
    (r = 0 ↔ w = SEEK_SET ∨ w = SEEK_CUR ∨ w = SEEK_END) ∧ (r ≠ 0 → r = -1 ∧ v' = v) ∧
    (w = SEEK_SET → off <= isize (inode_table f !!! Z.to_nat (inode_num v - 1)) → offset v' = off).
Proof.
  intros Hv Ho. unfold file_seek, SEEK_SET, SEEK_CUR, SEEK_END.
  assert (Hu : 0 <= u32 (offset v + off)) by (pose proof (u32_range (offset v + off)); unfold is_u32 in *; lia).
  assert (Hs : 0 <= isize (inode_table f !!! Z.to_nat (inode_num v - 1))) by (apply (vo_file _ _ Hv)).
  repeat case Z.eqb_spec; intros; eexists _, _; (split; [reflexivity |]);
    (split; [by try apply vnode_ok_clamp |]); (split; [done |]); (split; [lia |]); (split; [done |]);
    intros; try lia; simpl; case Z.ltb_spec; lia.
Qed.

Lemma file_seek_set f v off :
  0 <= off <= isize (inode_table f !!! Z.to_nat (inode_num v - 1)) →
  file_seek v off SEEK_SET f = (0, Vnode (inode_num v) off).
Proof. intros Ho. unfold file_seek. simpl. by case Z.ltb_spec; [lia |]. Qed.

(** C19. What is written, sought back to and read is what was written. *)
Theorem file_write_read f v buf :
  fs_ok f → vnode_ok f v →
  ∃ n f1 v1 f2 v2, file_write v buf f = Some (Z.of_nat n, v1, f1) ∧
    file_read (file_seek v1 (offset v) SEEK_SET f1).2 (Z.of_nat n) f1 = Some (take n buf, v2, f2) ∧
    offset v2 = offset v1.
Proof.
  intros Hfs Hv. destruct (file_write_cases f v buf Hfs Hv)
    as (n & f1 & v1 & E & Hn & H1 & H2 & H3 & H4 & H5 & _).
  destruct Hv as [_ _ Hoff]. pose proof (vo_offset _ _ H2) as Ho1.
  pose proof (fo_size _ _ (vo_file _ _ H2)) as Hs1.
  destruct (file_read_cases f1 (Vnode (inode_num v1) (offset v)) (Z.of_nat n) H1) as
    (f2 & v2 & E2 & _ & _ & _ & O2 & _); [split; simpl; [apply H2 | apply H2 | lia] | lia |].
  exists n, f1, v1, f2, v2. split; [done |]. split; [| rewrite O2; simpl; lia].
  rewrite file_seek_set by lia. simpl. rewrite E2. do 3 f_equal. unfold vnode_contents at 1. simpl. fold (vnode_contents f1 v1).
  rewrite H5. rewrite Nat2Z.id.
  replace n with (length (take n buf)) at 1 by (rewrite length_take; lia).
  apply take_drop_splice. unfold vnode_contents. rewrite length_contents. lia.
Qed.
End spec.
