(* ===== verification/SolixfsWitness.v ===== *)
(** * A disk and a filesystem on which the theorems on SolixFS apply

    The disk is an array of bytes; it obeys the laws the filesystem relies on. *)
From S2P Require Import Prelude Screen Solixfs SolixfsSpec.

Definition ram_disk : Type := Z → Z.
#[export] Instance ram_disk_ops : Disk ram_disk := {
  disk_read d b n := map (λ i, d (b * SOLIXFS_BLOCK_SIZE + i)) (seqZ 0 (Z.of_nat n));
  disk_write d b data := λ a,
    let i := a - b * SOLIXFS_BLOCK_SIZE in
    if (0 <=? i) && (i <? Z.of_nat (length data)) then nth (Z.to_nat i) data 0 else d a;
}.

Lemma nth_ram_read (d : ram_disk) b n i :
  (i < n)%nat → nth i (disk_read d b n) 0 = d (b * SOLIXFS_BLOCK_SIZE + Z.of_nat i).
Proof.
  intros Hi. apply nth_lookup_Some. simpl. rewrite list_lookup_fmap, lookup_seqZ_lt by lia. done.
Qed.

#[export] Instance ram_disk_laws : DiskLaws ram_disk.
Proof.
  assert (Hlen : ∀ (d : ram_disk) b n, length (disk_read d b n) = n)
    by (intros; simpl; rewrite length_map, length_seqZ; lia).
  split; [exact Hlen | |].
  - intros d b data Hd. apply (nth_ext _ _ 0 0); [by rewrite Hlen |]. rewrite Hlen. intros i Hi.
    rewrite nth_ram_read by done. simpl. rewrite Hd.
    case Z.leb_spec; [| lia]. case Z.ltb_spec; [| lia]. simpl. intros _ _. f_equal. lia.
  - intros d b b' data Hd Hb. apply (nth_ext _ _ 0 0); [by rewrite !Hlen |]. rewrite Hlen. intros i Hi.
    rewrite !nth_ram_read by done. simpl. rewrite Hd. unfold SOLIXFS_BLOCK_SIZE in *.
    case Z.leb_spec; case Z.ltb_spec; simpl; lia || done.
Qed.

(** A disk of 16 blocks of data with block 0 in use, and two empty files. *)
Definition sample_inode : inode := Inode FT_REGULAR 0 0 0 0 0 0 1 0 (replicate 12 0) 0 0.
Definition sample_fs : fs ram_disk :=
  Fs (Superblock SOLIXFS_MAGIC 1 4096 16 15 2 0 1 10 1) [1; 0] [3] [sample_inode; sample_inode]
     (replicate BLOCK 0) (λ _, 7).
Definition sample_vnode (i : Z) : vnode := Vnode i 0.

Lemma sample_fs_ok : fs_ok sample_fs.
Proof. split; [apply length_replicate | simpl; lia | simpl; lia | reflexivity]. Qed.

Lemma sample_file_ok : file_ok sample_fs sample_inode.
Proof.
  assert (H0 : ∀ k, 0 <= k < 12 → block_of sample_inode k = 0).
  { intros k Hk. unfold block_of. simpl.
    rewrite (lookup_total_replicate_2 12 (0 : Z) (Z.to_nat k)) by lia. done. }
  split; [reflexivity | simpl; lia | simpl; lia | |].
  - intros k Hk. by rewrite H0.
  - intros j k Hj. by rewrite H0.
Qed.

Lemma sample_vnode_ok i : 1 <= i <= 2 → vnode_ok sample_fs (sample_vnode i).
Proof.
  intros Hi. assert (E : inode_table sample_fs !!! Z.to_nat (inode_num (sample_vnode i) - 1) = sample_inode).
  { destruct (Z.eq_dec i 1) as [->|]; [done |]. by assert (i = 2) as -> by lia. }
  split; rewrite ?E; [simpl; lia | apply sample_file_ok | simpl; lia].
Qed.

Lemma sample_apart : apart sample_inode sample_inode.
Proof.
  intros j k Hj Hk. unfold block_of. simpl.
  by rewrite (lookup_total_replicate_2 12 (0 : Z) (Z.to_nat j)) by lia.
Qed.

Lemma file_write_refines_witness :
  ∃ n f' v', file_write (sample_vnode 1) [72; 105] sample_fs = Some (Z.of_nat n, v', f') ∧
    vnode_contents f' v' = take n [72; 105].
Proof.
  destruct (file_write_refines sample_fs (sample_vnode 1) [72; 105] sample_fs_ok
    (sample_vnode_ok 1 ltac:(lia))) as (n & f' & v' & H1 & _ & _ & _ & _ & _ & H7 & _).
  exists n, f', v'. split; [exact H1 |]. rewrite H7.
  change (vnode_contents sample_fs (sample_vnode 1)) with ([] : bytes). unfold splice.
  by rewrite drop_nil, app_nil_r, take_nil.
Defined.

Lemma file_read_refines_witness :
  ∃ f' v', file_read (sample_vnode 1) 100 sample_fs = Some ([], v', f').
Proof.
  destruct (file_read_refines sample_fs (sample_vnode 1) 100 sample_fs_ok
    (sample_vnode_ok 1 ltac:(lia)) ltac:(lia)) as (f' & v' & H1 & _).
  exists f', v'. rewrite H1. reflexivity.
Defined.

Lemma file_write_isolated_witness :
  ∃ n v' f', file_write (sample_vnode 1) [72; 105] sample_fs = Some (n, v', f') ∧
    vnode_contents f' (sample_vnode 2) = vnode_contents sample_fs (sample_vnode 2).
Proof.
  destruct (file_write_cases sample_fs (sample_vnode 1) [72; 105] sample_fs_ok
    (sample_vnode_ok 1 ltac:(lia))) as (n & f' & v' & H1 & _).
  exists (Z.of_nat n), v', f'. split; [exact H1 |].
  apply (file_write_isolated sample_fs (sample_vnode 1) (sample_vnode 2) [72; 105] (Z.of_nat n) v' f'
    sample_fs_ok (sample_vnode_ok 1 ltac:(lia)) (sample_vnode_ok 2 ltac:(lia))); [simpl; lia | | exact H1].
  exact sample_apart.
Defined.

Lemma file_seek_ok_witness :
  ∃ r v', file_seek (sample_vnode 1) 5 SEEK_SET sample_fs = (r, v') ∧ vnode_ok sample_fs v'.
Proof.
  destruct (file_seek_ok sample_fs (sample_vnode 1) 5 SEEK_SET (sample_vnode_ok 1 ltac:(lia)) ltac:(lia))
    as (r & v' & H1 & H2 & _). exists r, v'. split; [exact H1 | exact H2].
Defined.

Lemma file_write_read_witness :
  ∃ n f1 v1 f2 v2, file_write (sample_vnode 1) [72; 105] sample_fs = Some (Z.of_nat n, v1, f1) ∧
    file_read (file_seek v1 0 SEEK_SET f1).2 (Z.of_nat n) f1 = Some (take n [72; 105], v2, f2) ∧
    offset v2 = offset v1.
Proof.
  exact (file_write_read sample_fs (sample_vnode 1) [72; 105] sample_fs_ok (sample_vnode_ok 1 ltac:(lia))).
Defined.

Definition empty_fs : fs ram_disk :=
  Fs (Superblock SOLIXFS_MAGIC 1 4096 16 16 2 0 1 10 1) [0; 0] [3] [sample_inode; sample_inode]
     (replicate BLOCK 0) (λ _, 7).

Lemma alloc_block_zero_witness :
  ∃ f', alloc_block empty_fs = (0, f') ∧ bit_clear (block_bitmap f') 0 = false ∧
    free_blocks (sb f') = 15.
Proof.
  destruct (alloc_block_zero empty_fs) as (f' & H1 & H2 & H3); [simpl; lia | reflexivity |].
  exists f'. split; [exact H1 |]. split; [exact H2 | exact H3].
Defined.
