(* ===== verification/Vfs.v ===== *)
(** * The virtual filesystem (src/fs/vfs.c)

    Mount table, path resolution, the table of open files and the operations on
    descriptors and paths, on top of SolixFS. *)
From S2P Require Import Prelude Screen Solixfs.

Definition MAX_MOUNTS : nat := 16.
Definition MAX_FILES : nat := 256.
Definition O_RDONLY : Z := 0.
Definition O_WRONLY : Z := 1.
Definition O_RDWR : Z := 2.
Definition O_CREAT : Z := 0x40.
Definition O_TRUNC : Z := 0x200.
Definition PERM_READ : Z := 0x100.
Definition PERM_WRITE : Z := 0x200.
Definition PERM_EXEC : Z := 0x400.
Definition SLASH : Z := 47.

(** A [vnode_t] object: its number and offset, whether its operations are
    [dir_ops] or [file_ops], and whether [private_data] points to it (it is NULL
    in the root). *)
Record node := Node { vn : vnode; dir_node : bool; private_data : bool }.
#[export] Instance node_inhabited : Inhabited node := populate (Node (Vnode 0 0) false false).

Record mount := Mount { mountpoint : bytes; root : option nat; active : bool }.

(** An open file; [None] is a NULL vnode, otherwise the index of the object.
    The code keeps an offset here too, which it never uses. *)
Record file := File { fvnode : option nat; flags : Z; ref_count : Z }.
#[export] Instance file_inhabited : Inhabited file := populate (File None 0 0).

Record vfs (D : Type) := Vfs {
  mounts : list mount;
  file_table : list file;
  nodes : list node;
  filesys : fs D;
}.
Arguments Vfs {D}.
Arguments mounts {D}.
Arguments file_table {D}.
Arguments nodes {D}.
Arguments filesys {D}.

Section vfs.
Context {D : Type} `{!Disk D}.

(** [kmalloc] of the [n]-th vnode: [None] is NULL, otherwise what the new object
    holds where its offset is (nothing initialises it). *)
Context (new_vnode : nat → option Z).

Definition set_file_table (t : list file) (s : vfs D) : vfs D :=
  Vfs (mounts s) t (nodes s) (filesys s).
Definition set_nodes (n : list node) (s : vfs D) : vfs D :=
  Vfs (mounts s) (file_table s) n (filesys s).
Definition set_filesys (f : fs D) (s : vfs D) : vfs D :=
  Vfs (mounts s) (file_table s) (nodes s) f.

(** [vfs_init]; the root vnode of SolixFS, object 0, exists if the filesystem is
    valid. *)
Definition root_node (offset : Z) : node := Node (Vnode 1 offset) true false.
Definition vfs_init (d : D) (buffer : bytes) (no_fs : fs D) : outcome (vfs D) :=
  let empty := replicate MAX_FILES (File None 0 0) in
  let slots r := Mount (bytes_of "/") r true :: replicate (MAX_MOUNTS - 1) (Mount [] None false) in
  match solixfs_init d buffer with
  | None => Ok (Vfs (slots None) empty [] no_fs)
  | Some f =>
    match new_vnode 0 with
    | None => Fault
    | Some o => Ok (Vfs (slots (Some 0%nat)) empty [root_node o] f)
    end
  end.

(** ** Paths *)

(** The mount with the longest mountpoint that is a prefix of the path. *)
Fixpoint find_mount (l : list mount) (path : bytes) (best : option mount) (best_len : nat) : option mount :=
  match l with
  | [] => best
  | m :: l =>
    let mp_len := length (mountpoint m) in
    if active m && bool_decide (take mp_len path = mountpoint m) && (best_len <? mp_len)%nat
    then find_mount l path (Some m) mp_len
    else find_mount l path best best_len
  end.

Fixpoint skip_slashes (p : bytes) : bytes :=
  match p with
  | c :: p' => if c =? SLASH then skip_slashes p' else p
  | [] => []
  end.

(** The component at the start of [p], at most [n] characters, and the rest. *)
Fixpoint component (n : nat) (p : bytes) : bytes * bytes :=
  match n, p with
  | S n, c :: p' =>
    if c =? SLASH then ([], p) else let '(w, r) := component n p' in (c :: w, r)
  | _, _ => ([], p)
  end.

(** The walk over the components.  Every round consumes a character, so the
    length of the path is enough fuel. *)
Fixpoint walk (fuel : nat) (cur : nat) (p : bytes) : cmd (vfs D) (option nat) := λ s,
  match p with
  | [] => Ok (Some cur, s)
  | _ =>
    match fuel with
    | O => Diverge
    | S fuel =>
      match skip_slashes p with
      | [] => Ok (Some cur, s)
      | p =>
        let '(name, p) := component 255 p in
        '(ino, f) ← find_in_dir (u32 (inode_num (vn (nodes s !!! cur)) - 1)) name (filesys s);
        let s := set_filesys f s in
        if ino =? 0 then Ok (None, s) else
        match new_vnode (length (nodes s)), inode_table f !! Z.to_nat (ino - 1) with
        | Some o, Some i =>
          let child := Node (Vnode ino o) (mode i =? FT_DIRECTORY) true in
          walk fuel (length (nodes s)) p (set_nodes (nodes s ++ [child]) s)
        | _, _ => Fault
        end
      end
    end
  end.

Definition resolve_absolute (path : bytes) : cmd (vfs D) (option nat) := λ s,
  match find_mount (mounts s) path None 0 with
  | None => Ok (None, s)
  | Some m =>
    match root m with
    | None => Ok (None, s)
    | Some cur => walk (length path) cur (drop (length (mountpoint m)) path) s
    end
  end.

(** [resolve_path]; a relative path is copied behind a slash into 512 bytes. *)
Definition resolve_path (path : bytes) : cmd (vfs D) (option nat) := λ s,
  if bool_decide (head path = Some SLASH) then resolve_absolute path s
  else if (512 <? length path + 2)%nat then Fault
  else resolve_absolute (SLASH :: path) s.

(** The inode of a vnode. *)
Definition inode_index (n : nat) (s : vfs D) : nat := Z.to_nat (inode_num (vn (nodes s !!! n)) - 1).
Definition inode_of (n : nat) (s : vfs D) : inode := inode_table (filesys s) !!! inode_index n s.

(** ** Descriptors *)
Fixpoint free_fd (i : nat) (t : list file) : option nat :=
  match t with
  | [] => None
  | e :: t => if bool_decide (fvnode e = None) then Some i else free_fd (S i) t
  end.

(** A result of -1 is [None]. *)
Definition vfs_open (pathname : bytes) (fl : Z) : cmd (vfs D) (option nat) := λ s,
  match free_fd 0 (file_table s) with
  | None => Ok (None, s)
  | Some fd =>
    '(r, s) ← resolve_path pathname s;
    match r with
    | None => Ok (None, s)
    | Some n =>
      let s := set_file_table (<[fd := File (Some n) fl 1]> (file_table s)) s in
      let s :=
        if negb (Z.land fl O_TRUNC =? 0) && (mode (inode_of n s) =? FT_REGULAR)
        then set_filesys (set_inode_table
               (<[inode_index n s := set_isize 0 (inode_of n s)]> (inode_table (filesys s))) (filesys s)) s
        else s in
      Ok (Some fd, s)
    end
  end.

(** The vnode and flags of a descriptor in use. *)
Definition lookup_fd (fd : Z) (s : vfs D) : option (nat * file) :=
  if (fd <? 0) || (256 <=? fd) then None else
  let e := file_table s !!! Z.to_nat fd in
  match fvnode e with
  | None => None
  | Some n => Some (n, e)
  end.

Definition vfs_close (fd : Z) (s : vfs D) : option unit * vfs D :=
  match lookup_fd fd s with
  | None => (None, s)
  | Some (n, e) =>
    let rc := u32 (ref_count e - 1) in
    let e := File (if rc =? 0 then None else fvnode e) (flags e) rc in
    (Some (), set_file_table (<[Z.to_nat fd := e]> (file_table s)) s)
  end.

(** The vnode of an object after an operation on it. *)
Definition set_vn (n : nat) (v : vnode) (s : vfs D) : vfs D :=
  let o := nodes s !!! n in set_nodes (<[n := Node v (dir_node o) (private_data o)]> (nodes s)) s.

(** [ops->read], [ops->write] and [ops->seek] on the private data, through NULL
    in the root. *)
Definition ops_read (n : nat) (count : Z) : cmd (vfs D) (option bytes) := λ s,
  let o := nodes s !!! n in
  if negb (private_data o) then Fault else
  if dir_node o then
    let '(r, v, f) := dir_read (vn o) count (filesys s) in
    Ok (r, set_vn n v (set_filesys f s))
  else
    match file_read (vn o) count (filesys s) with
    | None => Diverge
    | Some (data, v, f) => Ok (Some data, set_vn n v (set_filesys f s))
    end.

Definition ops_write (n : nat) (buf : bytes) : cmd (vfs D) (option Z) := λ s,
  let o := nodes s !!! n in
  if dir_node o then
    let '(r, v, f) := dir_write (vn o) buf (filesys s) in Ok (r, s)
  else if negb (private_data o) then Fault else
    match file_write (vn o) buf (filesys s) with
    | None => Diverge
    | Some (w, v, f) => Ok (Some w, set_vn n v (set_filesys f s))
    end.

Definition vfs_read (fd count : Z) : cmd (vfs D) (option bytes) := λ s,
  match lookup_fd fd s with
  | None => Ok (None, s)
  | Some (n, e) =>
    if (Z.land (flags e) O_RDONLY =? 0) && (Z.land (flags e) O_RDWR =? 0) then Ok (None, s)
    else ops_read n count s
  end.

Definition vfs_write (fd : Z) (buf : bytes) : cmd (vfs D) (option Z) := λ s,
  match lookup_fd fd s with
  | None => Ok (None, s)
  | Some (n, e) =>
    if (Z.land (flags e) O_WRONLY =? 0) && (Z.land (flags e) O_RDWR =? 0) then Ok (None, s)
    else ops_write n buf s
  end.

(** An unknown origin is refused before the vnode is read. *)
Definition vfs_seek (fd off whence : Z) : cmd (vfs D) Z := λ s,
  match lookup_fd fd s with
  | None => Ok (-1, s)
  | Some (n, e) =>
    let o := nodes s !!! n in
    if negb (private_data o) && (0 <=? whence) && (whence <=? 2) then Fault else
    let '(r, v) := file_seek (vn o) off whence (filesys s) in
    Ok (r, set_vn n v s)
  end.

(** Neither operations structure has an [ioctl]: the call is refused. *)
Definition vfs_ioctl (fd request arg : Z) (s : vfs D) : Z := -1.

(** ** Directories *)

(** The last slash of a path: what is before and after it. *)
Fixpoint split_last (p : bytes) : option (bytes * bytes) :=
  match p with
  | [] => None
  | c :: p =>
    match split_last p with
    | Some (a, b) => Some (c :: a, b)
    | None => if c =? SLASH then Some ([], p) else None
    end
  end.

Definition dir_mode : Z := Z.lor FT_DIRECTORY (Z.lor PERM_READ (Z.lor PERM_WRITE PERM_EXEC)).

(** The block written for a new directory: two entries on the stack, and the
    stack behind them. *)
Definition dot_entries (stack : bytes) (self parent : Z) : bytes :=
  splice 264 (bytes_of ".." ++ [0]) (splice 260 (put_u32 parent)
    (splice 4 (bytes_of "." ++ [0]) (splice 0 (put_u32 self) stack))).

(** The first free entry of a directory block. *)
Fixpoint free_entry (n j : nat) (d : bytes) : option nat :=
  match n with
  | O => None
  | S n => if entry_inode (entry_at d j) =? 0 then Some j else free_entry n (S j) d
  end.

(** The parent's block, in the disk buffer, with the new entry. *)
Definition link_entry (ino : Z) (name : bytes) (d : bytes) : option bytes :=
  j ← free_entry ENTRY_COUNT 0 d;
  Some (splice (260 * j + 4) (name ++ [0]) (splice (260 * j) (put_u32 ino) d)).

(** The new entry in the parent's block [b], if it has a free one. *)
Definition link_parent (f : fs D) (b ino : Z) (name : bytes) : fs D :=
  let f := read_block b f in
  match link_entry ino name (disk_buffer f) with
  | Some d => write_block b (set_disk_buffer d f)
  | None => f
  end.

(** The inode of a new directory; its other block pointers are left as they
    are. *)
Definition init_dir_inode (ticks : Z) (i : inode) : inode :=
  Inode dir_mode 0 0 SOLIXFS_BLOCK_SIZE ticks ticks ticks 2 1 (direct i) (indirect i) (double_indirect i).
Definition set_direct (k : nat) (b : Z) (i : inode) : inode :=
  Inode (mode i) (uid i) (gid i) (isize i) (atime i) (mtime i) (ctime i) (links i) (blocks i)
        (<[k := b]> (direct i)) (indirect i) (double_indirect i).

(** [vfs_mkdir] once the parent is resolved. *)
Definition make_dir (parent : nat) (dir_name : bytes) (ticks : Z) (stack : bytes) (s : vfs D)
  : outcome (Z * fs D) :=
  let f := filesys s in
  let '(new_inode, f) := alloc_inode f in
  if new_inode =? 0 then Ok (-1, f) else
  let i := Z.to_nat (new_inode - 1) in
  match inode_table f !! i with
  | None => Fault
  | Some old =>
    let f := set_inode_table (<[i := init_dir_inode ticks old]> (inode_table f)) f in
    let '(block, f) := alloc_block f in
    if block =? 0 then Ok (-1, free_inode new_inode f) else
    let f := set_inode_table (alter (set_direct 0 block) i (inode_table f)) f in
    let f := write_block_from block (dot_entries stack new_inode (inode_num (vn (nodes s !!! parent)))) f in
    let b := direct (inode_table f !!! inode_index parent s) !!! 0%nat in
    Ok (0, link_parent f b new_inode dir_name)
  end.

(** [vfs_mkdir]: the parent's path and the name are copied into 512 and 256
    bytes. *)
Definition vfs_mkdir (pathname : bytes) (ticks : Z) (stack : bytes) : cmd (vfs D) Z := λ s,
  match split_last pathname with
  | None => Ok (-1, s)
  | Some (parent_path, dir_name) =>
    if (512 <=? length parent_path)%nat || (256 <=? length dir_name)%nat then Fault else
    '(r, s) ← resolve_path parent_path s;
    match r with
    | None => Ok (-1, s)
    | Some parent =>
      if negb (mode (inode_of parent s) =? FT_DIRECTORY) then Ok (-1, s) else
      '(r, f) ← make_dir parent dir_name ticks stack s;
      Ok (r, set_filesys f s)
    end
  end.

(** [vfs_readdir]: the entries; they are read from the vnode's offset on. *)
Definition vfs_readdir (pathname : bytes) (count : Z) : cmd (vfs D) (option bytes) := λ s,
  '(r, s) ← resolve_path pathname s;
  match r with
  | None => Ok (None, s)
  | Some n =>
    if negb (mode (inode_of n s) =? FT_DIRECTORY) then Ok (None, s) else
    let '(r, v, f) := dir_read (vn (nodes s !!! n)) (u32 (count * SOLIXFS_DIR_ENTRY_SIZE)) (filesys s) in
    Ok (r, set_vn n v (set_filesys f s))
  end.

Definition vfs_stat (pathname : bytes) : cmd (vfs D) (option inode) := λ s,
  '(r, s) ← resolve_path pathname s;
  match r with
  | None => Ok (None, s)
  | Some n => Ok (Some (inode_of n s), s)
  end.
End vfs.
