(* ===== verification/VfsSpec.v ===== *)
(** * Correctness of the virtual filesystem (src/fs/vfs.c)

    Which paths resolve, the table of descriptors, and what creating a directory
    leaves on the disk. *)
From S2P Require Import Prelude Screen Solixfs SolixfsSpec Vfs.

Section spec.
Context {D : Type} `{!Disk D} `{!DiskLaws D} (new_vnode : nat → option Z).
Implicit Types (s : vfs D) (f : fs D).

(** ** Paths *)

(** The state [vfs_init] leaves: one mount, its root is inode 1. *)
Record mounted s (r : nat) : Prop := {
  mt_mounts : mounts s = Mount (bytes_of "/") (Some r) true :: replicate 15 (Mount [] None false);
  mt_root : inode_num (vn (nodes s !!! r)) = 1;
  mt_table : Z.of_nat (length (inode_table (filesys s))) < 4294967295;
}.

Lemma find_mount_inactive n path best len :
  find_mount (replicate n (Mount [] None false)) path best len = best.
Proof. induction n; [done | simpl; by rewrite IHn]. Qed.

Lemma resolve_absolute_root s r p :
  mounted s r →
  resolve_absolute new_vnode (SLASH :: p) s = walk new_vnode (S (length p)) r p s.
Proof.
  intros [Hm _ _]. unfold resolve_absolute. rewrite Hm. unfold find_mount at 1.
  fold find_mount. cbn [mountpoint active]. change (length (bytes_of "/")) with 1%nat.
  change (take 1 (SLASH :: p)) with (bytes_of "/"). rewrite bool_decide_eq_true_2 by done.
  cbn [andb Nat.ltb Nat.leb]. rewrite find_mount_inactive. done.
Qed.

(** A path of slashes only. *)
Definition slashes (p : bytes) : Prop := Forall (λ c, c = SLASH) p.
#[export] Instance slashes_dec p : Decision (slashes p) := _.

Lemma skip_slashes_nil p : slashes p ↔ skip_slashes p = [].
Proof.
  split.
  - induction 1 as [|c p -> _ IH]; [done |]. simpl. exact IH.
  - induction p as [|c p IH]; [constructor |]. simpl.
    destruct (Z.eqb_spec c SLASH); [intros H; constructor; [done | by apply IH] | done].
Qed.

Lemma walk_root s r fuel p :
  mounted s r → (length p <= fuel)%nat →
  walk new_vnode fuel r p s = if decide (slashes p) then Ok (Some r, s) else Fault.
Proof.
  intros [_ Hr Ht] Hfuel. destruct p as [|c p0] eqn:Ep.
  { destruct fuel; simpl; (destruct (decide (slashes [])) as [_|Hn]; [done | destruct Hn; constructor]). }
  rewrite <- Ep in *. destruct fuel as [|fuel]; [rewrite Ep in Hfuel; simpl in Hfuel; lia |].
  assert (Hw : walk new_vnode (S fuel) r p s =
    match skip_slashes p with [] => Ok (Some r, s) | _ => Fault end).
  { rewrite Ep. unfold walk. fold walk. rewrite <- Ep.
    destruct (skip_slashes p) as [|c' p']; [done |]. destruct (component 255 (c' :: p')) as [name rest].
    rewrite Hr. unfold find_in_dir. change (u32 (u32 (1 - 1) - 1)) with 4294967295.
    rewrite lookup_ge_None_2 by lia. done. }
  rewrite Hw. destruct (decide (slashes p)) as [Hs|Hs]; rewrite skip_slashes_nil in Hs.
  - by rewrite Hs.
  - by destruct (skip_slashes p).
Qed.

Lemma resolve_path_root s r path :
  mounted s r → (length path <= 510)%nat →
  resolve_path new_vnode path s = if decide (slashes path) then Ok (Some r, s) else Fault.
Proof.
  intros Hm Hlen. unfold resolve_path. case_bool_decide as Hc.
  - destruct path as [|c p]; [done |]. simpl in Hc. simplify_eq.
    rewrite (resolve_absolute_root _ r) by done. rewrite walk_root by (done || lia).
    destruct (decide (slashes p)) as [H1|H1], (decide (slashes (SLASH :: p))) as [H2|H2]; try done.
    + destruct H2. by constructor.
    + destruct H1. by inversion H2.
  - destruct (Nat.ltb_spec 512 (length path + 2)); [lia |].
    rewrite (resolve_absolute_root _ r) by done. by rewrite walk_root by (done || lia).
Qed.

(** After [vfs_init] only the root itself can be named: a path of slashes
    resolves to the root, and every path with a component reads the inode table
    before its beginning, because [find_in_dir] subtracts one from an inode
    number that [resolve_path] has already reduced. *)
Theorem resolve_path_only_root s r path :
  mounted s r → (length path <= 510)%nat →
  resolve_path new_vnode path s = if decide (slashes path) then Ok (Some r, s) else Fault.
Proof. apply resolve_path_root. Qed.

(** ** Descriptors *)
Lemma free_fd_spec t : ∀ i,
  match free_fd i t with
  | Some fd => ∃ k, fd = (i + k)%nat ∧ (k < length t)%nat ∧ fvnode (t !!! k) = None ∧
      ∀ j, (j < k)%nat → fvnode (t !!! j) ≠ None
  | None => ∀ j, (j < length t)%nat → fvnode (t !!! j) ≠ None
  end.
Proof.
  induction t as [|e t IH]; intros i; simpl; [lia |]. case_bool_decide as He.
  - exists 0%nat. split_and!; [lia | lia | done | lia].
  - specialize (IH (S i)). destruct (free_fd (S i) t) as [fd|].
    + destruct IH as (k & -> & Hk & Hn & Hall). exists (S k).
      split_and!; [lia | lia | done |]. intros [|j] Hj; [done | apply Hall; lia].
    + intros [|j] Hj; [done | apply IH; lia].
Qed.

(** Resolving a path does not touch the descriptors. *)
Lemma walk_files : ∀ fuel cur p s r s',
  walk new_vnode fuel cur p s = Ok (r, s') → file_table s' = file_table s.
Proof.
  induction fuel as [|fuel IH]; intros cur p s r s' H; [destruct p; by simplify_eq/= |].
  destruct p as [|c p]; [by simplify_eq/= |].
  unfold walk in H. fold walk in H. destruct (skip_slashes (c :: p)) as [|c' p']; [by simplify_eq/= |].
  destruct (component 255 (c' :: p')) as [name rest].
  destruct (find_in_dir _ name (filesys s)) as [[ino f]| | |]; simpl in H; try done.
  destruct (ino =? 0); [by simplify_eq/= |].
  destruct (new_vnode (length (nodes s))) as [o|]; [| done].
  destruct (inode_table f !! Z.to_nat (ino - 1)) as [i|]; [| done].
  by apply IH in H.
Qed.

Lemma resolve_path_files path s r s' :
  resolve_path new_vnode path s = Ok (r, s') → file_table s' = file_table s.
Proof.
  unfold resolve_path, resolve_absolute. intros H.
  repeat match type of H with
  | (if ?b then _ else _) = _ => destruct b
  | match ?x with _ => _ end = _ => destruct x
  end; first [by simplify_eq | by eapply walk_files].
Qed.

Lemma lookup_fd_in_range s i :
  0 <= i < 256 → lookup_fd i s = (n ← fvnode (file_table s !!! Z.to_nat i);
                                  Some (n, file_table s !!! Z.to_nat i)).
Proof.
  intros Hi. unfold lookup_fd. case Z.ltb_spec; [lia |]. case Z.leb_spec; [lia |]. intros _ _. simpl.
  by destruct (fvnode _).
Qed.

(** A table that differs in one entry. *)
Lemma lookup_fd_table s s' k e i :
  length (file_table s) = 256%nat → (k < 256)%nat → file_table s' = <[k := e]> (file_table s) →
  lookup_fd i s' = if i =? Z.of_nat k then (n ← fvnode e; Some (n, e)) else lookup_fd i s.
Proof.
  intros Hlen Hk Ht. destruct (Z.eqb_spec i (Z.of_nat k)) as [->|Hne].
  - rewrite lookup_fd_in_range, Ht, Nat2Z.id, list_lookup_total_insert_eq by lia. done.
  - unfold lookup_fd. case Z.ltb_spec; [done |]. case Z.leb_spec; [done |]. intros H1 H2. simpl.
    by rewrite Ht, list_lookup_total_insert_ne by lia.
Qed.

(** C24. [vfs_open] hands out the lowest free descriptor for the vnode the path
    resolves to and [vfs_close] releases it: no other descriptor is affected by
    either, a second close is refused, and opening fails only when the path does
    not resolve or all descriptors are in use. *)
Theorem vfs_open_close s path fl r s1 :
  length (file_table s) = 256%nat → resolve_path new_vnode path s = Ok (r, s1) →
  match vfs_open new_vnode path fl s with
  | Ok (Some fd, s') => ∃ n, r = Some n ∧
      lookup_fd (Z.of_nat fd) s = None ∧ (∀ i, 0 <= i < Z.of_nat fd → lookup_fd i s ≠ None) ∧
      lookup_fd (Z.of_nat fd) s' = Some (n, File (Some n) fl 1) ∧
      (∀ i, i ≠ Z.of_nat fd → lookup_fd i s' = lookup_fd i s) ∧
      ∃ s'', vfs_close (Z.of_nat fd) s' = (Some (), s'') ∧ (∀ i, lookup_fd i s'' = lookup_fd i s) ∧
        vfs_close (Z.of_nat fd) s'' = (None, s'')
  | Ok (None, s') => r = None ∨ ∀ i, 0 <= i < 256 → lookup_fd i s ≠ None
  | _ => False
  end.
Proof.
  intros Hlen Hres. pose proof (resolve_path_files _ _ _ _ Hres) as Hft.
  unfold vfs_open. pose proof (free_fd_spec (file_table s) 0) as Hfd.
  destruct (free_fd 0 (file_table s)) as [fd|].
  2:{ right. intros i Hi. rewrite lookup_fd_in_range by lia.
      pose proof (Hfd (Z.to_nat i) ltac:(lia)). by destruct (fvnode (file_table s !!! Z.to_nat i)). }
  destruct Hfd as (k & -> & Hk & Hfree & Hused). rewrite Nat.add_0_l. rewrite Hres.
  change (mbind ?g (Ok ?x)) with (g x). cbv beta iota.
  destruct r as [n|]; [| by left].
  set (e := File (Some n) fl 1). set (s2 := set_file_table (<[k := e]> (file_table s1)) s1).
  set (s3 := if _ && _ then _ else s2).
  assert (H3 : file_table s3 = <[k := e]> (file_table s)).
  { unfold s3. rewrite <- Hft. by destruct (_ && _). }
  assert (L3 : ∀ i, lookup_fd i s3 = if i =? Z.of_nat k then Some (n, e) else lookup_fd i s)
    by (intros i; by rewrite (lookup_fd_table s s3 k e) by (done || lia)).
  assert (Hnone : lookup_fd (Z.of_nat k) s = None).
  { rewrite lookup_fd_in_range by lia. by rewrite Nat2Z.id, Hfree. }
  exists n. split; [done |]. split; [done |]. split.
  { intros i Hi. rewrite lookup_fd_in_range by lia.
    pose proof (Hused (Z.to_nat i) ltac:(lia)). by destruct (fvnode (file_table s !!! Z.to_nat i)). }
  split; [by rewrite L3, Z.eqb_refl |]. split.
  { intros i Hi. rewrite L3. by destruct (Z.eqb_spec i (Z.of_nat k)). }
  unfold vfs_close at 1. rewrite L3, Z.eqb_refl. simpl. eexists. split; [done |].
  set (s4 := set_file_table _ _).
  assert (L4 : ∀ i, lookup_fd i s4 = lookup_fd i s).
  { intros i. rewrite (lookup_fd_table s s4 k (File None fl 0)); [| lia | lia |].
    - simpl. by destruct (Z.eqb_spec i (Z.of_nat k)) as [->|].
    - unfold s4. simpl. by rewrite Nat2Z.id, H3, list_insert_insert_eq. }
  split; [exact L4 |]. unfold vfs_close. by rewrite L4, Hnone.
Qed.

(** A descriptor opened for reading only cannot be read: [O_RDONLY] is 0, so
    the test of that flag never succeeds, and reading is possible only through a
    descriptor with the [O_RDWR] bit. *)
Theorem vfs_read_rdonly_refused s fd n e count :
  lookup_fd fd s = Some (n, e) → Z.land (flags e) O_RDWR = 0 →
  vfs_read fd count s = Ok (None, s).
Proof.
  intros Hl Hf. unfold vfs_read. rewrite Hl, Hf. unfold O_RDONLY. by rewrite Z.land_0_r.
Qed.
End spec.
