(* ===== verification/VfsMkdir.v ===== *)
(** * Creating a directory (src/fs/vfs.c, [vfs_mkdir])

    What [vfs_mkdir] leaves in the parent's block, and that the new inode is not
    recognised as a directory. *)
From S2P Require Import Prelude Screen Solixfs SolixfsSpec Vfs VfsSpec.

(** ** Entries of a directory block *)
Lemma nth_entry d j i : (i < 260)%nat → nth i (entry_at d j) 0 = nth (260 * j + i) d 0.
Proof.
  intros Hi. unfold entry_at. rewrite nth_firstn, nth_skipn. by destruct (Nat.ltb_spec i 260); [| lia].
Qed.

Lemma entry_at_ext d d' j :
  length d = length d' → (∀ i, (i < 260)%nat → nth (260 * j + i) d 0 = nth (260 * j + i) d' 0) →
  entry_at d j = entry_at d' j.
Proof.
  intros Hlen Hn. apply (nth_ext _ _ 0 0).
  - unfold entry_at. rewrite !length_take, !length_drop. lia.
  - intros i Hi. unfold entry_at in Hi. rewrite length_take in Hi. rewrite !nth_entry by lia. apply Hn. lia.
Qed.

Lemma free_entry_spec d n : ∀ j k,
  free_entry n j d = Some k → (j <= k < j + n)%nat ∧ entry_inode (entry_at d k) = 0.
Proof.
  induction n as [|n IH]; intros j k; simpl; [done |]. case Z.eqb_spec; intros He Hk.
  - simplify_eq. split; [lia | done].
  - apply IH in Hk. destruct Hk. split; [lia | done].
Qed.

Lemma c_string_app name rest : Forall (λ c, c ≠ 0) name → c_string (name ++ 0 :: rest) = name.
Proof. induction 1 as [|c name Hc _ IH]; simpl; [done |]. case Z.eqb_spec; [done |]. by rewrite IH. Qed.

Lemma get_put_u32 x : is_u32 x → get_u32 (put_u32 x) 0 = x.
Proof. unfold is_u32, get_u32, put_u32. simpl. lia. Qed.

(** The search of a block in which the free entry [j] was filled in. *)
Lemma find_entry_filled d d' j ino name nm :
  entry_inode (entry_at d j) = 0 → entry_inode (entry_at d' j) = ino → ino ≠ 0 →
  entry_name (entry_at d' j) = name →
  ∀ n k,
  (∀ i, (k <= i < k + n)%nat → i ≠ j → entry_at d' i = entry_at d i) →
  find_entry n k d name = None →
  find_entry n k d' nm =
  if decide (nm = name ∧ (k <= j < k + n)%nat) then Some ino else find_entry n k d nm.
Proof.
  intros H0 Hino Hne Hname. induction n as [|n IH]; intros k Hsame Hnone.
  { simpl. destruct (decide _) as [[_ ?]|]; [lia | done]. }
  assert (Hrest : find_entry n (S k) d name = None).
  { simpl in Hnone. by destruct (negb _ && _). }
  specialize (IH (S k) (λ i Hi Hij, Hsame i ltac:(lia) Hij) Hrest). simpl. rewrite IH.
  destruct (Nat.eq_dec k j) as [->|Hkj].
  - rewrite Hino, H0, Hname. case Z.eqb_spec; [done |]. intros _. simpl.
    case_bool_decide as Hn; [subst nm |].
    + by rewrite decide_True by (split; [done | lia]).
    + destruct (decide (nm = name ∧ _)) as [[? _]|_]; [congruence |].
      by destruct (decide (nm = name ∧ _)) as [[? _]|_]; [congruence |].
  - rewrite Hsame by lia. destruct (negb _ && _) eqn:Eb.
    + destruct (decide (nm = name ∧ (k <= j < k + S n)%nat)) as [[-> _]|_]; [| done].
      exfalso. simpl in Hnone. by rewrite Eb in Hnone.
    + destruct (decide (nm = name ∧ (S k <= j < S k + n)%nat)) as [[? ?]|Hd];
        destruct (decide (nm = name ∧ (k <= j < k + S n)%nat)) as [[? ?]|Hd']; try done.
      * destruct Hd'. split; [done | lia].
      * destruct Hd. split; [done | lia].
Qed.

(** The entry [j] of a block into which an inode number and a name are written. *)
Definition filled (j : nat) (ino : Z) (name d : bytes) : bytes :=
  splice (260 * j + 4) (name ++ [0]) (splice (260 * j) (put_u32 ino) d).

Section filled.
Context (j : nat) (ino : Z) (name d : bytes).
Context (Hlen : length d = BLOCK) (Hj : (j < 15)%nat) (Hl : (length name < 256)%nat).

Lemma length_filled : length (filled j ino name d) = BLOCK.
Proof.
  unfold filled. change BLOCK with 4096%nat in *.
  rewrite !length_splice, length_app; rewrite ?length_splice; simpl length; lia.
Qed.

Lemma nth_filled i :
  nth i (filled j ino name d) 0 =
  if ((260 * j + 4 <=? i) && (i <? 260 * j + 5 + length name))%nat then nth (i - (260 * j + 4)) (name ++ [0]) 0
  else if ((260 * j <=? i) && (i <? 260 * j + 4))%nat then nth (i - 260 * j) (put_u32 ino) 0
  else nth i d 0.
Proof.
  unfold filled. change BLOCK with 4096%nat in *.
  rewrite !nth_splice by (rewrite ?length_splice; simpl length; lia).
  rewrite length_app. change (length (put_u32 ino)) with 4%nat. change (length [0]) with 1%nat.
  by replace (260 * j + 4 + (length name + 1))%nat with (260 * j + 5 + length name)%nat by lia.
Qed.

Lemma entry_inode_filled : is_u32 ino → entry_inode (entry_at (filled j ino name d) j) = ino.
Proof.
  intros Hino. transitivity (get_u32 (put_u32 ino) 0); [| by apply get_put_u32].
  assert (Hnth : ∀ i, (i < 4)%nat → nth i (entry_at (filled j ino name d) j) 0 = nth i (put_u32 ino) 0).
  { intros i Hi. rewrite nth_entry, nth_filled by lia.
    destruct (Nat.leb_spec (260 * j + 4) (260 * j + i)); [lia |].
    destruct (Nat.leb_spec (260 * j) (260 * j + i)); [| lia].
    destruct (Nat.ltb_spec (260 * j + i) (260 * j + 4)); [| lia]. simpl andb. cbv iota. f_equal. lia. }
  unfold entry_inode, get_u32. by rewrite !Hnth by lia.
Qed.

Lemma entry_name_filled :
  Forall (λ c, c ≠ 0) name → entry_name (entry_at (filled j ino name d) j) = name.
Proof.
  intros Hname. unfold entry_name, entry_at, filled. change BLOCK with 4096%nat in *.
  rewrite skipn_firstn_comm, drop_drop. unfold splice at 1.
  rewrite drop_app_length' by (rewrite length_take, length_splice; simpl length; lia).
  rewrite <- app_assoc, take_app_ge by lia.
  destruct (256 - length name)%nat as [|k] eqn:Ek; [lia |].
  replace (260 - 4 - length name)%nat with (S k) by lia. by apply c_string_app.
Qed.

Lemma entry_at_filled i : i ≠ j → entry_at (filled j ino name d) i = entry_at d i.
Proof.
  intros Hij. apply entry_at_ext; [by rewrite length_filled |]. intros n Hn. rewrite nth_filled.
  assert (∀ a b, (260 * j <= a)%nat → (b <= 260 * j + 260)%nat →
    ((a <=? 260 * i + n) && (260 * i + n <? b))%nat = false) as Hf.
  { intros a b Ha Hb. destruct (Nat.leb_spec a (260 * i + n)), (Nat.ltb_spec (260 * i + n) b); try done; lia. }
  by rewrite !Hf by lia.
Qed.
End filled.

(** What [link_entry] writes. *)
Lemma link_entry_spec ino name d d' :
  length d = BLOCK → is_u32 ino → ino ≠ 0 → Forall (λ c, c ≠ 0) name → (length name < 256)%nat →
  link_entry ino name d = Some d' →
  length d' = BLOCK ∧
  (find_entry ENTRY_COUNT 0 d name = None → ∀ nm,
    find_entry ENTRY_COUNT 0 d' nm = if decide (nm = name) then Some ino else find_entry ENTRY_COUNT 0 d nm).
Proof.
  intros Hlen Hino Hne Hname Hl Hlink. unfold link_entry in Hlink.
  destruct (free_entry ENTRY_COUNT 0 d) as [j|] eqn:Ej; [| done]. cbn in Hlink. injection Hlink as <-.
  apply free_entry_spec in Ej. destruct Ej as [Hj H0]. change ENTRY_COUNT with 15%nat in *.
  change (splice _ _ _) with (filled j ino name d).
  split; [apply length_filled; (done || lia) |]. intros Hnone nm.
  rewrite (find_entry_filled d (filled j ino name d) j ino name nm H0); try done.
  - destruct (decide (nm = name)) as [->|]; [by rewrite decide_True by (split; [done | lia]) |].
    by rewrite decide_False by tauto.
  - apply entry_inode_filled; done || lia.
  - apply entry_name_filled; done || lia.
  - intros i _ Hij. apply entry_at_filled; done || lia.
Qed.

Section mkdir.
Context {D : Type} `{!Disk D} `{!DiskLaws D} (new_vnode : nat → option Z).
Implicit Types (s : vfs D) (f : fs D).

(** The inode bitmap covers the inode table; inode 1, the root, is in use. *)
Record inodes_ok f : Prop := {
  ik_count : 0 < inode_count (sb f) <= 8 * Z.of_nat (length (inode_bitmap f));
  ik_table : Z.of_nat (length (inode_table f)) = inode_count (sb f);
  ik_bound : inode_count (sb f) < 4294967295;
  ik_root : bit_clear (inode_bitmap f) 0 = false;
}.

(** The root is a directory with one block, marked in the bitmap. *)
Definition root_block f : Z := direct (inode_table f !!! 0%nat) !!! 0%nat.
Record root_ok f : Prop := {
  rk_mode : mode (inode_table f !!! 0%nat) = FT_DIRECTORY;
  rk_range : 0 <= root_block f < total_blocks (sb f);
  rk_used : bit_clear (block_bitmap f) (root_block f) = false;
}.

Definition no_inode f : Prop :=
  ∀ i, 0 <= i < inode_count (sb f) → bit_clear (inode_bitmap f) i = false.

Lemma alloc_inode_spec f :
  inodes_ok f →
  (∃ i, alloc_inode f = (i + 1, set_inodes (u32 (free_inodes (sb f) - 1)) (set_bit (inode_bitmap f) i) f) ∧
     0 < i < inode_count (sb f) ∧ bit_clear (inode_bitmap f) i = true) ∨
  (alloc_inode f = (0, f) ∧ no_inode f).
Proof.
  intros [Hc _ _ Hz]. unfold alloc_inode.
  pose proof (find_clear_spec (inode_bitmap f) (Z.to_nat (inode_count (sb f))) 0 ltac:(lia)) as Hs.
  destruct (find_clear _ 0 _) as [i|].
  - left. destruct Hs as (Hi & Hcl & _). exists i. split; [done |].
    assert (i ≠ 0) by congruence. split; [lia | done].
  - right. split; [done |]. intros i Hi. apply Hs. lia.
Qed.

(** A block written and read back; other blocks are kept. *)
Lemma write_from_bytes f b buffer x :
  fs_ok f → length buffer = BLOCK → 0 <= b < total_blocks (sb f) → 0 <= x < total_blocks (sb f) →
  block_bytes (write_block_from b buffer f) x = if x =? b then buffer else block_bytes f x.
Proof.
  intros Hfs Hlen Hb Hx. unfold block_bytes, write_block_from. simpl.
  change (block_address (set_disk _ f) x) with (block_address f x).
  destruct (Z.eqb_spec x b) as [->|Hne]; [by apply read_written |].
  apply read_other; [done |]. intros E. by apply (block_address_inj f) in E.
Qed.

Lemma length_dot_entries stack self parent :
  length stack = BLOCK → length (dot_entries stack self parent) = BLOCK.
Proof.
  intros Hs. unfold dot_entries. change BLOCK with 4096%nat in *.
  assert (H1 : length (splice 0 (put_u32 self) stack) = 4096%nat)
    by (rewrite length_splice; simpl length; lia).
  assert (H2 : length (splice 4 (bytes_of "." ++ [0]) (splice 0 (put_u32 self) stack)) = 4096%nat)
    by (rewrite length_splice; rewrite H1; simpl length; lia).
  assert (H3 : length (splice 260 (put_u32 parent) (splice 4 (bytes_of "." ++ [0])
    (splice 0 (put_u32 self) stack))) = 4096%nat) by (rewrite length_splice; rewrite H2; simpl length; lia).
  rewrite length_splice; rewrite H3; simpl length; lia.
Qed.

Lemma link_parent_spec f b ino name :
  fs_ok f → 0 <= b < total_blocks (sb f) → is_u32 ino → ino ≠ 0 →
  Forall (λ c, c ≠ 0) name → (length name < 256)%nat →
  find_entry ENTRY_COUNT 0 (block_bytes f b) name = None →
  let f' := link_parent f b ino name in
  inode_table f' = inode_table f ∧ inode_bitmap f' = inode_bitmap f ∧
  match free_entry ENTRY_COUNT 0 (block_bytes f b) with
  | Some _ => ∀ nm, find_entry ENTRY_COUNT 0 (block_bytes f' b) nm =
      if decide (nm = name) then Some ino else find_entry ENTRY_COUNT 0 (block_bytes f b) nm
  | None => block_bytes f' b = block_bytes f b
  end.
Proof.
  intros Hfs Hb Hino Hne Hname Hl Hnone. unfold link_parent.
  change (disk_buffer (read_block b f)) with (block_bytes f b).
  destruct (link_entry ino name (block_bytes f b)) as [d'|] eqn:Elink.
  - pose proof (link_entry_spec ino name _ _ (length_block_bytes f b) Hino Hne Hname Hl Elink) as [Hd Hfind].
    split; [done |]. split; [done |]. unfold link_entry in Elink.
    destruct (free_entry _ 0 _); [| done]. intros nm. rewrite <- Hfind by done. f_equal.
    unfold write_block. rewrite write_from_bytes by (try done; by destruct Hfs; split). by rewrite Z.eqb_refl.
  - split; [done |]. split; [done |]. unfold link_entry in Elink. by destruct (free_entry _ 0 _).
Qed.

(** The outcome of creating [name] in the root directory of [f]. *)
Definition mkdir_post f (name : bytes) (r : Z) f' : Prop :=
  (r = -1 ∧ (no_inode f ∨ disk_full f)) ∨
  (r = 0 ∧ ∃ ino, 1 < ino <= inode_count (sb f) ∧
    bit_clear (inode_bitmap f) (ino - 1) = true ∧ bit_clear (inode_bitmap f') (ino - 1) = false ∧
    match free_entry ENTRY_COUNT 0 (block_bytes f (root_block f)) with
    | Some _ => ∀ nm, find_entry ENTRY_COUNT 0 (block_bytes f' (root_block f)) nm =
        if decide (nm = name) then Some ino else find_entry ENTRY_COUNT 0 (block_bytes f (root_block f)) nm
    | None => block_bytes f' (root_block f) = block_bytes f (root_block f)
    end ∧
    ∀ nm, find_in_dir ino nm f' = Ok (0, f')).

(** The filesystem before the entry is made: inode [i] and block [b] are taken
    and the block holds the two first entries. *)
Definition dir_made f (i b ticks : Z) (entries : bytes) (old : inode) : fs D :=
  let f1 := set_inodes (u32 (free_inodes (sb f) - 1)) (set_bit (inode_bitmap f) i) f in
  let f2 := set_inode_table (<[Z.to_nat i := init_dir_inode ticks old]> (inode_table f1)) f1 in
  let f3 := set_blocks (u32 (free_blocks (sb f2) - 1)) (set_bit (block_bitmap f2) b) f2 in
  let f4 := set_inode_table (alter (set_direct 0 b) (Z.to_nat i) (inode_table f3)) f3 in
  write_block_from b entries f4.

Section made.
Context (f : fs D) (i b ticks : Z) (entries : bytes) (old : inode).
Context (Hfs : fs_ok f) (Hi : 0 < i) (Hb : 0 < b < total_blocks (sb f)) (He : length entries = BLOCK).
Let f' := dir_made f i b ticks entries old.

Lemma dir_made_ok : fs_ok f'.
Proof using Hb Hfs.
  destruct (alloc_fs_ok f b 0 Hfs Hb) as [A1 A2 A3 A4]. exact (Build_fs_ok f' A1 A2 A3 A4).
Qed.

Lemma dir_made_root : root_block f' = root_block f.
Proof using Hi.
  clear He Hb Hfs.
  unfold root_block, f', dir_made. simpl.
  rewrite list_lookup_total_alter_ne, list_lookup_total_insert_ne by lia. done.
Qed.

Lemma dir_made_inode :
  0 <= i < Z.of_nat (length (inode_table f)) →
  inode_table f' !! Z.to_nat i = Some (set_direct 0 b (init_dir_inode ticks old)).
Proof using.
  clear He Hb Hfs Hi. intros Hr. unfold f', dir_made. simpl. by rewrite list_lookup_alter_eq, list_lookup_insert_eq by lia.
Qed.

Lemma dir_made_bytes x :
  0 <= x < total_blocks (sb f) → x ≠ b → block_bytes f' x = block_bytes f x.
Proof using DiskLaws0 Hb He Hfs.
  clear Hi.
  intros Hx Hne. unfold f', dir_made. cbv zeta. rewrite write_from_bytes; [| | done | simpl; lia | done].
  - by destruct (Z.eqb_spec x b).
  - destruct (alloc_fs_ok f b 0 Hfs Hb) as [A1 A2 A3 A4]. by apply Build_fs_ok.
Qed.
End made.

Lemma make_dir_cases s r name ticks stack :
  mounted s r → fs_ok (filesys s) → inodes_ok (filesys s) →
  (∃ f', make_dir r name ticks stack s = Ok (-1, f') ∧ (no_inode (filesys s) ∨ disk_full (filesys s))) ∨
  (∃ i b old, 0 < i < inode_count (sb (filesys s)) ∧ bit_clear (inode_bitmap (filesys s)) i = true ∧
    0 < b < total_blocks (sb (filesys s)) ∧ bit_clear (block_bitmap (filesys s)) b = true ∧
    let f' := dir_made (filesys s) i b ticks (dot_entries stack (i + 1) 1) old in
    make_dir r name ticks stack s = Ok (0, link_parent f' (root_block f') (i + 1) name)).
Proof.
  intros [_ Hr _] Hfs Hik. unfold make_dir, inode_index. rewrite Hr. change (Z.to_nat (1 - 1)) with 0%nat.
  generalize (filesys s) Hfs Hik. clear. intros f Hfs Hik.
  destruct (alloc_inode_spec f Hik) as [(i & -> & Hi & Hic)|[-> Hno]].
  2:{ left. exists f. split; [done |]. auto. }
  destruct (Z.eqb_spec (i + 1) 0) as [|_]; [lia |]. replace (i + 1 - 1) with i by lia.
  cbn [inode_table set_inodes].
  destruct (inode_table f !! Z.to_nat i) as [old|] eqn:Eold;
    [| apply lookup_ge_None in Eold; destruct Hik; lia].
  set (f1 := set_inodes _ _ f). set (f2 := set_inode_table _ f1).
  assert (Hf2 : fs_ok f2) by (by destruct Hfs; split).
  destruct (alloc_block_spec f2 Hf2) as [(b & -> & Hb & Hbc)|[-> Hfull]].
  - destruct (Z.eqb_spec b 0) as [|_]; [lia |]. right. exists i, b, old. split; [lia |]. split; [exact Hic |]. split; [exact Hb |]. split; [exact Hbc |]. reflexivity.
  - left. eexists. split; [reflexivity |]. right. exact Hfull.
Qed.

Lemma make_dir_spec s r name ticks stack :
  mounted s r → fs_ok (filesys s) → inodes_ok (filesys s) → root_ok (filesys s) →
  length stack = BLOCK → Forall (λ c, c ≠ 0) name → (length name < 256)%nat →
  find_entry ENTRY_COUNT 0 (block_bytes (filesys s) (root_block (filesys s))) name = None →
  ∃ res f', make_dir r name ticks stack s = Ok (res, f') ∧ mkdir_post (filesys s) name res f'.
Proof.
  intros Hm Hfs Hik [_ Hb0 Hu0] Hst Hname Hl Hnone.
  destruct (make_dir_cases s r name ticks stack Hm Hfs Hik)
    as [(f' & E & Hno)|(i & b & old & Hi & Hic & Hb & Hbc & E)].
  { exists (-1), f'. split; [exact E |]. left. split; [reflexivity | exact Hno]. }
  cbv zeta in E. set (f := filesys s) in *.
  set (entries := dot_entries stack (i + 1) 1) in *.
  assert (He : length entries = BLOCK) by (by apply length_dot_entries).
  rewrite dir_made_root in E by lia.
  assert (Hne : root_block f ≠ b) by congruence.
  pose proof (dir_made_bytes f i b ticks entries old Hfs Hb He (root_block f) Hb0 Hne) as Hbytes.
  pose proof (dir_made_ok f i b ticks entries old Hfs Hb) as Hok.
  destruct Hik as [Hc Ht Hbd Hz].
  pose proof (dir_made_inode f i b ticks entries old ltac:(lia)) as Hino.
  assert (Hbit : bit_clear (inode_bitmap (dir_made f i b ticks entries old)) i = false).
  { unfold dir_made. simpl. rewrite bit_clear_set by lia. by rewrite Z.eqb_refl. }
  assert (Htot : total_blocks (sb (dir_made f i b ticks entries old)) = total_blocks (sb f)) by reflexivity.
  revert E Hbytes Hok Hino Hbit Htot. generalize (dir_made f i b ticks entries old). clear He entries.
  intros f1 E Hbytes Hok Hino Hbit Htot.
  destruct (link_parent_spec f1 (root_block f) (i + 1) name Hok) as (L1 & L2 & L3);
    [by rewrite Htot | unfold is_u32; lia | lia | done | done | by rewrite Hbytes |].
  rewrite Hbytes in L3. revert E L1 L2 L3. generalize (link_parent f1 (root_block f) (i + 1) name).
  intros f2 E L1 L2 L3. exists 0, f2. split; [exact E |]. right. split; [reflexivity |]. exists (i + 1).
  replace (i + 1 - 1) with i by lia. split_and!; [lia | lia | exact Hic | by rewrite L2 | exact L3 |].
  intros nm. unfold find_in_dir. rewrite L1, u32_small by (unfold is_u32; lia).
  replace (i + 1 - 1) with i by lia. by rewrite Hino.
Qed.

(** A name without slashes behind a slash. *)
Lemma split_last_root name :
  Forall (λ c, c ≠ SLASH) name → split_last (SLASH :: name) = Some ([], name).
Proof.
  intros Hn. assert (H : split_last name = None).
  { induction Hn as [|c n Hc _ IH]; simpl; [done |]. rewrite IH. by case Z.eqb_spec. }
  simpl. by rewrite H.
Qed.

(** [vfs_mkdir] of a new name in the root marks a free inode and a free
    block and links the name in the root's block, where a lookup then finds it
    while every other name is looked up as before; it fails only when no inode
    or no block is free.  If the block has no free entry it still succeeds and
    links nothing; and the new inode never works as a directory: its mode
    carries permission bits, so [find_in_dir] in it finds nothing, not even
    [.]. *)
Theorem vfs_mkdir_ok s r name ticks stack :
  mounted s r → fs_ok (filesys s) → inodes_ok (filesys s) → root_ok (filesys s) →
  length stack = BLOCK → Forall (λ c, c ≠ 0 ∧ c ≠ SLASH) name → (length name < 256)%nat →
  find_entry ENTRY_COUNT 0 (block_bytes (filesys s) (root_block (filesys s))) name = None →
  ∃ res s', vfs_mkdir new_vnode (SLASH :: name) ticks stack s = Ok (res, s') ∧
    mkdir_post (filesys s) name res (filesys s').
Proof.
  intros Hm Hfs Hik Hrk Hst Hname Hl Hnone. unfold vfs_mkdir.
  apply Forall_and in Hname as [Hname Hsl]. rewrite split_last_root by done.
  destruct (Nat.leb_spec 512 (length (@nil Z))) as [Hx|_]; [simpl in Hx; lia |].
  destruct (Nat.leb_spec 256 (length name)); [lia |]. cbn [orb].
  rewrite (resolve_path_root new_vnode s r []) by (done || (simpl; lia)).
  rewrite decide_True by constructor. change (mbind ?g (Ok ?x)) with (g x). cbv beta iota.
  unfold inode_of, inode_index. rewrite (mt_root _ _ Hm). change (Z.to_nat (1 - 1)) with 0%nat.
  rewrite (rk_mode _ Hrk), Z.eqb_refl. cbn [negb].
  destruct (make_dir_spec s r name ticks stack Hm Hfs Hik Hrk Hst Hname Hl Hnone) as (res & f' & -> & Hpost).
  by exists res, (set_filesys f' s).
Qed.
End mkdir.
