(* ===== verification/VfsWitness.v ===== *)
(** * A mounted filesystem on which the theorems on the virtual filesystem apply *)
From S2P Require Import Prelude Screen Solixfs SolixfsSpec SolixfsWitness Vfs VfsSpec VfsMkdir.

(** Two inodes, the first an empty root directory in block 1. *)
Definition root_inode : inode :=
  Inode FT_DIRECTORY 0 0 4096 0 0 0 2 1 (1 :: replicate 11 0) 0 0.
Definition dir_fs : fs ram_disk :=
  Fs (Superblock SOLIXFS_MAGIC 1 4096 16 14 2 1 1 10 1) [3; 0] [1] [root_inode; sample_inode]
     (replicate BLOCK 0) (λ _, 0).
Definition dir_vfs : vfs ram_disk :=
  Vfs (Mount (bytes_of "/") (Some 0%nat) true :: replicate 15 (Mount [] None false))
      (replicate 256 (File None 0 0)) [root_node 0] dir_fs.
Definition vnode_heap (n : nat) : option Z := Some 0.

Lemma dir_vfs_mounted : mounted dir_vfs 0.
Proof. split; [reflexivity | reflexivity | simpl; lia]. Qed.

Lemma dir_fs_ok : fs_ok dir_fs.
Proof. split; [apply length_replicate | simpl; lia | simpl; lia | reflexivity]. Qed.

Lemma dir_inodes_ok : inodes_ok dir_fs.
Proof. split; [simpl; lia | simpl; lia | simpl; lia | reflexivity]. Qed.

Lemma dir_root_ok : root_ok dir_fs.
Proof. split; [reflexivity | cbn; lia | reflexivity]. Qed.

Lemma dir_root_empty : find_entry ENTRY_COUNT 0 (block_bytes dir_fs (root_block dir_fs)) (bytes_of "d") = None.
Proof. vm_compute. reflexivity. Qed.

Lemma resolve_path_only_root_witness :
  resolve_path vnode_heap (bytes_of "//") dir_vfs = Ok (Some 0%nat, dir_vfs) ∧
  resolve_path vnode_heap (bytes_of "/etc/passwd") dir_vfs = Fault.
Proof.
  split.
  - rewrite (resolve_path_only_root vnode_heap dir_vfs 0 (bytes_of "//") dir_vfs_mounted) by (simpl; lia).
    reflexivity.
  - rewrite (resolve_path_only_root vnode_heap dir_vfs 0 (bytes_of "/etc/passwd") dir_vfs_mounted)
      by (simpl; lia). reflexivity.
Defined.

Lemma vfs_open_close_witness :
  match vfs_open vnode_heap (bytes_of "/") O_RDWR dir_vfs with
  | Ok (Some fd, s') => lookup_fd (Z.of_nat fd) s' = Some (0%nat, File (Some 0%nat) O_RDWR 1)
  | _ => True
  end.
Proof.
  pose proof (vfs_open_close vnode_heap dir_vfs (bytes_of "/") O_RDWR (Some 0%nat) dir_vfs
    (length_replicate 256 _) eq_refl) as H.
  destruct (vfs_open vnode_heap (bytes_of "/") O_RDWR dir_vfs) as [[[fd|] s']| | |]; try exact I.
  destruct H as (n & [= <-] & _ & _ & H & _). exact H.
Defined.

Definition rdonly_vfs : vfs ram_disk :=
  set_file_table (<[3%nat := File (Some 0%nat) O_RDONLY 1]> (file_table dir_vfs)) dir_vfs.

Lemma vfs_read_rdonly_refused_witness : vfs_read 3 100 rdonly_vfs = Ok (None, rdonly_vfs).
Proof.
  exact (vfs_read_rdonly_refused rdonly_vfs 3 0 (File (Some 0%nat) O_RDONLY 1) 100 eq_refl eq_refl).
Defined.

Lemma vfs_mkdir_ok_witness :
  ∃ res s', vfs_mkdir vnode_heap (SLASH :: bytes_of "d") 7 (replicate BLOCK 0) dir_vfs = Ok (res, s') ∧
    mkdir_post dir_fs (bytes_of "d") res (filesys s').
Proof.
  apply (vfs_mkdir_ok vnode_heap dir_vfs 0 (bytes_of "d") 7 (replicate BLOCK 0) dir_vfs_mounted
    dir_fs_ok dir_inodes_ok dir_root_ok (length_replicate _ _)).
  - repeat constructor; done.
  - simpl. lia.
  - exact dir_root_empty.
Defined.
