(* ===== verification/Printk.v ===== *)
(** * Kernel logging (src/kernel/printk.c)

    Number conversion, the formatter behind printk and snprintf, the log buffer,
    log levels and console drivers.  The console drivers' functions and
    [screen_putchar] are not part of the sources: what they are given is
    recorded. *)
From S2P Require Import Prelude Screen.

Definition LOG_BUF_LEN : Z := Z.shiftl 1 17.
Definition LOG_BUF_MASK : Z := LOG_BUF_LEN - 1.
Definition LOGLEVEL_EMERG : Z := 0.
Definition LOGLEVEL_INFO : Z := 6.
Definition LOGLEVEL_DEBUG : Z := 7.
Definition DEFAULT_MESSAGE_LOGLEVEL : Z := 5.
Definition CONSOLE_LOGLEVEL_DEFAULT : Z := LOGLEVEL_INFO.
Definition PRINTK_MAX_SINGLE_MESSAGE_LEN : Z := 1024.
Definition FINAL_BUF : Z := PRINTK_MAX_SINGLE_MESSAGE_LEN + 64.
Definition INT_MIN : Z := -2147483648.
Definition NEWLINE : Z := 10.
Definition PERCENT : Z := 37.

(** ** Numbers *)
Definition digit_char (digit : Z) : Z := if digit <? 10 then 48 + digit else 65 + digit - 10.

(** The digits of [value], the first one first: the loop writes them from the
    last one on and they are reversed after.  33 rounds are enough for 32 bits. *)
Fixpoint to_digits (fuel : nat) (value base : Z) (acc : bytes) : outcome bytes :=
  match fuel with
  | O => Diverge
  | S fuel =>
    let acc := digit_char (Z.rem value base) :: acc in
    if Z.quot value base =? 0 then Ok acc else to_digits fuel (Z.quot value base) base acc
  end.

Definition utoa (value base : Z) : outcome bytes :=
  if (base <? 2) || (36 <? base) then Ok [] else to_digits 33 value base [].

(** The negation of the smallest [int] overflows. *)
Definition itoa (value base : Z) : outcome bytes :=
  if (base <? 2) || (36 <? base) then Ok []
  else if (value <? 0) && (base =? 10) then
    if value =? INT_MIN then Fault else ds ← to_digits 33 (- value) base []; Ok (45 :: ds)
  else to_digits 33 value base [].

(** [width] hexadecimal digits, written from the last one on. *)
Fixpoint itohex (width : nat) (value : Z) (acc : bytes) : bytes :=
  match width with
  | O => acc
  | S width => itohex width (Z.shiftr value 4) (digit_char (Z.land value 15) :: acc)
  end.

(** ** The formatter *)

(** A variable argument: the 32 bits of a number or pointer, or a string. *)
Inductive arg := AInt (v : Z) | AStr (s : bytes) | ANullStr.

(** What the conversion [%c] produces and the arguments left.  An argument that
    is missing or of another kind is undefined. *)
Definition conversion (c : Z) (args : list arg) : outcome (bytes * list arg) :=
  let number (k : Z → outcome bytes) :=
    match args with
    | AInt v :: args => s ← k v; Ok (s, args)
    | _ => Fault
    end in
  if (c =? 100) || (c =? 105) then number (λ v, itoa (s32 v) 10)
  else if c =? 117 then number (λ v, utoa (u32 v) 10)
  else if (c =? 120) || (c =? 88) then number (λ v, Ok (itohex 8 (u32 v) []))
  else if c =? 99 then number (λ v, Ok [u8 v])
  else if c =? 115 then
    match args with
    | AStr s :: args => Ok (s, args)
    | ANullStr :: args => Ok (bytes_of "(null)", args)
    | _ => Fault
    end
  else if c =? 112 then number (λ v, Ok (bytes_of "0x" ++ itohex 8 (u32 v) []))
  else if c =? PERCENT then Ok ([PERCENT], args)
  else Ok ([c], args).

(** The loop of [vsnprintf_internal]: [out] is what is in the buffer, [limit] is
    [(int)size - 1].  A lone [%] at the end makes it read past the terminator. *)
Fixpoint vsnprintf_loop (limit : Z) (fmt : bytes) (args : list arg) (out : bytes) : outcome bytes :=
  match fmt with
  | [] => Ok out
  | c :: fmt =>
    if limit <=? Z.of_nat (length out) then Ok out
    else if c =? PERCENT then
      match fmt with
      | [] => Fault
      | d :: fmt =>
        '(s, args) ← conversion d args;
        vsnprintf_loop limit fmt args (out ++ take (Z.to_nat (limit - Z.of_nat (length out))) s)
      end
    else vsnprintf_loop limit fmt args (out ++ [c])
  end.

(** The characters put into the buffer; a terminator follows them. *)
Definition vsnprintf_internal (size : Z) (fmt : bytes) (args : list arg) : outcome bytes :=
  vsnprintf_loop (s32 size - 1) fmt args [].

Definition vsnprintf (size : Z) (fmt : bytes) (args : list arg) : outcome bytes :=
  vsnprintf_internal size fmt args.
Definition snprintf (size : Z) (fmt : bytes) (args : list arg) : outcome bytes :=
  vsnprintf_internal size fmt args.
Definition INT_MAX : Z := 2147483647.
Definition sprintf (fmt : bytes) (args : list arg) : outcome bytes :=
  vsnprintf_internal INT_MAX fmt args.
Definition vsprintf (fmt : bytes) (args : list arg) : outcome bytes :=
  vsnprintf_internal INT_MAX fmt args.

(** ** State *)
Record log_buf := LogBuf { lb_buf : memory; lb_head : Z; lb_tail : Z; lb_len : Z; lb_sequence : Z }.

Record printk_state := PrintkState {
  console_loglevel : Z;
  default_message_loglevel : Z;
  minimum_console_loglevel : Z;
  printk_time : bool;
  console_drivers : option nat;
  con_next : gmap nat nat;
  log : log_buf;
  early_console_active : bool;
  (** what the drivers ([Some] console) and the screen were given, in order *)
  con_out : list (option nat * bytes);
}.

Definition set_log (l : log_buf) (s : printk_state) : printk_state :=
  PrintkState (console_loglevel s) (default_message_loglevel s) (minimum_console_loglevel s)
    (printk_time s) (console_drivers s) (con_next s) l (early_console_active s) (con_out s).
Definition set_consoles (h : option nat) (n : gmap nat nat) (s : printk_state) : printk_state :=
  PrintkState (console_loglevel s) (default_message_loglevel s) (minimum_console_loglevel s)
    (printk_time s) h n (log s) (early_console_active s) (con_out s).
Definition add_out (o : option nat) (msg : bytes) (s : printk_state) : printk_state :=
  PrintkState (console_loglevel s) (default_message_loglevel s) (minimum_console_loglevel s)
    (printk_time s) (console_drivers s) (con_next s) (log s) (early_console_active s) (con_out s ++ [(o, msg)]).
Definition set_levels (c d m : Z) (s : printk_state) : printk_state :=
  PrintkState c d m (printk_time s) (console_drivers s) (con_next s) (log s) (early_console_active s) (con_out s).
Definition set_time (b : bool) (s : printk_state) : printk_state :=
  PrintkState (console_loglevel s) (default_message_loglevel s) (minimum_console_loglevel s)
    b (console_drivers s) (con_next s) (log s) (early_console_active s) (con_out s).
Definition set_early (b : bool) (s : printk_state) : printk_state :=
  PrintkState (console_loglevel s) (default_message_loglevel s) (minimum_console_loglevel s)
    (printk_time s) (console_drivers s) (con_next s) (log s) b (con_out s).

(** ** The log buffer *)
Fixpoint log_add (msg : bytes) (l : log_buf) : log_buf :=
  match msg with
  | [] => l
  | c :: msg =>
    if lb_len l <? LOG_BUF_LEN then
      let buf := store (lb_head l) c (lb_buf l) in
      let head := Z.land (lb_head l + 1) LOG_BUF_MASK in
      let len := lb_len l + 1 in
      let '(tail, len) :=
        if LOG_BUF_LEN <=? len then (Z.land (lb_tail l + 1) LOG_BUF_MASK, LOG_BUF_LEN)
        else (lb_tail l, len) in
      log_add msg (LogBuf buf head tail len (lb_sequence l))
    else l
  end.

Definition log_buf_add (msg : bytes) (l : log_buf) : log_buf :=
  match msg with
  | [] => l
  | _ =>
    let l := log_add msg l in
    LogBuf (lb_buf l) (lb_head l) (lb_tail l) (lb_len l) (u32 (lb_sequence l + 1))
  end.

Definition log_buf_clear (l : log_buf) : log_buf := LogBuf ∅ 0 0 0 0.

Fixpoint copy_out (n : nat) (pos : Z) (l : log_buf) : bytes :=
  match n with
  | O => []
  | S n => load (lb_buf l) pos :: copy_out n (Z.land (pos + 1) LOG_BUF_MASK) l
  end.

(** [log_buf_copy]: the bytes copied, as many as the result counts. *)
Definition log_buf_copy (len : Z) (l : log_buf) : bytes :=
  if len <=? 0 then [] else
  let to_copy := if len <? lb_len l then len else lb_len l in
  copy_out (Z.to_nat to_copy) (lb_tail l) l.

(** ** Levels and consoles *)

(** The level of a message and the length of its prefix. *)
Definition parse_log_level (default_level : Z) (fmt : bytes) : Z * nat :=
  match fmt with
  | 60 :: d :: 62 :: _ => if (48 <=? d) && (d <=? 55) then (d - 48, 3%nat) else (default_level, 0%nat)
  | _ => (default_level, 0%nat)
  end.

Section consoles.
(** Whether a console has a [write] function, and its name. *)
Context (con_write : nat → bool) (con_name : nat → bytes).

(** The walk over the drivers.  A list longer than the number of [next]
    pointers is circular. *)
Fixpoint write_drivers (fuel : nat) (con : option nat) (msg : bytes) : cmd printk_state unit := λ s,
  match con with
  | None => Ok (tt, s)
  | Some c =>
    match fuel with
    | O => Diverge
    | S fuel => write_drivers fuel (con_next s !! c) msg (if con_write c then add_out (Some c) msg s else s)
    end
  end.
Definition driver_fuel (s : printk_state) : nat := S (size (con_next s)).

Definition console_write (msg : bytes) : cmd printk_state unit := λ s,
  '(_, s) ← write_drivers (driver_fuel s) (console_drivers s) msg s;
  Ok (tt, match console_drivers s with None => add_out None msg s | Some _ => s end).

Definition level_str (level : Z) : bytes := [60; 48 + level; 62].

(** What is added to a line: a newline if it does not end with one. *)
Definition end_line (line : bytes) : bytes :=
  if (0 <? Z.of_nat (length line)) && negb (default 0 (last line) =? NEWLINE) &&
     (Z.of_nat (length line) <? FINAL_BUF - 1)
  then line ++ [NEWLINE] else line.

(** [vprintk] with the timestamp [now]: the length of the line. *)
Definition vprintk (now : Z) (fmt : bytes) (args : list arg) : cmd printk_state Z := λ s,
  let '(msg_level, prefix_len) := parse_log_level (default_message_loglevel s) fmt in
  msg ← vsnprintf_internal PRINTK_MAX_SINGLE_MESSAGE_LEN (drop prefix_len fmt) args;
  if bool_decide (msg = []) then Ok (0, s) else
  stamp ←
    (if printk_time s
     then snprintf FINAL_BUF (bytes_of "[%lu.%03lu] ") [AInt (now / 1000); AInt (now mod 1000)]
     else Ok []);
  lvl ←
    (if (0 <=? msg_level) && (msg_level <=? 7)
     then snprintf (FINAL_BUF - Z.of_nat (length stamp)) (bytes_of "%s") [AStr (level_str msg_level)]
     else Ok []);
  let line := stamp ++ lvl in
  let line := if Z.of_nat (length line + length msg) <? FINAL_BUF then line ++ msg else line in
  let line := end_line line in
  let s := set_log (log_buf_add line (log s)) s in
  '(_, s) ← (if msg_level <=? console_loglevel s then console_write line s else Ok (tt, s));
  Ok (Z.of_nat (length line), s).

Definition printk (now : Z) (fmt : bytes) (args : list arg) : cmd printk_state Z := vprintk now fmt args.

Definition early_printk (fmt : bytes) (args : list arg) : cmd printk_state unit := λ s,
  if negb (early_console_active s) then Ok (tt, s) else
  msg ← vsnprintf_internal 256 fmt args;
  Ok (tt, if bool_decide (msg = []) then s else add_out None msg s).

Definition printk_enable_timestamps (s : printk_state) : printk_state := set_time true s.
Definition printk_disable_timestamps (s : printk_state) : printk_state := set_time false s.

Definition valid_level (level : Z) : bool := (LOGLEVEL_EMERG <=? level) && (level <=? LOGLEVEL_DEBUG).
Definition console_loglevel_set (level : Z) (s : printk_state) : printk_state :=
  if valid_level level then set_levels level (default_message_loglevel s) (minimum_console_loglevel s) s else s.
Definition console_loglevel_get (s : printk_state) : Z := console_loglevel s.
Definition message_loglevel_set (level : Z) (s : printk_state) : printk_state :=
  if valid_level level then set_levels (console_loglevel s) level (minimum_console_loglevel s) s else s.
Definition message_loglevel_get (s : printk_state) : Z := default_message_loglevel s.

Definition pr_info (now : Z) (fmt : string) (args : list arg) : cmd printk_state Z :=
  printk now (bytes_of "<6>" ++ bytes_of fmt) args.

(** [console->next = p], [None] for NULL *)
Definition put_next (c : nat) (p : option nat) (n : gmap nat nat) : gmap nat nat :=
  match p with Some q => <[c := q]> n | None => delete c n end.

Definition register_console (now : Z) (c : nat) : cmd printk_state unit := λ s,
  let s := set_consoles (Some c) (put_next c (console_drivers s) (con_next s)) s in
  '(_, s) ← pr_info now "Console '%s' registered
" [AStr (con_name c)] s;
  Ok (tt, s).

(** The search of [unregister_console]: the console whose [next] is [c], or
    [None] for the head of the list; the second component is [false] when [c] is
    not in the list. *)
Fixpoint find_link (fuel : nat) (prev cur : option nat) (c : nat) (s : printk_state) : outcome (option nat * bool) :=
  match cur with
  | None => Ok (prev, false)
  | Some k =>
    if (k =? c)%nat then Ok (prev, true) else
    match fuel with
    | O => Diverge
    | S fuel => find_link fuel (Some k) (con_next s !! k) c s
    end
  end.

(** The message is printed if another console follows. *)
Definition unregister_console (now : Z) (c : nat) : cmd printk_state unit := λ s,
  '(prev, found) ← find_link (driver_fuel s) None (console_drivers s) c s;
  let next := con_next s !! c in
  let s :=
    if negb found then s else
    match prev with
    | None => set_consoles next (delete c (con_next s)) s
    | Some p => set_consoles (console_drivers s) (delete c (put_next p next (con_next s))) s
    end in
  if found && bool_decide (is_Some next) then
    '(_, s) ← pr_info now "Console '%s' unregistered
" [AStr (con_name c)] s; Ok (tt, s)
  else Ok (tt, s).

Definition printk_init (now : Z) : cmd printk_state unit := λ s,
  let s := set_log (log_buf_clear (log s)) s in
  let s := set_levels CONSOLE_LOGLEVEL_DEFAULT DEFAULT_MESSAGE_LOGLEVEL LOGLEVEL_EMERG s in
  let s := set_early false (printk_enable_timestamps s) in
  '(_, s) ← pr_info now "Linux-inspired printk system initialized
" [] s;
  '(_, s) ← pr_info now "Log buffer size: %d bytes
" [AInt LOG_BUF_LEN] s;
  '(_, s) ← pr_info now "Console log level: %d
" [AInt (console_loglevel s)] s;
  Ok (tt, s).

Definition early_console_init : cmd printk_state unit := λ s,
  early_printk (bytes_of "Early printk initialized
") [] (set_early true s).

End consoles.

(** The initial values of the control structure and the buffer. *)
Definition printk_boot : printk_state :=
  PrintkState CONSOLE_LOGLEVEL_DEFAULT DEFAULT_MESSAGE_LOGLEVEL LOGLEVEL_EMERG true None ∅
    (LogBuf ∅ 0 0 0 0) true [].
