(* ===== verification/PrintkSpec.v ===== *)
(** * Correctness of kernel logging (src/kernel/printk.c)

    The formatter against an unbounded reference formatter, numbers against
    their value, the log buffer against the text logged so far, and the lines
    printk produces. *)
From S2P Require Import Prelude Screen Printk.

(** ** Numbers *)

(** The value of decimal digits. *)
Definition dec_value (ds : bytes) : Z := fold_left (λ n d, 10 * n + (d - 48)) ds 0.

Lemma fold_dec ds : ∀ n,
  fold_left (λ n d, 10 * n + (d - 48)) ds n = n * 10 ^ Z.of_nat (length ds) + dec_value ds.
Proof.
  unfold dec_value. induction ds as [|d ds IH]; intros n; [simpl; lia |].
  cbn [fold_left length]. rewrite IH, (IH (10 * 0 + (d - 48))), Nat2Z.inj_succ, Z.pow_succ_r by lia. lia.
Qed.

Definition is_digit (d : Z) : Prop := 48 <= d <= 57.

Lemma to_digits_value : ∀ fuel v acc,
  0 <= v < 10 ^ Z.of_nat fuel → (0 < fuel)%nat →
  ∃ ds, to_digits fuel v 10 acc = Ok (ds ++ acc) ∧ Forall is_digit ds ∧ dec_value ds = v ∧ ds ≠ [].
Proof.
  induction fuel as [|fuel IH]; intros v acc Hv Hf; [lia |]. cbn [to_digits].
  rewrite Z.rem_mod_nonneg, Z.quot_div_nonneg by lia.
  assert (Hd : digit_char (v mod 10) = 48 + v mod 10) by (unfold digit_char; case Z.ltb_spec; lia).
  rewrite Hd. case Z.eqb_spec; intros Hq.
  - exists [48 + v mod 10]. split; [done |]. split; [| split; [| done]].
    + repeat constructor; lia.
    + unfold dec_value. simpl. lia.
  - rewrite Nat2Z.inj_succ, Z.pow_succ_r in Hv by lia.
    assert (Hf' : (0 < fuel)%nat) by (destruct fuel; [simpl in Hv; lia | lia]).
    destruct (IH (v / 10) ((48 + v mod 10) :: acc)) as (ds & -> & Hds & Hval & Hne); [lia | done |].
    exists (ds ++ [48 + v mod 10]). split; [by rewrite <- app_assoc |]. split; [| split].
    + apply Forall_app. split; [done |]. repeat constructor; lia.
    + unfold dec_value. rewrite fold_left_app. fold (dec_value ds). rewrite Hval. simpl. lia.
    + by destruct ds.
Qed.

(** [%d] and [%u] print decimal numbers: the digits of the result have the
    value of the argument, with a minus sign for negative ones; the smallest
    [int] is the one value that [itoa] cannot negate. *)
Theorem itoa_utoa_value v :
  (is_u32 v → ∃ ds, utoa v 10 = Ok ds ∧ Forall is_digit ds ∧ dec_value ds = v ∧ ds ≠ []) ∧
  (INT_MIN < v < 2147483648 → ∃ ds, Forall is_digit ds ∧ ds ≠ [] ∧ dec_value ds = Z.abs v ∧
     itoa v 10 = Ok (if v <? 0 then 45 :: ds else ds)) ∧
  itoa INT_MIN 10 = Fault.
Proof.
  assert (Hfuel : 4294967296 < 10 ^ Z.of_nat 33) by (vm_compute; reflexivity).
  split; [| split; [| reflexivity]].
  - intros Hv. unfold utoa, is_u32 in *. cbn [orb Z.ltb Z.compare].
    destruct (to_digits_value 33 v []) as (ds & Hd & Hrest); [lia | lia |].
    exists ds. by rewrite Hd, app_nil_r.
  - intros Hv. unfold itoa, INT_MIN in *. cbn [orb Z.ltb Z.compare].
    destruct (to_digits_value 33 (Z.abs v) []) as (ds & Hd & Hdig & Hval & Hne); [lia | lia |].
    exists ds. split; [done |]. split; [done |]. split; [done |]. rewrite app_nil_r in Hd.
    destruct (Z.ltb_spec v 0) as [Hneg|Hneg].
    + cbn [andb Z.eqb Pos.eqb]. destruct (Z.eqb_spec v (-2147483648)) as [|_]; [lia |].
      replace (- v) with (Z.abs v) by lia. by rewrite Hd.
    + cbn [andb]. by replace v with (Z.abs v) by lia; rewrite Hd.
Qed.

(** ** The formatter *)

(** The reference: the whole output, without a bound. *)
Fixpoint format (fmt : bytes) (args : list arg) : outcome bytes :=
  match fmt with
  | [] => Ok []
  | c :: fmt =>
    if c =? PERCENT then
      match fmt with
      | [] => Fault
      | d :: fmt => '(s, args) ← conversion d args; r ← format fmt args; Ok (s ++ r)
      end
    else r ← format fmt args; Ok (c :: r)
  end.

Lemma vsnprintf_loop_take limit : ∀ n fmt args out r,
  (length fmt <= n)%nat →
  format fmt args = Ok r →
  vsnprintf_loop limit fmt args out =
  Ok (if limit <=? Z.of_nat (length out) then out else take (Z.to_nat limit) (out ++ r)).
Proof.
  induction n as [|n IH]; intros fmt args out r Hn Hr.
  { destruct fmt; [| simpl in Hn; lia]. simpl in *. simplify_eq. rewrite app_nil_r.
    case Z.leb_spec; [done |]. intros. by rewrite take_ge by lia. }
  destruct fmt as [|c fmt].
  { simpl in *. simplify_eq. rewrite app_nil_r.
    case Z.leb_spec; [done |]. intros. by rewrite take_ge by lia. }
  simpl in Hn. cbn [vsnprintf_loop]. cbn [format] in Hr.
  destruct (Z.leb_spec limit (Z.of_nat (length out))) as [|Hl]; [done |].
  destruct (c =? PERCENT).
  - destruct fmt as [|d fmt]; [done |]. simpl in Hn.
    destruct (conversion d args) as [[s args']| | |]; try done. cbn in Hr |- *.
    destruct (format fmt args') as [r'| | |] eqn:Er; try done. cbn in Hr. simplify_eq.
    rewrite (IH fmt args' _ r') by (done || lia). f_equal. rewrite length_app, length_take.
    case Z.leb_spec; intros Hc.
    + rewrite app_assoc, (take_app_le (out ++ s)) by (rewrite length_app; lia).
      rewrite take_app_ge by lia. do 2 f_equal. lia.
    + rewrite (take_ge s) by lia. by rewrite <- app_assoc.
  - destruct (format fmt args) as [r'| | |] eqn:Er; try done. cbn in Hr. simplify_eq.
    rewrite (IH fmt args _ r') by (done || lia). f_equal. rewrite length_app. simpl length.
    case Z.leb_spec; intros Hc; [| by rewrite <- app_assoc].
    replace (out ++ c :: r') with ((out ++ [c]) ++ r') by (by rewrite <- app_assoc).
    rewrite take_app_le by (rewrite length_app; simpl; lia).
    rewrite take_ge by (rewrite length_app; simpl; lia). done.
Qed.

Lemma vsnprintf_take size fmt args r :
  0 < size < 2147483648 → format fmt args = Ok r →
  vsnprintf_internal size fmt args = Ok (take (Z.to_nat (size - 1)) r).
Proof.
  intros Hs Hr. unfold vsnprintf_internal.
  assert (E : s32 size = size) by (unfold s32; rewrite u32_small by (unfold is_u32; lia); case Z.ltb_spec; lia).
  rewrite E, (vsnprintf_loop_take _ (length fmt) fmt args [] r) by done.
  simpl length. case Z.leb_spec; [| done]. intros H0. by replace (size - 1) with 0 by lia.
Qed.

(** C7. The bounded formatter writes the output of the unbounded one cut to
    [size - 1] characters, so that they and the terminator fit into the buffer. *)
Theorem vsnprintf_truncates size fmt args r :
  0 < size < 2147483648 → format fmt args = Ok r →
  vsnprintf size fmt args = Ok (take (Z.to_nat (size - 1)) r) ∧
  Z.of_nat (length (take (Z.to_nat (size - 1)) r)) + 1 <= size.
Proof.
  intros Hs Hr. split; [by apply vsnprintf_take |]. rewrite length_take. lia.
Qed.

(** ** The log buffer *)

(** [log_ok l text]: [text] has been logged since the buffer was cleared.  The
    buffer keeps the first [LOG_BUF_LEN] characters. *)
Record log_ok (l : log_buf) (text : bytes) : Prop := {
  lo_bytes : ∀ i, 0 <= i < Z.min LOG_BUF_LEN (Z.of_nat (length text)) →
    load (lb_buf l) i = nth (Z.to_nat i) text 0;
  lo_pos :
    if Z.of_nat (length text) <? LOG_BUF_LEN
    then lb_len l = Z.of_nat (length text) ∧ lb_head l = Z.of_nat (length text) ∧ lb_tail l = 0
    else lb_len l = LOG_BUF_LEN ∧ lb_tail l = 1;
}.

Lemma log_mask x : Z.land x LOG_BUF_MASK = x mod LOG_BUF_LEN.
Proof. change LOG_BUF_MASK with (Z.ones 17). by rewrite Z.land_ones. Qed.

Lemma LOG_BUF_LEN_eq : LOG_BUF_LEN = 131072.
Proof. reflexivity. Qed.

Lemma log_add_ok msg : ∀ l text, log_ok l text → log_ok (log_add msg l) (text ++ msg).
Proof.
  pose proof LOG_BUF_LEN_eq as HL.
  induction msg as [|c msg IH]; intros l text Hl; [by rewrite app_nil_r |]. cbn [log_add].
  destruct Hl as [Hb Hp]. destruct (Z.ltb_spec (Z.of_nat (length text)) LOG_BUF_LEN) as [Hlt|Hge].
  - destruct Hp as (Hlen & Hhead & Htail). rewrite Hlen.
    destruct (Z.ltb_spec (Z.of_nat (length text)) LOG_BUF_LEN) as [_|]; [| lia].
    rewrite (cons_middle c text msg), app_assoc.
    assert (Hbytes : ∀ i, 0 <= i < Z.min LOG_BUF_LEN (Z.of_nat (length (text ++ [c]))) →
      load (store (lb_head l) c (lb_buf l)) i = nth (Z.to_nat i) (text ++ [c]) 0).
    { intros i Hi. rewrite length_app in Hi. simpl length in Hi. rewrite Hhead.
      destruct (Z.eq_dec i (Z.of_nat (length text))) as [->|Hne].
      - rewrite load_store_eq, Nat2Z.id, app_nth2 by lia. by rewrite Nat.sub_diag.
      - rewrite load_store_ne by lia. rewrite app_nth1 by lia. apply Hb. lia. }
    rewrite !log_mask, Hhead, Htail.
    destruct (Z.leb_spec LOG_BUF_LEN (Z.of_nat (length text) + 1)) as [Hfull|Hroom]; apply IH;
      (split; [rewrite <- Hhead; exact Hbytes |]); rewrite length_app; simpl length; cbn [lb_len lb_head lb_tail];
      case Z.ltb_spec; intros; lia || (split_and!; rewrite ?HL in *; lia).
  - destruct Hp as [Hlen Htail]. rewrite Hlen, Z.ltb_irrefl. split.
    + intros i Hi. rewrite length_app in Hi. rewrite app_nth1 by lia. apply Hb. lia.
    + rewrite length_app. case Z.ltb_spec; [lia |]. done.
Qed.

Lemma log_buf_add_ok msg l text : log_ok l text → log_ok (log_buf_add msg l) (text ++ msg).
Proof.
  intros Hl. destruct msg as [|c msg]; [by rewrite app_nil_r |].
  destruct (log_add_ok (c :: msg) l text Hl) as [Hb Hp]. split; done.
Qed.

Lemma copy_out_nth l : ∀ n pos i,
  0 <= pos < LOG_BUF_LEN → (i < n)%nat →
  nth i (copy_out n pos l) 0 = load (lb_buf l) ((pos + Z.of_nat i) mod LOG_BUF_LEN).
Proof.
  pose proof LOG_BUF_LEN_eq as HL.
  induction n as [|n IH]; intros pos i Hpos Hi; [lia |]. cbn [copy_out]. destruct i as [|i].
  - simpl. by rewrite Z.add_0_r, Z.mod_small.
  - cbn [nth]. rewrite log_mask, IH by (try apply Z.mod_pos_bound; lia). f_equal.
    rewrite Zplus_mod_idemp_l. f_equal. lia.
Qed.

Lemma length_copy_out l n : ∀ pos, length (copy_out n pos l) = n.
Proof. induction n as [|n IH]; intros pos; simpl; [done |]. by rewrite IH. Qed.

(** The log buffer keeps the first 128 KB logged since it was cleared:
    while there is room [log_buf_copy] returns the text logged so far, and once
    the buffer is full it ignores new messages, and a copy starts at the second
    character and ends with the first one.  (The comment in the code says the
    oldest messages are overwritten.) *)
Theorem log_buf_keeps_first msgs :
  let l := fold_left (λ l m, log_buf_add m l) msgs (LogBuf ∅ 0 0 0 0) in
  let text := concat msgs in
  log_buf_copy LOG_BUF_LEN l =
  if Z.of_nat (length text) <? LOG_BUF_LEN then text
  else drop 1 (take (Z.to_nat LOG_BUF_LEN) text) ++ take 1 text.
Proof.
  pose proof LOG_BUF_LEN_eq as HL. cbv zeta.
  assert (Hok : ∀ l t, log_ok l t → log_ok (fold_left (λ l m, log_buf_add m l) msgs l) (t ++ concat msgs)).
  { induction msgs as [|m ms IH]; intros l t Hl; simpl; [by rewrite app_nil_r |].
    rewrite app_assoc. apply IH. by apply log_buf_add_ok. }
  destruct (Hok (LogBuf ∅ 0 0 0 0) []) as [Hb Hp]; [split; [simpl length; lia | done] |].
  clear Hok. simpl app in Hb, Hp. set (l := fold_left _ msgs _) in *. clearbody l.
  set (text := concat msgs) in *. clearbody text. unfold log_buf_copy.
  destruct (Z.leb_spec LOG_BUF_LEN 0); [lia |].
  destruct (Z.ltb_spec (Z.of_nat (length text)) LOG_BUF_LEN) as [Hlt|Hge].
  - destruct Hp as (Hlen & _ & Htail). rewrite Hlen, Htail. case Z.ltb_spec; [lia |]. intros _.
    apply (nth_ext _ _ 0 0); rewrite length_copy_out; [lia |]. intros i Hi.
    rewrite copy_out_nth by lia. rewrite Z.mod_small by lia. rewrite Hb by lia. f_equal. lia.
  - destruct Hp as (Hlen & Htail). rewrite Hlen, Htail, Z.ltb_irrefl.
    apply (nth_ext _ _ 0 0); rewrite length_copy_out.
    + rewrite length_app, length_drop, !length_take. lia.
    + intros i Hi. rewrite copy_out_nth by lia.
      destruct (decide (i < Z.to_nat LOG_BUF_LEN - 1)%nat) as [Hs|Hs].
      * rewrite Z.mod_small, Hb by lia.
        rewrite app_nth1 by (rewrite length_drop, length_take; lia).
        rewrite nth_skipn, nth_firstn. case Nat.ltb_spec; [| lia]. intros _. f_equal. lia.
      * rewrite app_nth2 by (rewrite length_drop, length_take; lia).
        rewrite length_drop, length_take. replace (1 + Z.of_nat i) with LOG_BUF_LEN by lia.
        rewrite Z.mod_same by lia. rewrite Hb by lia. rewrite nth_firstn.
        case Nat.ltb_spec; [| lia]. intros _. f_equal. lia.
Qed.

(** ** Console drivers *)

(** [con_list next h cs]: the list that starts at [h] has the consoles [cs]. *)
Inductive con_list (next : gmap nat nat) : option nat → list nat → Prop :=
| con_list_nil : con_list next None []
| con_list_cons c cs : con_list next (next !! c) cs → con_list next (Some c) (c :: cs).

Lemma con_list_functional next h cs : con_list next h cs → ∀ cs', con_list next h cs' → cs = cs'.
Proof.
  induction 1 as [|c cs _ IH]; intros cs' H; inversion H; subst; [done |]. f_equal. by apply IH.
Qed.

Lemma con_list_suffix next h l1 c l2 : con_list next h (l1 ++ c :: l2) → con_list next (Some c) (c :: l2).
Proof.
  revert h. induction l1 as [|a l1 IH]; intros h H; inversion H; subst; [done |]. by eapply IH.
Qed.

(** A list that ends visits no console twice. *)
Lemma con_list_NoDup next h cs : con_list next h cs → NoDup cs.
Proof.
  induction 1 as [|c cs Hc IH]; [constructor |]. constructor; [| done]. intros Hin.
  apply list_elem_of_split in Hin as (l1 & l2 & ->).
  pose proof (con_list_suffix _ _ _ _ _ Hc) as H2.
  pose proof (con_list_functional _ _ _ (con_list_cons _ c _ Hc) _ H2) as E.
  apply (f_equal length) in E. simpl in E. rewrite length_app in E. simpl in E. lia.
Qed.

(** The fuel of the walks is enough. *)
Lemma con_list_length next h cs : con_list next h cs → (length cs <= S (size next))%nat.
Proof.
  intros Hc. destruct cs as [|x cs _] using rev_ind; [simpl; lia |].
  pose proof (con_list_NoDup _ _ _ Hc) as Hnd. apply NoDup_app in Hnd as (Hnd & _ & _).
  assert (Hsub : ∀ c, c ∈ cs → c ∈ dom next).
  { clear Hnd. revert h Hc. induction cs as [|a cs IH]; intros h Hc c Hin; [by apply not_elem_of_nil in Hin |].
    inversion Hc; subst. apply elem_of_cons in Hin as [->|Hin]; [| by eapply IH].
    apply elem_of_dom. destruct (next !! a) eqn:E; [done |].
    match goal with H : con_list _ None _ |- _ => inversion H end. by destruct cs. }
  rewrite length_app. simpl. rewrite <- (size_dom (D := gset nat)).
  rewrite <- (size_list_to_set (C := gset nat) cs) by done.
  assert (size (list_to_set cs : gset nat) <= size (dom next))%nat; [| lia].
  apply subseteq_size. intros c Hin. apply Hsub. by apply elem_of_list_to_set in Hin.
Qed.

Section lines.
Context (con_write : nat → bool).

Definition outputs (cs : list nat) (line : bytes) : list (option nat * bytes) :=
  (λ c, (Some c, line)) <$> filter con_write cs.

Definition append_out (o : list (option nat * bytes)) (s : printk_state) : printk_state :=
  PrintkState (console_loglevel s) (default_message_loglevel s) (minimum_console_loglevel s)
    (printk_time s) (console_drivers s) (con_next s) (log s) (early_console_active s) (con_out s ++ o).

Lemma append_out_nil s : append_out [] s = s.
Proof. unfold append_out. rewrite app_nil_r. by destruct s. Qed.

Lemma write_drivers_chain line next h cs :
  con_list next h cs → ∀ fuel s, con_next s = next → (length cs <= fuel)%nat →
  write_drivers con_write fuel h line s = Ok (tt, append_out (outputs cs line) s).
Proof.
  induction 1 as [|c cs Hc IH]; intros fuel s Hn Hf.
  { destruct fuel; simpl; by rewrite append_out_nil. }
  destruct fuel as [|fuel]; [simpl in Hf; lia |]. cbn [write_drivers]. rewrite Hn.
  rewrite IH by (simpl in Hf; lia || by destruct (con_write c)).
  unfold outputs. rewrite filter_cons. destruct (con_write c) eqn:E; simpl.
  - unfold append_out. simpl. by rewrite <- app_assoc.
  - done.
Qed.

Definition console_output (cs : list nat) (line : bytes) : list (option nat * bytes) :=
  match cs with [] => [(None, line)] | _ => outputs cs line end.

Lemma console_write_chain line s cs :
  con_list (con_next s) (console_drivers s) cs →
  console_write con_write line s = Ok (tt, append_out (console_output cs line) s).
Proof.
  intros Hc. unfold console_write, driver_fuel.
  rewrite (write_drivers_chain line _ _ cs Hc) by (done || by eapply con_list_length).
  change (mbind ?g (Ok ?x)) with (g x). cbv beta iota. simpl.
  inversion Hc as [E|c cs' _ E]; subst; [| done]. by rewrite append_out_nil.
Qed.

(** ** The lines of printk *)
Definition stamp_text (s : printk_state) : bytes := if printk_time s then bytes_of "[lu.03lu] " else [].

Definition log_line (s : printk_state) (level : Z) (msg : bytes) : bytes :=
  stamp_text s ++ level_str level ++ msg ++ (if default 0 (last msg) =? NEWLINE then [] else [NEWLINE]).

Lemma stamp_format now s :
  (if printk_time s
   then snprintf FINAL_BUF (bytes_of "[%lu.%03lu] ") [AInt (now / 1000); AInt (now mod 1000)]
   else Ok []) = Ok (stamp_text s).
Proof. unfold stamp_text. by destruct (printk_time s). Qed.

Lemma level_format s level :
  0 <= level <= 7 →
  (if (0 <=? level) && (level <=? 7)
   then snprintf (FINAL_BUF - Z.of_nat (length (stamp_text s))) (bytes_of "%s") [AStr (level_str level)]
   else Ok []) = Ok (level_str level).
Proof.
  intros Hl. destruct (Z.leb_spec 0 level); [| lia]. destruct (Z.leb_spec level 7); [| lia]. simpl.
  unfold snprintf. rewrite (vsnprintf_take _ _ _ (level_str level)); [| | reflexivity];
    unfold stamp_text, FINAL_BUF, PRINTK_MAX_SINGLE_MESSAGE_LEN; by destruct (printk_time s).
Qed.

(** The parts of the line fit into the buffer. *)
Lemma end_line_eq s level m :
  m ≠ [] → (length m <= 1023)%nat →
  let line := stamp_text s ++ level_str level in
  end_line (if Z.of_nat (length line + length m) <? FINAL_BUF then line ++ m else line) =
  log_line s level m.
Proof.
  intros Hm Hl line. unfold log_line, end_line.
  assert (Hll : (length line <= 13)%nat) by (unfold line, stamp_text; destruct (printk_time s); simpl; lia).
  unfold FINAL_BUF, PRINTK_MAX_SINGLE_MESSAGE_LEN.
  destruct (Z.ltb_spec (Z.of_nat (length line + length m)) (1024 + 64)); [| lia].
  rewrite length_app. destruct (Z.ltb_spec (Z.of_nat (length line + length m)) (1024 + 64 - 1)); [| lia].
  assert (0 < length m)%nat by (destruct m; [done | simpl; lia]).
  destruct (Z.ltb_spec 0 (Z.of_nat (length line + length m))); [| lia].
  destruct (last_is_Some m) as [_ Hlast]. destruct (Hlast Hm) as [x Hx].
  rewrite last_app, Hx. simpl. unfold line. destruct (x =? NEWLINE); simpl; by rewrite <- ?app_assoc, ?app_nil_r.
Qed.

(** A message of level [n] is logged as one line: the level, the formatted
    message cut to 1023 characters and a newline if there is none, and goes to
    every console driver once (or to the screen when there is none) exactly when
    its level is at most the console's.  The timestamp is not the time: the
    formatter knows no [%lu], so the text [lu.03lu] is printed in its place. *)
Theorem vprintk_line now fmt args s level n msg cs :
  parse_log_level (default_message_loglevel s) fmt = (level, n) → 0 <= level <= 7 →
  format (drop n fmt) args = Ok msg → msg ≠ [] →
  con_list (con_next s) (console_drivers s) cs →
  let line := log_line s level (take 1023 msg) in
  printk con_write now fmt args s =
  Ok (Z.of_nat (length line),
      append_out (if level <=? console_loglevel s then console_output cs line else [])
        (set_log (log_buf_add line (log s)) s)).
Proof.
  intros Hp Hlev Hfmt Hne Hc line. unfold printk, vprintk. rewrite Hp. cbv beta iota.
  rewrite (vsnprintf_take PRINTK_MAX_SINGLE_MESSAGE_LEN (drop n fmt) args msg ltac:(unfold PRINTK_MAX_SINGLE_MESSAGE_LEN; lia) Hfmt).
  change (Z.to_nat (PRINTK_MAX_SINGLE_MESSAGE_LEN - 1)) with 1023%nat.
  assert (Hm : take 1023 msg ≠ []) by (destruct msg; [done | discriminate]).
  assert (Hlen : (length (take 1023 msg) <= 1023)%nat) by (rewrite length_take; lia).
  set (m := take 1023 msg) in *. clearbody m. clear Hfmt msg Hne.
  rewrite stamp_format. ok_bind. rewrite bool_decide_eq_false_2 by done. ok_bind.
  rewrite level_format by lia. ok_bind. cbv zeta.
  rewrite end_line_eq by done. fold line.
  change (console_loglevel (set_log _ s)) with (console_loglevel s).
  destruct (level <=? console_loglevel s).
  - by rewrite (console_write_chain line _ cs) by done.
  - by rewrite append_out_nil.
Qed.
End lines.
