(* ===== verification/PrintkWitness.v ===== *)
(** * Inputs on which the theorems on kernel logging apply *)
From S2P Require Import Prelude Screen Printk PrintkSpec.

Lemma vsnprintf_truncates_witness :
  vsnprintf 6 (bytes_of "x=%d!") [AInt 1234] = Ok (bytes_of "x=123") ∧ 5 + 1 <= 6.
Proof.
  destruct (vsnprintf_truncates 6 (bytes_of "x=%d!") [AInt 1234] (bytes_of "x=1234!")) as [H1 H2];
    [lia | reflexivity |]. split; [exact H1 | exact H2].
Defined.

(** Two consoles, the second without a [write] function. *)
Definition two_consoles : printk_state := set_consoles (Some 4%nat) {[ 4%nat := 9%nat ]} printk_boot.

Lemma vprintk_line_witness :
  let line := bytes_of "[lu.03lu] <3>disk 7 failed
" in
  printk (λ c, (c =? 4)%nat) 123456 (bytes_of "<3>disk %u failed") [AInt 7] two_consoles =
  Ok (27, append_out [(Some 4%nat, line)] (set_log (log_buf_add line (log two_consoles)) two_consoles)).
Proof.
  assert (Hc : con_list (con_next two_consoles) (console_drivers two_consoles) [4%nat; 9%nat])
    by (repeat constructor).
  exact (vprintk_line (λ c, (c =? 4)%nat) 123456 (bytes_of "<3>disk %u failed") [AInt 7] two_consoles
    3 3 (bytes_of "disk 7 failed") _ eq_refl ltac:(lia) eq_refl ltac:(discriminate) Hc).
Defined.
