(* ===== verification/Slab.v ===== *)
(** * The slab allocator (src/kernel/slab.c, src/include/slab.h)

    Caches of equal-sized objects carved out of pages of the kernel heap.  The
    slab headers and the free lists threaded through the free objects are in
    word memory; sizes are multiples of a word, as those of all caches of the
    kernel are.  The intrusive lists of slabs and caches are lists of addresses. *)
From S2P Require Import Prelude Screen Heap Frames Printk.

Definition SLAB_RED_MAGIC1 : Z := 0x5A5A5A5A.
Definition SLAB_POISON_BYTE : Z := 0x5A.
Definition CACHE_LINE_SIZE : Z := 64.
Definition SLAB_POISON : Z := 8.
(** Defined twice in slab.h; the second definition is in force. *)
Definition SLAB_HWCACHE_ALIGN : Z := 16.
Definition SLAB_BATCH_COUNT : Z := 16.
Definition KMALLOC_MAX_SIZE : Z := PAGE_SIZE * 2.
(** [sizeof(struct slab)] and [sizeof(kmem_cache_t)] *)
Definition SLAB_HDR : Z := 40.
Definition CACHE_STRUCT : Z := 100.

(** ** Slab headers: [struct slab] at a page address *)
Definition slab_cache (m : memory) (p : Z) : Z := load m (p + 8).
Definition s_mem (m : memory) (p : Z) : Z := load m (p + 12).
Definition inuse (m : memory) (p : Z) : Z := load m (p + 16).
Definition freelist (m : memory) (p : Z) : Z := load m (p + 24).
Definition objects (m : memory) (p : Z) : Z := load m (p + 28).
Definition slab_magic (m : memory) (p : Z) : Z := load m (p + 32).

Definition set_inuse (p v : Z) (m : memory) : memory := store (p + 16) v m.
Definition set_freelist (p v : Z) (m : memory) : memory := store (p + 24) v m.

(** ** Caches *)
Record cache_stats := CacheStats {
  cs_allocated : Z;
  cs_freed : Z;
  cs_errors : Z;
  cs_max_active : Z;
  cs_active : Z;
}.

(** [kmem_cache_t]; constructors and destructors act on memory. *)
Record kmem_cache := KmemCache {
  c_name : bytes;
  object_size : Z;
  c_align : Z;
  slabs_full : list Z;
  slabs_partial : list Z;
  slabs_free : list Z;
  ctor : option (Z → memory → memory);
  dtor : option (Z → memory → memory);
  num : Z;
  batchcount : Z;
  limit : Z;
  colour_next : Z;
  colour_off : Z;
  colour : Z;
  c_flags : Z;
  gfporder : Z;
  c_stats : cache_stats;
}.

Definition set_slabs (full partial free : list Z) (c : kmem_cache) : kmem_cache :=
  KmemCache (c_name c) (object_size c) (c_align c) full partial free (ctor c) (dtor c) (num c)
    (batchcount c) (limit c) (colour_next c) (colour_off c) (colour c) (c_flags c) (gfporder c) (c_stats c).
Definition set_cstats (s : cache_stats) (c : kmem_cache) : kmem_cache :=
  KmemCache (c_name c) (object_size c) (c_align c) (slabs_full c) (slabs_partial c) (slabs_free c)
    (ctor c) (dtor c) (num c)
    (batchcount c) (limit c) (colour_next c) (colour_off c) (colour c) (c_flags c) (gfporder c) s.

(** The heap, the caches by address, and the list of all caches. *)
Record slab_state := SlabState {
  sheap : heap_state;
  caches : gmap Z kmem_cache;
  cache_chain : list Z;
  kmalloc_caches : list Z;
}.
Definition set_sheap (h : heap_state) (s : slab_state) : slab_state :=
  SlabState h (caches s) (cache_chain s) (kmalloc_caches s).
Definition set_smem (m : memory) (s : slab_state) : slab_state := set_sheap (set_mem m (sheap s)) s.
Definition put_cache (cp : Z) (c : kmem_cache) (s : slab_state) : slab_state :=
  SlabState (sheap s) (<[cp := c]> (caches s)) (cache_chain s) (kmalloc_caches s).
Definition set_chain (l : list Z) (s : slab_state) : slab_state :=
  SlabState (sheap s) (caches s) l (kmalloc_caches s).
Definition set_kmalloc_caches (l : list Z) (s : slab_state) : slab_state :=
  SlabState (sheap s) (caches s) (cache_chain s) l.
Definition smem (s : slab_state) : memory := mem (sheap s).

(** A heap operation. *)
Definition on_heap {A} (c : cmd heap_state A) : cmd slab_state A := λ s,
  '(a, h) ← c (sheap s); Ok (a, set_sheap h s).

(** [list_del] from the list the slab is in, [list_add] at the front. *)
Definition unlink (p : Z) (l : list Z) : list Z := filter (λ q, q ≠ p) l.
Definition list_del (p : Z) (c : kmem_cache) : kmem_cache :=
  set_slabs (unlink p (slabs_full c)) (unlink p (slabs_partial c)) (unlink p (slabs_free c)) c.
Definition add_full (p : Z) (c : kmem_cache) : kmem_cache :=
  set_slabs (p :: slabs_full c) (slabs_partial c) (slabs_free c) c.
Definition add_partial (p : Z) (c : kmem_cache) : kmem_cache :=
  set_slabs (slabs_full c) (p :: slabs_partial c) (slabs_free c) c.
Definition add_free (p : Z) (c : kmem_cache) : kmem_cache :=
  set_slabs (slabs_full c) (slabs_partial c) (p :: slabs_free c) c.

(** ** Sizes *)
Definition calculate_objects (order size align flags : Z) : Z :=
  let nr_pages := Z.shiftl 1 order in
  let room := u32 (PAGE_SIZE * nr_pages - SLAB_HDR) in
  let objects := room / size in
  if negb (Z.land flags SLAB_HWCACHE_ALIGN =? 0) && (4 <=? room mod size)
  then objects + 1 else objects.

(** The number of colours and the colour offset. *)
Definition calculate_colours (flags size : Z) : Z * Z :=
  if negb (Z.land flags SLAB_HWCACHE_ALIGN =? 0) then
    let off := size mod CACHE_LINE_SIZE in
    if off =? 0 then (0, 0) else (CACHE_LINE_SIZE / off, off)
  else (0, 0).

(** ** Filling memory *)

(** [memset] of [n] words with a byte. *)
Fixpoint fill_words (n : nat) (a byte : Z) (m : memory) : memory :=
  match n with
  | O => m
  | S n => fill_words n (a + 4) byte (store a (byte * 0x01010101) m)
  end.
Definition memset (a byte size : Z) (m : memory) : memory := fill_words (Z.to_nat (size / 4)) a byte m.

(** The free list of a new slab: [n] more objects after [p]. *)
Fixpoint build_freelist (n : nat) (p size : Z) (m : memory) : memory :=
  match n with
  | O => store p NULL m
  | S n => build_freelist n (u32 (p + size)) size (store p (u32 (p + size)) m)
  end.

(** An operation on the [n] objects from [obj] on. *)
Fixpoint each_object (n : nat) (obj size : Z) (f : Z → memory → memory) (m : memory) : memory :=
  match n with
  | O => m
  | S n => each_object n (u32 (obj + size)) size f (f obj m)
  end.

Definition has_poison (c : kmem_cache) : bool := negb (Z.land (c_flags c) SLAB_POISON =? 0).

Definition add_allocated (n : Z) (s : cache_stats) : cache_stats :=
  CacheStats (u32 (cs_allocated s + n)) (cs_freed s) (cs_errors s) (cs_max_active s) (cs_active s).
Definition add_freed (n : Z) (s : cache_stats) : cache_stats :=
  CacheStats (cs_allocated s) (u32 (cs_freed s + n)) (cs_errors s) (cs_max_active s) (cs_active s).
Definition add_error (s : cache_stats) : cache_stats :=
  CacheStats (cs_allocated s) (cs_freed s) (u32 (cs_errors s + 1)) (cs_max_active s) (cs_active s).
Definition add_active (s : cache_stats) : cache_stats :=
  let active := u32 (cs_active s + 1) in
  CacheStats (cs_allocated s) (cs_freed s) (cs_errors s)
    (if cs_max_active s <? active then active else cs_max_active s) active.
Definition drop_active (s : cache_stats) : cache_stats :=
  CacheStats (cs_allocated s) (cs_freed s) (cs_errors s) (cs_max_active s) (u32 (cs_active s - 1)).

(** ** Slabs *)

(** The header and the objects of a new slab at [pages]. *)
Definition init_slab (cp : Z) (c : kmem_cache) (pages : Z) (m : memory) : memory :=
  let size := u32 (PAGE_SIZE * Z.shiftl 1 (gfporder c)) in
  let m := store (pages + 8) cp m in
  let m := store (pages + 16) 0 m in
  let m := store (pages + 28) (num c) m in
  let m := store (pages + 32) SLAB_RED_MAGIC1 m in
  let objp := u32 (pages + SLAB_HDR + colour_off c) in
  let m := store (pages + 12) objp m in
  let m := store (pages + 36) (u32 (pages + size)) m in
  let m := store (pages + 24) objp m in
  let m := build_freelist (Z.to_nat (u32 (num c - 1))) objp (object_size c) m in
  let m :=
    if has_poison c
    then each_object (Z.to_nat (num c)) objp (object_size c)
           (λ o, memset o SLAB_POISON_BYTE (object_size c)) m
    else m in
  match ctor c with
  | Some f => each_object (Z.to_nat (num c)) objp (object_size c) f m
  | None => m
  end.

(** [alloc_slab]: the slab, or NULL. *)
Definition alloc_slab (cp : Z) (c : kmem_cache) : cmd slab_state Z := λ s,
  '(pages, s) ← on_heap (kmalloc_aligned (u32 (PAGE_SIZE * Z.shiftl 1 (gfporder c))) PAGE_SIZE) s;
  if pages =? NULL then Ok (NULL, s) else
  let s := set_smem (init_slab cp c pages (smem s)) s in
  Ok (pages, put_cache cp (set_cstats (add_allocated (num c) (c_stats c)) c) s).

(** [free_slab]; the number of objects is read from the slab after it is
    freed. *)
Definition free_slab (cp p : Z) : cmd slab_state unit := λ s,
  match caches s !! cp with
  | None => Fault
  | Some c =>
    let m := smem s in
    let m := match dtor c with
             | Some f => each_object (Z.to_nat (objects m p)) (s_mem m p) (object_size c) f m
             | None => m
             end in
    '(_, s) ← on_heap (kfree_aligned p) (set_smem m s);
    Ok (tt, put_cache cp (set_cstats (add_freed (objects (smem s) p) (c_stats c)) c) s)
  end.

(** [cache_grow]: 0, or -1 when there is no memory. *)
Definition cache_grow (cp : Z) : cmd slab_state Z := λ s,
  match caches s !! cp with
  | None => Fault
  | Some c =>
    '(p, s) ← alloc_slab cp c s;
    if p =? NULL then Ok (-1, s) else
    match caches s !! cp with
    | None => Fault
    | Some c =>
      let c := if inuse (smem s) p =? 0 then add_free p c
               else if inuse (smem s) p =? num c then add_full p c
               else add_partial p c in
      Ok (0, put_cache cp c s)
    end
  end.

(** ** Caches *)
Definition new_cache (name : bytes) (size align flags : Z) (ct dt : option (Z → memory → memory)) : kmem_cache :=
  let '(col, off) := calculate_colours flags size in
  let n := calculate_objects 0 size align flags in
  KmemCache name size align [] [] [] ct dt n SLAB_BATCH_COUNT (u32 (n * 2)) 0 off col flags 0
    (CacheStats 0 0 0 0 0).

(** [kmem_cache_create]: the address of the cache, or NULL. *)
Definition kmem_cache_create (name : bytes) (size align flags : Z) (ct dt : option (Z → memory → memory))
  : cmd slab_state Z := λ s,
  if (size =? 0) || (KMALLOC_MAX_SIZE <? size) then Ok (NULL, s) else
  '(cp, s) ← on_heap (kmalloc CACHE_STRUCT) s;
  if cp =? NULL then Ok (NULL, s) else
  let c := new_cache name size align flags ct dt in
  if num c =? 0 then '(_, s) ← on_heap (kfree cp) s; Ok (NULL, s) else
  Ok (cp, set_chain (cp :: cache_chain s) (put_cache cp c s)).

(** The slabs of one list, unlinked and freed one after the other. *)
Fixpoint free_slabs (cp : Z) (l : list Z) : cmd slab_state unit := λ s,
  match l with
  | [] => Ok (tt, s)
  | p :: l =>
    match caches s !! cp with
    | None => Fault
    | Some c => '(_, s) ← free_slab cp p (put_cache cp (list_del p c) s); free_slabs cp l s
    end
  end.

Definition kmem_cache_destroy (cp : Z) : cmd slab_state unit := λ s,
  if cp =? NULL then Ok (tt, s) else
  match caches s !! cp with
  | None => Fault
  | Some c =>
    '(_, s) ← free_slabs cp (slabs_full c) s;
    '(_, s) ← free_slabs cp (slabs_partial c) s;
    '(_, s) ← free_slabs cp (slabs_free c) s;
    let s := set_chain (unlink cp (cache_chain s)) s in
    on_heap (kfree cp) s
  end.

(** ** Objects *)

(** The slab to allocate from. *)
Definition pick_slab (c : kmem_cache) : option Z :=
  match slabs_partial c with
  | p :: _ => Some p
  | [] => head (slabs_free c)
  end.

(** Taking the first free object of slab [p]. *)
Definition take_object (cp p : Z) : cmd slab_state Z := λ s,
  match caches s !! cp with
  | None => Fault
  | Some c =>
    let m := smem s in
    let objp := freelist m p in
    if objp =? NULL then Ok (NULL, put_cache cp (set_cstats (add_error (c_stats c)) c) s) else
    let m := set_freelist p (load m objp) m in
    let m := set_inuse p (u32 (inuse m p + 1)) m in
    let c := if inuse m p =? num c then add_full p (list_del p c)
             else if inuse m p =? 1 then add_partial p (list_del p c)
             else c in
    let m := if has_poison c then memset objp 0 (object_size c) m else m in
    Ok (objp, put_cache cp (set_cstats (add_active (c_stats c)) c) (set_smem m s))
  end.

Definition kmem_cache_alloc (cp : Z) : cmd slab_state Z := λ s,
  if cp =? NULL then Ok (NULL, s) else
  match caches s !! cp with
  | None => Fault
  | Some c =>
    match pick_slab c with
    | Some p => take_object cp p s
    | None =>
      '(r, s) ← cache_grow cp s;
      match caches s !! cp with
      | None => Fault
      | Some c =>
        if r <? 0 then Ok (NULL, put_cache cp (set_cstats (add_error (c_stats c)) c) s) else
        match slabs_free c with
        | p :: _ => take_object cp p s
        | [] => Fault
        end
      end
    end
  end.

(** The slab of an object: the start of its page. *)
Definition slab_of (objp : Z) : Z := Z.land objp (not32 (PAGE_SIZE - 1)).

Definition kmem_cache_free (cp objp : Z) : cmd slab_state unit := λ s,
  if (cp =? NULL) || (objp =? NULL) then Ok (tt, s) else
  match caches s !! cp with
  | None => Fault
  | Some c =>
    let p := slab_of objp in
    let m := smem s in
    if negb (slab_magic m p =? SLAB_RED_MAGIC1) || negb (slab_cache m p =? cp)
    then Panic "Invalid object passed to kmem_cache_free" else
    let m := if has_poison c then memset objp SLAB_POISON_BYTE (object_size c) m else m in
    let m := store objp (freelist m p) m in
    let m := set_freelist p objp m in
    let m := set_inuse p (u32 (inuse m p - 1)) m in
    let c := if inuse m p =? 0 then add_free p (list_del p c)
             else if inuse m p =? u32 (num c - 1) then add_partial p (list_del p c)
             else c in
    Ok (tt, put_cache cp (set_cstats (drop_active (c_stats c)) c) (set_smem m s))
  end.

(** [kmem_cache_alloc_bulk]: the objects, and the result; when an allocation
    fails the ones before it are freed, last one first, and the counter of that
    loop, which has wrapped around, is returned. *)
Fixpoint free_all (cp : Z) (l : list Z) : cmd slab_state unit := λ s,
  match l with
  | [] => Ok (tt, s)
  | o :: l => '(_, s) ← kmem_cache_free cp o s; free_all cp l s
  end.

Fixpoint alloc_bulk (n : nat) (cp : Z) (got : list Z) : cmd slab_state (Z * list Z) := λ s,
  match n with
  | O => Ok (Z.of_nat (length got), rev got, s)
  | S n =>
    '(o, s) ← kmem_cache_alloc cp s;
    if o =? NULL then '(_, s) ← free_all cp got s; Ok (s32 (u32 (-1)), [], s)
    else alloc_bulk n cp (o :: got) s
  end.
Definition kmem_cache_alloc_bulk (cp size : Z) : cmd slab_state (Z * list Z) :=
  alloc_bulk (Z.to_nat size) cp [].
Definition kmem_cache_free_bulk (cp : Z) (l : list Z) : cmd slab_state unit := free_all cp l.

Definition kmem_cache_size (cp : Z) (s : slab_state) : Z :=
  if cp =? NULL then 0 else match caches s !! cp with Some c => object_size c | None => 0 end.
Definition kmem_cache_name (cp : Z) (s : slab_state) : bytes :=
  match caches s !! cp with Some c => c_name c | None => bytes_of "unknown" end.

(** ** The size classes of [kmalloc] *)
Definition kmalloc_sizes : list Z := [8; 16; 32; 64; 128; 256; 512; 1024; 2048; 4096; 8192; 16384].

Fixpoint create_classes (sizes : list Z) (made : list Z) : cmd slab_state unit := λ s,
  match sizes with
  | [] => Ok (tt, set_kmalloc_caches made s)
  | n :: sizes =>
    name ← sprintf (bytes_of "kmalloc-%d") [AInt n];
    '(cp, s) ← kmem_cache_create name n 0 SLAB_HWCACHE_ALIGN None None s;
    if cp =? NULL then Panic "Failed to create kmalloc cache"
    else create_classes sizes (made ++ [cp]) s
  end.

Definition slab_init : cmd slab_state unit := λ s, create_classes kmalloc_sizes [] (set_chain [] s).

(** [kmalloc_slab]: the first of the eleven first classes that is large
    enough. *)
Fixpoint find_class (n : nat) (i : nat) (size : Z) (s : slab_state) : nat :=
  match n with
  | O => i
  | S n =>
    let cp := nth i (kmalloc_caches s) NULL in
    if negb (cp =? NULL) && (kmem_cache_size cp s <? size) then find_class n (S i) size s else i
  end.

Definition kmalloc_slab (size : Z) : cmd slab_state Z := λ s,
  if size =? 0 then Ok (NULL, s) else
  let i := find_class 11 0 size s in
  let cp := nth i (kmalloc_caches s) NULL in
  if (11 <=? i)%nat || (cp =? NULL) then Ok (NULL, s) else kmem_cache_alloc cp s.

Definition kfree_slab (objp : Z) : cmd slab_state unit := λ s,
  if objp =? NULL then Ok (tt, s) else
  kmem_cache_free (slab_cache (smem s) (slab_of objp)) objp s.
