(* ===== verification/SlabSpec.v ===== *)
(** * Correctness of the slab allocator (src/kernel/slab.c)

    What the kernel heap promises to a client that takes whole pages, the
    invariant of a cache over word memory, and its preservation. *)
From S2P Require Import Prelude Screen Heap HeapSpec HeapAlloc HeapFree HeapAligned Frames Printk Slab.

(** ** Pages of the kernel heap *)

(** The heap is well formed and the pages [ps] lie in payloads it has handed
    out. *)
Definition pages_owned (h : heap_state) (ps : list Z) : Prop :=
  ∃ bs, heap_ok h bs ∧ ∀ p, p ∈ ps → ∃ q n, live h bs q n ∧ q <= p ∧ p + 4096 <= q + n.

(** [m'] has the contents of [m] on the page [p]. *)
Definition same_page (p : Z) (m m' : memory) : Prop := ∀ x, p <= x < p + 4096 → load m' x = load m x.

Lemma pages_owned_memory h ps p m :
  pages_owned h ps → p ∈ ps → (∀ x, x < p ∨ p + 4096 <= x → load m x = load (mem h) x) →
  pages_owned (set_mem m h) ps.
Proof.
  intros (bs & Hok & Hl) Hp Hx. destruct (Hl p Hp) as (q & n & Hq & H1 & H2).
  exists bs. split; [| exact Hl]. apply (client_memory h bs q n m Hok Hq). intros x Ho. apply Hx. lia.
Qed.

Lemma pages_owned_sub h ps qs : (∀ p, p ∈ qs → p ∈ ps) → pages_owned h ps → pages_owned h qs.
Proof. intros Hs (bs & Hok & Hl). exists bs. auto. Qed.

Lemma pages_owned_range h ps p : pages_owned h ps → p ∈ ps → 0 < p ∧ p + 4096 < 4294967296.
Proof.
  intros (bs & Hok & Hl) Hp. destruct (Hl p Hp) as (q & n & (pre & b & post & -> & _ & -> & ->) & H1 & H2).
  destruct (heap_ok_block _ _ _ _ Hok) as (He & [Hb _] & _ & _ & _ & Hend & _).
  destruct (ok_range _ _ Hok). unfold span, HDR in *. lia.
Qed.

(** A page taken from the heap is new and leaves the contents of the others
    alone. *)
Lemma get_page h ps :
  pages_owned h ps →
  ∃ p h', kmalloc_aligned 4096 4096 h = Ok (p, h') ∧
    (∀ q, q ∈ ps → same_page q (mem h) (mem h')) ∧
    (p = NULL ∧ pages_owned h' ps ∨
     p ≠ NULL ∧ pages_owned h' (p :: ps) ∧ p mod 4096 = 0 ∧ p ∉ ps).
Proof.
  intros (bs & Hok & Hl).
  destruct (kmalloc_aligned_cases 4096 12 h bs Hok ltac:(lia) ltac:(lia) ltac:(lia))
    as [(h' & Hk & Hok')|(p & h' & bs' & q & n & Hk & Hok' & Hlive & Hmod & Hq & Hn & _ & _ & Hold)];
    change (2 ^ 12) with 4096 in *.
  - exists NULL, h'. split; [done |].
    assert (Hm : mem h' = mem h ∧ kernel_heap_start h' = kernel_heap_start h).
    { destruct (kmalloc_returns 8199 _ _ Hok ltac:(lia)) as (r & h1 & Hr).
      pose proof (kmalloc_aligned_steps 4096 12 _ _ _ _ Hok ltac:(lia) ltac:(lia) ltac:(lia) Hr) as Hst.
      change (2 ^ 12) with 4096 in *. destruct (Z.eqb_spec r NULL) as [->|Hne].
      - rewrite Hk in Hst. simplify_eq. rewrite (kmalloc_null 8199 _ _ _ Hok ltac:(lia) Hr). done.
      - destruct Hst as (p' & Hk' & _ & Hp'). rewrite Hk in Hk'. simplify_eq.
        destruct (kmalloc_live 8199 _ _ _ _ Hok ltac:(lia) Hr Hne) as (? & ? & _ & _ & _ & _ & Hge & _).
        pose proof (ok_range _ _ Hok). unfold NULL, HDR in *. lia. }
    destruct Hm as [Hm Hs]. split; [intros r _ x _; by rewrite Hm |]. left. split; [done |].
    exists bs. split; [done |]. intros p Hp. destruct (Hl p Hp) as (q & n & (pre & b & post & E1 & E2 & E3 & E4) & Hr).
    exists q, n. split; [| done]. exists pre, b, post. by rewrite Hs.
  - exists p, h'. split; [done |]. split.
    { intros r Hr x Hx. destruct (Hl r Hr) as (a & k & Ha & H1 & H2).
      apply (Hold a k Ha). lia. }
    right. assert (Hown : pages_owned h' (p :: ps)).
    { exists bs'. split; [done |]. intros r Hr. apply elem_of_cons in Hr as [->|Hr].
      - exists q, n. split; [done | lia].
      - destruct (Hl r Hr) as (a & k & Ha & H1 & H2). exists a, k. split; [by apply Hold | lia]. }
    pose proof (pages_owned_range _ _ p Hown ltac:(by left)) as [Hp0 _].
    split; [unfold NULL; lia |]. split; [done |]. split; [done |]. intros Hin.
    destruct (Hl p Hin) as (a & k & Ha & H1 & H2). destruct (Hold a k Ha) as (_ & Hd & _). lia.
Qed.

(** ** Objects of a slab *)

(** The objects of a cache's slabs fit into a page. *)
Record fits (c : kmem_cache) : Prop := {
  ft_num : 0 < num c;
  ft_size : 4 <= object_size c;
  ft_off : 0 <= colour_off c;
  ft_room : SLAB_HDR + colour_off c + num c * object_size c <= 4096;
  ft_order : gfporder c = 0;
}.

Definition obj (c : kmem_cache) (p i : Z) : Z := p + SLAB_HDR + colour_off c + i * object_size c.
Definition objs (c : kmem_cache) (p : Z) : list Z := obj c p <$> seqZ 0 (num c).

Lemma elem_of_objs c p o : o ∈ objs c p ↔ ∃ i, 0 <= i < num c ∧ o = obj c p i.
Proof.
  unfold objs. rewrite list_elem_of_fmap. split.
  - intros (i & -> & Hi). rewrite elem_of_seqZ in Hi. exists i. split; [lia | done].
  - intros (i & Hi & ->). exists i. split; [done |]. rewrite elem_of_seqZ. lia.
Qed.

(** An object lies in its page, behind the header. *)
Lemma objs_range c p o :
  fits c → o ∈ objs c p → p + SLAB_HDR <= o ∧ o + object_size c <= p + 4096.
Proof.
  intros [H1 H2 H3 H4 _] Ho. apply elem_of_objs in Ho as (i & Hi & ->). unfold obj, SLAB_HDR in *. nia.
Qed.

(** Two objects of a slab do not overlap. *)
Lemma objs_disjoint c p o o' :
  fits c → o ∈ objs c p → o' ∈ objs c p → o ≠ o' →
  o + object_size c <= o' ∨ o' + object_size c <= o.
Proof.
  intros [H1 H2 H3 H4 _] Ho Ho' Hne. apply elem_of_objs in Ho as (i & Hi & ->), Ho' as (j & Hj & ->).
  unfold obj in *. destruct (Z.lt_trichotomy i j) as [?|[->|?]]; [left; nia | done | right; nia].
Qed.

Lemma slab_of_obj c p o :
  fits c → p mod 4096 = 0 → 0 <= p → p + 4096 < 4294967296 → o ∈ objs c p → slab_of o = p.
Proof.
  intros Hf Hm Hp Hb Ho. pose proof (objs_range c p o Hf Ho) as Hr. unfold SLAB_HDR in Hr.
  pose proof (ft_size _ Hf). unfold slab_of. change (PAGE_SIZE - 1) with (2 ^ 12 - 1).
  rewrite land_not32 by (unfold is_u32; lia). rewrite ldiff_pow2 by lia. change (2 ^ 12) with 4096. lia.
Qed.

(** Pages are equal or apart. *)
Lemma pages_apart p q : p mod 4096 = 0 → q mod 4096 = 0 → p ≠ q → p + 4096 <= q ∨ q + 4096 <= p.
Proof. lia. Qed.

(** ** One slab *)

(** The free list that starts at [a] has the objects [fl]. *)
Fixpoint free_list (m : memory) (a : Z) (fl : list Z) : Prop :=
  match fl with
  | [] => a = NULL
  | o :: fl => a = o ∧ free_list m (load m o) fl
  end.

Lemma free_list_agree m m' fl : ∀ a,
  (∀ o, o ∈ fl → load m' o = load m o) → free_list m a fl → free_list m' a fl.
Proof.
  induction fl as [|o fl IH]; intros a Ha; [done |]. intros [-> Hf]. split; [done |].
  rewrite Ha by (by left). apply IH; [| done]. intros x Hx. apply Ha. by right.
Qed.

Record slab_ok (cp : Z) (c : kmem_cache) (m : memory) (p : Z) (fl : list Z) : Prop := {
  so_cache : slab_cache m p = cp;
  so_magic : slab_magic m p = SLAB_RED_MAGIC1;
  so_inuse : inuse m p = num c - Z.of_nat (length fl);
  so_list : free_list m (freelist m p) fl;
  so_nodup : NoDup fl;
  so_objs : ∀ o, o ∈ fl → o ∈ objs c p;
}.

(** A slab depends on its page only. *)
Lemma slab_ok_same_page cp c m m' p fl :
  fits c → same_page p m m' → slab_ok cp c m p fl → slab_ok cp c m' p fl.
Proof.
  intros Hf Hs [K1 K2 K3 K4 K5 K6].
  unfold slab_cache, slab_magic, inuse, freelist in *.
  split; unfold slab_cache, slab_magic, inuse, freelist; try rewrite Hs by lia; try done.
  eapply free_list_agree; [| exact K4]. intros o Ho. apply Hs.
  pose proof (objs_range c p o Hf (K6 o Ho)). pose proof (ft_size _ Hf). unfold SLAB_HDR in *. lia.
Qed.

Lemma slab_ok_cache cp c c' m p fl :
  num c' = num c → object_size c' = object_size c → colour_off c' = colour_off c →
  slab_ok cp c m p fl → slab_ok cp c' m p fl.
Proof.
  intros E1 E2 E3 [K1 K2 K3 K4 K5 K6]. split; try done; [by rewrite E1 |].
  intros o Ho. specialize (K6 o Ho). apply elem_of_objs in K6 as (i & Hi & ->).
  apply elem_of_objs. exists i. unfold obj. by rewrite E1, E2, E3.
Qed.

Lemma length_objs c p : length (objs c p) = Z.to_nat (num c).
Proof. unfold objs. by rewrite length_fmap, length_seqZ. Qed.

(** There are at most [num] free objects. *)
Lemma slab_ok_length cp c m p fl : fits c → slab_ok cp c m p fl → Z.of_nat (length fl) <= num c.
Proof.
  intros Hf [_ _ _ _ K5 K6]. pose proof (ft_num _ Hf).
  assert (length fl <= length (objs c p))%nat; [| rewrite length_objs in *; lia].
  apply submseteq_length. by apply NoDup_submseteq.
Qed.

(** Taking the first free object. *)
Lemma slab_take cp c m p o fl :
  fits c → 0 < p → p + 4096 < 4294967296 → slab_ok cp c m p (o :: fl) →
  let m' := set_inuse p (u32 (inuse (set_freelist p (load m (freelist m p)) m) p + 1))
              (set_freelist p (load m (freelist m p)) m) in
  freelist m p = o ∧ slab_ok cp c m' p fl ∧ inuse m' p = num c - Z.of_nat (length fl) ∧
  (∀ x, x ≠ p + 16 → x ≠ p + 24 → load m' x = load m x).
Proof.
  intros Hf Hp Hb Hs. pose proof (slab_ok_length _ _ _ _ _ Hf Hs) as Hn.
  destruct Hs as [K1 K2 K3 [K4 K4'] K5 K6]. simpl length in *.
  pose proof (ft_num _ Hf). pose proof (ft_room _ Hf). pose proof (ft_size _ Hf). pose proof (ft_off _ Hf).
  assert (Hnum : num c < 4096) by (unfold SLAB_HDR in *; nia).
  unfold slab_cache, slab_magic, inuse, freelist, set_inuse, set_freelist in *.
  cbv zeta. rewrite (load_store_ne m (p + 24) (p + 16)) by lia. rewrite K3.
  rewrite u32_small by (unfold is_u32; lia).
  assert (Hsame : ∀ v x, x ≠ p + 16 → x ≠ p + 24 →
    load (store (p + 16) v (store (p + 24) (load m (load m (p + 24))) m)) x = load m x)
    by (intros; by rewrite !load_store_ne by done).
  apply NoDup_cons in K5 as [K5 K5'].
  assert (Hinuse : ∀ v, load (store (p + 16) v (store (p + 24) (load m (load m (p + 24))) m)) (p + 16) = v)
    by (intros; apply load_store_eq).
  split; [done |]. split; [| split; [rewrite Hinuse; lia | intros; by apply Hsame]].
  split; unfold slab_cache, slab_magic, inuse, freelist; try done.
  - by rewrite Hsame by lia.
  - by rewrite Hsame by lia.
  - rewrite Hinuse. lia.
  - eapply (free_list_agree m); [| rewrite load_store_ne, load_store_eq by lia; by rewrite K4].
    intros x Hx. pose proof (objs_range c p x Hf (K6 x ltac:(by right))). unfold SLAB_HDR in *.
    apply Hsame; lia.
  - intros x Hx. apply K6. by right.
Qed.

(** Giving an object back. *)
Lemma slab_give cp c m p o fl :
  fits c → 0 < p → p + 4096 < 4294967296 → slab_ok cp c m p fl → o ∈ objs c p → o ∉ fl →
  let m1 := set_freelist p o (store o (freelist m p) m) in
  let m' := set_inuse p (u32 (inuse m1 p - 1)) m1 in
  slab_ok cp c m' p (o :: fl) ∧ inuse m' p = num c - Z.of_nat (length (o :: fl)) ∧
  (∀ x, x ≠ p + 16 → x ≠ p + 24 → x ≠ o → load m' x = load m x).
Proof.
  intros Hf Hp Hb [K1 K2 K3 K4 K5 K6] Ho Hnew.
  pose proof (objs_range c p o Hf Ho) as Hr. pose proof (ft_size _ Hf).
  assert (Hle : (length (o :: fl) <= length (objs c p))%nat).
  { apply submseteq_length. apply NoDup_submseteq; [by constructor |].
    intros x Hx. apply elem_of_cons in Hx as [->|Hx]; auto. }
  rewrite length_objs in Hle. simpl length in *. pose proof (ft_num _ Hf).
  pose proof (ft_room _ Hf). pose proof (ft_off _ Hf).
  assert (Hnum : num c < 4096) by (unfold SLAB_HDR in *; nia).
  unfold slab_cache, slab_magic, inuse, freelist, set_inuse, set_freelist, SLAB_HDR in *. cbv zeta.
  rewrite (load_store_ne _ (p + 24) (p + 16)) by lia. rewrite (load_store_ne m o (p + 16)) by lia.
  rewrite K3, u32_small by (unfold is_u32; lia).
  set (m' := store (p + 16) _ _).
  assert (Hsame : ∀ x, x ≠ p + 16 → x ≠ p + 24 → x ≠ o → load m' x = load m x)
    by (intros; unfold m'; by rewrite !load_store_ne by done).
  assert (Hin : load m' (p + 16) = num c - Z.of_nat (length fl) - 1) by apply load_store_eq.
  assert (Hfl : load m' (p + 24) = o) by (unfold m'; by rewrite load_store_ne, load_store_eq by lia).
  assert (Hobj : load m' o = load m (p + 24))
    by (unfold m'; rewrite !load_store_ne by lia; apply load_store_eq).
  split; [| split; [rewrite Hin; simpl length; lia | done]].
  split; unfold slab_cache, slab_magic, inuse, freelist.
  - by rewrite Hsame by lia.
  - by rewrite Hsame by lia.
  - rewrite Hin. simpl length. lia.
  - split; [done |]. rewrite Hobj. eapply free_list_agree; [| exact K4].
    intros x Hx. pose proof (objs_range c p x Hf (K6 x Hx)). unfold SLAB_HDR in *.
    apply Hsame; [lia | lia | congruence].
  - by constructor.
  - intros x Hx. apply elem_of_cons in Hx as [->|Hx]; auto.
Qed.

(** ** New slabs *)
Fixpoint addrs (n : nat) (a size : Z) : list Z :=
  match n with
  | O => [a]
  | S n => a :: addrs n (a + size) size
  end.

Lemma addrs_seqZ size : ∀ n a, addrs n a size = (λ i, a + i * size) <$> seqZ 0 (Z.of_nat (S n)).
Proof.
  induction n as [|n IH]; intros a.
  - simpl. by rewrite Z.add_0_r.
  - rewrite seqZ_cons by lia. cbn [addrs fmap list_fmap]. f_equal; [lia |]. rewrite IH.
    replace (Z.pred (Z.of_nat (S (S n)))) with (Z.of_nat (S n)) by lia.
    change (Z.succ 0) with (1 + 0). rewrite <- (fmap_add_seqZ 1 0 (Z.of_nat (S n))), <- list_fmap_compose.
    apply list_fmap_ext. intros i x _. simpl. lia.
Qed.

Lemma elem_of_addrs n a size x :
  x ∈ addrs n a size ↔ ∃ i, 0 <= i < Z.of_nat (S n) ∧ x = a + i * size.
Proof.
  rewrite addrs_seqZ, list_elem_of_fmap. split.
  - intros (i & -> & Hi). rewrite elem_of_seqZ in Hi. exists i. split; [lia | done].
  - intros (i & Hi & ->). exists i. split; [done |]. rewrite elem_of_seqZ. lia.
Qed.

Lemma build_freelist_other n : ∀ a size m x,
  4 <= size → 0 <= a → a + Z.of_nat n * size < 4294967296 → x ∉ addrs n a size →
  load (build_freelist n a size m) x = load m x.
Proof.
  induction n as [|n IH]; intros a size m x Hs Ha Hb Hx; simpl in *.
  - rewrite load_store_ne; [done |]. intros ->. apply Hx. by left.
  - rewrite u32_small by (unfold is_u32; nia). rewrite IH by (try nia; intros H; apply Hx; by right).
    rewrite load_store_ne; [done |]. intros ->. apply Hx. by left.
Qed.

Lemma build_freelist_list n : ∀ a size m,
  4 <= size → 0 <= a → a + Z.of_nat n * size < 4294967296 →
  free_list (build_freelist n a size m) a (addrs n a size).
Proof.
  induction n as [|n IH]; intros a size m Hs Ha Hb; simpl.
  - by rewrite load_store_eq.
  - rewrite u32_small by (unfold is_u32; nia). split; [done |].
    rewrite build_freelist_other by (try nia; intros (i & Hi & E)%elem_of_addrs; nia).
    rewrite load_store_eq. apply IH; nia.
Qed.

Lemma objs_addrs c p : fits c → objs c p = addrs (Z.to_nat (num c - 1)) (obj c p 0) (object_size c).
Proof.
  intros [H1 _ _ _ _]. rewrite addrs_seqZ. unfold objs.
  replace (Z.of_nat (S (Z.to_nat (num c - 1)))) with (num c) by lia.
  apply list_fmap_ext. intros i x _. unfold obj. lia.
Qed.

Lemma NoDup_objs c p : fits c → NoDup (objs c p).
Proof.
  intros [_ H2 _ _ _]. unfold objs. apply NoDup_fmap_2; [| apply NoDup_seqZ].
  intros i j Hij. unfold obj in Hij. nia.
Qed.

(** Without poisoning and constructor, all objects of a new slab are free. *)
Lemma init_slab_ok cp c p m :
  fits c → 0 < p → p + 4096 < 4294967296 → has_poison c = false → ctor c = None →
  slab_ok cp c (init_slab cp c p m) p (objs c p) ∧
  (∀ x, x < p ∨ p + 4096 <= x → load (init_slab cp c p m) x = load m x).
Proof.
  intros Hf Hp Hb Hpo Hct. pose proof Hf as [H1 H2 H3 H4 H5]. unfold init_slab.
  rewrite Hpo, Hct, H5. cbv zeta. unfold SLAB_HDR in *.
  assert (Hnum : num c < 4096) by nia.
  rewrite (u32_small (num c - 1)), (u32_small (p + 40 + colour_off c)) by (unfold is_u32; nia).
  change (p + 40 + colour_off c) with (p + SLAB_HDR + colour_off c).
  replace (p + SLAB_HDR + colour_off c) with (obj c p 0) by (unfold obj; lia).
  set (m1 := store (p + 24) _ _).
  assert (Hend : obj c p 0 + Z.of_nat (Z.to_nat (num c - 1)) * object_size c < 4294967296)
    by (unfold obj, SLAB_HDR; nia).
  assert (H0 : 0 <= obj c p 0) by (unfold obj, SLAB_HDR; lia).
  assert (Hhdr : ∀ x, x < p + 40 ∨ p + 4096 <= x →
    load (build_freelist (Z.to_nat (num c - 1)) (obj c p 0) (object_size c) m1) x = load m1 x).
  { intros x Hx. apply build_freelist_other; [done | done | done |]. rewrite <- objs_addrs by done.
    intros Ho. pose proof (objs_range c p x Hf Ho). unfold SLAB_HDR in *. lia. }
  split.
  - split; unfold slab_cache, slab_magic, inuse, freelist; try rewrite Hhdr by lia.
    + unfold m1. by mem_simpl.
    + unfold m1. by mem_simpl.
    + unfold m1. mem_simpl. rewrite length_objs. lia.
    + unfold m1 at 2. mem_simpl. rewrite objs_addrs by done. by apply build_freelist_list.
    + by apply NoDup_objs.
    + done.
  - intros x Hx. rewrite Hhdr by lia. unfold m1. by rewrite !load_store_ne by lia.
Qed.
