(* ===== verification/SlabCache.v ===== *)
(** * Slab caches (src/kernel/slab.c)

    The invariant of a cache, that allocation and release preserve it and keep
    live objects apart and intact; and where the code fails: caches that do not
    fit their slabs, poisoned slabs, and the initialisation. *)
From S2P Require Import Prelude Screen Heap HeapSpec HeapAlloc HeapFree HeapAligned Frames Printk PrintkSpec Slab SlabSpec.

(** ** The lists of a cache *)
Definition pages (c : kmem_cache) : list Z := slabs_full c ++ slabs_partial c ++ slabs_free c.

Lemma elem_of_unlink p q l : q ∈ unlink p l ↔ q ≠ p ∧ q ∈ l.
Proof. unfold unlink. by rewrite list_elem_of_filter. Qed.

Lemma pages_list_del p c : pages (list_del p c) = unlink p (pages c).
Proof. unfold pages, unlink. simpl. by rewrite !filter_app. Qed.

Lemma pages_add p c :
  pages (add_full p c) ≡ₚ p :: pages c ∧ pages (add_partial p c) ≡ₚ p :: pages c ∧
  pages (add_free p c) ≡ₚ p :: pages c.
Proof.
  unfold pages. simpl. split; [done |]. split.
  - symmetry. apply Permutation_middle.
  - rewrite !app_assoc. symmetry. apply Permutation_middle.
Qed.

(** Moving a slab to another list keeps the set of pages. *)
Lemma pages_move p c c' :
  NoDup (pages c) → pages c' ≡ₚ p :: pages (list_del p c) → p ∈ pages c →
  NoDup (pages c') ∧ ∀ q, q ∈ pages c' ↔ q ∈ pages c.
Proof.
  intros Hn Hc Hp. rewrite pages_list_del in Hc. split.
  - rewrite Hc. constructor; [rewrite elem_of_unlink; tauto | by apply NoDup_filter].
  - intros q. rewrite Hc, elem_of_cons, elem_of_unlink. destruct (Z.eq_dec q p) as [->|]; tauto.
Qed.

(** ** The invariant *)

(** [fls p] is the free list of the slab at [p]; a slab is in the list its free
    list calls for. *)
Record cache_ok (s : slab_state) (cp : Z) (c : kmem_cache) (fls : Z → list Z) : Prop := {
  ck_cache : caches s !! cp = Some c;
  ck_ptr : cp ≠ NULL;
  ck_fits : fits c;
  ck_owned : pages_owned (sheap s) (pages c);
  ck_nodup : NoDup (pages c);
  ck_align : ∀ p, p ∈ pages c → p mod 4096 = 0;
  ck_slab : ∀ p, p ∈ pages c → slab_ok cp c (smem s) p (fls p);
  ck_full : ∀ p, p ∈ slabs_full c → fls p = [];
  ck_partial : ∀ p, p ∈ slabs_partial c → 0 < Z.of_nat (length (fls p)) < num c;
  ck_free : ∀ p, p ∈ slabs_free c → Z.of_nat (length (fls p)) = num c;
}.

(** A live object of the cache. *)
Definition live_obj (c : kmem_cache) (fls : Z → list Z) (o : Z) : Prop :=
  ∃ p, p ∈ pages c ∧ o ∈ objs c p ∧ o ∉ fls p.

Definition upd (p : Z) (fl : list Z) (fls : Z → list Z) (q : Z) : list Z :=
  if decide (q = p) then fl else fls q.

Lemma upd_eq p fl fls : upd p fl fls p = fl.
Proof. unfold upd. by rewrite decide_True. Qed.
Lemma upd_ne p fl fls q : q ≠ p → upd p fl fls q = fls q.
Proof. intros. unfold upd. by rewrite decide_False. Qed.

#[global] Opaque upd.

(** The parameters of a cache that its slabs depend on. *)
Definition same_shape (c c' : kmem_cache) : Prop :=
  num c' = num c ∧ object_size c' = object_size c ∧ colour_off c' = colour_off c ∧
  gfporder c' = gfporder c ∧ c_flags c' = c_flags c ∧ ctor c' = ctor c.

Lemma same_shape_trans a b c : same_shape a b → same_shape b c → same_shape a c.
Proof. unfold same_shape. intuition congruence. Qed.

Lemma fits_shape c c' : same_shape c c' → fits c → fits c'.
Proof. intros (E1 & E2 & E3 & E4 & _) []. split; congruence. Qed.

Lemma objs_shape c c' p : same_shape c c' → objs c' p = objs c p.
Proof.
  intros (E1 & E2 & E3 & _). unfold objs. rewrite E1. apply list_fmap_ext. intros i x _.
  unfold obj. congruence.
Qed.

(** A change of slab [p] from [fls p] to [fl]: its memory, its list. *)
Lemma cache_ok_step s cp c fls p fl m c' :
  cache_ok s cp c fls → p ∈ pages c → same_shape c c' →
  (∀ x, x < p ∨ p + 4096 <= x → load m x = load (smem s) x) →
  pages_owned (set_mem m (sheap s)) (pages c) →
  slab_ok cp c m p fl →
  (c' = add_full p (list_del p c) ∧ fl = [] ∨
   c' = add_partial p (list_del p c) ∧ 0 < Z.of_nat (length fl) < num c ∨
   c' = add_free p (list_del p c) ∧ Z.of_nat (length fl) = num c ∨
   c' = c ∧ p ∈ slabs_partial c ∧ 0 < Z.of_nat (length fl) < num c) →
  ∀ st, cache_ok (put_cache cp (set_cstats st c') (set_smem m s)) cp (set_cstats st c') (upd p fl fls).
Proof.
  intros [K1 K2 K3 K4 K5 K6 K7 K8 K9 K10] Hp Hsh Hm Hown Hsl Hc st.
  assert (Hpages : NoDup (pages c') ∧ ∀ q, q ∈ pages c' ↔ q ∈ pages c).
  { destruct (pages_add p (list_del p c)) as (A1 & A2 & A3).
    destruct Hc as [[-> _]|[[-> _]|[[-> _]|[-> _]]]]; try (by eapply pages_move); done. }
  destruct Hpages as [Hnd Hin].
  assert (Hslabs : ∀ q, q ∈ pages c' → slab_ok cp c' m q (upd p fl fls q)).
  { intros q Hq. apply Hin in Hq. apply (slab_ok_cache cp c); try apply Hsh.
    destruct (Z.eq_dec q p) as [->|Hne]; [by rewrite upd_eq |]. rewrite upd_ne by done.
    eapply slab_ok_same_page; [done | | by apply K7]. intros x Hx.
    pose proof (pages_apart p q (K6 p Hp) (K6 q Hq)). apply Hm. lia. }
  assert (Hdisj : (p ∈ slabs_full c' → fl = []) ∧ (p ∈ slabs_partial c' → 0 < Z.of_nat (length fl) < num c) ∧
    (p ∈ slabs_free c' → Z.of_nat (length fl) = num c)).
  { assert (Hu : ∀ l, p ∉ unlink p l) by (intros l; rewrite elem_of_unlink; tauto).
    destruct Hc as [[-> H]|[[-> H]|[[-> H]|(-> & Hpp & H)]]]; simpl.
    - split; [done |]. split; intros Hx; by apply Hu in Hx.
    - split; [intros Hx; by apply Hu in Hx |]. split; [done |]. intros Hx; by apply Hu in Hx.
    - split; [intros Hx; by apply Hu in Hx |]. split; [intros Hx; by apply Hu in Hx | done].
    - unfold pages in K5. apply NoDup_app in K5 as (_ & Hd1 & K5). apply NoDup_app in K5 as (_ & Hd2 & _).
      split; [intros Hx; destruct (Hd1 p Hx); apply elem_of_app; by left |].
      split; [done |]. intros Hx. by destruct (Hd2 p Hpp). }
  assert (Hold : ∀ q, q ≠ p → (q ∈ slabs_full c' → q ∈ slabs_full c) ∧
    (q ∈ slabs_partial c' → q ∈ slabs_partial c) ∧ (q ∈ slabs_free c' → q ∈ slabs_free c)).
  { intros q Hq. destruct Hc as [[-> _]|[[-> _]|[[-> _]|[-> _]]]]; simpl;
      rewrite ?elem_of_cons, ?elem_of_unlink; tauto. }
  destruct Hdisj as (D1 & D2 & D3).
  split; try done.
  - simpl. by rewrite lookup_insert_eq.
  - eapply fits_shape; [exact Hsh | done].
  - eapply pages_owned_sub; [| exact Hown]. intros q. apply Hin.
  - intros q Hq. apply K6. by apply Hin.
  - intros q Hq. apply (slab_ok_cache cp c'); try done. by apply Hslabs.
  - intros q Hq. destruct (Z.eq_dec q p) as [->|Hne]; [rewrite upd_eq; auto |].
    rewrite upd_ne by done. apply K8. by apply (Hold q Hne).
  - intros q Hq. simpl. rewrite (proj1 Hsh).
    destruct (Z.eq_dec q p) as [->|Hne]; [rewrite upd_eq; auto |].
    rewrite upd_ne by done. apply K9. by apply (Hold q Hne).
  - intros q Hq. simpl. rewrite (proj1 Hsh).
    destruct (Z.eq_dec q p) as [->|Hne]; [rewrite upd_eq; auto |].
    rewrite upd_ne by done. apply K10. by apply (Hold q Hne).
Qed.

(** ** Taking and giving objects *)
Lemma take_object_ok s cp c fls p o fl :
  cache_ok s cp c fls → p ∈ slabs_partial c ++ slabs_free c → fls p = o :: fl → has_poison c = false →
  ∃ s' c', take_object cp p s = Ok (o, s') ∧ cache_ok s' cp c' (upd p fl fls) ∧ same_shape c c' ∧
    (∀ q, q ∈ pages c' ↔ q ∈ pages c) ∧
    (∀ x, x ≠ p + 16 → x ≠ p + 24 → load (smem s') x = load (smem s) x).
Proof.
  intros Hok Hp Hfl Hpo. assert (Hpp : p ∈ pages c) by (unfold pages; set_solver).
  pose proof (ck_fits _ _ _ _ Hok) as Hf. pose proof (ft_num _ Hf) as Hn.
  pose proof (pages_owned_range _ _ p (ck_owned _ _ _ _ Hok) Hpp) as [Hp0 Hp1].
  pose proof (ck_slab _ _ _ _ Hok p Hpp) as Hsl. rewrite Hfl in Hsl.
  destruct (slab_take cp c (smem s) p o fl Hf Hp0 Hp1 Hsl) as (T1 & T2 & T3 & T4).
  set (m' := set_inuse p _ _) in *.
  pose proof (slab_ok_length _ _ _ _ _ Hf Hsl) as Hlen. simpl length in Hlen.
  assert (Hnn : o ≠ NULL).
  { pose proof (objs_range c p o Hf (so_objs _ _ _ _ _ Hsl o ltac:(by left))). unfold SLAB_HDR, NULL in *. lia. }
  set (c' := if num c - Z.of_nat (length fl) =? num c then add_full p (list_del p c)
             else if num c - Z.of_nat (length fl) =? 1 then add_partial p (list_del p c) else c).
  assert (Hsh : same_shape c c') by (unfold c'; repeat case_match; done).
  assert (Hmem : ∀ x, x < p ∨ p + 4096 <= x → load m' x = load (smem s) x) by (intros x Hx; apply T4; lia).
  pose proof (pages_owned_memory _ _ p m' (ck_owned _ _ _ _ Hok) Hpp Hmem) as Hown.
  assert (Hnew : ∀ st, cache_ok (put_cache cp (set_cstats st c') (set_smem m' s)) cp (set_cstats st c') (upd p fl fls)).
  { apply (cache_ok_step s cp c fls p fl m' c' Hok Hpp Hsh Hmem Hown T2). unfold c'.
    destruct (Z.eqb_spec (num c - Z.of_nat (length fl)) (num c)) as [E|E].
    { left. split; [done |]. destruct fl; [done | simpl in E; lia]. }
    destruct (Z.eqb_spec (num c - Z.of_nat (length fl)) 1) as [E1|E1]; right; [left; split; [done | lia] |].
    right; right. split; [done |]. split; [| lia].
    apply elem_of_app in Hp as [Hp|Hp]; [done |]. apply (ck_free _ _ _ _ Hok) in Hp.
    rewrite Hfl in Hp. simpl in Hp. lia. }
  exists (put_cache cp (set_cstats (add_active (c_stats c')) c') (set_smem m' s)),
    (set_cstats (add_active (c_stats c')) c').
  split; [| split; [apply Hnew | split; [done | split; [| exact T4]]]].
  - unfold take_object. rewrite (ck_cache _ _ _ _ Hok). cbv zeta. rewrite T1.
    destruct (Z.eqb_spec o NULL); [done |]. unfold m' in T3 |- *. rewrite <- T1, T3.
    fold c'. assert (Hp' : has_poison c' = false) by (unfold has_poison; by rewrite (proj1 (proj2 (proj2 (proj2 (proj2 Hsh)))))).
    by rewrite Hp'.
  - intros q. unfold c'. destruct (pages_add p (list_del p c)) as (A1 & A2 & A3).
    repeat case_match; try done; by apply (pages_move p c); [apply Hok | |].
Qed.

Lemma kmem_cache_free_post s cp c fls p o :
  cache_ok s cp c fls → has_poison c = false →
  p ∈ pages c → o ∈ objs c p → o ∉ fls p →
  ∃ s' c', kmem_cache_free cp o s = Ok (tt, s') ∧ cache_ok s' cp c' (upd p (o :: fls p) fls) ∧ same_shape c c' ∧
    ∀ o', live_obj c fls o' → o' ≠ o →
      live_obj c' (upd p (o :: fls p) fls) o' ∧
      ∀ x, o' <= x < o' + object_size c → load (smem s') x = load (smem s) x.
Proof.
  intros Hok Hpo Hpp Ho Hlive. pose proof Hok as [K1 K2 K3 K4 K5 K6 K7 K8 K9 K10].
  pose proof (ft_num _ K3) as Hn.
  pose proof (pages_owned_range _ _ p K4 Hpp) as [Hp0 Hp1]. pose proof (K7 p Hpp) as Hsl.
  destruct (slab_give cp c (smem s) p o (fls p) K3 Hp0 Hp1 Hsl Ho Hlive) as (T1 & T2 & T3).
  set (m' := set_inuse p _ _) in *. pose proof (objs_range c p o K3 Ho) as Hr.
  pose proof (ft_size _ K3) as Hsz. unfold SLAB_HDR in Hr.
  pose proof (slab_ok_length _ _ _ _ _ K3 T1) as Hlen. simpl length in Hlen, T2.
  set (c' := if num c - Z.of_nat (S (length (fls p))) =? 0 then add_free p (list_del p c)
             else if num c - Z.of_nat (S (length (fls p))) =? u32 (num c - 1)
             then add_partial p (list_del p c) else c).
  assert (Hsh : same_shape c c') by (unfold c'; repeat case_match; done).
  assert (Hnum : num c < 4096) by (pose proof (ft_room _ K3); pose proof (ft_off _ K3); unfold SLAB_HDR in *; nia).
  assert (Hmem : ∀ x, x < p ∨ p + 4096 <= x → load m' x = load (smem s) x) by (intros x Hx; apply T3; lia).
  pose proof (pages_owned_memory _ _ p m' K4 Hpp Hmem) as Hown.
  assert (Hnew : ∀ st, cache_ok (put_cache cp (set_cstats st c') (set_smem m' s)) cp (set_cstats st c')
    (upd p (o :: fls p) fls)).
  { apply (cache_ok_step s cp c fls p _ m' c' Hok Hpp Hsh Hmem Hown T1). simpl length. unfold c'.
    rewrite u32_small by (unfold is_u32; lia).
    destruct (Z.eqb_spec (num c - Z.of_nat (S (length (fls p)))) 0) as [E|E].
    { right; right; left. split; [done | lia]. }
    destruct (Z.eqb_spec (num c - Z.of_nat (S (length (fls p)))) (num c - 1)) as [E1|E1];
      right; [left; split; [done | lia] |].
    right; right. split; [done |]. split; [| lia].
    unfold pages in Hpp. apply elem_of_app in Hpp as [Hx|Hx].
    { apply K8 in Hx. rewrite Hx in E1. simpl in E1. lia. }
    apply elem_of_app in Hx as [Hx|Hx]; [done |]. apply K10 in Hx. lia. }
  assert (Hpg : ∀ q, q ∈ pages c' ↔ q ∈ pages c).
  { intros q. unfold c'. destruct (pages_add p (list_del p c)) as (A1 & A2 & A3).
    repeat case_match; try done; by apply (pages_move p c). }
  exists (put_cache cp (set_cstats (drop_active (c_stats c')) c') (set_smem m' s)),
    (set_cstats (drop_active (c_stats c')) c').
  split; [| split; [apply Hnew | split; [done |]]].
  - unfold kmem_cache_free. destruct (Z.eqb_spec cp NULL); [done |].
    destruct (Z.eqb_spec o NULL); [unfold NULL in *; lia |]. cbn [orb]. rewrite K1. cbv zeta.
    rewrite (slab_of_obj c p o K3 (K6 p Hpp) ltac:(lia) Hp1 Ho).
    rewrite (so_magic _ _ _ _ _ Hsl), (so_cache _ _ _ _ _ Hsl), !Z.eqb_refl, Hpo. cbn [negb orb].
    fold m'. rewrite T2. done.
  - intros o' (q & Hq & Ho' & Hl') Hne. split.
    + exists q. split; [by apply Hpg |]. split; [by rewrite (objs_shape c) by done |].
      destruct (Z.eq_dec q p) as [->|]; [rewrite upd_eq | by rewrite upd_ne].
      rewrite elem_of_cons. tauto.
    + intros x Hx. pose proof (objs_range c q o' K3 Ho') as Hr'. unfold SLAB_HDR in Hr'.
      destruct (Z.eq_dec q p) as [->|Hqp].
      * pose proof (objs_disjoint c p o o' K3 Ho Ho' ltac:(congruence)). apply T3; lia.
      * pose proof (pages_apart p q (K6 p Hpp) (K6 q Hq)). apply Hmem. lia.
Qed.

(** C28. Releasing a live object returns, marks it free and keeps the cache well
    formed; every other live object stays live with its contents. *)
Theorem kmem_cache_free_ok s cp c fls p o :
  cache_ok s cp c fls → has_poison c = false →
  p ∈ pages c → o ∈ objs c p → o ∉ fls p →
  ∃ s' c', kmem_cache_free cp o s = Ok (tt, s') ∧ cache_ok s' cp c' (upd p (o :: fls p) fls) ∧
    ∀ o', live_obj c fls o' → o' ≠ o →
      live_obj c' (upd p (o :: fls p) fls) o' ∧
      ∀ x, o' <= x < o' + object_size c → load (smem s') x = load (smem s) x.
Proof.
  intros Hok Hpo Hp Ho Hl. destruct (kmem_cache_free_post s cp c fls p o Hok Hpo Hp Ho Hl) as (s' & c' & E & Hok' & _ & H).
  by exists s', c'.
Qed.

(** ** Growing *)
Lemma cache_ok_heap s cp c fls h :
  cache_ok s cp c fls → pages_owned h (pages c) →
  (∀ q, q ∈ pages c → same_page q (smem s) (mem h)) → cache_ok (set_sheap h s) cp c fls.
Proof.
  intros [K1 K2 K3 K4 K5 K6 K7 K8 K9 K10] Hown Hsame. split; try done.
  intros q Hq. eapply slab_ok_same_page; [done | by apply Hsame | by apply K7].
Qed.

Lemma cache_grow_ok s cp c fls :
  cache_ok s cp c fls → has_poison c = false → ctor c = None →
  ∃ r s' c', cache_grow cp s = Ok (r, s') ∧ same_shape c c' ∧
    (∀ q, q ∈ pages c → same_page q (smem s) (smem s')) ∧
    ((r = -1 ∧ c' = c ∧ cache_ok s' cp c fls) ∨
     (r = 0 ∧ ∃ p, p ∉ pages c ∧ cache_ok s' cp c' (upd p (objs c p) fls) ∧
        slabs_full c' = slabs_full c ∧ slabs_partial c' = slabs_partial c ∧ slabs_free c' = p :: slabs_free c)).
Proof.
  intros Hok Hpo Hct. pose proof Hok as [K1 K2 K3 K4 K5 K6 K7 K8 K9 K10].
  destruct (get_page _ _ K4) as (p & h' & Hk & Hsame & Hp).
  unfold cache_grow. rewrite K1. unfold alloc_slab. rewrite (ft_order _ K3).
  change (u32 (PAGE_SIZE * Z.shiftl 1 0)) with 4096. change PAGE_SIZE with 4096.
  unfold on_heap. rewrite Hk. ok_bind.
  destruct Hp as [[-> Hown]|(Hnn & Hown & Hmod & Hnew)].
  { exists (-1), (set_sheap h' s), c. split; [done |]. split; [done |]. split; [exact Hsame |]. left.
    split; [done |]. split; [done |]. by apply cache_ok_heap. }
  assert (E0 : (p =? NULL) = false) by (by apply Z.eqb_neq). rewrite E0. ok_bind. rewrite E0.
  pose proof (pages_owned_range _ _ p Hown ltac:(by left)) as [Hp0 Hp1].
  destruct (init_slab_ok cp c p (mem h') K3 Hp0 Hp1 Hpo Hct) as [Hs Hother].
  change (smem (set_sheap h' s)) with (mem h').
  set (m := init_slab cp c p (mem h')) in *.
  set (c1 := set_cstats (add_allocated (num c) (c_stats c)) c).
  set (s1 := put_cache cp c1 (set_smem m (set_sheap h' s))).
  change (caches s1) with (<[cp := c1]> (caches s)). rewrite lookup_insert_eq.
  change (smem s1) with m.
  assert (Hin : inuse m p = 0) by (rewrite (so_inuse _ _ _ _ _ Hs), length_objs; pose proof (ft_num _ K3); lia).
  rewrite Hin. exists 0, (put_cache cp (add_free p c1) s1), (add_free p c1).
  assert (Hsh : same_shape c (add_free p c1)) by done.
  assert (Hap : ∀ q, q ∈ pages c → p + 4096 <= q ∨ q + 4096 <= p)
    by (intros q Hq; apply pages_apart; [done | by apply K6 | congruence]).
  assert (Hkeep : ∀ q, q ∈ pages c → same_page q (smem s) m).
  { intros q Hq x Hx. rewrite Hother by (pose proof (Hap q Hq); lia). by apply (Hsame q Hq). }
  split; [done |]. split; [done |]. split; [exact Hkeep |]. right. split; [done |].
  exists p. split; [done |]. split; [| done].
  destruct (pages_add p c1) as (_ & _ & A3). change (pages c1) with (pages c) in A3.
  split; try done.
  - simpl. by rewrite lookup_insert_eq.
  - by apply (fits_shape c).
  - apply (pages_owned_sub _ (p :: pages c)); [intros q Hq; by rewrite A3 in Hq |].
    apply (pages_owned_memory h' _ p m); [done | by left | exact Hother].
  - rewrite A3. by constructor.
  - intros q Hq. rewrite A3 in Hq. apply elem_of_cons in Hq as [->|Hq]; auto.
  - intros q Hq. rewrite A3 in Hq. apply (slab_ok_cache cp c); try done.
    apply elem_of_cons in Hq as [->|Hq]; [by rewrite upd_eq |].
    rewrite upd_ne by congruence. eapply slab_ok_same_page; [done | by apply Hkeep | by apply K7].
  - intros q Hq. rewrite upd_ne; [by apply K8 |]. intros ->. apply Hnew. unfold pages. set_solver.
  - intros q Hq. rewrite upd_ne; [by apply K9 |]. intros ->. apply Hnew. unfold pages. set_solver.
  - intros q Hq. apply elem_of_cons in Hq as [->|Hq].
    + rewrite upd_eq, length_objs. simpl. pose proof (ft_num _ K3). lia.
    + rewrite upd_ne; [by apply K10 |]. intros ->. apply Hnew. unfold pages. set_solver.
Qed.

(** What is promised of an allocation that returned [o]. *)
Definition alloc_post (s : slab_state) (cp : Z) (c : kmem_cache) (fls : Z → list Z) (o : Z)
    (s' : slab_state) (c' : kmem_cache) (fls' : Z → list Z) : Prop :=
  cache_ok s' cp c' fls' ∧ same_shape c c' ∧ live_obj c' fls' o ∧ ¬ live_obj c fls o ∧
  ∀ o', live_obj c fls o' → live_obj c' fls' o' ∧
    (o' + object_size c <= o ∨ o + object_size c <= o') ∧
    ∀ x, o' <= x < o' + object_size c → load (smem s') x = load (smem s) x.

Lemma take_object_post s cp c fls p o fl :
  cache_ok s cp c fls → p ∈ slabs_partial c ++ slabs_free c → fls p = o :: fl → has_poison c = false →
  ∃ s' c', take_object cp p s = Ok (o, s') ∧ alloc_post s cp c fls o s' c' (upd p fl fls).
Proof.
  intros Hok Hp Hfl Hpo.
  destruct (take_object_ok s cp c fls p o fl Hok Hp Hfl Hpo) as (s' & c' & E & Hok' & Hsh & Hpg & Hmem).
  assert (Hpp : p ∈ pages c) by (unfold pages; set_solver).
  pose proof Hok as [K1 K2 K3 K4 K5 K6 K7 K8 K9 K10].
  pose proof (K7 p Hpp) as Hsl. rewrite Hfl in Hsl.
  pose proof (so_objs _ _ _ _ _ Hsl o ltac:(by left)) as Ho.
  pose proof (so_nodup _ _ _ _ _ Hsl) as Hnd. apply NoDup_cons in Hnd as [Hnd _].
  pose proof (objs_range c p o K3 Ho) as Hr. unfold SLAB_HDR in Hr. pose proof (ft_size _ K3) as Hsz.
  assert (Hdead : ¬ live_obj c fls o).
  { intros (q & Hq & Hoq & Hl). pose proof (objs_range c q o K3 Hoq) as Hr'. unfold SLAB_HDR in Hr'.
    destruct (Z.eq_dec q p) as [->|Hqp]; [rewrite Hfl in Hl; apply Hl; by left |].
    pose proof (pages_apart p q (K6 p Hpp) (K6 q Hq)). lia. }
  exists s', c'. split; [done |]. split; [done |]. split; [done |]. split; [| split; [done |]].
  { exists p. split; [by apply Hpg |]. rewrite (objs_shape c) by done. by rewrite upd_eq. }
  intros o' Hl'. assert (Hne : o ≠ o') by congruence. destruct Hl' as (q & Hq & Ho' & Hl').
  pose proof (objs_range c q o' K3 Ho') as Hr'. unfold SLAB_HDR in Hr'. split; [| split].
  - exists q. split; [by apply Hpg |]. rewrite (objs_shape c) by done. split; [done |].
    destruct (Z.eq_dec q p) as [->|]; [rewrite upd_eq | by rewrite upd_ne].
    rewrite Hfl, elem_of_cons in Hl'. tauto.
  - destruct (Z.eq_dec q p) as [->|Hqp].
    + pose proof (objs_disjoint c p o o' K3 Ho Ho' Hne). lia.
    + pose proof (pages_apart p q (K6 p Hpp) (K6 q Hq)). lia.
  - intros x Hx. destruct (Z.eq_dec q p) as [->|Hqp]; [apply Hmem; lia |].
    pose proof (pages_apart p q (K6 p Hpp) (K6 q Hq)). apply Hmem; lia.
Qed.

Lemma kmem_cache_alloc_cases s cp c fls :
  cache_ok s cp c fls → has_poison c = false → ctor c = None →
  ∃ o s' c' fls', kmem_cache_alloc cp s = Ok (o, s') ∧
    (o = NULL ∧ slabs_partial c = [] ∧ slabs_free c = [] ∧ c' = set_cstats (add_error (c_stats c)) c ∧ cache_ok s' cp c' fls ∨
     o ≠ NULL ∧ alloc_post s cp c fls o s' c' fls').
Proof.
  intros Hok Hpo Hct. pose proof Hok as [K1 K2 K3 K4 K5 K6 K7 K8 K9 K10].
  assert (Htake : ∀ p, p ∈ slabs_partial c ++ slabs_free c →
    ∃ o s' c' fls', take_object cp p s = Ok (o, s') ∧ o ≠ NULL ∧ alloc_post s cp c fls o s' c' fls').
  { intros p Hp. assert (Hpp : p ∈ pages c) by (unfold pages; set_solver).
    destruct (fls p) as [|o fl] eqn:Efl.
    { exfalso. pose proof (ft_num _ K3). apply elem_of_app in Hp as [Hp|Hp];
        [apply K9 in Hp | apply K10 in Hp]; rewrite Efl in Hp; simpl in Hp; lia. }
    destruct (take_object_post s cp c fls p o fl Hok Hp Efl Hpo) as (s' & c' & E & Hpost).
    exists o, s', c', (upd p fl fls). split; [done |]. split; [| done].
    destruct Hpost as (Hok' & _ & (q & Hq & Ho & _) & _).
    pose proof (objs_range c' q o (ck_fits _ _ _ _ Hok') Ho).
    pose proof (pages_owned_range _ _ q (ck_owned _ _ _ _ Hok') Hq). unfold SLAB_HDR, NULL in *. lia. }
  unfold kmem_cache_alloc. destruct (Z.eqb_spec cp NULL); [done |]. rewrite K1. unfold pick_slab.
  destruct (slabs_partial c) as [|p ps] eqn:Epart.
  2:{ destruct (Htake p ltac:(by left)) as (o & s' & c' & fls' & E & Ho & Hpost).
      exists o, s', c', fls'. split; [exact E |]. by right. }
  destruct (slabs_free c) as [|p ps] eqn:Efree; simpl head; cbv iota.
  2:{ destruct (Htake p ltac:(by left)) as (o & s' & c' & fls' & E & Ho & Hpost).
      exists o, s', c', fls'. split; [exact E |]. by right. }
  clear Htake.
  destruct (cache_grow_ok s cp c fls Hok Hpo Hct) as (r & s1 & c1 & -> & Hsh & Hsame & Hcase). ok_bind.
  destruct Hcase as [(-> & -> & Hok1)|(-> & p & Hp & Hok1 & F1 & F2 & F3)].
  - rewrite (ck_cache _ _ _ _ Hok1). cbn [Z.ltb Z.compare].
    exists NULL, (put_cache cp (set_cstats (add_error (c_stats c)) c) s1), (set_cstats (add_error (c_stats c)) c), fls.
    split; [done |]. left. split; [done |]. split; [done |]. split; [done |]. split; [done |].
    destruct Hok1 as [L1 L2 L3 L4 L5 L6 L7 L8 L9 L10]. split; try done; [simpl; by rewrite lookup_insert_eq | by apply (fits_shape c) |].
    intros q Hq. apply (slab_ok_cache cp c); try done. by apply L7.
  - rewrite (ck_cache _ _ _ _ Hok1), F3. cbn [Z.ltb Z.compare].
    destruct (objs c p) as [|o fl] eqn:Eo.
    { exfalso. pose proof (length_objs c p) as HL. rewrite Eo in HL. simpl in HL. pose proof (ft_num _ K3). lia. }
    assert (Hpo1 : has_poison c1 = false) by (unfold has_poison; destruct Hsh as (_ & _ & _ & _ & -> & _); done).
    destruct (take_object_post s1 cp c1 (upd p (o :: fl) fls) p o fl Hok1) as (s' & c' & E & P1 & P0 & P2 & P3 & P4);
      [rewrite F3; set_solver | by rewrite upd_eq | done |].
    exists o, s', c', (upd p fl (upd p (o :: fl) fls)). split; [exact E |]. right. split.
    { destruct P2 as (q & Hq & Ho & _). pose proof (objs_range c' q o (ck_fits _ _ _ _ P1) Ho).
      pose proof (pages_owned_range _ _ q (ck_owned _ _ _ _ P1) Hq). unfold SLAB_HDR, NULL in *. lia. }
    assert (Hup : ∀ o', live_obj c fls o' → live_obj c1 (upd p (o :: fl) fls) o').
    { intros o' (q & Hq & Ho & Hl). exists q. rewrite (objs_shape c) by done.
      rewrite upd_ne by congruence. split; [| done]. unfold pages in *. rewrite F1, F2, F3. set_solver. }
    pose proof (same_shape_trans _ _ _ Hsh P0) as Hsh2. destruct Hsh as (_ & Esz & _). rewrite Esz in P4.
    split; [done |]. split; [done |]. split; [done |]. split; [intros Hl; by apply P3, Hup |].
    intros o' Hl. destruct (P4 o' (Hup o' Hl)) as (Q1 & Q2 & Q3). split; [done |]. split; [done |].
    intros x Hx. rewrite Q3 by done. destruct Hl as (q & Hq & Ho & _).
    apply (Hsame q Hq). pose proof (objs_range c q o' K3 Ho). unfold SLAB_HDR in *. lia.
Qed.


(** ** Sizes of slabs, and initialisation *)
Lemma calculate_objects_room size align flags :
  4 <= size <= 4056 → Z.land flags SLAB_HWCACHE_ALIGN = 0 →
  let n := calculate_objects 0 size align flags in
  0 < n ∧ SLAB_HDR + n * size <= 4096.
Proof.
  intros Hs Hf. unfold calculate_objects. rewrite Hf. cbn [negb Z.eqb andb]. cbv zeta.
  change (u32 (PAGE_SIZE * Z.shiftl 1 0 - SLAB_HDR)) with 4056. unfold SLAB_HDR.
  assert (0 < 4056 / size) by (apply Z.div_str_pos; lia).
  pose proof (Z.mul_div_le 4056 size). lia.
Qed.

(** The objects of a cache created without cache-line alignment fit into a
    slab.  With it they do not: for every size class of [kmalloc] (all are
    created with that flag) the last object reaches beyond the end of the
    slab, since the remainder of the page is counted as one more object and the
    colour offset is not counted. *)
Theorem new_cache_fits name size align flags ct dt :
  (4 <= size <= 4056 → Z.land flags SLAB_HWCACHE_ALIGN = 0 → fits (new_cache name size align flags ct dt)) ∧
  Forall (λ size, let c := new_cache name size 0 SLAB_HWCACHE_ALIGN ct dt in
                  4096 < SLAB_HDR + colour_off c + num c * object_size c) (take 11 kmalloc_sizes).
Proof.
  split.
  - intros Hs Hf. destruct (calculate_objects_room size align flags Hs Hf) as [Hn Hr].
    unfold new_cache, calculate_colours. rewrite Hf. split; simpl; try done; lia.
  - repeat constructor.
Qed.

Lemma new_cache_num name n ct dt :
  0 < n <= KMALLOC_MAX_SIZE → num (new_cache name n 0 SLAB_HWCACHE_ALIGN ct dt) ≠ 0.
Proof.
  intros Hn. unfold new_cache. destruct (calculate_colours _ _) as [a b]. simpl. unfold calculate_objects.
  change (u32 (PAGE_SIZE * Z.shiftl 1 0 - SLAB_HDR)) with 4056. cbv zeta.
  assert (0 <= 4056 / n) by (apply Z.div_pos; lia).
  change (negb (Z.land SLAB_HWCACHE_ALIGN SLAB_HWCACHE_ALIGN =? 0)) with true. cbn [andb].
  case Z.leb_spec; intros Hm; [lia |].
  assert (4056 / n ≠ 0); [| done]. intros Hz. apply Z.div_small_iff in Hz; [| lia].
  rewrite Z.mod_small in Hm; lia.
Qed.

Lemma create_class name n s bs :
  heap_ok (sheap s) bs → 0 < n →
  ∃ cp s', kmem_cache_create name n 0 SLAB_HWCACHE_ALIGN None None s = Ok (cp, s') ∧
    (KMALLOC_MAX_SIZE < n → cp = NULL) ∧ ∃ bs', heap_ok (sheap s') bs'.
Proof.
  intros Hok Hn. unfold kmem_cache_create. destruct (Z.eqb_spec n 0); [lia |]. cbn [orb].
  destruct (Z.ltb_spec KMALLOC_MAX_SIZE n) as [Hb|Hb].
  { exists NULL, s. split; [done |]. split; [done |]. by exists bs. }
  unfold on_heap. destruct (kmalloc_returns CACHE_STRUCT _ _ Hok ltac:(unfold CACHE_STRUCT; lia)) as (cp & h & Hk).
  destruct (kmalloc_heap_ok CACHE_STRUCT _ _ _ _ Hok ltac:(unfold CACHE_STRUCT; lia) Hk) as [bs' Hok'].
  rewrite Hk. ok_bind. destruct (cp =? NULL).
  { exists NULL, (set_sheap h s). split; [done |]. split; [lia |]. by exists bs'. }
  destruct (Z.eqb_spec (num (new_cache name n 0 SLAB_HWCACHE_ALIGN None None)) 0) as [Hz|_].
  { exfalso. by apply (new_cache_num name n None None). }
  eexists cp, _. split; [done |]. split; [lia |]. by exists bs'.
Qed.

Lemma create_classes_panics sizes : ∀ made s bs,
  heap_ok (sheap s) bs →
  Forall (λ n, 0 < n ∧ ∃ name, sprintf (bytes_of "kmalloc-%d") [AInt n] = Ok name) sizes →
  Exists (λ n, KMALLOC_MAX_SIZE < n) sizes →
  create_classes sizes made s = Panic "Failed to create kmalloc cache".
Proof.
  induction sizes as [|n sizes IH]; intros made s bs Hok Hall Hex; [by inversion Hex |].
  inversion Hall as [|? ? [Hn [name Hname]] Hall']; subst. cbn [create_classes]. rewrite Hname. ok_bind.
  destruct (create_class name n s bs Hok Hn) as (cp & s' & -> & Hnull & bs' & Hok'). ok_bind.
  destruct (Z.eqb_spec cp NULL) as [|Hcp]; [done |].
  apply (IH _ _ bs' Hok' Hall'). inversion Hex; subst; [| done]. exfalso. by apply Hcp, Hnull.
Qed.

(** [slab_init] panics on every well-formed heap: its largest size class,
    16384 bytes, is above the limit of [kmem_cache_create]. *)
Theorem slab_init_panics s bs :
  heap_ok (sheap s) bs → slab_init s = Panic "Failed to create kmalloc cache".
Proof.
  intros Hok. apply (create_classes_panics _ _ _ bs); [done | |].
  - unfold kmalloc_sizes. repeat constructor; try lia;
      (eexists; apply vsnprintf_take; [unfold INT_MAX; lia | vm_compute; reflexivity]).
  - unfold kmalloc_sizes. do 11 apply Exists_cons_tl. apply Exists_cons_hd. vm_compute. reflexivity.
Qed.

(** ** Poisoned slabs *)
Lemma fill_words_below n : ∀ a b m x, x < a → load (fill_words n a b m) x = load m x.
Proof.
  induction n as [|n IH]; intros a b m x Hx; simpl; [done |].
  rewrite IH by lia. apply load_store_ne. lia.
Qed.

Lemma poison_below n : ∀ a size b k m x,
  0 <= a → 0 <= size → a + Z.of_nat n * size < 4294967296 → x < a →
  load (each_object n a size (λ o, memset o b k) m) x = load m x.
Proof.
  induction n as [|n IH]; intros a size b k m x Ha Hs Hb Hx; cbn [each_object]; [done |].
  rewrite u32_small by (unfold is_u32; nia). rewrite IH by nia. by apply fill_words_below.
Qed.

(** In a cache with [SLAB_POISON] the links of a new slab's free list are
    overwritten: the word in the first object, which becomes the free list when
    that object is allocated, is the poison and not the next object. *)
Theorem poison_breaks_freelist cp c p m :
  fits c → 0 < p → p + 4096 < 4294967296 → has_poison c = true → ctor c = None →
  load (init_slab cp c p m) (obj c p 0) = 0x5A5A5A5A.
Proof.
  intros Hf Hp Hb Hpo Hct. pose proof Hf as [H1 H2 H3 H4 H5]. unfold init_slab.
  rewrite Hpo, Hct, H5. cbv zeta. unfold SLAB_HDR in *.
  rewrite (u32_small (p + 40 + colour_off c)) by (unfold is_u32; nia).
  replace (obj c p 0) with (p + 40 + colour_off c) by (unfold obj, SLAB_HDR; lia).
  destruct (Z.to_nat (num c)) as [|n] eqn:En; [lia |]. cbn [each_object].
  rewrite u32_small by (unfold is_u32; nia). rewrite poison_below by nia. unfold memset.
  destruct (Z.to_nat (object_size c / 4)) as [|k] eqn:Ek; [lia |]. cbn [fill_words].
  rewrite fill_words_below by lia. by rewrite load_store_eq.
Qed.
