(* ===== verification/SlabWitness.v ===== *)
(** * A cache on which the theorems on the slab allocator apply *)
From S2P Require Import Prelude Screen Heap HeapSpec HeapAlloc HeapFree HeapAligned HeapWitness Frames.
From S2P Require Import Printk PrintkSpec Slab SlabSpec SlabCache.

(** A new cache of 64-byte objects at address 64. *)
Definition sample_cache : kmem_cache := new_cache (bytes_of "sample") 64 0 0 None None.
Definition sample_slabs : slab_state := SlabState boot {[ 64 := sample_cache ]} [64] [].

Lemma sample_cache_ok : cache_ok sample_slabs 64 sample_cache (λ _, []).
Proof.
  assert (Hnil : ∀ P : Z → Prop, ∀ p, p ∈ @nil Z → P p) by (intros P p Hp; by apply not_elem_of_nil in Hp).
  constructor; [| | | | | exact (Hnil _) | exact (Hnil _) | exact (Hnil _) | exact (Hnil _) | exact (Hnil _)].
  - apply lookup_singleton_eq.
  - discriminate.
  - split; vm_compute; [reflexivity | discriminate | discriminate | discriminate | reflexivity].
  - exists (blocks boot). split; [exact boot_ok | exact (Hnil _)].
  - constructor.
Qed.


Lemma slab_init_panics_witness : slab_init sample_slabs = Panic "Failed to create kmalloc cache".
Proof. exact (slab_init_panics sample_slabs (blocks boot) boot_ok). Defined.

(** The same cache after one allocation. *)
Definition used_slabs : slab_state :=
  match kmem_cache_alloc 64 sample_slabs with Ok (_, s) => s | _ => sample_slabs end.
Definition used_object : Z :=
  match kmem_cache_alloc 64 sample_slabs with Ok (o, _) => o | _ => NULL end.

Lemma used_object_some : used_object ≠ NULL.
Proof. apply Z.eqb_neq. vm_compute. reflexivity. Qed.

Lemma used_slabs_ok : ∃ c fls, cache_ok used_slabs 64 c fls ∧ live_obj c fls used_object ∧ has_poison c = false.
Proof.
  pose proof used_object_some as Hne.
  destruct (kmem_cache_alloc_cases sample_slabs 64 sample_cache (λ _, []) sample_cache_ok eq_refl eq_refl)
    as (o & s' & c' & fls' & E & Hcase). unfold used_slabs, used_object in *. rewrite E in *.
  destruct Hcase as [[-> _]|[_ (Hok & Hsh & Hl & _)]]; [by destruct Hne |].
  exists c', fls'. split; [exact Hok |]. split; [exact Hl |].
  unfold has_poison. destruct Hsh as (_ & _ & _ & _ & -> & _). reflexivity.
Qed.

Lemma kmem_cache_free_ok_witness :
  ∃ s', kmem_cache_free 64 used_object used_slabs = Ok (tt, s').
Proof.
  destruct used_slabs_ok as (c & fls & Hok & (p & Hp & Ho & Hl) & Hpo).
  destruct (kmem_cache_free_ok used_slabs 64 c fls p used_object Hok Hpo Hp Ho Hl) as (s' & c' & E & _).
  exists s'. exact E.
Defined.
