(* ===== verification/Lists.v ===== *)
(** * The kernel's circular doubly linked lists

    [struct list_head] and the operations on it ([list_add], [list_add_tail],
    [list_del_init], [list_del], [list_empty]) are used by the scheduler and the
    Linux-style filesystem layer but declared by a header that is not part of the
    sources; only [INIT_LIST_HEAD] is
    (src/include/linux_vfs.h).  They are a parameter: the class [ListApi] has the
    operations on a store of links and, as laws, their documented behaviour.
    [linux_lists] shows that the laws can hold. *)
From stdpp Require Import functions.
From S2P Require Import Prelude.


Section Links.
Context {A : Type} `{EqDecision A}.

(** The [next] and [prev] pointers of every node. *)
Record links := Links { next : A → A; prev : A → A }.

Definition INIT_LIST_HEAD (a : A) (L : links) : links :=
  Links (<[a := a]> (next L)) (<[a := a]> (prev L)).

(** [segment L p xs q]: from [p] through [xs] to [q], in both directions. *)
Fixpoint segment (L : links) (p : A) (xs : list A) (q : A) : Prop :=
  match xs with
  | [] => next L p = q ∧ prev L q = p
  | x :: xs => next L p = x ∧ prev L x = p ∧ segment L x xs q
  end.

(** The list with head [h] and nodes [xs]. *)
Definition linked (L : links) (h : A) (xs : list A) : Prop :=
  NoDup (h :: xs) ∧ segment L h xs h.

(** [L'] differs from [L] only at nodes of [l]. *)
Definition same_outside (l : list A) (L L' : links) : Prop :=
  ∀ a, a ∉ l → next L' a = next L a ∧ prev L' a = prev L a.

Lemma segment_app L xs x ys : ∀ p q,
  segment L p (xs ++ x :: ys) q ↔ segment L p xs x ∧ segment L x ys q.
Proof. induction xs as [|y xs IH]; intros p q; simpl; [tauto | rewrite IH; tauto]. Qed.

Lemma segment_ext L L' xs : ∀ p q,
  (∀ a, a ∈ p :: xs → next L' a = next L a) → (∀ a, a ∈ xs ++ [q] → prev L' a = prev L a) →
  segment L p xs q → segment L' p xs q.
Proof.
  induction xs as [|x xs IH]; intros p q Hn Hp; simpl.
  - rewrite Hn, Hp by set_solver. done.
  - rewrite Hn, Hp by set_solver. intros (? & ? & ?). split_and!; [done | done |].
    apply IH; [set_solver | set_solver | done].
Qed.

Lemma linked_ext L L' h xs :
  (∀ a, a ∈ h :: xs → next L' a = next L a ∧ prev L' a = prev L a) → linked L h xs → linked L' h xs.
Proof.
  intros H [HN Hs]. split; [done |]. apply (segment_ext L); [| | done].
  - intros a Ha. by apply H.
  - intros a Ha. apply H. set_solver.
Qed.

Lemma linked_frame l L L' h xs : same_outside l L L' → (∀ a, a ∈ h :: xs → a ∉ l) → linked L h xs → linked L' h xs.
Proof. intros Hs Hd. apply linked_ext. intros a Ha. by apply Hs, Hd. Qed.

Lemma linked_init L a : linked (INIT_LIST_HEAD a L) a [].
Proof. split; [apply NoDup_singleton |]. simpl. by rewrite !fn_lookup_insert. Qed.

Lemma linked_next L h xs : linked L h xs → next L h = default h (head xs).
Proof. intros [_ Hs]. destruct xs; simpl in Hs |- *; tauto. Qed.

(** A node of a list does not point to itself. *)
Lemma linked_node_next L h xs x : linked L h xs → x ∈ xs → next L x ≠ x.
Proof.
  intros [HN Hs] (l1 & l2 & ->)%list_elem_of_split.
  apply segment_app in Hs as [_ Hs].
  destruct l2 as [|y l2]; simpl in Hs; destruct Hs as [-> _]; intros ->;
    apply NoDup_cons in HN as [Hh HN]; [set_solver |].
  apply NoDup_app in HN as (_ & _ & HN). apply NoDup_cons in HN as [HN _]. set_solver.
Qed.
End Links.
Arguments links : clear implicits.

(** The operations and their documented behaviour. *)
Class ListApi := {
  list_add {A} `{EqDecision A} : A → A → links A → links A;
  list_add_tail {A} `{EqDecision A} : A → A → links A → links A;
  list_del_init {A} `{EqDecision A} : A → links A → links A;
  list_del {A} `{EqDecision A} : A → links A → links A;
  list_empty {A} `{EqDecision A} : A → links A → bool;
  list_add_linked {A} `{EqDecision A} (x h : A) xs L :
    linked L h xs → x ∉ h :: xs → linked (list_add x h L) h (x :: xs);
  list_add_frame {A} `{EqDecision A} (x h : A) xs L :
    linked L h xs → same_outside (x :: h :: xs) L (list_add x h L);
  list_add_tail_linked {A} `{EqDecision A} (x h : A) xs L :
    linked L h xs → x ∉ h :: xs → linked (list_add_tail x h L) h (xs ++ [x]);
  list_add_tail_frame {A} `{EqDecision A} (x h : A) xs L :
    linked L h xs → same_outside (x :: h :: xs) L (list_add_tail x h L);
  list_del_init_linked {A} `{EqDecision A} (x h : A) xs ys L :
    linked L h (xs ++ x :: ys) → linked (list_del_init x L) h (xs ++ ys);
  list_del_init_self {A} `{EqDecision A} (x h : A) xs ys L :
    linked L h (xs ++ x :: ys) → linked (list_del_init x L) x [];
  list_del_init_frame {A} `{EqDecision A} (x h : A) xs ys L :
    linked L h (xs ++ x :: ys) → same_outside (h :: xs ++ x :: ys) L (list_del_init x L);
  list_del_linked {A} `{EqDecision A} (x h : A) xs ys L :
    linked L h (xs ++ x :: ys) → linked (list_del x L) h (xs ++ ys);
  list_del_frame {A} `{EqDecision A} (x h : A) xs ys L :
    linked L h (xs ++ x :: ys) → same_outside (h :: xs ++ x :: ys) L (list_del x L);
  list_empty_next {A} `{EqDecision A} (h : A) L :
    list_empty h L = bool_decide (next L h = h);
}.

Lemma list_empty_linked `{ListApi} {A} `{EqDecision A} (h : A) xs L :
  linked L h xs → list_empty h L = bool_decide (xs = []).
Proof.
  intros Hl. rewrite list_empty_next, (linked_next _ _ _ Hl). apply bool_decide_ext.
  destruct xs; simpl; [done |]. split; [intros -> | done].
  destruct Hl as [HN _]. apply NoDup_cons in HN as [HN _]. set_solver.
Qed.

Lemma list_empty_node `{ListApi} {A} `{EqDecision A} (h x : A) xs L :
  linked L h xs → x ∈ xs → list_empty x L = false.
Proof.
  intros Hl Hx. rewrite list_empty_next. apply bool_decide_eq_false.
  by apply (linked_node_next _ h xs).
Qed.

(** ** The laws hold of the usual implementation *)
Section Linux.
Context {A : Type} `{EqDecision A}.
Implicit Types L : links A.

(** [__list_add] and [__list_del]. *)
Definition insert_between (x p n : A) L : links A :=
  Links (<[p := x]> (<[x := n]> (next L))) (<[x := p]> (<[n := x]> (prev L))).
Definition join (p n : A) L : links A := Links (<[p := n]> (next L)) (<[n := p]> (prev L)).

(** A segment that avoids the nodes whose pointers an operation writes. *)
Lemma insert_between_segment x a b L p xs q :
  a ∉ p :: xs → x ∉ p :: xs → b ∉ xs ++ [q] → x ∉ xs ++ [q] →
  segment L p xs q → segment (insert_between x a b L) p xs q.
Proof.
  intros. apply (segment_ext L); [| | done]; intros c Hc; simpl;
    rewrite !fn_lookup_insert_ne by (intros ->; set_solver); done.
Qed.

Lemma join_segment a b L p xs q :
  a ∉ p :: xs → b ∉ xs ++ [q] → segment L p xs q → segment (join a b L) p xs q.
Proof.
  intros. apply (segment_ext L); [| | done]; intros c Hc; simpl;
    rewrite fn_lookup_insert_ne by (intros ->; set_solver); done.
Qed.

Lemma insert_between_links x a b L :
  x ≠ a → x ≠ b →
  segment (insert_between x a b L) a [] x ∧ segment (insert_between x a b L) x [] b.
Proof.
  intros. simpl. split; split; unfold insert, fn_insert; repeat case_decide; congruence.
Qed.

Lemma insert_front x h xs L :
  linked L h xs → x ∉ h :: xs → linked (insert_between x h (next L h) L) h (x :: xs).
Proof.
  intros [HN Hs] Hx. split; [by apply NoDup_cons in HN as [? ?]; repeat (constructor; [set_solver |]) |].
  apply not_elem_of_cons in Hx as [Hxh Hx]. apply NoDup_cons in HN as [Hh HN].
  destruct xs as [|y ys]; cbn [segment] in Hs.
  - destruct Hs as [-> _]. destruct (insert_between_links x h h L) as [? ?]; [done | done |].
    cbn [segment] in *. tauto.
  - destruct Hs as (-> & _ & Hs). apply not_elem_of_cons in Hx as [Hxy Hx].
    apply NoDup_cons in HN as [Hy HN].
    destruct (insert_between_links x h y L) as [? ?]; [done | done |].
    assert (segment (insert_between x h y L) y ys h) by (apply insert_between_segment; [set_solver.. | done]).
    cbn [segment] in *. tauto.
Qed.

Lemma insert_back x h xs L :
  linked L h xs → x ∉ h :: xs → linked (insert_between x (prev L h) h L) h (xs ++ [x]).
Proof.
  intros [HN Hs] Hx.
  split; [apply NoDup_cons in HN as [? ?]; constructor;
          [set_solver | apply NoDup_app; split_and!; [done | set_solver | apply NoDup_singleton]] |].
  apply not_elem_of_cons in Hx as [Hxh Hx]. apply NoDup_cons in HN as [Hh HN].
  apply segment_app.
  destruct xs as [|y ys _] using rev_ind.
  - destruct Hs as [_ ->]. by apply insert_between_links.
  - apply NoDup_app in HN as (HN & Hy & _).
    apply segment_app in Hs as [Hs [_ ->]].
    destruct (insert_between_links x y h L) as [? ?]; [set_solver | done |].
    split; [| done]. apply segment_app. split; [| done].
    apply insert_between_segment; [set_solver.. | done].
Qed.

Lemma del_between x h xs ys L :
  linked L h (xs ++ x :: ys) →
  segment (INIT_LIST_HEAD x (join (prev L x) (next L x) L)) h (xs ++ ys) h.
Proof.
  intros [HN Hs]. apply NoDup_cons in HN as [Hh HN].
  apply NoDup_app in HN as (HNx & Hd & HN). apply NoDup_cons in HN as [Hx HN].
  apply segment_app in Hs as [Hs1 Hs2].
  assert (Hi : ∀ M p zs q, x ∉ p :: zs → x ∉ zs ++ [q] → segment M p zs q → segment (INIT_LIST_HEAD x M) p zs q).
  { intros M p zs q ??. apply segment_ext; intros c Hc; simpl; rewrite fn_lookup_insert_ne by (intros ->; done); done. }
  apply Hi; [set_solver.. |].
  destruct xs as [|y xs _] using rev_ind; destruct ys as [|z ys]; simpl app; rewrite ?app_nil_r;
    cbn [segment] in Hs1, Hs2; rewrite ?segment_app in Hs1.
  - destruct Hs1 as [_ ->], Hs2 as [-> _]. simpl. by rewrite !fn_lookup_insert.
  - destruct Hs1 as [_ ->], Hs2 as (-> & _ & Hs2). simpl. rewrite !fn_lookup_insert.
    apply NoDup_cons in HN as [Hz HN].
    split_and!; [done | done |]. apply join_segment; [set_solver.. | done].
  - destruct Hs1 as [Hs1 [_ ->]], Hs2 as [-> _]. apply segment_app.
    split; [| simpl; by rewrite !fn_lookup_insert].
    apply NoDup_app in HNx as (_ & ? & _). apply join_segment; [set_solver.. | done].
  - destruct Hs1 as [Hs1 [_ ->]], Hs2 as (-> & _ & Hs2).
    apply NoDup_app in HNx as (_ & ? & _). apply NoDup_cons in HN as [Hz HN].
    apply segment_app. split; [apply segment_app; split |].
    + apply join_segment; [set_solver.. | done].
    + simpl. by rewrite !fn_lookup_insert.
    + apply join_segment; [set_solver.. | done].
Qed.

Lemma linked_remove_NoDup L h xs x ys :
  linked L h (xs ++ x :: ys) → NoDup (h :: xs ++ ys) ∧ x ∉ h :: xs ++ ys.
Proof.
  intros [HN _]. apply NoDup_cons in HN as [Hh HN].
  apply NoDup_app in HN as (H1 & H2 & HN). apply NoDup_cons in HN as [H3 HN].
  split; [| set_solver]. constructor; [set_solver |]. apply NoDup_app. split_and!; [done | set_solver | done].
Qed.

Lemma join_outside x h xs ys L a :
  linked L h (xs ++ x :: ys) → a ∉ h :: xs ++ x :: ys → a ≠ prev L x ∧ a ≠ next L x.
Proof.
  intros [_ Hs] Ha. apply segment_app in Hs as [Hs1 Hs2]. split; intros ->; apply Ha.
  - destruct xs as [|y xs _] using rev_ind; [destruct Hs1 as [_ ->]; set_solver |].
    apply segment_app in Hs1 as [_ [_ ->]]. set_solver.
  - destruct ys as [|z ys]; destruct Hs2 as [-> _]; set_solver.
Qed.

Lemma linked_prev L h xs : linked L h xs → prev L h ∈ h :: xs.
Proof.
  intros [_ Hs]. destruct xs as [|y xs _] using rev_ind; [destruct Hs as [_ ->]; set_solver |].
  apply segment_app in Hs as [_ [_ ->]]. set_solver.
Qed.

Lemma insert_between_outside x p n L l :
  x ∈ l → p ∈ l → n ∈ l → same_outside l L (insert_between x p n L).
Proof.
  intros ??? a Ha. simpl. rewrite !fn_lookup_insert_ne by (intros ->; done). done.
Qed.
End Linux.

Definition linux_lists : ListApi.
Proof.
  refine {|
    list_add A _ x h L := insert_between x h (next L h) L;
    list_add_tail A _ x h L := insert_between x (prev L h) h L;
    list_del_init A _ x L := INIT_LIST_HEAD x (join (prev L x) (next L x) L);
    list_del A _ x L := join (prev L x) (next L x) L;
    list_empty A _ h L := bool_decide (next L h = h);
  |}.
  - intros. by apply insert_front.
  - intros A ? x h xs L Hl. apply insert_between_outside; [set_solver | set_solver |].
    rewrite (linked_next _ _ _ Hl). destruct xs; set_solver.
  - intros. by apply insert_back.
  - intros A ? x h xs L Hl. pose proof (linked_prev _ _ _ Hl).
    apply insert_between_outside; set_solver.
  - intros A ? x h xs ys L Hl. split; [by apply (linked_remove_NoDup L h xs x) | by apply del_between].
  - intros. apply linked_init.
  - intros A ? x h xs ys L Hl a Ha. destruct (join_outside x h xs ys L a Hl Ha). simpl.
    rewrite !fn_lookup_insert_ne by (try congruence; intros ->; set_solver). done.
  - intros A ? x h xs ys L Hl. pose proof (del_between x h xs ys L Hl) as Hs. pose proof (linked_remove_NoDup _ _ _ _ _ Hl) as [HN Hx].
    split; [done |]. revert Hs. apply segment_ext; intros c Hc; assert (x ≠ c) by (intros ->; apply Hx; set_solver);
      unfold INIT_LIST_HEAD; cbn [next prev]; symmetry; by apply fn_lookup_insert_ne.
  - intros A ? x h xs ys L Hl a Ha. destruct (join_outside x h xs ys L a Hl Ha). simpl.
    rewrite !fn_lookup_insert_ne by (try congruence; intros ->; set_solver). done.
  - done.
Defined.
