(* ===== verification/Scheduler.v ===== *)
(** * The priority scheduler (src/kernel/scheduler.c, src/include/scheduler.h)

    The run queue of scheduler.c: two arrays of queues with a bitmap of the
    non-empty ones, priorities, time slices and load.  The queues are intrusive
    lists on a store of links ([Lists]). *)
From stdpp Require Import functions.
From S2P Require Import Prelude Heap Process Lists.

Definition SCHED_NORMAL : Z := 0.
Definition SCHED_FIFO : Z := 1.
Definition SCHED_RR : Z := 2.
Definition SCHED_BATCH : Z := 3.
Definition SCHED_IDLE : Z := 4.
Definition MAX_PRIO : Z := 140.
Definition DEFAULT_PRIO : Z := 120.
Definition MAX_RT_PRIO : Z := 100.
Definition HZ : Z := 100.
Definition BASE_TIMESLICE : Z := 100 * HZ / 1000.
Definition MIN_TIMESLICE : Z := 20 * HZ / 1000.
Definition MAX_TIMESLICE : Z := 200 * HZ / 1000.
Definition BITMAP_SIZE : Z := (MAX_PRIO + 31) / 32.
Definition BITMAP_WORD (bit : Z) : nat := Z.to_nat (bit / 32).
Definition BITMAP_BIT (bit : Z) : Z := Z.shiftl 1 (bit mod 32).
Definition TASK_RUNNING : Z := 0.

(** The macros [NICE_TO_PRIO] and [PRIO_TO_NICE]; the latter is computed in
    [uint32_t] and converted to [long]. *)
Definition NICE_TO_PRIO (nice : Z) : Z := MAX_PRIO - 20 + nice.
Definition PRIO_TO_NICE (prio : Z) : Z := s32 (MAX_PRIO - prio - 20).

(** ** State *)

(** What a [runqueue_t *] of the code can point to: the global run queue, or,
    where a local variable [rq] is initialised with its own address, that
    variable. *)
Inductive rq_ptr := GlobalRq | StackSlot.

(** A process and its scheduling entity. *)
Record task := Task {
  tpid : Z;
  tstate : Z;
  tstack : Z;
  policy : Z;
  prio : Z;
  static_prio : Z;
  normal_prio : Z;
  time_slice : Z;
  sum_exec_runtime : Z;
  load_weight : Z;
  inv_weight : Z;
  se_rq : option rq_ptr;
}.
#[export] Instance task_inhabited : Inhabited task := populate (Task 0 0 0 0 0 0 0 0 0 0 0 None).

(** The list nodes: the heads of the queues of both arrays, and the [run_list]
    field of every task; [Null] is the null pointer. *)
Inductive node := ActiveHead (p : nat) | ExpiredHead (p : nat) | RunList (i : nat) | Null.
#[export] Instance node_eq_dec : EqDecision node.
Proof. solve_decision. Defined.

Record sched_stat := SchedStat {
  context_switches : Z;
  schedule_count : Z;
  idle_time : Z;
  active_time : Z;
  load_avg : Z;
}.

(** The run queue, the tasks (0 is the idle process), the links of the lists, the
    load averages, the statistics, [current_process] and the kernel heap. *)
Record sched := Sched {
  tasks : list task;
  chains : links node;
  active_bitmap : list Z;
  expired_bitmap : list Z;
  curr : option nat;
  nr_running : Z;
  nr_switches : Z;
  expired_timestamp : Z;
  best_expired_prio : Z;
  cpu_load : Z;
  nr_uninterruptible : Z;
  avenrun : Z * Z * Z;
  sched_stats : sched_stat;
  current_process : option nat;
  sched_heap : heap_state;
}.
Definition idle_process : nat := 0.

Definition set_tasks (l : list task) (s : sched) : sched :=
  Sched l (chains s) (active_bitmap s) (expired_bitmap s) (curr s) (nr_running s) (nr_switches s) (expired_timestamp s) (best_expired_prio s) (cpu_load s) (nr_uninterruptible s) (avenrun s) (sched_stats s) (current_process s) (sched_heap s).
Definition set_task (i : nat) (t : task) (s : sched) : sched := set_tasks (<[i := t]> (tasks s)) s.
Definition set_chains (L : links node) (s : sched) : sched :=
  Sched (tasks s) L (active_bitmap s) (expired_bitmap s) (curr s) (nr_running s) (nr_switches s) (expired_timestamp s) (best_expired_prio s) (cpu_load s) (nr_uninterruptible s) (avenrun s) (sched_stats s) (current_process s) (sched_heap s).
Definition set_bitmaps (a e : list Z) (s : sched) : sched :=
  Sched (tasks s) (chains s) a e (curr s) (nr_running s) (nr_switches s) (expired_timestamp s) (best_expired_prio s) (cpu_load s) (nr_uninterruptible s) (avenrun s) (sched_stats s) (current_process s) (sched_heap s).
Definition set_nr_running (n : Z) (s : sched) : sched :=
  Sched (tasks s) (chains s) (active_bitmap s) (expired_bitmap s) (curr s) n (nr_switches s) (expired_timestamp s) (best_expired_prio s) (cpu_load s) (nr_uninterruptible s) (avenrun s) (sched_stats s) (current_process s) (sched_heap s).
Definition set_expired_timestamp (t : Z) (s : sched) : sched :=
  Sched (tasks s) (chains s) (active_bitmap s) (expired_bitmap s) (curr s) (nr_running s) (nr_switches s) t (best_expired_prio s) (cpu_load s) (nr_uninterruptible s) (avenrun s) (sched_stats s) (current_process s) (sched_heap s).
Definition set_stats (st : sched_stat) (s : sched) : sched :=
  Sched (tasks s) (chains s) (active_bitmap s) (expired_bitmap s) (curr s) (nr_running s) (nr_switches s) (expired_timestamp s) (best_expired_prio s) (cpu_load s) (nr_uninterruptible s) (avenrun s) st (current_process s) (sched_heap s).
Definition switch_to (i : option nat) (s : sched) : sched :=
  Sched (tasks s) (chains s) (active_bitmap s) (expired_bitmap s) i (nr_running s) (u32 (nr_switches s + 1)) (expired_timestamp s) (best_expired_prio s) (cpu_load s) (nr_uninterruptible s) (avenrun s) (sched_stats s) (current_process s) (sched_heap s).
Definition set_current (c : option nat) (s : sched) : sched :=
  Sched (tasks s) (chains s) (active_bitmap s) (expired_bitmap s) (curr s) (nr_running s) (nr_switches s) (expired_timestamp s) (best_expired_prio s) (cpu_load s) (nr_uninterruptible s) (avenrun s) (sched_stats s) c (sched_heap s).
Definition set_load (a : Z * Z * Z) (s : sched) : sched :=
  Sched (tasks s) (chains s) (active_bitmap s) (expired_bitmap s) (curr s) (nr_running s) (nr_switches s) (expired_timestamp s) (best_expired_prio s) a.1.1 (nr_uninterruptible s) a (sched_stats s) (current_process s) (sched_heap s).

Definition set_tstate (x : Z) (t : task) : task :=
  Task (tpid t) x (tstack t) (policy t) (prio t) (static_prio t) (normal_prio t) (time_slice t) (sum_exec_runtime t) (load_weight t) (inv_weight t) (se_rq t).
Definition set_prio (p : Z) (t : task) : task :=
  Task (tpid t) (tstate t) (tstack t) (policy t) p (static_prio t) (normal_prio t) (time_slice t) (sum_exec_runtime t) (load_weight t) (inv_weight t) (se_rq t).
Definition set_static_prio (p : Z) (t : task) : task :=
  Task (tpid t) (tstate t) (tstack t) (policy t) (prio t) p p (time_slice t) (sum_exec_runtime t) (load_weight t) (inv_weight t) (se_rq t).
Definition set_time_slice (n : Z) (t : task) : task :=
  Task (tpid t) (tstate t) (tstack t) (policy t) (prio t) (static_prio t) (normal_prio t) n (sum_exec_runtime t) (load_weight t) (inv_weight t) (se_rq t).
Definition set_se_rq (r : option rq_ptr) (t : task) : task :=
  Task (tpid t) (tstate t) (tstack t) (policy t) (prio t) (static_prio t) (normal_prio t) (time_slice t) (sum_exec_runtime t) (load_weight t) (inv_weight t) r.
Definition set_weights (w i : Z) (t : task) : task :=
  Task (tpid t) (tstate t) (tstack t) (policy t) (prio t) (static_prio t) (normal_prio t) (time_slice t) (sum_exec_runtime t) w i (se_rq t).
Definition add_runtime  (t : task) : task :=
  Task (tpid t) (tstate t) (tstack t) (policy t) (prio t) (static_prio t) (normal_prio t) (time_slice t) ((sum_exec_runtime t + 1) mod 2 ^ 64) (load_weight t) (inv_weight t) (se_rq t).

(** Reading or writing through a run queue pointer; the local variable is not a
    run queue. *)
Definition deref (r : rq_ptr) (s : sched) : outcome sched :=
  match r with GlobalRq => Ok s | StackSlot => Fault end.

(** ** Priorities and time slices *)
Definition rt_task (t : task) : bool :=
  negb (policy t =? SCHED_NORMAL) && negb (policy t =? SCHED_BATCH) && negb (policy t =? SCHED_IDLE).
Definition task_has_rt_policy (t : task) : bool := (policy t =? SCHED_FIFO) || (policy t =? SCHED_RR).

Definition task_timeslice (t : task) : Z :=
  if rt_task t then 1 * HZ / 1000
  else if static_prio t <? MAX_RT_PRIO then 0
  else
    let timeslice :=
      if DEFAULT_PRIO <? static_prio t
      then u32 (BASE_TIMESLICE * u32 (MAX_PRIO - static_prio t)) / (MAX_PRIO - DEFAULT_PRIO)
      else BASE_TIMESLICE * 2 in
    let timeslice := if timeslice <? MIN_TIMESLICE then MIN_TIMESLICE else timeslice in
    if MAX_TIMESLICE <? timeslice then MAX_TIMESLICE else timeslice.

(** Both branches of the test on the policy give the static priority. *)
Definition effective_prio (t : task) : Z :=
  let prio := static_prio t in
  if (policy t =? SCHED_NORMAL) || (policy t =? SCHED_BATCH) then static_prio t else prio.

Definition task_nice (t : task) : Z := PRIO_TO_NICE (static_prio t).

(** [set_load_weight]; the inverse weight is truncated to 32 bits. *)
Definition set_load_weight (t : task) : task :=
  let weight :=
    if MAX_RT_PRIO <=? static_prio t then
      let nice := PRIO_TO_NICE (static_prio t) in
      if nice <? 0 then Z.shiftr (1024 * 1024) (- nice) else Z.shiftr 1024 nice
    else 0 in
  let inverse := if weight =? 0 then u32 (-1) else u32 (2 ^ 32 / weight) in
  set_weights weight inverse t.

Definition task_is_running (t : task) : bool := tstate t =? TASK_RUNNING.

(** ** The bitmaps *)
Definition mark (p : Z) (b : list Z) : list Z :=
  <[BITMAP_WORD p := Z.lor (b !!! BITMAP_WORD p) (BITMAP_BIT p)]> b.
Definition unmark (p : Z) (b : list Z) : list Z :=
  <[BITMAP_WORD p := Z.land (b !!! BITMAP_WORD p) (not32 (BITMAP_BIT p))]> b.

Section Scheduler.
Context `{ListApi}.

(** ** Initialisation *)

(** The loop over the priorities. *)
Fixpoint init_heads (n : nat) (L : links node) : links node :=
  match n with
  | O => L
  | S n => INIT_LIST_HEAD (ExpiredHead n) (INIT_LIST_HEAD (ActiveHead n) (init_heads n L))
  end.

(** [init_idle_process]: the entry is cleared, its [run_list] with it. *)
Definition init_idle_process (s : sched) : outcome sched :=
  '(stack, h) ← kmalloc KERNEL_STACK_SIZE (sched_heap s);
  let idle := Task 0 TASK_RUNNING stack SCHED_IDLE MAX_PRIO MAX_PRIO MAX_PRIO 0 0 1 1 (Some GlobalRq) in
  let L := Links (<[RunList idle_process := Null]> (next (chains s)))
                 (<[RunList idle_process := Null]> (prev (chains s))) in
  Ok (Sched (<[idle_process := idle]> (tasks s)) L (active_bitmap s) (expired_bitmap s) (curr s)
        (nr_running s) (nr_switches s) (expired_timestamp s) (best_expired_prio s) (cpu_load s)
        (nr_uninterruptible s) (avenrun s) (sched_stats s) (current_process s) h).

Definition scheduler_init (s : sched) : outcome sched :=
  let zero := replicate (Z.to_nat BITMAP_SIZE) 0 in
  let s := set_bitmaps zero zero (set_chains (init_heads (Z.to_nat MAX_PRIO) (chains s)) s) in
  s ← init_idle_process s;
  Ok (Sched (tasks s) (chains s) (active_bitmap s) (expired_bitmap s) (Some idle_process) 0 0 0 MAX_PRIO 0 0
        (0, 0, 0) (sched_stats s) (current_process s) (sched_heap s)).

Definition get_idle_process : nat := idle_process.

(** ** Queues *)

(** [enqueue_task]: without a run queue it takes the address of its own local
    variable for one; a priority outside the array is out of bounds. *)
Definition enqueue_task (i : nat) (head : bool) (s : sched) : outcome sched :=
  let t := tasks s !!! i in
  let '(rq, t) :=
    match se_rq t with
    | Some rq => (rq, t)
    | None => (StackSlot, set_se_rq (Some StackSlot) t)
    end in
  let t := if time_slice t =? 0 then set_time_slice (task_timeslice t) t else t in
  let s := set_task i t s in
  s ← deref rq s;
  if MAX_PRIO <=? prio t then Fault
  else
    let q := ActiveHead (Z.to_nat (prio t)) in
    let L := if head then list_add (RunList i) q (chains s) else list_add_tail (RunList i) q (chains s) in
    let s := set_bitmaps (mark (prio t) (active_bitmap s)) (expired_bitmap s) (set_chains L s) in
    Ok (set_nr_running (u32 (nr_running s + 1)) s).

Definition dequeue_task (i : nat) (s : sched) : outcome sched :=
  let t := tasks s !!! i in
  match se_rq t with
  | None => Ok s
  | Some rq =>
    if list_empty (RunList i) (chains s) then Ok s
    else
      let s := set_chains (list_del_init (RunList i) (chains s)) s in
      s ← deref rq s;
      if MAX_PRIO <=? prio t then Fault
      else
        let a := if list_empty (ActiveHead (Z.to_nat (prio t))) (chains s)
                 then unmark (prio t) (active_bitmap s) else active_bitmap s in
        Ok (set_nr_running (u32 (nr_running s - 1)) (set_bitmaps a (expired_bitmap s) s))
  end.

(** [se->rq && se->rq->curr == p]. *)
Definition is_current (i : nat) (s : sched) : outcome bool :=
  match se_rq (tasks s !!! i) with
  | None => Ok false
  | Some rq => s ← deref rq s; Ok (bool_decide (curr s = Some i))
  end.

Definition set_user_nice (i : nat) (nice : Z) (s : sched) : outcome sched :=
  let nice := if nice <? -20 then -20 else nice in
  let nice := if 19 <? nice then 19 else nice in
  let s := set_task i (set_static_prio (NICE_TO_PRIO nice) (tasks s !!! i)) s in
  let update_prio (s : sched) := set_task i (set_prio (effective_prio (tasks s !!! i)) (tasks s !!! i)) s in
  s ←
    (if task_is_running (tasks s !!! i) then
       now_runs ← is_current i s;
       if (now_runs : bool) then Ok (update_prio s)
       else s ← dequeue_task i s; enqueue_task i false (update_prio s)
     else Ok s);
  Ok (set_task i (set_load_weight (tasks s !!! i)) s).

(** ** Scheduling *)

(** The [pick_next_task] operations of the three scheduling classes. *)
Inductive pick_op := PickNextTask | GetIdleProcess.
Definition sched_rt_class : pick_op := PickNextTask.
Definition sched_fair_class : pick_op := PickNextTask.
Definition sched_idle_class : pick_op := GetIdleProcess.

(** [pick_next_task], calls nested at most [fuel] deep. *)
Fixpoint pick_next_task (fuel : nat) (rq : rq_ptr) (s : sched) : outcome (option nat) :=
  let pick (class : pick_op) : outcome (option nat) :=
    match class, fuel with
    | GetIdleProcess, _ => Ok (Some get_idle_process)
    | PickNextTask, O => Diverge
    | PickNextTask, S fuel => pick_next_task fuel rq s
    end in
  p ← pick sched_rt_class;
  match (p : option nat) with
  | Some i => Ok (Some i)
  | None =>
    p ← pick sched_fair_class;
    match (p : option nat) with
    | Some i => Ok (Some i)
    | None => pick sched_idle_class
    end
  end.

Definition update_cpu_load (rq : rq_ptr) (s : sched) : outcome sched :=
  s ← deref rq s;
  let this_load := u32 (nr_running s * 1000) in
  let '(a0, a1, a2) := avenrun s in
  let avg a k := u32 (u32 (a * (k - 1)) + this_load) / k in
  let s := set_load (avg a0 4, avg a1 16, avg a2 64) s in
  let st := sched_stats s in
  Ok (set_stats (SchedStat (context_switches st) (schedule_count st) (idle_time st) (active_time st)
                   (avg a0 4)) s).

(** [schedule] after the run queue pointer is set; [TASK_READY] is not defined
    by the sources. *)
Definition schedule_on (TASK_READY : Z) (fuel : nat) (rq : rq_ptr) (s : sched) : outcome sched :=
  let st := sched_stats s in
  let s := set_stats (SchedStat (context_switches st) (u32 (schedule_count st + 1)) (idle_time st)
                        (active_time st) (load_avg st)) s in
  s ← deref rq s;
  let prev := curr s in
  let st := sched_stats s in
  let s := set_stats
    (if bool_decide (prev = Some idle_process)
     then SchedStat (context_switches st) (schedule_count st) (u32 (idle_time st + 1)) (active_time st) (load_avg st)
     else SchedStat (context_switches st) (schedule_count st) (idle_time st) (u32 (active_time st + 1)) (load_avg st)) s in
  next ← pick_next_task fuel rq s;
  if bool_decide (next = prev) then Ok s
  else
    let st := sched_stats s in
    let s := switch_to next (set_stats
      (SchedStat (u32 (context_switches st + 1)) (schedule_count st) (idle_time st) (active_time st) (load_avg st)) s) in
    let s := match prev with
             | Some i => if (i =? idle_process)%nat then s
                         else set_task i (set_tstate TASK_READY (tasks s !!! i)) s
             | None => s
             end in
    let s := match next with
             | Some i => if (i =? idle_process)%nat then s
                         else set_current (Some i) (set_task i (set_tstate TASK_RUNNING (tasks s !!! i)) s)
             | None => s
             end in
    update_cpu_load rq s.

(** [schedule]: [runqueue_t *rq = &rq] declares the pointer it takes the address
    of. *)
Definition schedule (TASK_READY : Z) (fuel : nat) (s : sched) : outcome sched :=
  schedule_on TASK_READY fuel StackSlot s.

(** The exchange of the two arrays by structure assignment: the heads are
    copied, the nodes keep pointing to the old ones. *)
Definition other_head (a : node) : node :=
  match a with
  | ActiveHead p => if bool_decide (p < Z.to_nat MAX_PRIO)%nat then ExpiredHead p else a
  | ExpiredHead p => if bool_decide (p < Z.to_nat MAX_PRIO)%nat then ActiveHead p else a
  | _ => a
  end.
Definition swap_arrays (s : sched) : sched :=
  set_bitmaps (expired_bitmap s) (active_bitmap s)
    (set_chains (Links (λ a, next (chains s) (other_head a)) (λ a, prev (chains s) (other_head a))) s).

(** The part of [scheduler_tick] when the time slice is over, before the
    rescheduling: a task that is not real-time goes to the expired array; [now]
    is the time. *)
Definition expire (i : nat) (now : Z) (s : sched) : outcome sched :=
  let s := set_task i (set_time_slice (task_timeslice (tasks s !!! i)) (tasks s !!! i)) s in
  if rt_task (tasks s !!! i) then Ok s else
  s ← dequeue_task i s;
  let t := tasks s !!! i in
  if MAX_PRIO <=? prio t then Fault else
  let s := set_chains (list_add_tail (RunList i) (ExpiredHead (Z.to_nat (prio t))) (chains s)) s in
  let s := set_bitmaps (active_bitmap s) (mark (prio t) (expired_bitmap s)) s in
  if nr_running s =? 0 then Ok (set_expired_timestamp now (swap_arrays s)) else Ok s.

Definition scheduler_tick (TASK_READY : Z) (fuel : nat) (now : Z) (s : sched) : outcome sched :=
  match curr s with
  | None => Ok s
  | Some i =>
    if (i =? idle_process)%nat then Ok s
    else
      let t := add_runtime (tasks s !!! i) in
      let t := if 0 <? time_slice t then set_time_slice (time_slice t - 1) t else t in
      let s := set_task i t s in
      if time_slice t =? 0 then s ← expire i now s; schedule TASK_READY fuel s else Ok s
  end.

Definition yield_task (TASK_READY : Z) (fuel : nat) (i : nat) (s : sched) : outcome sched :=
  now_runs ← is_current i s;
  if (now_runs : bool) then
    s ← dequeue_task i s; s ← enqueue_task i false s; schedule TASK_READY fuel s
  else Ok s.

(** One iteration of [cpu_idle_loop]; [interrupt] is what happens while the
    processor is halted. *)
Definition cpu_idle_step (interrupt : sched → outcome sched) (TASK_READY : Z) (fuel : nat) (s : sched) : outcome sched :=
  if 0 <? nr_running s then schedule TASK_READY fuel s
  else
    s ← interrupt s;
    let st := sched_stats s in
    Ok (set_stats (SchedStat (context_switches st) (schedule_count st) (u32 (idle_time st + 1))
                     (active_time st) (load_avg st)) s).
End Scheduler.
