(* ===== verification/SchedulerSpec.v ===== *)
(** * The run queue implements priority queues

    [rq_rep]: the links, the bitmap and the counter of the run queue represent
    one queue of tasks per priority.  [enqueue_task], [dequeue_task] and
    [set_user_nice] refine the operations on the queues; bounds of the time
    slices; and where the scheduler does not work. *)
From stdpp Require Import functions.
From S2P Require Import Prelude Heap Process Lists Scheduler.

(** The heads of the queues of the run queue, and the priority each serves. *)
Definition is_head (h : node) : Prop :=
  match h with
  | ActiveHead p | ExpiredHead p => (p < 140)%nat
  | _ => False
  end.
Definition prio_of (h : node) : nat := match h with ActiveHead p | ExpiredHead p => p | _ => 0%nat end.

(** A task on no queue. *)
Definition off_queue (Q : node → list nat) (i : nat) : Prop := ∀ h, is_head h → i ∉ Q h.

(** The links hold the queues [Q] of the [n] tasks. *)
Record queues_ok (L : links node) (Q : node → list nat) (n : nat) : Prop := {
  qs_linked : ∀ h, is_head h → linked L h (RunList <$> Q h);
  qs_unique : ∀ h h' i, is_head h → is_head h' → i ∈ Q h → i ∈ Q h' → h = h';
  qs_off : ∀ i, (0 < i < n)%nat → off_queue Q i → linked L (RunList i) [];
}.

(** The number of tasks in the first [n] active queues. *)
Fixpoint total (n : nat) (Q : node → list nat) : Z :=
  match n with
  | O => 0
  | S n => total n Q + Z.of_nat (length (Q (ActiveHead n)))
  end.

Record rq_rep (s : sched) (Q : node → list nat) : Prop := {
  rep_queues : queues_ok (chains s) Q (length (tasks s));
  rep_task : ∀ h i, is_head h → i ∈ Q h →
    (0 < i < length (tasks s))%nat ∧ prio (tasks s !!! i) = Z.of_nat (prio_of h);
  rep_words : length (active_bitmap s) = 5%nat ∧ Forall is_u32 (active_bitmap s);
  rep_bits : ∀ p, (p < 140)%nat → slot_bit (active_bitmap s) p = bool_decide (Q (ActiveHead p) ≠ []);
  rep_nr : nr_running s = u32 (total 140 Q);
}.

Definition without (i : nat) (l : list nat) : list nat := filter (λ j, j ≠ i) l.

Lemma without_notin i l : i ∉ l → without i l = l.
Proof.
  induction l as [|j l IH]; intros Hi; [done |]. apply not_elem_of_cons in Hi as [Hij Hi].
  unfold without. rewrite filter_cons_True by congruence. f_equal. by apply IH.
Qed.

Lemma without_mid i l1 l2 : NoDup (l1 ++ i :: l2) → without i (l1 ++ i :: l2) = l1 ++ l2.
Proof.
  intros (N1 & N2 & N3)%NoDup_app. apply NoDup_cons in N3 as [N3 N4].
  unfold without. rewrite filter_app, filter_cons_False by tauto.
  f_equal; apply without_notin; [intros ?; by apply (N2 i); set_solver | done].
Qed.

(** ** The bitmap is the one of the process table *)
Lemma mark_take_slot p b : mark (Z.of_nat p) b = take_slot b p.
Proof.
  unfold mark, take_slot, BITMAP_WORD, BITMAP_BIT.
  change 32 with (Z.of_nat 32). by rewrite <- Nat2Z.inj_mod, <- Nat2Z.inj_div, Nat2Z.id.
Qed.

Lemma unmark_drop_slot p b : unmark (Z.of_nat p) b = drop_slot b p.
Proof.
  unfold unmark, drop_slot, BITMAP_WORD, BITMAP_BIT.
  change 32 with (Z.of_nat 32). by rewrite <- Nat2Z.inj_mod, <- Nat2Z.inj_div, Nat2Z.id.
Qed.

Lemma head_not_node h i : is_head h → h ≠ RunList i.
Proof. by intros H ->. Qed.

Lemma elem_of_nodes i (l : list nat) : RunList i ∈ RunList <$> l ↔ i ∈ l.
Proof.
  rewrite list_elem_of_fmap. split; [intros (j & [= ->] & ?); done | intros; by exists i].
Qed.

Lemma total_insert Q p l : ∀ n,
  total n (<[ActiveHead p := l]> Q) =
    total n Q + (if decide (p < n)%nat then Z.of_nat (length l) - Z.of_nat (length (Q (ActiveHead p))) else 0).
Proof.
  induction n as [|n IH]; simpl; [done |]. rewrite IH.
  destruct (decide (p = n)) as [->|Hne].
  - rewrite fn_lookup_insert, decide_False, decide_True by lia. lia.
  - rewrite fn_lookup_insert_ne by congruence. repeat case_decide; lia.
Qed.

(** The counter follows the change of one queue by [d] tasks. *)
Lemma total_count n Q p l d :
  (p < n)%nat → Z.of_nat (length l) = Z.of_nat (length (Q (ActiveHead p))) + d →
  u32 (u32 (total n Q) + d) = u32 (total n (<[ActiveHead p := l]> Q)).
Proof. intros Hp Hl. rewrite total_insert, decide_True by done. unfold u32. lia. Qed.

Lemma elem_of_added (Q : node → list nat) (h g : node) i j (head : bool) :
  j ∈ (<[h := if head then i :: Q h else Q h ++ [i]]> Q) g → j ∈ Q g ∨ (j = i ∧ g = h).
Proof.
  intros Hj. destruct (decide (g = h)) as [->|].
  - rewrite fn_lookup_insert in Hj. destruct head; set_solver.
  - rewrite fn_lookup_insert_ne in Hj by done. by left.
Qed.

Section Queues.
Context `{ListApi}.
Implicit Types (L : links node) (Q : node → list nat).

(** One queue changes its links and its contents; [touched] are the nodes whose
    links are written. *)
Lemma queues_change L L' Q h l n i :
  queues_ok L Q n → is_head h →
  linked L' h (RunList <$> l) → same_outside (h :: (RunList <$> (i :: Q h))) L L' →
  (∀ j, j ≠ i → j ∈ l ↔ j ∈ Q h) → (∀ h', is_head h' → h' ≠ h → i ∉ Q h') →
  (i ∉ l → linked L' (RunList i) []) →
  queues_ok L' (<[h := l]> Q) n.
Proof.
  intros [Hq Hu Ho] Hh Hl Hs Hj Hi Hf. split.
  - intros h' Hh'. destruct (decide (h' = h)) as [->|Hne]; [by rewrite fn_lookup_insert |].
    rewrite fn_lookup_insert_ne by done.
    apply (linked_frame _ _ _ _ _ Hs); [| by apply Hq].
    intros a [->|Ha]%elem_of_cons Hin; apply elem_of_cons in Hin as [->|Hin]; [done | | |].
    + apply list_elem_of_fmap in Hin as (j & -> & _). done.
    + apply list_elem_of_fmap in Ha as (j & -> & _). done.
    + apply list_elem_of_fmap in Ha as (j & -> & Ha). apply elem_of_nodes in Hin.
      apply elem_of_cons in Hin as [->|Hin]; [by apply (Hi h') |].
      by apply Hne, (Hu h' h j).
  - assert (Hc : ∀ g j, is_head g → j ∈ (<[h := l]> Q) g → (g = h ∧ j = i) ∨ (j ∈ Q g ∧ (j = i → g = h))).
    { intros g j Hg Hjg. destruct (decide (g = h)) as [->|Hne].
      - rewrite fn_lookup_insert in Hjg. destruct (decide (j = i)) as [->|]; [by left |].
        right. split; [by apply Hj | done].
      - rewrite fn_lookup_insert_ne in Hjg by done. right. split; [done |].
        intros ->. by destruct (Hi g). }
    intros h1 h2 j H1 H2 Hj1 Hj2.
    destruct (Hc h1 j H1 Hj1) as [[-> E1]|[G1 G2]], (Hc h2 j H2 Hj2) as [[-> E2]|[G3 G4]];
      [done | by rewrite G4 | by rewrite G2 | by apply (Hu h1 h2 j)].
  - intros j Hjn Hoff. destruct (decide (j = i)) as [->|Hne].
    + apply Hf. specialize (Hoff h Hh). by rewrite fn_lookup_insert in Hoff.
    + assert (Hoff' : off_queue Q j).
      { intros g Hg. specialize (Hoff g Hg). destruct (decide (g = h)) as [->|].
        - rewrite fn_lookup_insert in Hoff. by rewrite <- Hj.
        - by rewrite fn_lookup_insert_ne in Hoff. }
      apply (linked_frame _ _ _ _ _ Hs); [| by apply Ho].
      intros a ->%list_elem_of_singleton Hin.
      apply elem_of_cons in Hin as [E|Hin]; [by destruct h |].
      apply elem_of_nodes, elem_of_cons in Hin as [->|Hin]; [done |]. by apply (Hoff' h).
Qed.

Lemma queues_add L Q h n i (head : bool) :
  queues_ok L Q n → is_head h → off_queue Q i →
  queues_ok (if head then list_add (RunList i) h L else list_add_tail (RunList i) h L)
    (<[h := if head then i :: Q h else Q h ++ [i]]> Q) n.
Proof.
  intros Hq Hh Hi. pose proof (qs_linked _ _ _ Hq h Hh) as Hl.
  assert (Hn : RunList i ∉ h :: (RunList <$> Q h)).
  { rewrite not_elem_of_cons, elem_of_nodes. split; [by intros <- | by apply Hi]. }
  apply (queues_change L _ Q h _ n i); [done | done | | | | intros; by apply Hi | ].
  - destruct head; [by apply list_add_linked |].
    rewrite fmap_app. by apply list_add_tail_linked.
  - intros a Ha. destruct head; [apply (list_add_frame _ _ _ _ Hl) | apply (list_add_tail_frame _ _ _ _ Hl)]; set_solver.
  - intros j Hj. destruct head; set_solver.
  - intros Hni. destruct head; set_solver.
Qed.

Lemma queues_del L Q h n i :
  queues_ok L Q n → is_head h → i ∈ Q h →
  queues_ok (list_del_init (RunList i) L) (<[h := without i (Q h)]> Q) n.
Proof.
  intros Hq Hh Hi. pose proof (qs_linked _ _ _ Hq h Hh) as Hl.
  apply list_elem_of_split in Hi as (l1 & l2 & E).
  assert (HN : NoDup (l1 ++ i :: l2)).
  { rewrite <- E. apply (NoDup_fmap_1 RunList). destruct Hl as [HN _]. by apply NoDup_cons in HN as [_ ?]. }
  rewrite E, fmap_app in Hl. simpl in Hl.
  assert (Hw : without i (Q h) = l1 ++ l2) by (rewrite E; by apply without_mid).
  rewrite Hw. apply (queues_change L _ Q h _ n i); [done | done | | | | | ].
  - rewrite fmap_app. by apply list_del_init_linked.
  - intros a Ha. apply (list_del_init_frame _ _ _ _ _ Hl). rewrite E in Ha. set_solver.
  - intros j Hj. rewrite E. set_solver.
  - intros h' Hh' Hne Hin. apply Hne. apply (qs_unique _ _ _ Hq h' h i); [done | done | done |].
    rewrite E. set_solver.
  - intros _. by apply (list_del_init_self _ _ _ _ _ Hl).
Qed.

Lemma queues_nodup L Q n h : queues_ok L Q n → is_head h → NoDup (Q h).
Proof.
  intros Hq Hh. apply (NoDup_fmap_1 RunList). destruct (qs_linked _ _ _ Hq h Hh) as [HN _].
  by apply NoDup_cons in HN as [_ ?].
Qed.

Lemma length_without i l : NoDup l → i ∈ l → Z.of_nat (length (without i l)) = Z.of_nat (length l) - 1.
Proof.
  intros HN (l1 & l2 & ->)%list_elem_of_split. rewrite without_mid, !length_app by done. simpl. lia.
Qed.
End Queues.

(** Changing tasks other than in their priority keeps the representation. *)
Lemma rq_rep_tasks s s' Q :
  chains s' = chains s → active_bitmap s' = active_bitmap s → nr_running s' = nr_running s →
  length (tasks s') = length (tasks s) →
  (∀ h i, is_head h → i ∈ Q h → prio (tasks s' !!! i) = prio (tasks s !!! i)) →
  rq_rep s Q → rq_rep s' Q.
Proof.
  intros E1 E2 E3 E4 Hp [R1 R2 R3 R4 R5]. split; rewrite ?E1, ?E2, ?E3, ?E4; try done.
  intros h i Hh Hi. rewrite (Hp h) by done. by apply R2.
Qed.

Lemma set_task_lookup s i t j :
  (i < length (tasks s))%nat →
  tasks (set_task i t s) !!! j = if decide (j = i) then t else tasks s !!! j.
Proof.
  intros Hi. simpl. case_decide as Hj; [subst; by apply list_lookup_total_insert_eq |].
  by apply list_lookup_total_insert_ne.
Qed.

(** The time slice of a task without one is set when it is enqueued. *)
Definition with_slice (t : task) : task :=
  if time_slice t =? 0 then set_time_slice (task_timeslice t) t else t.

Lemma prio_with_slice t : prio (with_slice t) = prio t.
Proof. unfold with_slice. by case_if. Qed.

Ltac sched_simpl :=
  unfold set_nr_running, set_bitmaps, set_chains, set_task, set_tasks, set_stats, set_expired_timestamp;
  cbn [tasks chains active_bitmap expired_bitmap curr nr_running].

Section Operations.
Context `{ListApi}.

Lemma enqueue_task_ok i head s Q p :
  rq_rep s Q → (0 < i < length (tasks s))%nat → off_queue Q i →
  se_rq (tasks s !!! i) = Some GlobalRq → prio (tasks s !!! i) = Z.of_nat p → (p < 140)%nat →
  ∃ s', enqueue_task i head s = Ok s' ∧
    rq_rep s' (<[ActiveHead p := if head then i :: Q (ActiveHead p) else Q (ActiveHead p) ++ [i]]> Q) ∧
    tasks s' = <[i := with_slice (tasks s !!! i)]> (tasks s) ∧ curr s' = curr s.
Proof.
  intros [R1 R2 [R3 R3'] R4 R5] Hi Hoff Hrq Hp Hp140. unfold enqueue_task. rewrite Hrq.
  fold (with_slice (tasks s !!! i)). cbv zeta. simpl deref. ok_bind.
  rewrite prio_with_slice, Hp. rewrite (proj2 (Z.leb_gt _ _)) by (unfold MAX_PRIO; lia).
  rewrite Nat2Z.id, mark_take_slot. eexists. split; [reflexivity |].
  split; [| done]. split; sched_simpl.
  - rewrite length_insert. by apply queues_add.
  - intros h j Hh Hj. rewrite length_insert.
    apply elem_of_added in Hj as [Hjh|[-> ->]].
    + destruct (R2 h j Hh Hjh) as [? ?]. split; [done |].
      rewrite list_lookup_total_insert_ne; [done |]. intros ->. by apply (Hoff h).
    + split; [done |]. rewrite list_lookup_total_insert_eq by (apply Hi). by rewrite prio_with_slice.
  - rewrite <- R3. by apply take_slot_words; [| lia].
  - intros q Hq. rewrite take_slot_bit by lia. case_decide as Hqp.
    + subst. rewrite fn_lookup_insert. symmetry. apply bool_decide_eq_true.
      destruct head; [done |]. by destruct (Q _).
    + rewrite fn_lookup_insert_ne by congruence. by apply R4.
  - rewrite R5. apply total_count; [done |]. destruct head; rewrite ?length_app; simpl length; lia.
Qed.

Lemma dequeue_task_ok i s Q p :
  rq_rep s Q → (p < 140)%nat → i ∈ Q (ActiveHead p) → se_rq (tasks s !!! i) = Some GlobalRq →
  ∃ s', dequeue_task i s = Ok s' ∧
    rq_rep s' (<[ActiveHead p := without i (Q (ActiveHead p))]> Q) ∧
    tasks s' = tasks s ∧ curr s' = curr s.
Proof.
  intros [R1 R2 [R3 R3'] R4 R5] Hp Hi Hrq. unfold dequeue_task. rewrite Hrq.
  pose proof (qs_linked _ _ _ R1 (ActiveHead p) Hp) as Hl.
  rewrite (list_empty_node (ActiveHead p) (RunList i) _ _ Hl) by (by apply elem_of_nodes).
  cbv zeta. simpl deref. ok_bind. destruct (R2 (ActiveHead p) i Hp Hi) as [Hin Hpr].
  simpl prio_of in Hpr. rewrite Hpr, Nat2Z.id, unmark_drop_slot.
  rewrite (proj2 (Z.leb_gt _ _)) by (unfold MAX_PRIO; lia).
  pose proof (queues_del _ _ (ActiveHead p) _ i R1 Hp Hi) as Hdel.
  pose proof (qs_linked _ _ _ Hdel (ActiveHead p) Hp) as Hl'. rewrite fn_lookup_insert in Hl'.
  sched_simpl. rewrite (list_empty_linked _ _ _ Hl').
  eexists. split; [reflexivity |]. split; [| done]. split; sched_simpl.
  - done.
  - intros h j Hh Hj. apply R2; [done |]. destruct (decide (h = ActiveHead p)) as [->|].
    + rewrite fn_lookup_insert in Hj. by apply list_elem_of_filter in Hj as [_ ?].
    + by rewrite fn_lookup_insert_ne in Hj.
  - case_if; [| done]. rewrite <- R3. by apply drop_slot_words; [| lia].
  - intros q Hq. destruct (decide (q = p)) as [->|Hne].
    + rewrite fn_lookup_insert. destruct (without i (Q (ActiveHead p))) eqn:Hw; simpl.
      * by rewrite drop_slot_bit, decide_True by (done || lia).
      * rewrite R4 by done. apply bool_decide_eq_true_2. intros E. by rewrite E in Hw.
    + rewrite fn_lookup_insert_ne by congruence. rewrite <- R4 by done.
      case_if; [| done]. by rewrite drop_slot_bit, decide_False by (done || lia).
  - rewrite R5. apply (total_count 140 Q p _ (-1)); [done |].
    rewrite length_without; [done | by apply (queues_nodup _ _ _ _ R1) | done].
Qed.

Lemma dequeued_off s Q i p :
  rq_rep s Q → (p < 140)%nat → i ∈ Q (ActiveHead p) →
  off_queue (<[ActiveHead p := without i (Q (ActiveHead p))]> Q) i.
Proof.
  intros HR Hp Hi h Hh Hin. destruct (decide (h = ActiveHead p)) as [->|Hne].
  - rewrite fn_lookup_insert in Hin. by apply list_elem_of_filter in Hin as [? _].
  - rewrite fn_lookup_insert_ne in Hin by done.
    by apply Hne, (qs_unique _ _ _ (rep_queues _ _ HR) h (ActiveHead p) i).
Qed.

(** A change of a task that keeps its priority, or of one on no queue. *)
Lemma rq_rep_set_task s Q i t :
  rq_rep s Q → (i < length (tasks s))%nat → prio t = prio (tasks s !!! i) ∨ off_queue Q i →
  rq_rep (set_task i t s) Q.
Proof.
  intros HR Hi Ht. apply (rq_rep_tasks s); [done | done | done | | | done].
  - simpl. by rewrite length_insert.
  - intros h j Hh Hj. rewrite set_task_lookup by done. case_decide as Hji; [| done].
    subst. destruct Ht as [|Ht]; [done |]. by destruct (Ht h).
Qed.
End Operations.

Section Init.
Context `{ListApi}.

Lemma init_heads_linked L : ∀ n,
  (∀ p, (p < n)%nat → linked (init_heads n L) (ActiveHead p) [] ∧ linked (init_heads n L) (ExpiredHead p) []) ∧
  (∀ i, next (init_heads n L) (RunList i) = next L (RunList i) ∧ prev (init_heads n L) (RunList i) = prev L (RunList i)).
Proof.
  assert (Hext : ∀ (a b : node) M, a ≠ b → linked M b [] → linked (INIT_LIST_HEAD a M) b []).
  { intros a b M Hab. apply linked_ext. intros c ->%list_elem_of_singleton. simpl.
    by rewrite !fn_lookup_insert_ne. }
  induction n as [|n [IH1 IH2]]; simpl; [split; [lia | done] |]. split.
  - intros p Hp. destruct (decide (p = n)) as [->|].
    + split; [apply Hext; [done |] |]; apply linked_init.
    + destruct (IH1 p) as [? ?]; [lia |]. split; repeat apply Hext; congruence.
  - intros i. by rewrite !fn_lookup_insert_ne.
Qed.

(** The scheduler starts with empty queues. *)
Lemma scheduler_init_ok s stack h :
  kmalloc KERNEL_STACK_SIZE (sched_heap s) = Ok (stack, h) →
  (∀ i, (0 < i < length (tasks s))%nat → linked (chains s) (RunList i) []) →
  ∃ s', scheduler_init s = Ok s' ∧ rq_rep s' (λ _, []) ∧ curr s' = Some idle_process ∧ nr_running s' = 0.
Proof.
  intros Hk Hl. unfold scheduler_init, init_idle_process. sched_simpl. cbn [sched_heap]. rewrite Hk.
  ok_bind. eexists. split; [reflexivity |]. split; [| done].
  destruct (init_heads_linked (chains s) (Z.to_nat MAX_PRIO)) as [H1 H2].
  split; cbn [tasks chains active_bitmap nr_running]; [| set_solver | | | done].
  - split; [| set_solver |].
    + intros h' Hh. apply (linked_ext (init_heads (Z.to_nat MAX_PRIO) (chains s))).
      * intros a ->%list_elem_of_singleton. cbn [next prev]. by rewrite !fn_lookup_insert_ne by (by intros <-).
      * destruct h'; try done; by apply H1.
    + intros i Hi _. rewrite length_insert in Hi. apply (linked_ext (chains s)); [| by apply Hl].
      intros a ->%list_elem_of_singleton. cbn [next prev]. unfold idle_process.
      rewrite !fn_lookup_insert_ne by (intros [=]; lia). apply H2.
  - split; [done |]. repeat constructor; unfold is_u32; lia.
  - intros p Hp. change (slot_bit (replicate 5 0) p = false). unfold slot_bit.
    rewrite lookup_total_replicate_2; [apply Z.bits_0 |]. apply Nat.Div0.div_lt_upper_bound. lia.
Qed.
End Init.

Definition clamp_nice (nice : Z) : Z :=
  let nice := if nice <? -20 then -20 else nice in if 19 <? nice then 19 else nice.

Lemma clamp_nice_range nice : -20 <= clamp_nice nice <= 19.
Proof. unfold clamp_nice. destruct (Z.ltb_spec nice (-20)), (Z.ltb_spec 19 nice); simpl; lia. Qed.

Lemma nice_negated nice : PRIO_TO_NICE (NICE_TO_PRIO (clamp_nice nice)) = - clamp_nice nice.
Proof.
  pose proof (clamp_nice_range nice). unfold PRIO_TO_NICE, NICE_TO_PRIO, MAX_PRIO, s32, u32.
  case Z.ltb_spec; lia.
Qed.

Section Claims.
Context `{ListApi}.



(** Renicing a queued task moves it to the back of the queue of the new
    priority; reading its nice value back gives the opposite of the value set. *)
Theorem set_user_nice_requeues i nice s Q p :
  rq_rep s Q → (p < 140)%nat → i ∈ Q (ActiveHead p) →
  se_rq (tasks s !!! i) = Some GlobalRq → tstate (tasks s !!! i) = TASK_RUNNING → curr s ≠ Some i →
  let p' := Z.to_nat (NICE_TO_PRIO (clamp_nice nice)) in
  let Q1 := <[ActiveHead p := without i (Q (ActiveHead p))]> Q in
  ∃ s', set_user_nice i nice s = Ok s' ∧
    rq_rep s' (<[ActiveHead p' := Q1 (ActiveHead p') ++ [i]]> Q1) ∧
    prio (tasks s' !!! i) = NICE_TO_PRIO (clamp_nice nice) ∧
    task_nice (tasks s' !!! i) = - clamp_nice nice.
Proof.
  intros HR Hp Hi Hrq Hst Hcur p' Q1.
  destruct (rep_task _ _ HR (ActiveHead p) i Hp Hi) as [Hin Hpr].
  unfold set_user_nice. fold (clamp_nice nice). cbv zeta.
  set (s0 := set_task i (set_static_prio (NICE_TO_PRIO (clamp_nice nice)) (tasks s !!! i)) s).
  assert (E0 : tasks s0 !!! i = set_static_prio (NICE_TO_PRIO (clamp_nice nice)) (tasks s !!! i)).
  { unfold s0. by rewrite set_task_lookup, decide_True by (done || lia). }
  assert (L0 : length (tasks s0) = length (tasks s)) by (simpl; by rewrite length_insert).
  assert (HR0 : rq_rep s0 Q) by (apply rq_rep_set_task; [done | lia | by left]).
  destruct (dequeue_task_ok i s0 Q p HR0 Hp Hi) as (s1 & D1 & HR1 & T1 & C1); [by rewrite E0 |].
  unfold task_is_running, is_current. rewrite E0. simpl tstate. simpl se_rq. rewrite Hst, Hrq.
  change (TASK_RUNNING =? TASK_RUNNING) with true. cbv iota. simpl deref. ok_bind.
  change (curr s0) with (curr s). rewrite (bool_decide_eq_false_2 _ Hcur). rewrite D1. ok_bind.
  rewrite T1, E0.
  set (t2 := set_prio _ _).
  assert (Hoff : off_queue Q1 i) by (by apply (dequeued_off s0)).
  assert (E2 : tasks (set_task i t2 s1) !!! i = t2).
  { by rewrite set_task_lookup, decide_True by (rewrite ?T1, ?L0; done || lia). }
  assert (L2 : length (tasks (set_task i t2 s1)) = length (tasks s)).
  { simpl. by rewrite length_insert, T1. }
  pose proof (clamp_nice_range nice) as Hn.
  destruct (enqueue_task_ok i false (set_task i t2 s1) Q1 p') as (s3 & D3 & HR3 & T3 & C3).
  - apply rq_rep_set_task; [done | rewrite T1, L0; lia | by right].
  - rewrite L2. lia.
  - done.
  - by rewrite E2.
  - rewrite E2. simpl. unfold p', effective_prio, NICE_TO_PRIO, MAX_PRIO. simpl static_prio.
    case_if; lia.
  - unfold p', NICE_TO_PRIO, MAX_PRIO. lia.
  - rewrite D3. ok_bind. eexists. split; [reflexivity |].
    assert (L3 : length (tasks s3) = length (tasks s)) by (by rewrite T3, length_insert).
    assert (E3 : tasks s3 !!! i = with_slice t2).
    { rewrite T3, E2. apply list_lookup_total_insert_eq. lia. }
    rewrite set_task_lookup, decide_True by (done || lia). rewrite E3.
    split; [apply rq_rep_set_task; [done | lia | left; by rewrite E3] |].
    assert (Hs : static_prio (with_slice t2) = NICE_TO_PRIO (clamp_nice nice)) by (unfold with_slice; by case_if).
    split; [simpl; rewrite prio_with_slice; simpl; unfold effective_prio; by case_if |].
    unfold task_nice. simpl static_prio. rewrite Hs. apply nice_negated.
Qed.

(** A time-sharing task gets between MIN_TIMESLICE and MAX_TIMESLICE ticks,
    never fewer than a task of lower priority; a real-time task gets none. *)
Theorem task_timeslice_range t :
  (rt_task t = true → task_timeslice t = 0) ∧
  (rt_task t = false → MAX_RT_PRIO <= static_prio t → MIN_TIMESLICE <= task_timeslice t <= MAX_TIMESLICE) ∧
  (∀ u, rt_task t = false → rt_task u = false →
    MAX_RT_PRIO <= static_prio t <= static_prio u → static_prio u <= MAX_PRIO →
    task_timeslice u <= task_timeslice t).
Proof.
  unfold task_timeslice. split_and!.
  - by intros ->.
  - intros -> Ht. rewrite (proj2 (Z.ltb_ge _ _)) by done. cbv zeta.
    generalize (if DEFAULT_PRIO <? static_prio t
      then u32 (BASE_TIMESLICE * u32 (MAX_PRIO - static_prio t)) / (MAX_PRIO - DEFAULT_PRIO)
      else BASE_TIMESLICE * 2) as v.
    intros v. unfold MIN_TIMESLICE, MAX_TIMESLICE, HZ. repeat case Z.ltb_spec; lia.
  - intros u -> -> Ht Hu. rewrite !(proj2 (Z.ltb_ge _ MAX_RT_PRIO)) by lia.
    unfold MAX_RT_PRIO, MAX_PRIO in *.
    rewrite !(u32_small (140 - _)) by (unfold is_u32; lia).
    change BASE_TIMESLICE with 10. change MIN_TIMESLICE with 2. change MAX_TIMESLICE with 20.
    unfold DEFAULT_PRIO.
    rewrite !(u32_small (_ * _)) by (unfold is_u32; lia).
    repeat case Z.ltb_spec; lia.
Qed.

Lemma pick_next_task_diverges fuel : ∀ rq s, pick_next_task fuel rq s = Diverge.
Proof. induction fuel as [|fuel IH]; intros rq s; [done |]. simpl. by rewrite IH. Qed.

(** No task is ever scheduled: [pick_next_task] calls itself through the
    real-time class for ever, [schedule] dereferences its own local variable, and
    so the tick that ends a time slice does not return. *)
Theorem never_reschedules TASK_READY fuel rq s :
  pick_next_task fuel rq s = Diverge ∧ schedule TASK_READY fuel s = Fault ∧
  (∀ i now s', curr s = Some i → i ≠ idle_process → 0 <= time_slice (tasks s !!! i) <= 1 →
    scheduler_tick TASK_READY fuel now s ≠ Ok s').
Proof.
  split; [apply pick_next_task_diverges |]. split; [done |].
  intros i now s' Hc Hi Ht. unfold scheduler_tick. rewrite Hc.
  destruct (Nat.eqb_spec i idle_process) as [|_]; [done |]. cbv zeta.
  set (t := if 0 <? time_slice (add_runtime (tasks s !!! i)) then _ else _).
  assert (Hz : time_slice t = 0).
  { unfold t. simpl. case Z.ltb_spec; simpl; lia. }
  rewrite Hz. change (0 =? 0) with true. cbv iota. by destruct (expire _ _ _).
Qed.

(** When the last running task uses up its time slice the two arrays are
    exchanged by copying the list heads: afterwards every queue that is empty
    looks occupied. *)
Theorem expire_corrupts i now s Q p q :
  rq_rep s Q → (p < 140)%nat → (q < 140)%nat → q ≠ p →
  i ∈ Q (ActiveHead p) → total 140 Q = 1 → Q (ExpiredHead q) = [] →
  se_rq (tasks s !!! i) = Some GlobalRq → rt_task (tasks s !!! i) = false →
  ∃ s', expire i now s = Ok s' ∧ list_empty (ActiveHead q) (chains s') = false.
Proof.
  intros HR Hp Hq Hne Hi Htot Hemp Hrq Hrt.
  destruct (rep_task _ _ HR (ActiveHead p) i Hp Hi) as [Hin Hpr]. unfold expire.
  set (s0 := set_task i _ s).
  assert (E0 : tasks s0 !!! i = set_time_slice (task_timeslice (tasks s !!! i)) (tasks s !!! i)).
  { unfold s0. by rewrite set_task_lookup, decide_True by (done || lia). }
  assert (HR0 : rq_rep s0 Q) by (apply rq_rep_set_task; [done | lia | by left]).
  destruct (dequeue_task_ok i s0 Q p HR0 Hp Hi) as (s1 & D1 & HR1 & T1 & _); [by rewrite E0 |].
  rewrite E0. change (rt_task (set_time_slice _ _)) with (rt_task (tasks s !!! i)).
  rewrite Hrt, D1. ok_bind. cbv zeta. rewrite T1, E0. simpl prio. rewrite Hpr. simpl prio_of.
  rewrite (proj2 (Z.leb_gt _ _)), Nat2Z.id by (unfold MAX_PRIO; lia).
  assert (Hn : nr_running s1 = 0).
  { rewrite (rep_nr _ _ HR1). rewrite <- (total_count _ _ _ _ (-1)); [by rewrite Htot | done |].
    rewrite length_without; [done | by apply (queues_nodup _ _ _ _ (rep_queues _ _ HR)) | done]. }
  sched_simpl. rewrite Hn. change (0 =? 0) with true. cbv iota. eexists. split; [reflexivity |].
  pose proof (dequeued_off s0 Q i p HR0 Hp Hi) as Hoff.
  pose proof (queues_add _ _ (ExpiredHead p) _ i false (rep_queues _ _ HR1) Hp Hoff) as HQ.
  pose proof (qs_linked _ _ _ HQ (ExpiredHead q) Hq) as Hl.
  rewrite !fn_lookup_insert_ne in Hl by congruence. rewrite Hemp in Hl.
  rewrite list_empty_next. apply bool_decide_eq_false. unfold swap_arrays. sched_simpl.
  cbn [next other_head]. rewrite bool_decide_eq_true_2 by (unfold MAX_PRIO; lia).
  rewrite (linked_next _ _ _ Hl). done.
Qed.
End Claims.
