(* ===== verification/SchedulerWitness.v ===== *)
(** * Concrete run queues for the theorems on the scheduler

    Two tasks besides the idle process, with the usual list implementation. *)
From stdpp Require Import functions.
From S2P Require Import Prelude Heap Process Lists Scheduler SchedulerSpec.

#[local] Existing Instance linux_lists.

Definition new_task (pid : Z) : task :=
  Task pid TASK_RUNNING 0 SCHED_NORMAL 120 120 120 0 0 1024 0 (Some GlobalRq).
Definition no_heap : heap_state := HeapState 0 0 0 NULL NULL (MemStats 0 0 0 0 0) ∅.
Definition sample : sched :=
  Sched [new_task 0; new_task 1; new_task 2] (Links id id) (replicate 5 0) (replicate 5 0)
    (Some idle_process) 0 0 0 MAX_PRIO 0 0 (0, 0, 0) (SchedStat 0 0 0 0 0) None no_heap.

Lemma sample_rep : rq_rep sample (λ _, []).
Proof.
  split; [| set_solver | | | done].
  - split; [| set_solver |]; intros; split; try apply NoDup_singleton; done.
  - split; [done |]. repeat constructor; unfold is_u32; lia.
  - intros p Hp. change (slot_bit (replicate 5 0) p = false). unfold slot_bit.
    rewrite lookup_total_replicate_2; [apply Z.bits_0 |]. apply Nat.Div0.div_lt_upper_bound. lia.
Qed.

(** The scheduler is initialised to such a state. *)
Lemma sample_boots : ∃ s', scheduler_init sample = Ok s' ∧ rq_rep s' (λ _, []).
Proof.
  destruct (scheduler_init_ok sample NULL (Heap.set_stats (count_fragmentation (stats no_heap)) no_heap))
    as (s' & ? & ? & _); [by apply kmalloc_no_heap | | by exists s'].
  intros; split; [apply NoDup_singleton | done].
Qed.


(** Task 1 is queued. *)
Definition queued : sched := match enqueue_task 1 false sample with Ok s => s | _ => sample end.
Lemma queued_rep : rq_rep queued (<[ActiveHead 120 := [1%nat]]> (λ _, [])).
Proof.
  destruct (enqueue_task_ok 1 false sample (λ _, []) 120) as (s' & E & HR & _);
    [apply sample_rep | simpl; lia | intros ? ?; set_solver | done | done | lia |].
  unfold queued. rewrite E. exact HR.
Qed.


Lemma set_user_nice_requeues_witness :
  ∃ s', set_user_nice 1 5 queued = Ok s' ∧ prio (tasks s' !!! 1%nat) = 125 ∧ task_nice (tasks s' !!! 1%nat) = -5.
Proof.
  destruct (set_user_nice_requeues 1 5 queued (<[ActiveHead 120 := [1%nat]]> (λ _, [])) 120)
    as (s' & E & _ & H1 & H2); [apply queued_rep | lia | apply list_elem_of_here | done | done | done |].
  exists s'. exact (conj E (conj H1 H2)).
Defined.

Lemma task_timeslice_range_witness :
  task_timeslice (new_task 1) = 20 ∧ MIN_TIMESLICE <= task_timeslice (new_task 1) <= MAX_TIMESLICE.
Proof.
  split; [reflexivity |]. apply (proj1 (proj2 (task_timeslice_range (new_task 1)))); [reflexivity | vm_compute; discriminate].
Defined.

Lemma never_reschedules_witness :
  scheduler_tick 1 100 0 (switch_to (Some 1%nat) sample) ≠ Ok sample.
Proof.
  apply (proj2 (proj2 (never_reschedules 1 100 GlobalRq (switch_to (Some 1%nat) sample))) 1%nat);
    [reflexivity | discriminate | vm_compute; split; discriminate].
Defined.

Lemma expire_corrupts_witness :
  ∃ s', expire 1 7 queued = Ok s' ∧ list_empty (ActiveHead 0) (chains s') = false.
Proof.
  apply (expire_corrupts 1 7 queued (<[ActiveHead 120 := [1%nat]]> (λ _, [])) 120);
    [apply queued_rep | lia | lia | lia | apply list_elem_of_here | reflexivity | reflexivity | reflexivity | reflexivity].
Defined.
