(* ===== verification/Irq.v ===== *)
(** * The interrupt request layer (src/kernel/irq.c, src/include/irq.h)

    Descriptors with nested disabling, interrupt controllers ("chips"), flow
    control and dispatch.  Interrupt handlers and the operations of platform
    controllers are driver code: parameters that act on the state.  There is one
    processor, so waiting for a lock that is held waits for ever.  Messages to the
    kernel log are left out. *)
From S2P Require Import Prelude.

Definition NR_IRQS : Z := 256.
Definition IRQ_DISABLED : Z := 0x01.
Definition IRQ_MASKED : Z := 0x04.
Definition IRQ_INPROGRESS : Z := 0x08.
Definition IRQ_AFFINITY_DEFAULT : Z := 0xFFFFFFFF.
Definition IRQF_SHARED : Z := 0x00000001.

(** [dummy_irq_chip], [generic_irq_chip], and the controllers of the platform. *)
Inductive irq_chip := Dummy | Generic | Platform (n : nat).
(** The operations of a controller that the layer calls without a result. *)
Inductive chip_op := Enable | Disable | Ack | Mask | Unmask | Eoi | Retrigger.
(** Those with a result. *)
Inductive chip_query := SetType (type : Z) | SetAffinity (dest : Z) | SetWake (on : Z).
(** The four built-in flow controls. *)
Inductive flow := Edge | Level | Simple | PerCpu.

Record irq_desc_stats := DescStats { irqs : Z; spurious : Z; unhandled : Z; retriggered : Z; missed : Z }.

(** [struct irq_desc]; handlers are numbered, [None] is the null pointer.  The
    fields for threads, devices, wake-up and domains are only ever cleared. *)
Record irq_desc := Desc {
  irq_no : Z;
  status : Z;
  depth : Z;
  handle_irq : option nat;
  handler_data : Z;
  chip_data : Z;
  chip : option irq_chip;
  flow_control : option flow;
  affinity : Z;
  hwirq : Z;
  name : string;
  locked : bool;
  dstats : irq_desc_stats;
}.
#[export] Instance irq_desc_inhabited : Inhabited irq_desc :=
  populate (Desc 0 0 0 None 0 0 None None 0 0 "" false (DescStats 0 0 0 0 0)).

Record irq_state := IrqState {
  descs : list irq_desc;
  total_irqs : Z;
  spurious_irqs : Z;
  unhandled_irqs : Z;
  disabled_irqs : Z;
  masked_irqs : Z;
}.

Definition set_status (x : Z) (d : irq_desc) : irq_desc :=
  Desc (irq_no d) x (depth d) (handle_irq d) (handler_data d) (chip_data d) (chip d) (flow_control d) (affinity d) (hwirq d) (name d) (locked d) (dstats d).
Definition set_depth (x : Z) (d : irq_desc) : irq_desc :=
  Desc (irq_no d) (status d) x (handle_irq d) (handler_data d) (chip_data d) (chip d) (flow_control d) (affinity d) (hwirq d) (name d) (locked d) (dstats d).
Definition set_handle (h : option nat) (d : irq_desc) : irq_desc :=
  Desc (irq_no d) (status d) (depth d) h (handler_data d) (chip_data d) (chip d) (flow_control d) (affinity d) (hwirq d) (name d) (locked d) (dstats d).
Definition set_handler_data (x : Z) (d : irq_desc) : irq_desc :=
  Desc (irq_no d) (status d) (depth d) (handle_irq d) x (chip_data d) (chip d) (flow_control d) (affinity d) (hwirq d) (name d) (locked d) (dstats d).
Definition set_chip_data (x : Z) (d : irq_desc) : irq_desc :=
  Desc (irq_no d) (status d) (depth d) (handle_irq d) (handler_data d) x (chip d) (flow_control d) (affinity d) (hwirq d) (name d) (locked d) (dstats d).
Definition set_chip (c : option irq_chip) (d : irq_desc) : irq_desc :=
  Desc (irq_no d) (status d) (depth d) (handle_irq d) (handler_data d) (chip_data d) c (flow_control d) (affinity d) (hwirq d) (name d) (locked d) (dstats d).
Definition set_flow (f : option flow) (d : irq_desc) : irq_desc :=
  Desc (irq_no d) (status d) (depth d) (handle_irq d) (handler_data d) (chip_data d) (chip d) f (affinity d) (hwirq d) (name d) (locked d) (dstats d).
Definition set_name (n : string) (d : irq_desc) : irq_desc :=
  Desc (irq_no d) (status d) (depth d) (handle_irq d) (handler_data d) (chip_data d) (chip d) (flow_control d) (affinity d) (hwirq d) n (locked d) (dstats d).
Definition set_locked (b : bool) (d : irq_desc) : irq_desc :=
  Desc (irq_no d) (status d) (depth d) (handle_irq d) (handler_data d) (chip_data d) (chip d) (flow_control d) (affinity d) (hwirq d) (name d) b (dstats d).
Definition set_dstats (st : irq_desc_stats) (d : irq_desc) : irq_desc :=
  Desc (irq_no d) (status d) (depth d) (handle_irq d) (handler_data d) (chip_data d) (chip d) (flow_control d) (affinity d) (hwirq d) (name d) (locked d) st.

Definition set_descs (l : list irq_desc) (s : irq_state) : irq_state :=
  IrqState l (total_irqs s) (spurious_irqs s) (unhandled_irqs s) (disabled_irqs s) (masked_irqs s).
Definition count_total  (s : irq_state) : irq_state :=
  IrqState (descs s) (u32 (total_irqs s + 1)) (spurious_irqs s) (unhandled_irqs s) (disabled_irqs s) (masked_irqs s).
Definition count_spurious  (s : irq_state) : irq_state :=
  IrqState (descs s) (total_irqs s) (u32 (spurious_irqs s + 1)) (unhandled_irqs s) (disabled_irqs s) (masked_irqs s).
Definition count_unhandled  (s : irq_state) : irq_state :=
  IrqState (descs s) (total_irqs s) (spurious_irqs s) (u32 (unhandled_irqs s + 1)) (disabled_irqs s) (masked_irqs s).
Definition count_masked  (s : irq_state) : irq_state :=
  IrqState (descs s) (total_irqs s) (spurious_irqs s) (unhandled_irqs s) (disabled_irqs s) (u32 (masked_irqs s + 1)).

(** [IRQ_TO_DESC], and an update of a descriptor in place. *)
Definition IRQ_TO_DESC (s : irq_state) (irq : Z) : irq_desc := descs s !!! Z.to_nat irq.
Definition on_desc (irq : Z) (f : irq_desc → irq_desc) (s : irq_state) : irq_state :=
  set_descs (<[Z.to_nat irq := f (IRQ_TO_DESC s irq)]> (descs s)) s.

(** ** Locks: [spin_lock_irqsave] and [spin_unlock_irqrestore] on the lock of a
    descriptor *)
Definition spin_lock (irq : Z) (s : irq_state) : outcome irq_state :=
  if locked (IRQ_TO_DESC s irq) then Diverge else Ok (on_desc irq (set_locked true) s).
Definition spin_unlock (irq : Z) (s : irq_state) : irq_state := on_desc irq (set_locked false) s.

(** ** Initialisation *)
Definition init_desc (i : nat) : irq_desc :=
  Desc (Z.of_nat i) IRQ_DISABLED 1 None 0 0 (Some Dummy) None IRQ_AFFINITY_DEFAULT (Z.of_nat i) "unknown"
    false (DescStats 0 0 0 0 0).
Definition irq_init (s : irq_state) : irq_state := set_descs (init_desc <$> seq 0 (Z.to_nat NR_IRQS)) s.

(** ** Configuration *)

(** A change of one descriptor under its lock. *)
Definition with_lock (irq : Z) (f : irq_desc → irq_desc) (s : irq_state) : outcome irq_state :=
  s ← spin_lock irq s; Ok (spin_unlock irq (on_desc irq f s)).

Definition irq_set_chip (irq : Z) (c : option irq_chip) : cmd irq_state kret := λ s,
  if NR_IRQS <=? irq then Ok (Err EINVAL, s) else
  match c with
  | None => Ok (Err EINVAL, s)
  | Some c => s ← with_lock irq (set_chip (Some c)) s; Ok (Ret 0, s)
  end.
Definition irq_set_chip_data (irq data : Z) : cmd irq_state kret := λ s,
  if NR_IRQS <=? irq then Ok (Err EINVAL, s) else
  s ← with_lock irq (set_chip_data data) s; Ok (Ret 0, s).
Definition irq_set_handler (irq : Z) (h : option nat) : cmd irq_state kret := λ s,
  if NR_IRQS <=? irq then Ok (Err EINVAL, s) else
  s ← with_lock irq (set_handle h) s; Ok (Ret 0, s).
Definition irq_set_handler_data (irq data : Z) : cmd irq_state kret := λ s,
  if NR_IRQS <=? irq then Ok (Err EINVAL, s) else
  s ← with_lock irq (set_handler_data data) s; Ok (Ret 0, s).
Definition irq_set_flow_handler (irq : Z) (f : option flow) (s : irq_state) : outcome irq_state :=
  if NR_IRQS <=? irq then Ok s else with_lock irq (set_flow f) s.

Section Irq.
(** The operations of the platform's controllers (a missing one is a null
    pointer), and the interrupt handlers: handler, interrupt, data. *)
Variable platform : nat → chip_op → option (Z → irq_state → outcome irq_state).
Variable platform_query : nat → chip_query → option (Z → cmd irq_state Z).
Variable run_handler : nat → Z → Z → irq_state → outcome irq_state.

(** ** Controllers *)

(** [generic_irq_enable], [generic_irq_disable], [generic_irq_ack],
    [generic_irq_mask], [generic_irq_unmask] and [generic_irq_eoi] are empty;
    [generic_kretrigger] calls the retrigger operation of the descriptor's
    controller. *)
Fixpoint call_chip (fuel : nat) (op : chip_op) (irq : Z) (s : irq_state) : outcome irq_state :=
  match chip (IRQ_TO_DESC s irq), op with
  | None, _ | Some Dummy, _ => Ok s
  | Some Generic, Retrigger =>
    match fuel with O => Diverge | S fuel => call_chip fuel Retrigger irq s end
  | Some Generic, _ => Ok s
  | Some (Platform n), op => match platform n op with Some f => f irq s | None => Ok s end
  end.
Definition generic_kretrigger (fuel : nat) (irq : Z) (s : irq_state) : outcome irq_state :=
  call_chip fuel Retrigger irq s.

(** [generic_irq_set_type], [generic_irq_set_affinity] and
    [generic_irq_set_wake]: the operation of the descriptor's controller, which
    for the generic one is the function itself. *)
Fixpoint generic_query (fuel : nat) (q : chip_query) (irq : Z) : cmd irq_state kret := λ s,
  match chip (IRQ_TO_DESC s irq) with
  | None | Some Dummy => Ok (Err ENOTSUPP, s)
  | Some Generic =>
    match fuel with O => Diverge | S fuel => generic_query fuel q irq s end
  | Some (Platform n) =>
    match platform_query n q with
    | None => Ok (Err ENOTSUPP, s)
    | Some f => '(r, s) ← f irq s; Ok (Ret r, s)
    end
  end.

(** The operations of the four flow controls: each calls the function of the
    layer that calls it ([self]) for the same interrupt. *)
Definition call_flow (self : Z → irq_state → outcome irq_state) (irq : Z) (s : irq_state) : outcome irq_state :=
  match flow_control (IRQ_TO_DESC s irq) with
  | None => Ok s
  | Some (Edge | Level | Simple | PerCpu) => self (irq_no (IRQ_TO_DESC s irq)) s
  end.

(** ** Enabling and masking; calls nested at most [fuel] deep *)
Fixpoint irq_enable (fuel : nat) (irq : Z) (s : irq_state) : outcome irq_state :=
  match fuel with
  | O => Diverge
  | S fuel =>
    if NR_IRQS <=? irq then Ok s else
    s ← spin_lock irq s;
    if depth (IRQ_TO_DESC s irq) =? 0 then Ok (spin_unlock irq s) else
    let s := on_desc irq (λ d, set_depth (depth d - 1) d) s in
    s ←
      (if depth (IRQ_TO_DESC s irq) =? 0 then
         let s := on_desc irq (λ d, set_status (Z.land (status d) (not32 IRQ_DISABLED)) d) s in
         s ← call_chip fuel Enable irq s;
         call_flow (irq_enable fuel) irq s
       else Ok s);
    Ok (spin_unlock irq s)
  end.

Fixpoint irq_disable (fuel : nat) (irq : Z) (s : irq_state) : outcome irq_state :=
  match fuel with
  | O => Diverge
  | S fuel =>
    if NR_IRQS <=? irq then Ok s else
    s ← spin_lock irq s;
    s ←
      (if depth (IRQ_TO_DESC s irq) =? 0 then
         let s := on_desc irq (λ d, set_status (Z.lor (status d) IRQ_DISABLED) d) s in
         s ← call_chip fuel Disable irq s;
         call_flow (irq_disable fuel) irq s
       else Ok s);
    let s := on_desc irq (λ d, set_depth (u32 (depth d + 1)) d) s in
    Ok (spin_unlock irq s)
  end.

Fixpoint irq_mask (fuel : nat) (irq : Z) (s : irq_state) : outcome irq_state :=
  match fuel with
  | O => Diverge
  | S fuel =>
    if NR_IRQS <=? irq then Ok s else
    s ← spin_lock irq s;
    let s := on_desc irq (λ d, set_status (Z.lor (status d) IRQ_MASKED) d) s in
    s ← call_chip fuel Mask irq s;
    s ← call_flow (irq_mask fuel) irq s;
    Ok (spin_unlock irq (count_masked s))
  end.

Fixpoint irq_unmask (fuel : nat) (irq : Z) (s : irq_state) : outcome irq_state :=
  match fuel with
  | O => Diverge
  | S fuel =>
    if NR_IRQS <=? irq then Ok s else
    s ← spin_lock irq s;
    let s := on_desc irq (λ d, set_status (Z.land (status d) (not32 IRQ_MASKED)) d) s in
    s ← call_chip fuel Unmask irq s;
    s ← call_flow (irq_unmask fuel) irq s;
    Ok (spin_unlock irq s)
  end.

Fixpoint irq_ack (fuel : nat) (irq : Z) (s : irq_state) : outcome irq_state :=
  match fuel with
  | O => Diverge
  | S fuel =>
    if NR_IRQS <=? irq then Ok s else
    s ← spin_lock irq s;
    s ← call_chip fuel Ack irq s;
    s ← call_flow (irq_ack fuel) irq s;
    Ok (spin_unlock irq s)
  end.

Fixpoint irq_eoi (fuel : nat) (irq : Z) (s : irq_state) : outcome irq_state :=
  match fuel with
  | O => Diverge
  | S fuel =>
    if NR_IRQS <=? irq then Ok s else
    s ← spin_lock irq s;
    s ← call_chip fuel Eoi irq s;
    s ← call_flow (irq_eoi fuel) irq s;
    Ok (spin_unlock irq s)
  end.

Definition generic_irq_startup (fuel : nat) (irq : Z) (s : irq_state) : outcome irq_state := irq_enable fuel irq s.
Definition generic_irq_shutdown (fuel : nat) (irq : Z) (s : irq_state) : outcome irq_state := irq_disable fuel irq s.

(** ** Requesting and freeing an interrupt *)
Definition request_irq (fuel : nat) (irq : Z) (handler : option nat) (flags : Z) (nm : option string) (dev : Z)
  : cmd irq_state kret := λ s,
  if NR_IRQS <=? irq then Ok (Err EINVAL, s) else
  match handler with
  | None => Ok (Err EINVAL, s)
  | Some h =>
    let nm := default "unknown"%string nm in
    s ← spin_lock irq s;
    if (Z.land flags IRQF_SHARED =? 0) && bool_decide (is_Some (handle_irq (IRQ_TO_DESC s irq)))
    then Ok (Err EBUSY, spin_unlock irq s) else
    let s := on_desc irq (λ d, set_name nm (set_handler_data dev (set_handle (Some h) d))) s in
    s ←
      (if 0 <? depth (IRQ_TO_DESC s irq)
       then irq_enable fuel irq (on_desc irq (set_depth 1) s)
       else Ok s);
    Ok (Ret 0, spin_unlock irq s)
  end.

Definition free_irq (fuel : nat) (irq : Z) (s : irq_state) : outcome irq_state :=
  if NR_IRQS <=? irq then Ok s else
  s ← spin_lock irq s;
  let s := on_desc irq (λ d, set_name "freed" (set_handler_data 0 (set_handle None d))) s in
  s ← irq_disable fuel irq s;
  Ok (spin_unlock irq s).

(** ** Dispatch *)

(** The call of the handler of the descriptor, if it has one. *)
Definition call_handler (i : Z) (irq : Z) (s : irq_state) : outcome irq_state :=
  let d := IRQ_TO_DESC s i in
  match handle_irq d with
  | Some h => run_handler h irq (handler_data d) s
  | None => Ok s
  end.

Definition handle_edge_irq (fuel : nat) (i : Z) (s : irq_state) : outcome irq_state :=
  let irq := irq_no (IRQ_TO_DESC s i) in
  s ← irq_ack fuel irq s;
  s ← irq_unmask fuel irq s;
  s ← call_handler i irq s;
  irq_eoi fuel irq s.

Definition handle_level_irq (fuel : nat) (i : Z) (s : irq_state) : outcome irq_state :=
  let irq := irq_no (IRQ_TO_DESC s i) in
  s ← irq_mask fuel irq s;
  s ← irq_ack fuel irq s;
  s ← call_handler i irq s;
  s ← irq_eoi fuel irq s;
  irq_unmask fuel irq s.

Definition handle_simple_irq (i : Z) (s : irq_state) : outcome irq_state :=
  call_handler i (irq_no (IRQ_TO_DESC s i)) s.

Definition handle_percpu_irq (fuel : nat) (i : Z) (s : irq_state) : outcome irq_state :=
  let irq := irq_no (IRQ_TO_DESC s i) in
  s ← call_handler i irq s;
  irq_eoi fuel irq s.

(** The [handle] operations of the flow controls. *)
Definition flow_handle (fuel : nat) (f : flow) : Z → irq_state → outcome irq_state :=
  match f with
  | Edge => handle_edge_irq fuel
  | Level => handle_level_irq fuel
  | Simple => handle_simple_irq
  | PerCpu => handle_percpu_irq fuel
  end.

Definition count_irq (st : irq_desc_stats) : irq_desc_stats :=
  DescStats (u32 (irqs st + 1)) (spurious st) (unhandled st) (retriggered st) (missed st).
Definition count_desc_unhandled (st : irq_desc_stats) : irq_desc_stats :=
  DescStats (irqs st) (spurious st) (u32 (unhandled st + 1)) (retriggered st) (missed st).

Definition do_IRQ (fuel : nat) (irq : Z) (s : irq_state) : outcome irq_state :=
  if NR_IRQS <=? irq then Ok (count_spurious s) else
  let s := count_total (on_desc irq (λ d, set_dstats (count_irq (dstats d)) d) s) in
  if negb (Z.land (status (IRQ_TO_DESC s irq)) IRQ_DISABLED =? 0)
  then Ok (count_unhandled (on_desc irq (λ d, set_dstats (count_desc_unhandled (dstats d)) d) s)) else
  let s := on_desc irq (λ d, set_status (Z.lor (status d) IRQ_INPROGRESS) d) s in
  s ←
    (match flow_control (IRQ_TO_DESC s irq), handle_irq (IRQ_TO_DESC s irq) with
     | Some f, _ => flow_handle fuel f irq s
     | None, Some h => run_handler h irq (handler_data (IRQ_TO_DESC s irq)) s
     | None, None => Ok (count_unhandled (on_desc irq (λ d, set_dstats (count_desc_unhandled (dstats d)) d) s))
     end);
  Ok (on_desc irq (λ d, set_status (Z.land (status d) (not32 IRQ_INPROGRESS)) d) s).
End Irq.
