(* ===== verification/IrqSpec.v ===== *)
(** * Interrupt requests: nesting, delivery and deadlocks

    Disabling and enabling nest; an interrupt whose handler was installed and
    that was enabled is delivered; every operation that calls back into the layer
    with the lock of the descriptor held waits for ever. *)
From S2P Require Import Prelude Irq.

(** ** Descriptors in place *)
Section Descs.
Context (s : irq_state) (irq : Z).
Hypothesis Hirq : 0 <= irq < Z.of_nat (length (descs s)).

Lemma desc_on f : IRQ_TO_DESC (on_desc irq f s) irq = f (IRQ_TO_DESC s irq).
Proof. unfold IRQ_TO_DESC, on_desc. simpl. rewrite list_lookup_total_insert_eq by lia. done. Qed.

Lemma desc_on_ne f j : 0 <= j → j ≠ irq → IRQ_TO_DESC (on_desc irq f s) j = IRQ_TO_DESC s j.
Proof.
  intros. unfold IRQ_TO_DESC, on_desc. simpl. rewrite list_lookup_total_insert_ne by lia. done.
Qed.

Lemma on_desc_twice f g : on_desc irq g (on_desc irq f s) = on_desc irq (λ d, g (f d)) s.
Proof.
  unfold on_desc at 1. rewrite desc_on. unfold on_desc, set_descs. simpl. by rewrite list_insert_insert_eq.
Qed.

Lemma on_desc_id f : f (IRQ_TO_DESC s irq) = IRQ_TO_DESC s irq → on_desc irq f s = s.
Proof.
  intros Hf. unfold on_desc. rewrite Hf. unfold IRQ_TO_DESC, set_descs.
  rewrite list_insert_id; [by destruct s |]. apply list_lookup_lookup_total_lt. lia.
Qed.

Lemma on_desc_ext f g : f (IRQ_TO_DESC s irq) = g (IRQ_TO_DESC s irq) → on_desc irq f s = on_desc irq g s.
Proof. intros Hf. unfold on_desc. by rewrite Hf. Qed.
End Descs.

Lemma length_on_desc irq f s : length (descs (on_desc irq f s)) = length (descs s).
Proof. unfold on_desc. simpl. apply length_insert. Qed.

Lemma count_total_desc s irq : IRQ_TO_DESC (count_total s) irq = IRQ_TO_DESC s irq.
Proof. done. Qed.

(** Bit 0 of the status. *)
Definition disabled (d : irq_desc) : bool := negb (Z.land (status d) IRQ_DISABLED =? 0).

(** A descriptor is marked disabled exactly when its depth is not 0. *)
Record desc_ok (d : irq_desc) : Prop := {
  d_status : is_u32 (status d);
  d_depth : is_u32 (depth d);
  d_disabled : disabled d = negb (depth d =? 0);
}.

Lemma clear_after_set x b :
  is_u32 x → Z.land x b = 0 → is_u32 b → Z.land (Z.lor x b) (not32 b) = x.
Proof.
  intros Hx Hd Hb. apply Z.bits_inj'. intros n Hn. rewrite Z.land_spec, Z.lor_spec.
  assert (Hz : Z.testbit x n && Z.testbit b n = false) by (by rewrite <- Z.land_spec, Hd, Z.bits_0).
  unfold not32, u32. change 4294967296 with (2 ^ 32).
  destruct (decide (n < 32)).
  - rewrite Z.mod_pow2_bits_low, Z.lnot_spec by lia. by destruct (Z.testbit x n), (Z.testbit b n).
  - assert (Hh : Z.testbit x n = false).
    { apply Z.bits_above_log2; [unfold is_u32 in *; lia |].
      destruct (decide (x = 0)) as [->|]; [simpl; lia |].
      apply Z.log2_lt_pow2; [unfold is_u32 in *; lia |].
      apply Z.lt_le_trans with (2 ^ 32); [unfold is_u32 in *; lia |]. apply Z.pow_le_mono_r; lia. }
    rewrite Hh, Z.mod_pow2_bits_high by lia. by rewrite andb_false_r.
Qed.

Section Ops.
Variable platform : nat → chip_op → option (Z → irq_state → outcome irq_state).

(** The controllers of the platform act on the hardware only. *)
Hypothesis chips_hardware : ∀ n op f irq s, platform n op = Some f → f irq s = Ok s.

Notation call_chip := (call_chip platform).
Notation irq_enable := (irq_enable platform).
Notation irq_disable := (irq_disable platform).

Lemma call_chip_returns fuel op irq s : op ≠ Retrigger → call_chip fuel op irq s = Ok s.
Proof.
  intros Hop. destruct fuel; simpl; destruct (chip _) as [[| |n]|], op; try done;
    destruct (platform n _) eqn:E; try done; by apply (chips_hardware n _ _ _ _ E).
Qed.

Lemma with_lock_ok irq f s :
  0 <= irq < Z.of_nat (length (descs s)) → locked (IRQ_TO_DESC s irq) = false →
  (∀ d, locked (f d) = locked d) → (∀ d b, f (set_locked b d) = set_locked b (f d)) →
  with_lock irq f s = Ok (on_desc irq f s).
Proof.
  intros Hi Hl Hf Hc. unfold with_lock, spin_lock, spin_unlock. rewrite Hl. ok_bind.
  rewrite !on_desc_twice by (rewrite ?length_on_desc; lia). f_equal. apply on_desc_ext.
  rewrite Hc. specialize (Hf (IRQ_TO_DESC s irq)). rewrite Hl in Hf.
  destruct (f (IRQ_TO_DESC s irq)). unfold set_locked. simpl in *. by subst.
Qed.

(** What a nested disable and enable do to a descriptor. *)
Definition disable_desc (d : irq_desc) : irq_desc :=
  set_depth (depth d + 1) (if depth d =? 0 then set_status (Z.lor (status d) IRQ_DISABLED) d else d).
Definition enable_desc (d : irq_desc) : irq_desc :=
  if depth d =? 0 then d
  else if depth d =? 1 then set_status (Z.land (status d) (not32 IRQ_DISABLED)) (set_depth 0 d)
  else set_depth (depth d - 1) d.

Lemma irq_disable_spec fuel irq s :
  0 <= irq < 256 → length (descs s) = 256%nat →
  let d := IRQ_TO_DESC s irq in
  locked d = false → flow_control d = None → 0 <= depth d < 4294967295 →
  irq_disable (S fuel) irq s = Ok (on_desc irq disable_desc s).
Proof.
  intros Hi Hlen d Hl Hf Hd. simpl. rewrite (proj2 (Z.leb_gt _ _)) by (unfold NR_IRQS; lia).
  unfold spin_lock. fold d. rewrite Hl. ok_bind.
  assert (HL : 0 <= irq < Z.of_nat (length (descs s))) by lia.
  rewrite desc_on by done. change (depth (set_locked true (IRQ_TO_DESC s irq))) with (depth d).
  destruct (Z.eqb_spec (depth d) 0) as [Hz|Hz].
  - rewrite call_chip_returns by done. ok_bind. unfold call_flow.
    rewrite on_desc_twice, desc_on by done. simpl flow_control. fold d. rewrite Hf. ok_bind.
    unfold spin_unlock. rewrite !on_desc_twice by (rewrite ?length_on_desc; done).
    f_equal. apply on_desc_ext. unfold disable_desc. fold d. rewrite Hz. simpl.
    destruct d; simpl in *. by subst.
  - ok_bind. unfold spin_unlock. rewrite !on_desc_twice by (rewrite ?length_on_desc; done).
    f_equal. apply on_desc_ext. unfold disable_desc. fold d.
    rewrite (proj2 (Z.eqb_neq _ _) Hz). simpl. rewrite (u32_small (depth d + 1)) by (unfold is_u32; lia).
    destruct d; simpl in *. by subst.
Qed.

Lemma irq_enable_spec fuel irq s :
  0 <= irq < 256 → length (descs s) = 256%nat →
  let d := IRQ_TO_DESC s irq in
  locked d = false → flow_control d = None →
  irq_enable (S fuel) irq s = Ok (on_desc irq enable_desc s).
Proof.
  intros Hi Hlen d Hl Hf. simpl. rewrite (proj2 (Z.leb_gt _ _)) by (unfold NR_IRQS; lia).
  unfold spin_lock. fold d. rewrite Hl. ok_bind.
  assert (HL : 0 <= irq < Z.of_nat (length (descs s))) by lia.
  rewrite desc_on by done. change (depth (set_locked true (IRQ_TO_DESC s irq))) with (depth d).
  unfold enable_desc, spin_unlock. destruct (Z.eqb_spec (depth d) 0) as [Hz|Hz].
  - rewrite on_desc_twice by done. f_equal. apply on_desc_ext. fold d. rewrite Hz. simpl.
    destruct d; simpl in *. by subst.
  - rewrite on_desc_twice, desc_on by done. simpl depth. fold d.
    destruct (Z.eqb_spec (depth d - 1) 0) as [H1|H1].
    + rewrite call_chip_returns by done. ok_bind. unfold call_flow.
      rewrite on_desc_twice, desc_on by done. simpl flow_control. fold d. rewrite Hf. ok_bind.
      rewrite on_desc_twice by done. f_equal. apply on_desc_ext. fold d.
      rewrite (proj2 (Z.eqb_neq _ _) Hz), (proj2 (Z.eqb_eq (depth d) 1)) by lia. simpl.
      rewrite H1. destruct d; simpl in *. by subst.
    + ok_bind. rewrite on_desc_twice by done. f_equal. apply on_desc_ext. fold d.
      rewrite (proj2 (Z.eqb_neq _ _) Hz), (proj2 (Z.eqb_neq (depth d) 1)) by lia. simpl.
      destruct d; simpl in *. by subst.
Qed.

(** The descriptor of an interrupt without flow control, its lock free. *)
Record irq_ready (irq : Z) (s : irq_state) : Prop := {
  ready_range : 0 <= irq < 256;
  ready_descs : length (descs s) = 256%nat;
  ready_ok : desc_ok (IRQ_TO_DESC s irq);
  ready_free : locked (IRQ_TO_DESC s irq) = false;
  ready_flow : flow_control (IRQ_TO_DESC s irq) = None;
}.

Lemma disabled_lor d : disabled (set_status (Z.lor (status d) IRQ_DISABLED) d) = true.
Proof.
  unfold disabled. simpl status. rewrite Z.land_comm, Z.land_lor_distr_r.
  unfold IRQ_DISABLED. apply negb_true_iff, Z.eqb_neq. intros E%Z.lor_eq_0_iff. by destruct E.
Qed.

Lemma enable_disable_desc d : desc_ok d → enable_desc (disable_desc d) = d.
Proof.
  intros [Hs Hd Hdis]. unfold enable_desc, disable_desc. destruct (Z.eqb_spec (depth d) 0) as [Hz|Hz].
  - simpl. rewrite Hz. simpl. rewrite clear_after_set; [destruct d; simpl in *; by subst | done | | done].
    unfold disabled in Hdis. by apply negb_false_iff, Z.eqb_eq in Hdis.
  - unfold is_u32 in Hd. simpl.
    rewrite (proj2 (Z.eqb_neq _ _)), (proj2 (Z.eqb_neq _ _)) by lia.
    destruct d. unfold set_depth. simpl. f_equal. lia.
Qed.

Lemma disable_desc_ok d :
  desc_ok d → depth d < 4294967295 → desc_ok (disable_desc d) ∧ disabled (disable_desc d) = true.
Proof.
  intros [Hs Hd Hdis] Hmax. unfold is_u32 in Hd.
  assert (H1 : disabled (disable_desc d) = true).
  { unfold disable_desc. destruct (Z.eqb_spec (depth d) 0) as [Hz|Hz]; [apply disabled_lor |].
    unfold disabled in *. simpl status. by rewrite Hdis. }
  split; [| done]. split; [| unfold disable_desc, is_u32; simpl; lia |].
  - unfold disable_desc. destruct (depth d =? 0); [| done]. by apply lor_u32.
  - rewrite H1. unfold disable_desc. simpl depth. rewrite (proj2 (Z.eqb_neq _ _)) by lia. done.
Qed.

(** One more disable, and the enable that undoes it. *)
Lemma disable_step fuel irq s :
  irq_ready irq s → depth (IRQ_TO_DESC s irq) < 4294967295 →
  ∃ s', irq_disable (S fuel) irq s = Ok s' ∧ irq_ready irq s' ∧
    disabled (IRQ_TO_DESC s' irq) = true ∧ depth (IRQ_TO_DESC s' irq) = depth (IRQ_TO_DESC s irq) + 1 ∧
    irq_enable (S fuel) irq s' = Ok s.
Proof.
  intros [Hi Hlen Hok Hl Hf] Hmax. pose proof (d_depth _ Hok) as Hu. unfold is_u32 in Hu.
  exists (on_desc irq disable_desc s). split; [apply irq_disable_spec; done || lia |].
  assert (HL : 0 <= irq < Z.of_nat (length (descs s))) by lia.
  destruct (disable_desc_ok _ Hok Hmax) as [Hok' Hdis].
  assert (Hk : locked (disable_desc (IRQ_TO_DESC s irq)) = false ∧
               flow_control (disable_desc (IRQ_TO_DESC s irq)) = None).
  { unfold disable_desc. by destruct (_ =? _). }
  destruct Hk as [Hk1 Hk2].
  assert (HR : irq_ready irq (on_desc irq disable_desc s)).
  { split; rewrite ?length_on_desc, ?desc_on by done; done. }
  split; [done |]. rewrite desc_on by done. split; [done |]. split; [by unfold disable_desc |].
  rewrite irq_enable_spec by (try apply HR; done). f_equal. rewrite on_desc_twice by done.
  apply on_desc_id; [done |]. by apply enable_disable_desc.
Qed.

Lemma disable_steps fuel irq s n :
  irq_ready irq s → depth (IRQ_TO_DESC s irq) + Z.of_nat n < 4294967296 →
  ∃ s', Nat.iter n (λ o, s ← o; irq_disable (S fuel) irq s) (Ok s) = Ok s' ∧ irq_ready irq s' ∧
    ((0 < n)%nat → disabled (IRQ_TO_DESC s' irq) = true) ∧
    depth (IRQ_TO_DESC s' irq) = depth (IRQ_TO_DESC s irq) + Z.of_nat n ∧
    Nat.iter n (λ o, s ← o; irq_enable (S fuel) irq s) (Ok s') = Ok s.
Proof.
  induction n as [|n IH]; intros HR Hn.
  - exists s. split_and!; try done; lia.
  - destruct IH as (s1 & E1 & HR1 & _ & D1 & B1); [done | lia |].
    destruct (disable_step fuel irq s1 HR1) as (s2 & E2 & HR2 & Dis2 & D2 & B2); [lia |].
    exists s2. split; [rewrite Nat.iter_succ, E1; exact E2 |]. split; [done |]. split; [done |].
    split; [lia |]. rewrite Nat.iter_succ_r. change (mbind _ (Ok s2)) with (irq_enable (S fuel) irq s2).
    by rewrite B2.
Qed.

(** ** Waiting for a lock that is held *)
Lemma irq_ops_locked fuel irq s :
  0 <= irq < 256 → locked (IRQ_TO_DESC s irq) = true →
  irq_enable fuel irq s = Diverge ∧ irq_disable fuel irq s = Diverge ∧
  irq_mask platform fuel irq s = Diverge ∧ irq_unmask platform fuel irq s = Diverge ∧
  irq_ack platform fuel irq s = Diverge ∧ irq_eoi platform fuel irq s = Diverge.
Proof.
  intros Hi Hl. destruct fuel; [done |]. simpl.
  rewrite !(proj2 (Z.leb_gt _ _)) by (unfold NR_IRQS; lia). unfold spin_lock. by rewrite Hl.
Qed.

(** Every callback of a flow control re-enters the function it is called from. *)
Lemma flow_ops_deadlock fuel irq s :
  0 <= irq < 256 → length (descs s) = 256%nat →
  irq_no (IRQ_TO_DESC s irq) = irq → flow_control (IRQ_TO_DESC s irq) ≠ None →
  irq_mask platform fuel irq s = Diverge ∧ irq_unmask platform fuel irq s = Diverge ∧
  irq_ack platform fuel irq s = Diverge ∧ irq_eoi platform fuel irq s = Diverge.
Proof.
  intros Hi Hlen Hno Hf. destruct fuel as [|fuel]; [done |].
  assert (HL : 0 <= irq < Z.of_nat (length (descs s))) by lia.
  destruct (flow_control (IRQ_TO_DESC s irq)) as [f|] eqn:Ef; [| done].
  assert (Hd : ∀ g : irq_desc → irq_desc, (∀ d, irq_no (g d) = irq_no d) → (∀ d, flow_control (g d) = flow_control d) →
    (∀ d, locked (g d) = true) → ∀ self,
    call_flow self irq (on_desc irq g s) = self irq (on_desc irq g s) ∧
    locked (IRQ_TO_DESC (on_desc irq g s) irq) = true).
  { intros g H1 H2 H3 self. unfold call_flow. rewrite !desc_on by done.
    rewrite H2, Ef, H1, Hno. split; [by destruct f | apply H3]. }
  simpl. rewrite !(proj2 (Z.leb_gt _ _)) by (unfold NR_IRQS; lia). unfold spin_lock.
  destruct (locked (IRQ_TO_DESC s irq)); [done |]. ok_bind.
  rewrite !on_desc_twice by done. rewrite !call_chip_returns by done. ok_bind.
  split_and!;
    match goal with |- context [call_flow ?self irq (on_desc irq ?g s)] =>
         destruct (Hd g ltac:(done) ltac:(done) ltac:(done) self) as [-> HLk];
         destruct (irq_ops_locked fuel irq _ Hi HLk) as (? & ? & E1 & E2 & E3 & E4);
         first [by rewrite E1 | by rewrite E2 | by rewrite E3 | by rewrite E4] end.
Qed.

Lemma free_irq_deadlocks fuel irq s :
  0 <= irq < 256 → length (descs s) = 256%nat → free_irq platform fuel irq s = Diverge.
Proof.
  intros Hi Hlen. unfold free_irq. rewrite (proj2 (Z.leb_gt _ _)) by (unfold NR_IRQS; lia).
  unfold spin_lock. destruct (locked (IRQ_TO_DESC s irq)); [done |]. ok_bind.
  rewrite on_desc_twice by lia.
  destruct (irq_ops_locked fuel irq (on_desc irq
    (λ d, set_name "freed" (set_handler_data 0 (set_handle None (set_locked true d)))) s) Hi) as (_ & E & _);
    [by rewrite desc_on by lia |]. by rewrite E.
Qed.

Lemma request_irq_deadlocks fuel irq h flags nm dev s :
  0 <= irq < 256 → length (descs s) = 256%nat →
  let d := IRQ_TO_DESC s irq in
  handle_irq d = None ∨ Z.land flags IRQF_SHARED ≠ 0 → 0 < depth d →
  request_irq platform fuel irq (Some h) flags nm dev s = Diverge.
Proof.
  intros Hi Hlen d Hu Hd. unfold request_irq. rewrite (proj2 (Z.leb_gt _ _)) by (unfold NR_IRQS; lia).
  unfold spin_lock. destruct (locked (IRQ_TO_DESC s irq)); [done |]. ok_bind. cbv zeta.
  rewrite !desc_on by lia. simpl handle_irq. fold d.
  rewrite (proj2 (andb_false_iff _ _)).
  2: { destruct Hu as [Hu|Hu]; [right; rewrite Hu; apply bool_decide_eq_false_2; by intros [] |].
       left. by apply Z.eqb_neq. }
  rewrite on_desc_twice, desc_on by lia. simpl depth. fold d. rewrite (proj2 (Z.ltb_lt _ _)) by done.
  rewrite on_desc_twice by lia.
  destruct (irq_ops_locked fuel irq (on_desc irq (λ d, set_depth 1 (set_name (default "unknown"%string nm)
    (set_handler_data dev (set_handle (Some h) (set_locked true d))))) s) Hi) as (E & _);
    [by rewrite desc_on by lia |]. by rewrite E.
Qed.
End Ops.

Lemma irq_init_desc s irq : 0 <= irq < 256 → IRQ_TO_DESC (irq_init s) irq = init_desc (Z.to_nat irq).
Proof.
  intros Hi. unfold IRQ_TO_DESC, irq_init, set_descs. cbn [descs]. apply list_lookup_total_correct.
  rewrite list_lookup_fmap. change (Z.to_nat NR_IRQS) with 256%nat.
  rewrite lookup_seq_lt by lia. by rewrite Nat.add_0_l.
Qed.

Lemma irq_init_length s : length (descs (irq_init s)) = 256%nat.
Proof. unfold irq_init, set_descs. cbn [descs]. by rewrite length_fmap, length_seq. Qed.

(** ** Claims *)
Section Claims.
Variable platform : nat → chip_op → option (Z → irq_state → outcome irq_state).
Variable run_handler : nat → Z → Z → irq_state → outcome irq_state.
Hypothesis chips_hardware : ∀ n op f irq s, platform n op = Some f → f irq s = Ok s.

(** [irq_enable] undoes [irq_disable]: disabling marks the interrupt disabled
    and counts, and as many calls of [irq_enable] give back the same state. *)
Theorem irq_disable_enable n fuel irq s :
  irq_ready irq s → depth (IRQ_TO_DESC s irq) + Z.of_nat n < 4294967296 →
  ∃ s', Nat.iter n (λ o, s ← o; irq_disable platform (S fuel) irq s) (Ok s) = Ok s' ∧
    ((0 < n)%nat → disabled (IRQ_TO_DESC s' irq) = true) ∧
    depth (IRQ_TO_DESC s' irq) = depth (IRQ_TO_DESC s irq) + Z.of_nat n ∧
    Nat.iter n (λ o, s ← o; irq_enable platform (S fuel) irq s) (Ok s') = Ok s.
Proof.
  intros HR Hn. destruct (disable_steps platform chips_hardware fuel irq s n HR Hn) as (s' & ? & _ & ?); eauto.
Qed.

(** After [irq_init] no interrupt can be requested and none can be freed:
    [request_irq] and [free_irq] call [irq_enable] and [irq_disable] with the
    lock of the descriptor held; and no interrupt with edge or level flow control
    is ever handled, since the callbacks of the flow controls call the function
    that called them. *)
Theorem irq_deadlocks fuel irq s :
  0 <= irq < 256 → length (descs s) = 256%nat →
  (∀ h flags nm dev, request_irq platform fuel irq (Some h) flags nm dev (irq_init s) = Diverge) ∧
  free_irq platform fuel irq s = Diverge ∧
  (irq_no (IRQ_TO_DESC s irq) = irq → disabled (IRQ_TO_DESC s irq) = false →
   flow_control (IRQ_TO_DESC s irq) = Some Edge ∨ flow_control (IRQ_TO_DESC s irq) = Some Level →
   do_IRQ platform run_handler fuel irq s = Diverge).
Proof.
  intros Hi Hlen. split_and!.
  - intros. apply request_irq_deadlocks; [done | apply irq_init_length | |]; rewrite irq_init_desc by done;
      [by left | simpl; lia].
  - by apply free_irq_deadlocks.
  - intros Hno Hdis Hf. unfold do_IRQ. rewrite (proj2 (Z.leb_gt _ _)) by (unfold NR_IRQS; lia).
    cbv zeta. set (s1 := count_total _).
    assert (L1 : length (descs s1) = 256%nat) by (unfold s1; simpl; by rewrite length_insert).
    assert (E1 : IRQ_TO_DESC s1 irq = set_dstats (count_irq (dstats (IRQ_TO_DESC s irq))) (IRQ_TO_DESC s irq)).
    { unfold s1. by rewrite count_total_desc, desc_on by lia. }
    rewrite E1. change (status (set_dstats _ _)) with (status (IRQ_TO_DESC s irq)).
    unfold disabled in Hdis. rewrite Hdis. rewrite desc_on, E1 by lia.
    change (flow_control (set_status _ _)) with (flow_control (IRQ_TO_DESC s irq)).
    set (s2 := on_desc irq _ s1).
    destruct (flow_ops_deadlock platform chips_hardware fuel irq s2) as (Em & _ & Ea & _);
      [done | unfold s2; by rewrite length_on_desc | | |].
    1, 2: unfold s2; rewrite desc_on, E1 by lia; simpl; try done; by destruct Hf as [->| ->].
    assert (En : irq_no (IRQ_TO_DESC s2 irq) = irq) by (unfold s2; by rewrite desc_on, E1 by lia).
    destruct Hf as [->| ->]; simpl flow_handle; unfold handle_edge_irq, handle_level_irq; rewrite En;
      [by rewrite Ea | by rewrite Em].
Qed.

(** An interrupt is delivered when its handler is installed with
    [irq_set_handler] and [irq_set_handler_data] and it is enabled once: then
    [do_IRQ] counts it, calls the handler once with its data while the interrupt
    is in progress, and ends the progress afterwards. *)
Theorem irq_delivered fuel irq h data s :
  0 <= irq < 256 →
  ∃ s1 s2 s3 s4, irq_set_handler irq (Some h) (irq_init s) = Ok (Ret 0, s1) ∧
    irq_set_handler_data irq data s1 = Ok (Ret 0, s2) ∧
    irq_enable platform (S fuel) irq s2 = Ok s3 ∧
    status (IRQ_TO_DESC s4 irq) = IRQ_INPROGRESS ∧
    irqs (dstats (IRQ_TO_DESC s4 irq)) = 1 ∧ total_irqs s4 = u32 (total_irqs s + 1) ∧
    do_IRQ platform run_handler (S fuel) irq s3 =
      (s5 ← run_handler h irq data s4;
       Ok (on_desc irq (λ d, set_status (Z.land (status d) (not32 IRQ_INPROGRESS)) d) s5)).
Proof.
  intros Hi. set (s0 := irq_init s).
  pose proof (irq_init_length s) as L0. pose proof (irq_init_desc s irq Hi) as D0. fold s0 in L0, D0.
  assert (HL : 0 <= irq < Z.of_nat (length (descs s0))) by lia.
  assert (Hno : (NR_IRQS <=? irq) = false) by (apply Z.leb_gt; unfold NR_IRQS; lia).
  set (s2 := on_desc irq (λ d, set_handler_data data (set_handle (Some h) d)) s0).
  assert (D2 : IRQ_TO_DESC s2 irq = set_handler_data data (set_handle (Some h) (init_desc (Z.to_nat irq)))).
  { unfold s2. by rewrite desc_on, D0 by done. }
  set (s3 := on_desc irq (λ d, enable_desc (set_handler_data data (set_handle (Some h) d))) s0).
  assert (D3 : IRQ_TO_DESC s3 irq = set_status 0 (set_depth 0 (set_handler_data data (set_handle (Some h) (init_desc (Z.to_nat irq)))))).
  { unfold s3. by rewrite desc_on, D0 by done. }
  exists (on_desc irq (set_handle (Some h)) s0), s2, s3.
  exists (on_desc irq (λ d, set_status (Z.lor (status d) IRQ_INPROGRESS) d)
            (count_total (on_desc irq (λ d, set_dstats (count_irq (dstats d)) d) s3))).
  assert (L3 : 0 <= irq < Z.of_nat (length (descs s3))) by (unfold s3; by rewrite length_on_desc).
  set (s31 := count_total _).
  assert (L31 : 0 <= irq < Z.of_nat (length (descs s31))) by (unfold s31; simpl; by rewrite length_insert).
  assert (D31 : IRQ_TO_DESC s31 irq = set_dstats (DescStats 1 0 0 0 0) (IRQ_TO_DESC s3 irq)).
  { unfold s31. by rewrite count_total_desc, desc_on, D3 by done. }
  split; [unfold irq_set_handler; rewrite Hno, with_lock_ok by (rewrite ?D0; done); done |].
  split; [unfold irq_set_handler_data; rewrite Hno, with_lock_ok, on_desc_twice by
            (rewrite ?length_on_desc, ?desc_on, ?D0 by done; done); done |].
  split; [rewrite (irq_enable_spec platform chips_hardware) by (rewrite ?D2; unfold s2; rewrite ?length_on_desc; done);
          unfold s2, s3; by rewrite on_desc_twice by done |].
  rewrite desc_on, D31, D3 by done. split; [done |]. split; [done |]. split; [done |].
  unfold do_IRQ. rewrite Hno. cbv zeta. fold s31. rewrite D31, D3.
  cbn [status set_dstats set_status Z.land Z.eqb negb]. rewrite desc_on, D31, D3 by done.
  cbn [flow_control handle_irq handler_data set_dstats set_status set_depth set_handler_data set_handle init_desc].
  by destruct (run_handler _ _ _ _).
Qed.
End Claims.

(** ** A machine without platform controllers, after initialisation *)
Definition no_platform : nat → chip_op → option (Z → irq_state → outcome irq_state) := λ _ _, None.
Definition quiet_handler : nat → Z → Z → irq_state → outcome irq_state := λ _ _ _ s, Ok s.
Definition boot_irqs : irq_state := irq_init (IrqState [] 0 0 0 0 0).

Lemma boot_ready irq : 0 <= irq < 256 → irq_ready irq boot_irqs.
Proof.
  intros Hi. unfold boot_irqs. split; rewrite ?irq_init_desc by done; try done.
Qed.

Lemma irq_disable_enable_witness :
  ∃ s', Nat.iter 3 (λ o, s ← o; irq_disable no_platform 2 7 s) (Ok boot_irqs) = Ok s' ∧
    depth (IRQ_TO_DESC s' 7) = 4 ∧
    Nat.iter 3 (λ o, s ← o; irq_enable no_platform 2 7 s) (Ok s') = Ok boot_irqs.
Proof.
  destruct (irq_disable_enable no_platform ltac:(done) 3 1 7 boot_irqs) as (s' & E1 & _ & D & E2);
    [apply boot_ready; lia | vm_compute; reflexivity |].
  exists s'. split; [exact E1 |]. split; [rewrite D; reflexivity | exact E2].
Defined.

Lemma irq_deadlocks_witness :
  request_irq no_platform 10 1 (Some 0%nat) 0 None 0 boot_irqs = Diverge ∧
  do_IRQ no_platform quiet_handler 10 1
    (on_desc 1 (λ d, set_flow (Some Edge) (set_status 0 d)) boot_irqs) = Diverge.
Proof.
  split.
  - apply (irq_deadlocks no_platform quiet_handler ltac:(done) 10 1 boot_irqs); [lia | reflexivity].
  - apply (irq_deadlocks no_platform quiet_handler ltac:(done) 10 1
      (on_desc 1 (λ d, set_flow (Some Edge) (set_status 0 d)) boot_irqs)); [lia | reflexivity..| by left].
Defined.

Lemma irq_delivered_witness :
  ∃ s1 s2 s3 s4, irq_set_handler 1 (Some 5%nat) boot_irqs = Ok (Ret 0, s1) ∧
    irq_set_handler_data 1 9 s1 = Ok (Ret 0, s2) ∧ irq_enable no_platform 2 1 s2 = Ok s3 ∧
    status (IRQ_TO_DESC s4 1) = IRQ_INPROGRESS ∧ irqs (dstats (IRQ_TO_DESC s4 1)) = 1 ∧ total_irqs s4 = 1 ∧
    do_IRQ no_platform quiet_handler 2 1 s3 =
      Ok (on_desc 1 (λ d, set_status (Z.land (status d) (not32 IRQ_INPROGRESS)) d) s4).
Proof.
  apply (irq_delivered no_platform quiet_handler ltac:(done) 1 1 5 9 (IrqState [] 0 0 0 0 0)). lia.
Defined.
