(* ===== verification/Module.v ===== *)
(** * Kernel modules (src/kernel/module.c, src/include/module.h)

    Checksums of module images, loading and unloading, reference counts and the
    symbol table.  Files come through the interface [FileApi]; module structures
    are objects of a slab cache and images are blocks of the kernel heap.  The
    lists of modules and symbols are lists; author, alias, parameter, symbol and
    dependency lists of a module are never filled by the code and left out. *)
From S2P Require Import Prelude Screen Heap Slab Solixfs.

Definition MODULE_MAGIC : Z := 0x7F454C46.
Definition MODULE_VERSION : Z := 1.
Definition MODULE_FLAG_LOADED : Z := 0x01.
Definition MODULE_FLAG_INITIALIZED : Z := 0x02.
Definition MODULE_FLAG_GOING : Z := 0x04.
Definition MODULE_FLAG_COMING : Z := 0x08.
Definition MODULE_STATE_LIVE : Z := 0.
Definition MODULE_STATE_COMING : Z := 1.
Definition MODULE_STATE_GOING : Z := 2.
Definition MODULE_STATE_UNFORMED : Z := 3.

(** ** Checksums *)
Definition CRC_POLY : Z := 0xEDB88320.
Definition crc_bit (crc : Z) : Z :=
  Z.lxor (Z.shiftr crc 1) (Z.land CRC_POLY (u32 (- Z.land crc 1))).
Definition crc_byte (crc byte : Z) : Z := Nat.iter 8 crc_bit (Z.lxor crc byte).
Definition module_calculate_crc (data : bytes) : Z := not32 (foldl crc_byte 0xFFFFFFFF data).

(** The loop of [module_calculate_sha256] from byte [i] on. *)
Fixpoint sha_loop (i : nat) (data : bytes) (temp : Z) (hash : list Z) : list Z :=
  match data with
  | [] => hash
  | b :: data =>
    let temp := Z.lxor (u32 (Z.shiftl temp 8)) b in
    if (i mod 4 =? 3)%nat then sha_loop (S i) data 0 (<[((i / 4) mod 8)%nat := temp]> hash)
    else sha_loop (S i) data temp hash
  end.
Definition module_calculate_sha256 (data : bytes) : list Z := sha_loop 0 data 0 (replicate 8 0).

(** ** Files *)
Class FileApi := {
  file : Type;
  (** A file, or an error; [Fault] when the layer goes wrong. *)
  filp_open : bytes → outcome (errno + file);
  (** Reading at the position of the file: the result, the bytes stored in the
      buffer, and the file after it. *)
  vfs_read : file → Z → kret * bytes * file;
  (** As many bytes are stored as the result says, at most as many as asked. *)
  vfs_read_length : ∀ f n r b f', 0 <= n → vfs_read f n = (Ret r, b, f') → 0 <= r → r = Z.of_nat (length b) ∧ r <= n;
}.

(** ** Module headers: [struct module_header], 696 bytes *)
Definition HEADER_SIZE : Z := 696.
Definition h_magic (h : bytes) : Z := get_u32 h 0.
Definition h_format (h : bytes) : Z := get_u32 h 4.
Definition h_name (h : bytes) : bytes := c_string (drop 8 h).
Definition h_version (h : bytes) : bytes := take 32 (drop 72 h).
Definition h_license (h : bytes) : bytes := take 32 (drop 104 h).
Definition h_description (h : bytes) : bytes := take 256 (drop 136 h).
Definition h_text_size (h : bytes) : Z := get_u32 h 392.
Definition h_data_size (h : bytes) : Z := get_u32 h 396.
Definition h_rodata_size (h : bytes) : Z := get_u32 h 400.
Definition h_bss_size (h : bytes) : Z := get_u32 h 404.
Definition h_init_size (h : bytes) : Z := get_u32 h 408.
Definition h_exit_size (h : bytes) : Z := get_u32 h 412.
Definition h_crc (h : bytes) : Z := get_u32 h 432.
Definition h_signature_len (h : bytes) : Z := get_u32 h 436.
Definition h_signature (h : bytes) : bytes := take 256 (drop 440 h).

(** [strncpy(dst, src, sizeof(dst) - 1)] into a cleared array of [n] bytes: the
    string it then holds. *)
Definition strncpy (n : nat) (src : bytes) : bytes := c_string (take (n - 1) src).

(** ** State *)

(** [struct module]; [image] is the memory at [module_base]. *)
Record module := Module {
  m_name : bytes;
  m_version : bytes;
  m_license : bytes;
  m_description : bytes;
  m_state : Z;
  m_flags : Z;
  module_base : Z;
  module_size : Z;
  image : bytes;
  text_section : Z;
  data_section : Z;
  rodata_section : Z;
  bss_section : Z;
  init_text : Z;
  exit_text : Z;
  m_init : option nat;
  m_exit : option nat;
  refcount : Z;
  use_count : Z;
  load_time : Z;
  init_time : Z;
  signature : bytes;
  signature_len : Z;
  m_signed : bool;
  m_crc : Z;
}.

Record module_stat := ModuleStat {
  total_modules : Z;
  loaded_modules : Z;
  failed_loads : Z;
  total_symbols : Z;
  exported_symbols : Z;
}.

(** The allocators, the cache of module structures, the structures by address,
    the two lists, the statistics and [current_module]. *)
Record mstate := MState {
  mslab : slab_state;
  module_cache : Z;
  mods : gmap Z module;
  module_list : list Z;
  symbol_table : list (bytes * Z);
  module_stats : module_stat;
  current_module : Z;
}.

Definition set_mslab (x : slab_state) (s : mstate) : mstate :=
  MState x (module_cache s) (mods s) (module_list s) (symbol_table s) (module_stats s) (current_module s).
Definition put_mod (p : Z) (m : module) (s : mstate) : mstate :=
  MState (mslab s) (module_cache s) (<[p := m]> (mods s)) (module_list s) (symbol_table s) (module_stats s) (current_module s).
Definition set_module_list (l : list Z) (s : mstate) : mstate :=
  MState (mslab s) (module_cache s) (mods s) l (symbol_table s) (module_stats s) (current_module s).
Definition set_symbols (l : list (bytes * Z)) (s : mstate) : mstate :=
  MState (mslab s) (module_cache s) (mods s) (module_list s) l (module_stats s) (current_module s).
Definition set_mstats (st : module_stat) (s : mstate) : mstate :=
  MState (mslab s) (module_cache s) (mods s) (module_list s) (symbol_table s) st (current_module s).
Definition set_state (x f : Z) (m : module) : module :=
  Module (m_name m) (m_version m) (m_license m) (m_description m) x f (module_base m) (module_size m) (image m) (text_section m) (data_section m) (rodata_section m) (bss_section m) (init_text m) (exit_text m) (m_init m) (m_exit m) (refcount m) (use_count m) (load_time m) (init_time m) (signature m) (signature_len m) (m_signed m) (m_crc m).
Definition set_base (a n : Z) (d : bytes) (m : module) : module :=
  Module (m_name m) (m_version m) (m_license m) (m_description m) (m_state m) (m_flags m) a n d (text_section m) (data_section m) (rodata_section m) (bss_section m) (init_text m) (exit_text m) (m_init m) (m_exit m) (refcount m) (use_count m) (load_time m) (init_time m) (signature m) (signature_len m) (m_signed m) (m_crc m).
Definition set_signed (b : bool) (m : module) : module :=
  Module (m_name m) (m_version m) (m_license m) (m_description m) (m_state m) (m_flags m) (module_base m) (module_size m) (image m) (text_section m) (data_section m) (rodata_section m) (bss_section m) (init_text m) (exit_text m) (m_init m) (m_exit m) (refcount m) (use_count m) (load_time m) (init_time m) (signature m) (signature_len m) b (m_crc m).
Definition set_counts (r u : Z) (m : module) : module :=
  Module (m_name m) (m_version m) (m_license m) (m_description m) (m_state m) (m_flags m) (module_base m) (module_size m) (image m) (text_section m) (data_section m) (rodata_section m) (bss_section m) (init_text m) (exit_text m) (m_init m) (m_exit m) r u (load_time m) (init_time m) (signature m) (signature_len m) (m_signed m) (m_crc m).
Definition set_init_time (t : Z) (m : module) : module :=
  Module (m_name m) (m_version m) (m_license m) (m_description m) (m_state m) (m_flags m) (module_base m) (module_size m) (image m) (text_section m) (data_section m) (rodata_section m) (bss_section m) (init_text m) (exit_text m) (m_init m) (m_exit m) (refcount m) (use_count m) (load_time m) t (signature m) (signature_len m) (m_signed m) (m_crc m).
Definition set_description (b : bytes) (m : module) : module :=
  Module (m_name m) (m_version m) (m_license m) b (m_state m) (m_flags m) (module_base m) (module_size m) (image m) (text_section m) (data_section m) (rodata_section m) (bss_section m) (init_text m) (exit_text m) (m_init m) (m_exit m) (refcount m) (use_count m) (load_time m) (init_time m) (signature m) (signature_len m) (m_signed m) (m_crc m).
Definition set_license (b : bytes) (m : module) : module :=
  Module (m_name m) (m_version m) b (m_description m) (m_state m) (m_flags m) (module_base m) (module_size m) (image m) (text_section m) (data_section m) (rodata_section m) (bss_section m) (init_text m) (exit_text m) (m_init m) (m_exit m) (refcount m) (use_count m) (load_time m) (init_time m) (signature m) (signature_len m) (m_signed m) (m_crc m).
Definition set_version (b : bytes) (m : module) : module :=
  Module (m_name m) b (m_license m) (m_description m) (m_state m) (m_flags m) (module_base m) (module_size m) (image m) (text_section m) (data_section m) (rodata_section m) (bss_section m) (init_text m) (exit_text m) (m_init m) (m_exit m) (refcount m) (use_count m) (load_time m) (init_time m) (signature m) (signature_len m) (m_signed m) (m_crc m).
Definition set_init (f : option nat) (m : module) : module :=
  Module (m_name m) (m_version m) (m_license m) (m_description m) (m_state m) (m_flags m) (module_base m) (module_size m) (image m) (text_section m) (data_section m) (rodata_section m) (bss_section m) (init_text m) (exit_text m) f (m_exit m) (refcount m) (use_count m) (load_time m) (init_time m) (signature m) (signature_len m) (m_signed m) (m_crc m).
Definition set_exit (f : option nat) (m : module) : module :=
  Module (m_name m) (m_version m) (m_license m) (m_description m) (m_state m) (m_flags m) (module_base m) (module_size m) (image m) (text_section m) (data_section m) (rodata_section m) (bss_section m) (init_text m) (exit_text m) (m_init m) f (refcount m) (use_count m) (load_time m) (init_time m) (signature m) (signature_len m) (m_signed m) (m_crc m).
Definition set_sections (t d r b i e : Z) (m : module) : module :=
  Module (m_name m) (m_version m) (m_license m) (m_description m) (m_state m) (m_flags m) (module_base m) (module_size m) (image m) t d r b i e (m_init m) (m_exit m) (refcount m) (use_count m) (load_time m) (init_time m) (signature m) (signature_len m) (m_signed m) (m_crc m).
Definition set_info (nm v l d : bytes) (c sl : Z) (sg : bytes) (m : module) : module :=
  Module nm v l d (m_state m) (m_flags m) (module_base m) (module_size m) (image m) (text_section m) (data_section m) (rodata_section m) (bss_section m) (init_text m) (exit_text m) (m_init m) (m_exit m) (refcount m) (use_count m) (load_time m) (init_time m) sg sl (m_signed m) c.

Definition new_module (now : Z) : module :=
  Module [] [] [] [] MODULE_STATE_UNFORMED 0 NULL 0 [] 0 0 0 0 0 0 None None 0 0 now 0 [] 0 false 0.

Definition count_loaded (st : module_stat) : module_stat :=
  ModuleStat (u32 (total_modules st + 1)) (u32 (loaded_modules st + 1)) (failed_loads st)
    (total_symbols st) (exported_symbols st).
Definition count_unloaded (st : module_stat) : module_stat :=
  ModuleStat (total_modules st) (u32 (loaded_modules st - 1)) (failed_loads st)
    (total_symbols st) (exported_symbols st).
Definition count_failed (st : module_stat) : module_stat :=
  ModuleStat (total_modules st) (loaded_modules st) (u32 (failed_loads st + 1))
    (total_symbols st) (exported_symbols st).
Definition count_symbol (st : module_stat) : module_stat :=
  ModuleStat (total_modules st) (loaded_modules st) (failed_loads st)
    (u32 (total_symbols st + 1)) (u32 (exported_symbols st + 1)).

Definition on_slab {A} (c : cmd slab_state A) : cmd mstate A := λ s,
  '(a, x) ← c (mslab s); Ok (a, set_mslab x s).

(** ** Verification *)

(** [module_verify_signature]: the existence of a signature is all that counts. *)
Definition module_verify_signature (m : module) : kret * module :=
  if 0 <? signature_len m then (Ret 0, set_signed true m) else (Ret 0, set_signed false m).

Definition module_verify_integrity (m : module) : kret * module :=
  if module_base m =? NULL then (Err EINVAL, m) else
  if negb (module_calculate_crc (take (Z.to_nat (module_size m)) (image m)) =? m_crc m)
  then (Err EILSEQ, m) else
  if m_signed m then module_verify_signature m else (Ret 0, m).

(** ** The list of modules *)
Fixpoint find_in (name : bytes) (l : list Z) (ms : gmap Z module) : option Z :=
  match l with
  | [] => None
  | p :: l =>
    match ms !! p with
    | Some m => if decide (m_name m = name) then Some p else find_in name l ms
    | None => find_in name l ms
    end
  end.
Definition module_find (name : bytes) (s : mstate) : option Z := find_in name (module_list s) (mods s).

(** ** Module structures *)
Definition module_alloc (now : Z) : cmd mstate Z := λ s,
  '(p, s) ← on_slab (kmem_cache_alloc (module_cache s)) s;
  if p =? NULL then Ok (NULL, s) else Ok (p, put_mod p (new_module now) s).

(** No code fills the lists of authors, aliases, parameters, symbols and
    dependencies that [module_alloc] clears, so the loops of [module_free] over
    them are not entered. *)
Definition module_free (p : Z) : cmd mstate unit := λ s,
  if p =? NULL then Ok (tt, s) else
  match mods s !! p with
  | None => Fault
  | Some m =>
    '(_, s) ← (if module_base m =? NULL then Ok (tt, s) else on_slab (on_heap (kfree (module_base m))) s);
    on_slab (kmem_cache_free (module_cache s) p) s
  end.

(** ** Loading *)
Section Load.
Context `{FileApi}.
(** The initialisation and exit functions of modules: code of the modules. *)
Variable run_init : nat → cmd mstate Z.
Variable run_exit : nat → cmd mstate unit.

(** The exits of [module_load], in the order in which they fall through. *)
Definition err_close_file (ret : kret) : cmd mstate kret := λ s,
  Ok (ret, set_mstats (count_failed (module_stats s)) s).
Definition err_free_module (p : Z) (ret : kret) : cmd mstate kret := λ s,
  '(_, s) ← module_free p s; err_close_file ret s.
Definition err_free_module_data (p base : Z) (ret : kret) : cmd mstate kret := λ s,
  '(_, s) ← on_slab (on_heap (kfree base)) s; err_free_module p ret s.
Definition err_remove_from_list (p base : Z) (ret : kret) : cmd mstate kret := λ s,
  err_free_module_data p base ret (set_module_list (unlink p (module_list s)) s).

(** The sections follow the header in the image. *)
Definition lay_out (base : Z) (h : bytes) (m : module) : module :=
  let text := u32 (base + HEADER_SIZE) in
  let data := u32 (text + h_text_size h) in
  let rodata := u32 (data + h_data_size h) in
  let bss := u32 (rodata + h_rodata_size h) in
  let init := u32 (bss + h_bss_size h) in
  set_sections text data rodata bss init (u32 (init + h_init_size h)) m.

Definition total_size (h : bytes) : Z :=
  u32 (HEADER_SIZE + h_text_size h + h_data_size h + h_rodata_size h + h_bss_size h +
       h_init_size h + h_exit_size h).

(** From the check of the integrity on; [m] is the module with its image. *)
Definition activate (p base : Z) (h : bytes) (m : module) (now : Z) : cmd mstate kret := λ s,
  let '(ret, m) := module_verify_integrity m in
  let s := put_mod p m s in
  match ret with
  | Err _ => err_free_module_data p base ret s
  | Ret _ =>
    let m := set_state MODULE_STATE_COMING (Z.lor (m_flags m) MODULE_FLAG_COMING) (lay_out base h m) in
    let s := set_module_list (p :: module_list s) (put_mod p m s) in
    '(ret, s) ←
      (match m_init m with
       | Some f => run_init f s
       | None => Ok (0, s)
       end);
    if ret <? 0 then err_remove_from_list p base (Ret ret) s else
    match mods s !! p with
    | None => Fault
    | Some m =>
      let flags := Z.lor (Z.land (m_flags m) (not32 MODULE_FLAG_COMING))
                         (Z.lor MODULE_FLAG_LOADED MODULE_FLAG_INITIALIZED) in
      let s := put_mod p (set_init_time now (set_state MODULE_STATE_LIVE flags m)) s in
      Ok (Ret 0, set_mstats (count_loaded (module_stats s)) s)
    end
  end.

(** [module_load].  The sum of the sizes can wrap around; then the header is
    copied beyond the end of the block. *)
Definition module_load (filename : bytes) (now : Z) : cmd mstate kret := λ s,
  opened ← filp_open filename;
  match opened with
  | inl e => Ok (Err e, s)
  | inr f =>
    let '(r, h, f) := vfs_read f HEADER_SIZE in
    if negb (bool_decide (r = Ret HEADER_SIZE)) then err_close_file (Err EIO) s else
    if negb (h_magic h =? MODULE_MAGIC) then err_close_file (Err ENOEXEC) s else
    if negb (h_format h =? MODULE_VERSION) then err_close_file (Err EINVAL) s else
    match module_find (h_name h) s with
    | Some _ => err_close_file (Err EEXIST) s
    | None =>
      '(p, s) ← module_alloc now s;
      if p =? NULL then err_close_file (Err ENOMEM) s else
      match mods s !! p with
      | None => Fault
      | Some m =>
        let m := set_info (strncpy 64 (h_name h)) (strncpy 32 (h_version h)) (strncpy 32 (h_license h))
                   (strncpy 256 (h_description h)) (h_crc h) (h_signature_len h) (h_signature h) m in
        let size := total_size h in
        let s := put_mod p (set_base NULL size [] m) s in
        '(base, s) ← on_slab (on_heap (kmalloc size)) s;
        if base =? NULL then err_free_module p (Err ENOMEM) s else
        if size <? HEADER_SIZE then Fault else
        let '(r, data, f) := vfs_read f (u32 (size - HEADER_SIZE)) in
        let m := set_base base size (h ++ data) m in
        let s := put_mod p m s in
        if negb (bool_decide (r = Ret (u32 (size - HEADER_SIZE))))
        then err_free_module_data p base (Err EIO) s
        else activate p base h m now s
      end
    end
  end.

(** ** Unloading *)
Definition module_unload (name : bytes) : cmd mstate kret := λ s,
  match module_find name s with
  | None => Ok (Err ENOENT, s)
  | Some p =>
    match mods s !! p with
    | None => Fault
    | Some m =>
      if 0 <? refcount m then Ok (Err EBUSY, s) else
      let m := set_state MODULE_STATE_GOING (Z.lor (m_flags m) MODULE_FLAG_GOING) m in
      let s := put_mod p m s in
      '(_, s) ← (match m_exit m with Some f => run_exit f s | None => Ok (tt, s) end);
      let s := set_module_list (unlink p (module_list s)) s in
      '(_, s) ← module_free p s;
      Ok (Ret 0, set_mstats (count_unloaded (module_stats s)) s)
    end
  end.
End Load.

(** ** Reference counts *)
Definition module_refcount_inc (p : Z) : cmd mstate kret := λ s,
  if p =? NULL then Ok (Err EINVAL, s) else
  match mods s !! p with
  | None => Fault
  | Some m =>
    let m := set_counts (u32 (refcount m + 1)) (u32 (use_count m + 1)) m in
    Ok (Ret (s32 (refcount m)), put_mod p m s)
  end.

Definition module_refcount_dec (p : Z) : cmd mstate kret := λ s,
  if p =? NULL then Ok (Err EINVAL, s) else
  match mods s !! p with
  | None => Fault
  | Some m =>
    if refcount m =? 0 then Ok (Err EINVAL, s) else
    let m := set_counts (refcount m - 1) (u32 (use_count m - 1)) m in
    Ok (Ret (s32 (refcount m)), put_mod p m s)
  end.

(** ** Symbols; a symbol is its name and its value *)
Definition export_symbol (name : bytes) (value : Z) : cmd mstate kret := λ s,
  if value =? NULL then Ok (Err EINVAL, s) else
  let s := set_symbols ((name, value) :: symbol_table s) s in
  Ok (Ret 0, set_mstats (count_symbol (module_stats s)) s).
Definition export_symbol_gpl (name : bytes) (value : Z) : cmd mstate kret := export_symbol name value.

Fixpoint lookup_symbol (name : bytes) (l : list (bytes * Z)) : Z :=
  match l with
  | [] => NULL
  | (n, v) :: l => if decide (n = name) then v else lookup_symbol name l
  end.
Definition resolve_symbol (name : bytes) (s : mstate) : Z := lookup_symbol name (symbol_table s).

(** ** Registration: on [current_module], which nothing sets *)
Definition on_current (f : module → module) (s : mstate) : outcome mstate :=
  if current_module s =? NULL then Ok s else
  match mods s !! current_module s with
  | None => Fault
  | Some m => Ok (put_mod (current_module s) (f m) s)
  end.
Definition register_module_description (desc : bytes) : mstate → outcome mstate :=
  on_current (λ m, set_description (strncpy 256 desc) m).
Definition register_module_license (license : bytes) : mstate → outcome mstate :=
  on_current (λ m, set_license (strncpy 32 license) m).
Definition register_module_version (version : bytes) : mstate → outcome mstate :=
  on_current (λ m, set_version (strncpy 32 version) m).
Definition register_module_init (f : option nat) : mstate → outcome mstate := on_current (set_init f).
Definition register_module_exit (f : option nat) : mstate → outcome mstate := on_current (set_exit f).
