(* ===== verification/ModuleCrc.v ===== *)
(** * The checksum of modules detects bursts

    The loop of [module_calculate_crc] is linear over exclusive or; a change that
    is confined to four consecutive bytes always changes the checksum. *)
From S2P Require Import Prelude Screen Heap Slab Solixfs Module.

(** The division step as a choice. *)
Lemma crc_bit_choice x :
  crc_bit x = Z.lxor (Z.shiftr x 1) (if Z.testbit x 0 then CRC_POLY else 0).
Proof.
  unfold crc_bit. f_equal.
  assert (Hl : Z.land x 1 = if Z.testbit x 0 then 1 else 0).
  { change (Z.land x (Z.ones 1) = if Z.testbit x 0 then 1 else 0). rewrite Z.land_ones by lia. change (2 ^ 1) with 2. rewrite Z.bit0_odd, Zmod_odd. done. }
  rewrite Hl. by destruct (Z.testbit x 0).
Qed.

Lemma crc_bit_lxor x y : crc_bit (Z.lxor x y) = Z.lxor (crc_bit x) (crc_bit y).
Proof.
  rewrite !crc_bit_choice, Z.shiftr_lxor, Z.lxor_spec.
  apply Z.bits_inj'. intros n Hn. rewrite !Z.lxor_spec.
  destruct (Z.testbit x 0), (Z.testbit y 0); simpl; rewrite ?Z.bits_0;
    destruct (Z.testbit (Z.shiftr x 1) n), (Z.testbit (Z.shiftr y 1) n), (Z.testbit CRC_POLY n); done.
Qed.

(** Eight division steps. *)
Definition crc8 (x : Z) : Z := Nat.iter 8 crc_bit x.

Lemma crc8_lxor x y : crc8 (Z.lxor x y) = Z.lxor (crc8 x) (crc8 y).
Proof. unfold crc8. simpl. by rewrite !crc_bit_lxor. Qed.

Lemma crc_bit_even x : crc_bit (2 * x) = x.
Proof.
  rewrite crc_bit_choice, Z.testbit_even_0, Z.lxor_0_r, Z.shiftr_div_pow2 by lia.
  change (2 ^ 1) with 2. rewrite Z.mul_comm. apply Z.div_mul. lia.
Qed.

Lemma crc8_shift x : crc8 (256 * x) = x.
Proof.
  unfold crc8. replace (256 * x) with (2 * (2 * (2 * (2 * (2 * (2 * (2 * (2 * x)))))))) by lia.
  simpl Nat.iter. by rewrite !crc_bit_even.
Qed.

(** High byte and low byte apart. *)
Lemma lxor_byte x b : is_u8 b → Z.lxor (256 * x) b = 256 * x + b.
Proof.
  intros Hb. symmetry. apply Z.add_nocarry_lxor. apply Z.bits_inj'. intros n Hn.
  rewrite Z.land_spec, Z.bits_0. replace (256 * x) with (x * 2 ^ 8) by (change (2 ^ 8) with 256; lia).
  destruct (decide (n < 8)).
  - by rewrite Z.mul_pow2_bits_low by lia.
  - replace b with (b mod 2 ^ 8) by (change (2 ^ 8) with 256; unfold is_u8 in Hb; lia).
    rewrite Z.mod_pow2_bits_high by lia. apply andb_false_r.
Qed.

Lemma lxor_bound n x y : 0 <= n → 0 <= x < 2 ^ n → 0 <= y < 2 ^ n → 0 <= Z.lxor x y < 2 ^ n.
Proof.
  intros Hn Hx Hy. split; [apply Z.lxor_nonneg; lia |].
  assert (E : Z.lxor x y = Z.lxor x y mod 2 ^ n).
  { apply Z.bits_inj'. intros k Hk. destruct (decide (k < n)); [by rewrite Z.mod_pow2_bits_low by lia |].
    rewrite Z.mod_pow2_bits_high, Z.lxor_spec by lia.
    rewrite <- (Z.mod_small x (2 ^ n)), <- (Z.mod_small y (2 ^ n)) by lia.
    by rewrite !Z.mod_pow2_bits_high by lia. }
  rewrite E. apply Z.mod_pos_bound. lia.
Qed.

(** Every non-zero byte leaves a non-zero high byte. *)
Lemma crc8_table b : 0 < b < 256 → 2 ^ 24 <= crc8 b < 2 ^ 32.
Proof.
  assert (H : forallb (λ b, (2 ^ 24 <=? crc8 b) && (crc8 b <? 2 ^ 32)) (Z.of_nat <$> seq 1 255) = true)
    by (vm_compute; reflexivity).
  intros Hb. rewrite forallb_forall in H. specialize (H b).
  assert (Hin : List.In b (Z.of_nat <$> seq 1 255)).
  { apply list_elem_of_In, list_elem_of_fmap. exists (Z.to_nat b). rewrite elem_of_seq. lia. }
  specialize (H Hin). bool_prop. lia.
Qed.

Lemma crc8_split x : 0 <= x → crc8 x = Z.lxor (crc8 (x mod 256)) (x / 256).
Proof.
  intros Hx. rewrite <- (crc8_shift (x / 256)). rewrite <- crc8_lxor. f_equal.
  rewrite Z.lxor_comm, lxor_byte by (unfold is_u8; lia). lia.
Qed.

(** A result without a high byte comes from a shifted value. *)
Lemma crc8_small x : 0 <= x < 2 ^ 32 → crc8 x < 2 ^ 24 → x = 256 * crc8 x.
Proof.
  intros Hx Hs. pose proof (crc8_split x ltac:(lia)) as Hc.
  destruct (decide (x mod 256 = 0)) as [Hz|Hz].
  - rewrite Hz in Hc. change (crc8 0) with 0 in Hc. rewrite Z.lxor_0_l in Hc. lia.
  - pose proof (crc8_table (x mod 256)). assert (Hq : 0 <= x / 256 < 2 ^ 24) by lia.
    assert (Hb : 0 <= crc8 x) by (rewrite Hc; apply Z.lxor_nonneg; lia).
    pose proof (lxor_bound 24 (crc8 x) (x / 256) ltac:(lia) ltac:(lia) Hq) as Hb2.
    rewrite Hc, Z.lxor_assoc, Z.lxor_nilpotent, Z.lxor_0_r in Hb2. lia.
Qed.

Lemma crc8_bound x : 0 <= x < 2 ^ 32 → 0 <= crc8 x < 2 ^ 32.
Proof.
  intros Hx. rewrite crc8_split by lia. apply lxor_bound; [lia | | lia].
  destruct (decide (x mod 256 = 0)) as [->|]; [by vm_compute |].
  pose proof (crc8_table (x mod 256)). lia.
Qed.

Lemma crc8_inj x y : 0 <= x < 2 ^ 32 → 0 <= y < 2 ^ 32 → crc8 x = crc8 y → x = y.
Proof.
  intros Hx Hy E. apply Z.lxor_eq.
  assert (Hz : crc8 (Z.lxor x y) = 0) by (by rewrite crc8_lxor, E, Z.lxor_nilpotent).
  pose proof (lxor_bound 32 x y ltac:(lia) Hx Hy).
  pose proof (crc8_small (Z.lxor x y) ltac:(lia) ltac:(rewrite Hz; lia)). lia.
Qed.

(** ** The loop over the bytes *)
Lemma crc_byte_8 c b : crc_byte c b = crc8 (Z.lxor c b).
Proof. reflexivity. Qed.
#[local] Opaque crc8 crc_byte.
Lemma crc_byte_bound c b : 0 <= c < 2 ^ 32 → is_u8 b → 0 <= crc_byte c b < 2 ^ 32.
Proof.
  intros Hc Hb. rewrite crc_byte_8. apply crc8_bound. apply lxor_bound; [lia | done |]. unfold is_u8 in Hb. lia.
Qed.

Lemma crc_loop_bound l : ∀ c, 0 <= c < 2 ^ 32 → Forall is_u8 l → 0 <= foldl crc_byte c l < 2 ^ 32.
Proof.
  induction l as [|b l IH]; intros c Hc Hl; simpl; [done |].
  apply Forall_cons in Hl as [Hb Hl]. apply IH; [by apply crc_byte_bound | done].
Qed.

Lemma crc_loop_inj l : ∀ c d,
  0 <= c < 2 ^ 32 → 0 <= d < 2 ^ 32 → Forall is_u8 l → foldl crc_byte c l = foldl crc_byte d l → c = d.
Proof.
  induction l as [|b l IH]; intros c d Hc Hd Hl E; simpl in E; [done |].
  apply Forall_cons in Hl as [Hb Hl].
  apply IH in E; [| by apply crc_byte_bound | by apply crc_byte_bound | done].
  rewrite !crc_byte_8 in E. apply crc8_inj in E; [| apply lxor_bound; unfold is_u8 in Hb; lia | apply lxor_bound; unfold is_u8 in Hb; lia].
  rewrite <- (Z.lxor_0_r c), <- (Z.lxor_0_r d), <- (Z.lxor_nilpotent b), <- !Z.lxor_assoc. by rewrite E.
Qed.

Lemma crc_loop_lxor a : ∀ a' c d, length a = length a' →
  Z.lxor (foldl crc_byte c a) (foldl crc_byte d a') = foldl crc_byte (Z.lxor c d) (zip_with Z.lxor a a').
Proof.
  induction a as [|b a IH]; intros [|b' a'] c d Hl; try done; simpl. rewrite IH by (simpl in Hl; lia).
  f_equal. rewrite !crc_byte_8, <- crc8_lxor. f_equal. apply Z.bits_inj'. intros n Hn. rewrite !Z.lxor_spec.
  by destruct (Z.testbit c n), (Z.testbit d n), (Z.testbit b n), (Z.testbit b' n).
Qed.

(** Only zeros of four bytes leave the state 0. *)
Lemma lxor_cancel x b y : Z.lxor x b = y → x = Z.lxor y b.
Proof. intros <-. by rewrite Z.lxor_assoc, Z.lxor_nilpotent, Z.lxor_0_r. Qed.

Lemma crc_undo x b z :
  0 <= x < 2 ^ 32 → is_u8 b → 0 <= z < 2 ^ 16 → Z.lxor (crc8 x) b = 256 * z → x = 256 * (256 * z + b).
Proof.
  intros Hx Hb Hz E. apply lxor_cancel in E. rewrite lxor_byte in E by done.
  rewrite <- E. unfold is_u8 in Hb. apply crc8_small; [done |]. rewrite E. lia.
Qed.

Lemma crc_next_bound x b : 0 <= x < 2 ^ 32 → is_u8 b → 0 <= Z.lxor (crc8 x) b < 2 ^ 32.
Proof.
  intros Hx Hb. apply lxor_bound; [lia | by apply crc8_bound | unfold is_u8 in Hb; lia].
Qed.

Lemma crc_zero4 x0 x1 x2 x3 :
  is_u8 x0 → is_u8 x1 → is_u8 x2 → is_u8 x3 →
  foldl crc_byte 0 [x0; x1; x2; x3] = 0 → x0 = 0 ∧ x1 = 0 ∧ x2 = 0 ∧ x3 = 0.
Proof.
  intros H0 H1 H2 H3 E.
  cbn [foldl] in E. rewrite !crc_byte_8, Z.lxor_0_l in E.
  assert (B0 : 0 <= x0 < 2 ^ 32) by (unfold is_u8 in H0; lia).
  pose proof (crc_next_bound x0 x1 B0 H1) as B1.
  remember (Z.lxor (crc8 x0) x1) as y1 eqn:E1. pose proof (crc_next_bound y1 x2 B1 H2) as B2.
  remember (Z.lxor (crc8 y1) x2) as y2 eqn:E2. pose proof (crc_next_bound y2 x3 B2 H3) as B3.
  remember (Z.lxor (crc8 y2) x3) as y3 eqn:E3.
  apply crc8_small in B3; [| rewrite E; lia]. rewrite E in B3. clear E.
  unfold is_u8 in *. rewrite E3 in B3. apply crc_undo in B3; [| done | done | lia].
  rewrite B3 in E2. symmetry in E2. apply crc_undo in E2; [| done | done | lia].
  rewrite E2 in E1. symmetry in E1. apply crc_undo in E1; [| done | done | lia].
  clear -E1 H0 H1 H2 H3. lia.
Qed.

Lemma crc_zeros k : foldl crc_byte 0 (replicate k 0) = 0.
Proof.
  induction k as [|k IH]; [reflexivity |]. simpl. rewrite crc_byte_8. change (Z.lxor 0 0) with 0.
  replace (crc8 0) with 0; [done |]. symmetry. exact (crc8_shift 0).
Qed.

Lemma crc_zero l : (length l <= 4)%nat → Forall is_u8 l → foldl crc_byte 0 l = 0 → Forall (λ x, x = 0) l.
Proof.
  intros Hlen Hl E.
  assert (Hp : foldl crc_byte 0 (replicate (4 - length l) 0 ++ l) = 0) by (by rewrite foldl_app, crc_zeros).
  assert (Hu : Forall is_u8 (replicate (4 - length l) 0 ++ l)).
  { apply Forall_app. split; [apply Forall_replicate; unfold is_u8; lia | done]. }
  assert (H4 : length (replicate (4 - length l) 0 ++ l) = 4%nat) by (rewrite length_app, length_replicate; lia).
  assert (Hz : Forall (λ x, x = 0) (replicate (4 - length l) 0 ++ l)); [| by apply Forall_app in Hz as [_ ?]].
  revert Hp Hu H4. generalize (replicate (4 - length l) 0 ++ l). clear. intros l Hp Hu H4.
  destruct l as [|x0 [|x1 [|x2 [|x3 [|]]]]]; try discriminate H4. rewrite !Forall_cons in Hu.
  destruct Hu as (H0 & H1 & H2 & H3 & _). destruct (crc_zero4 x0 x1 x2 x3 H0 H1 H2 H3 Hp) as (? & ? & ? & ?).
  by repeat constructor.
Qed.

(** A change of at most four consecutive bytes changes the loop's result. *)
Lemma crc_loop_burst p a a' q :
  length a = length a' → (length a <= 4)%nat →
  Forall is_u8 p → Forall is_u8 a → Forall is_u8 a' → Forall is_u8 q →
  foldl crc_byte 0xFFFFFFFF (p ++ a ++ q) = foldl crc_byte 0xFFFFFFFF (p ++ a' ++ q) → a = a'.
Proof.
  intros Hl H4 Hp Ha Ha' Hq E. rewrite !foldl_app in E.
  pose proof (crc_loop_bound p 0xFFFFFFFF ltac:(lia) Hp) as Hc. set (c := foldl crc_byte _ p) in *.
  apply crc_loop_inj in E; [| by apply crc_loop_bound | by apply crc_loop_bound | done].
  assert (Hz : foldl crc_byte 0 (zip_with Z.lxor a a') = 0).
  { rewrite <- (Z.lxor_nilpotent c) at 1. rewrite <- crc_loop_lxor, E by done. apply Z.lxor_nilpotent. }
  apply crc_zero in Hz.
  - clear -Hl Hz. revert a' Hl Hz. induction a as [|x a IH]; intros [|x' a'] Hl Hz; try done.
    simpl in Hz. apply Forall_cons in Hz as [Hx Hz]. f_equal; [by apply Z.lxor_eq |].
    apply IH; [simpl in Hl; lia | done].
  - rewrite length_zip_with. lia.
  - clear -Ha Ha'. revert a' Ha'. induction Ha as [|x a Hx Ha IH]; intros a' Ha'; [constructor |].
    destruct Ha' as [|x' a' Hx' Ha']; [constructor |]. simpl. constructor; [| by apply IH].
    unfold is_u8 in *. pose proof (lxor_bound 8 x x'). lia.
Qed.
