(* ===== verification/ModuleSpec.v ===== *)
(** * Kernel modules: integrity, loading, reference counts *)
From S2P Require Import Prelude Screen Heap HeapSpec HeapAlloc HeapFree Slab Solixfs Module ModuleCrc.

Lemma not32_inj x y : is_u32 x → is_u32 y → not32 x = not32 y → x = y.
Proof.
  unfold is_u32, not32, u32. intros Hx Hy. unfold Z.lnot. lia.
Qed.

Lemma crc_burst p a a' q :
  length a = length a' → (length a <= 4)%nat →
  Forall is_u8 p → Forall is_u8 a → Forall is_u8 a' → Forall is_u8 q →
  module_calculate_crc (p ++ a ++ q) = module_calculate_crc (p ++ a' ++ q) → a = a'.
Proof.
  intros Hl H4 Hp Ha Ha' Hq E. apply (crc_loop_burst p a a' q); try done.
  assert (Hb : ∀ x, Forall is_u8 x → is_u32 (foldl crc_byte 0xFFFFFFFF (p ++ x ++ q))).
  { intros x Hx. pose proof (crc_loop_bound (p ++ x ++ q) 0xFFFFFFFF ltac:(lia)) as H. unfold is_u32.
    change 4294967296 with (2 ^ 32). apply H. by rewrite !Forall_app. }
  apply not32_inj; [by apply Hb | by apply Hb | exact E].
Qed.

(** The module [m] with another image of the same size. *)
Definition with_image (d : bytes) (m : module) : module := set_base (module_base m) (module_size m) d m.

(** C8. A module that passes the integrity check fails it after any change of its
    image that is confined to four consecutive bytes. *)
Theorem integrity_detects_burst m m' p a a' q :
  module_size m = Z.of_nat (length (p ++ a ++ q)) → image m = p ++ a ++ q →
  length a = length a' → (length a <= 4)%nat → a ≠ a' →
  Forall is_u8 p → Forall is_u8 a → Forall is_u8 a' → Forall is_u8 q →
  module_verify_integrity m = (Ret 0, m') →
  module_verify_integrity (with_image (p ++ a' ++ q) m) = (Err EILSEQ, with_image (p ++ a' ++ q) m).
Proof.
  intros Hs Hi Hl H4 Hne Hp Ha Ha' Hq. unfold module_verify_integrity. rewrite Hi.
  unfold with_image. cbn [module_base module_size image m_crc m_signed set_base].
  destruct (module_base m =? NULL); [done |].
  rewrite Hs, Nat2Z.id, !firstn_all2 by (rewrite !length_app; lia).
  destruct (Z.eqb_spec (module_calculate_crc (p ++ a ++ q)) (m_crc m)) as [Hc|Hc]; [| done]. intros _.
  rewrite (proj2 (Z.eqb_neq _ _)); [done |]. rewrite <- Hc. intros E. by apply Hne, (crc_burst p a a' q).
Qed.

(** The checksum field is part of the image it is computed over: a checksum that
    is computed with the field cleared and then stored does not verify, unless it
    is 0. *)
Lemma crc_self_reference p q :
  Forall is_u8 p → Forall is_u8 q →
  let crc := module_calculate_crc (p ++ [0; 0; 0; 0] ++ q) in
  crc ≠ 0 → module_calculate_crc (p ++ put_u32 crc ++ q) ≠ crc.
Proof.
  intros Hp Hq crc Hne E. assert (Hu : is_u32 crc) by apply u32_range. unfold is_u32 in Hu.
  assert (Ez : put_u32 crc = [0; 0; 0; 0]).
  { apply (crc_burst p _ _ q); [done | simpl; lia | done | | | done | exact E];
      unfold put_u32; repeat constructor; unfold is_u8; lia. }
  unfold put_u32 in Ez. injection Ez as E1 E2 E3 E4. lia.
Qed.

(** ** Reference counts *)
Lemma put_mod_id s p m : mods s !! p = Some m → put_mod p m s = s.
Proof. intros H. unfold put_mod. rewrite insert_id by done. by destruct s. Qed.

Lemma find_in_some name l ms p m :
  find_in name l ms = Some p → ms !! p = Some m → m_name m = name ∧ p ∈ l.
Proof.
  induction l as [|q l IH]; simpl; [done |]. intros Hf Hm.
  destruct (ms !! q) as [mq|] eqn:Hq.
  - case_decide; [simplify_eq; set_solver |]. destruct (IH Hf Hm). set_solver.
  - destruct (IH Hf Hm). set_solver.
Qed.

(** Changing a module without renaming it changes no search. *)
Lemma find_in_insert name l ms p m m' :
  ms !! p = Some m → m_name m' = m_name m → find_in name l (<[p := m']> ms) = find_in name l ms.
Proof.
  intros Hm Hn. induction l as [|q l IH]; simpl; [done |]. destruct (decide (q = p)) as [->|].
  - rewrite lookup_insert_eq, Hm, Hn, IH. done.
  - rewrite lookup_insert_ne by done. by rewrite IH.
Qed.

(** While a reference is held a module is not unloaded, and giving the
    reference back restores the state; without a reference to give back the
    count does not change. *)
Theorem refcount_protects run_exit s p m :
  p ≠ NULL → module_find (m_name m) s = Some p → mods s !! p = Some m →
  0 <= refcount m < 4294967295 → is_u32 (use_count m) →
  ∃ s1, module_refcount_inc p s = Ok (Ret (s32 (refcount m + 1)), s1) ∧
    module_unload run_exit (m_name m) s1 = Ok (Err EBUSY, s1) ∧
    module_refcount_dec p s1 = Ok (Ret (s32 (refcount m)), s) ∧
    (refcount m = 0 → module_refcount_dec p s = Ok (Err EINVAL, s)).
Proof.
  intros Hp Hf Hm Hr Hu. apply Z.eqb_neq in Hp.
  unfold module_refcount_inc, module_refcount_dec. rewrite Hp, Hm.
  rewrite (u32_small (refcount m + 1)) by (unfold is_u32; lia).
  eexists. split; [reflexivity |]. split; [| split].
  - unfold module_unload, module_find. cbn [mods module_list put_mod].
    rewrite (find_in_insert _ _ _ _ m) by done. unfold module_find in Hf. rewrite Hf, lookup_insert_eq.
    cbn [refcount set_counts]. by rewrite (proj2 (Z.ltb_lt _ _)) by lia.
  - cbn [mods put_mod]. rewrite lookup_insert_eq. cbn [refcount use_count set_counts].
    rewrite (proj2 (Z.eqb_neq _ _)) by lia. f_equal. f_equal; [do 2 f_equal; lia |].
    unfold put_mod. cbn [mslab module_cache mods module_list symbol_table module_stats current_module].
    rewrite insert_insert_eq. rewrite insert_id; [by destruct s |]. rewrite Hm. f_equal. destruct m. simpl.
    unfold set_counts. simpl. f_equal; [lia |]. unfold u32, is_u32 in *. simpl in *. lia.
  - intros Hz. by rewrite Hz.
Qed.

(** ** Failure after the image is allocated *)
Lemma kfree_twice st pre b post :
  heap_ok st (pre ++ b :: post) → a_used b = true →
  intact (last_of NULL (kernel_heap_start st) pre)
    (first_of (kernel_heap_start st + extent pre + span b) post NULL) b →
  (pre = [] ∨ ∃ l d, pre = l ++ [d] ∧ a_used d = true) →
  let ptr := kernel_heap_start st + extent pre + HDR in
  ∃ st', kfree ptr st = Ok (tt, st') ∧ kfree ptr st' = Panic "Double free detected".
Proof.
  intros Hok Hu Hi Hl ptr. destruct (release_alone st pre b post Hok Hu Hi Hl) as (st' & x & post' & E & R).
  exists st'. split; [exact E |]. unfold ptr. rewrite <- (rel_start _ _ _ _ _ _ _ _ R).
  apply (kfree_panics st' pre x post'); [apply R |]. apply R.
Qed.

(** A module whose data cannot be read in full or whose checksum is wrong
    stops the kernel: the error path frees the image and then [module_free]
    frees it again. *)
Theorem corrupt_module_panics run_init s p m h now pre b post :
  let st := sheap (mslab s) in
  heap_ok st (pre ++ b :: post) → a_used b = true →
  intact (last_of NULL (kernel_heap_start st) pre)
    (first_of (kernel_heap_start st + extent pre + span b) post NULL) b →
  (pre = [] ∨ ∃ l d, pre = l ++ [d] ∧ a_used d = true) →
  p ≠ NULL → module_base m = kernel_heap_start st + extent pre + HDR →
  (∀ ret, mods s !! p = Some m →
    err_free_module_data p (module_base m) ret s = Panic "Double free detected") ∧
  (module_calculate_crc (take (Z.to_nat (module_size m)) (image m)) ≠ m_crc m →
    activate run_init p (module_base m) h m now s = Panic "Double free detected").
Proof.
  intros st Hok Hu Hi Hl Hp Hb.
  destruct (kfree_twice st pre b post Hok Hu Hi Hl) as (st' & E1 & E2). rewrite <- Hb in E1, E2.
  pose proof (ok_range _ _ Hok) as [Hr _].
  destruct (heap_ok_block _ _ _ _ Hok) as (He & _).
  assert (Hnz : (module_base m =? NULL) = false) by (apply Z.eqb_neq; unfold NULL, HDR in *; lia).
  assert (Herr : ∀ ret t, mslab t = mslab s → mods t !! p = Some m →
    err_free_module_data p (module_base m) ret t = Panic "Double free detected").
  { intros ret t Ht Hm. unfold err_free_module_data, on_slab, on_heap. rewrite Ht. fold st. rewrite E1. ok_bind.
    unfold err_free_module, module_free. rewrite (proj2 (Z.eqb_neq _ _) Hp).
    cbn [mods set_mslab]. rewrite Hm, Hnz. unfold on_slab, on_heap. cbn [mslab sheap set_mslab set_sheap].
    by rewrite E2. }
  split; [intros ret; by apply Herr |].
  intros Hc. unfold activate, module_verify_integrity. rewrite Hnz, (proj2 (Z.eqb_neq _ _) Hc). cbn [negb].
  apply Herr; [done |]. simpl. apply lookup_insert_eq.
Qed.

(** ** Loading *)
Lemma c_string_take n d : (length (c_string d) <= n)%nat → c_string (take n (c_string d)) = c_string d.
Proof.
  revert n. induction d as [|c d IH]; intros n Hn; [by destruct n |]. simpl in *.
  destruct (c =? 0) eqn:Hc; [by destruct n |]. destruct n as [|n]; [simpl in Hn; lia |].
  simpl in *. rewrite Hc. f_equal. apply IH. lia.
Qed.

Lemma get_u32_nonneg d i : Forall is_u8 d → 0 <= get_u32 d i.
Proof.
  intros Hd. assert (Hn : ∀ k, 0 <= nth k d 0).
  { intros k. destruct (lt_dec k (length d)) as [Hk|Hk]; [| rewrite nth_overflow by lia; lia].
    rewrite Forall_lookup in Hd. destruct (lookup_lt_is_Some_2 d k Hk) as [x Hx].
    rewrite (nth_lookup_Some _ _ 0 _ Hx). specialize (Hd k x Hx). unfold is_u8 in Hd. lia. }
  unfold get_u32. pose proof (Hn i). pose proof (Hn (i + 1)%nat). pose proof (Hn (i + 2)%nat).
  pose proof (Hn (i + 3)%nat). lia.
Qed.

(** The size of the sections of a header, without wrap-around. *)
Definition sections_size (h : bytes) : Z :=
  h_text_size h + h_data_size h + h_rodata_size h + h_bss_size h + h_init_size h + h_exit_size h.

(** The sections lie one after the other between the header and the end of the
    image. *)
Definition sections_ok (base : Z) (h : bytes) (m : module) : Prop :=
  text_section m = base + HEADER_SIZE ∧
  data_section m = text_section m + h_text_size h ∧
  rodata_section m = data_section m + h_data_size h ∧
  bss_section m = rodata_section m + h_rodata_size h ∧
  init_text m = bss_section m + h_bss_size h ∧
  exit_text m = init_text m + h_init_size h ∧
  exit_text m + h_exit_size h = base + HEADER_SIZE + sections_size h.

Lemma lay_out_ok base h m :
  Forall is_u8 h → 0 <= base → base + HEADER_SIZE + sections_size h < 4294967296 →
  sections_ok base h (lay_out base h m).
Proof.
  intros Hh Hb Hs. unfold sections_ok, lay_out, sections_size in *. cbv zeta.
  cbn [text_section data_section rodata_section bss_section init_text exit_text set_sections].
  unfold h_text_size, h_data_size, h_rodata_size, h_bss_size, h_init_size, h_exit_size, HEADER_SIZE in *.
  pose proof (get_u32_nonneg h 392 Hh). pose proof (get_u32_nonneg h 396 Hh).
  pose proof (get_u32_nonneg h 400 Hh). pose proof (get_u32_nonneg h 404 Hh).
  pose proof (get_u32_nonneg h 408 Hh). pose proof (get_u32_nonneg h 412 Hh).
  unfold u32. repeat rewrite Z.mod_small by lia. lia.
Qed.

Lemma total_size_ok h :
  Forall is_u8 h → HEADER_SIZE + sections_size h < 4294967296 →
  total_size h = HEADER_SIZE + sections_size h ∧ 0 <= sections_size h.
Proof.
  intros Hh Hs. unfold total_size, sections_size in *.
  unfold h_text_size, h_data_size, h_rodata_size, h_bss_size, h_init_size, h_exit_size, HEADER_SIZE in *.
  pose proof (get_u32_nonneg h 392 Hh). pose proof (get_u32_nonneg h 396 Hh).
  pose proof (get_u32_nonneg h 400 Hh). pose proof (get_u32_nonneg h 404 Hh).
  pose proof (get_u32_nonneg h 408 Hh). pose proof (get_u32_nonneg h 412 Hh).
  unfold u32. rewrite Z.mod_small by lia. lia.
Qed.

Section Load.
Context `{FileApi}.
Variable run_init : nat → cmd mstate Z.

(** What a loaded module looks like. *)
Record loaded (s s' : mstate) (p base : Z) (h data : bytes) : Prop := {
  ld_mod : ∃ m, mods s' !! p = Some m ∧ m_name m = h_name h ∧ m_state m = MODULE_STATE_LIVE ∧
    m_flags m = Z.lor MODULE_FLAG_LOADED MODULE_FLAG_INITIALIZED ∧ refcount m = 0 ∧
    module_base m = base ∧ image m = h ++ data ∧ sections_ok base h m;
  ld_list : module_list s' = p :: module_list s;
  ld_others : ∀ q, q ≠ p → mods s' !! q = mods s !! q;
  ld_stats : module_stats s' = count_loaded (module_stats s);
}.

End Load.
