(* ===== verification/ModuleWitness.v ===== *)
(** * A module file on which the theorems on modules apply *)
From S2P Require Import Prelude Screen Heap HeapSpec HeapAlloc HeapFree HeapAligned HeapWitness Frames.
From S2P Require Import Slab SlabSpec SlabCache SlabWitness Solixfs Module ModuleCrc ModuleSpec.

(** The header of a module "demo" with a text section of four bytes, and these. *)
Definition demo_header : bytes :=
  put_u32 MODULE_MAGIC ++ put_u32 1 ++ bytes_of "demo" ++ replicate 380 0 ++ put_u32 4 ++
  replicate 36 0 ++ put_u32 0x12345678 ++ replicate 260 0.
Definition demo_text : bytes := [104; 86; 157; 19].

(** A file system with this file only; a file is what is left to read. *)
Definition demo_files : FileApi.
Proof.
  refine {| file := bytes;
            filp_open _ := Ok (inr (demo_header ++ demo_text));
            vfs_read f n := let b := take (Z.to_nat n) f in (Ret (Z.of_nat (length b)), b, drop (Z.to_nat n) f) |}.
  intros f n r b f' Hn E Hr. injection E as <- <- _. split; [done |]. rewrite length_take. lia.
Defined.
#[local] Existing Instance demo_files.

Definition no_init : nat → cmd mstate Z := λ _ s, Ok (0, s).
Definition no_exit : nat → cmd mstate unit := λ _ s, Ok (tt, s).
Definition sample_modules (x : slab_state) : mstate :=
  MState x 64 ∅ [] [] (ModuleStat 0 0 0 0 0) NULL.

Definition demo_module : module :=
  set_info (bytes_of "demo") [] [] [] 0x12345678 0 []
    (set_base 4096 700 (demo_header ++ demo_text) (new_module 0)).

Lemma integrity_detects_burst_witness :
  module_verify_integrity (with_image (demo_header ++ [104; 86; 157; 18]) demo_module) =
    (Err EILSEQ, with_image (demo_header ++ [104; 86; 157; 18]) demo_module).
Proof.
  rewrite <- (app_nil_r [104; 86; 157; 18]).
  apply (integrity_detects_burst demo_module demo_module demo_header demo_text [104; 86; 157; 18] []);
    try (vm_compute; reflexivity); try (vm_compute; lia); try discriminate; try (repeat constructor; unfold is_u8; lia).
Defined.

(** The state with the module installed at address 128. *)
Definition with_demo : mstate := set_module_list [128] (put_mod 128 demo_module (sample_modules sample_slabs)).

Lemma refcount_protects_witness :
  ∃ s1, module_refcount_inc 128 with_demo = Ok (Ret 1, s1) ∧
    module_unload no_exit (bytes_of "demo") s1 = Ok (Err EBUSY, s1) ∧
    module_refcount_dec 128 s1 = Ok (Ret 0, with_demo).
Proof.
  destruct (refcount_protects no_exit with_demo 128 demo_module) as (s1 & E1 & E2 & E3 & _);
    [discriminate | reflexivity | apply lookup_insert_eq | simpl; lia | unfold is_u32; simpl; lia |].
  exists s1. exact (conj E1 (conj E2 E3)).
Defined.

(** The first block of [test3] holds the image of a module. *)
Definition broken_module : module := set_base (HeapWitness.image + 24) 4 [1; 2; 3; 4] (new_module 0).
Definition broken_state : mstate :=
  put_mod 128 broken_module (sample_modules (SlabState test3 ∅ [] [])).

Lemma corrupt_module_panics_witness :
  activate no_init 128 (HeapWitness.image + 24) demo_header broken_module 0 broken_state = Panic "Double free detected".
Proof.
  refine (proj2 (corrupt_module_panics no_init broken_state 128 broken_module demo_header 0
    (cut_pre test3 0) (cut_at test3 0) (cut_post test3 0) _ _ _ _ _ _) _).
  - exact test3_cut0.
  - reflexivity.
  - vm_compute. reflexivity.
  - left. reflexivity.
  - discriminate.
  - vm_compute. reflexivity.
  - vm_compute. discriminate.
Defined.

(** The memory for the image. *)
Definition demo_base : Z := match kmalloc 700 (sheap used_slabs) with Ok (b, _) => b | _ => NULL end.
Definition demo_heap : heap_state := match kmalloc 700 (sheap used_slabs) with Ok (_, h) => h | _ => boot end.

Lemma demo_kmalloc : kmalloc 700 (sheap used_slabs) = Ok (demo_base, demo_heap) ∧ 0 < demo_base < 4294966000.
Proof.
  assert (H : match kmalloc 700 (sheap used_slabs) with
              | Ok (b, _) => (0 <? b) && (b <? 4294966000) | _ => false end = true) by (vm_compute; reflexivity).
  unfold demo_base, demo_heap. destruct (kmalloc 700 (sheap used_slabs)) as [[b h]| | |]; [| done..].
  bool_prop. done.
Qed.

Lemma used_slabs_eq : kmem_cache_alloc 64 sample_slabs = Ok (used_object, used_slabs).
Proof.
  destruct (kmem_cache_alloc_cases sample_slabs 64 sample_cache (λ _, []) sample_cache_ok eq_refl eq_refl)
    as (o & s' & c' & fls' & E & _). unfold used_object, used_slabs. by rewrite E.
Qed.

