(* ===== verification/Shell.v ===== *)
(** * The shell (src/shell/shell.c)

    Line editing, parsing, command dispatch and the built-in commands, on the
    states of the components they use: screen, virtual filesystem, processes,
    memory manager and timer.  [vfs_mount], [vfs_umount] and [vfs_unlink] of
    vfs.h are not defined by the sources and are parameters. *)
From S2P Require Import Prelude Screen CString Heap Frames Keyboard Process Solixfs Vfs.

Definition MAX_CMD_LEN : Z := 256.
Definition MAX_ARGS : nat := 16.
Definition MAX_PATH : nat := 512.
Definition COLOR_BLUE : Z := 1.
Definition COLOR_GREEN : Z := 2.
Definition COLOR_WHITE : Z := 15.

(** The functions registered as commands. *)
Inductive builtin :=
  CmdHelp | CmdClear | CmdLs | CmdCd | CmdPwd | CmdCat | CmdEcho | CmdMkdir | CmdTouch | CmdRm | CmdPs | CmdKill
| CmdReboot | CmdHalt | CmdMeminfo | CmdMount | CmdUmount | CmdDf | CmdTest.

Record command := Command { cname : bytes; func : builtin; description : bytes }.

(** The states of the components, [timer_ticks], and the variables of the
    shell. *)
Record sys (D : Type) := Sys {
  scr : screen;
  fsys : vfs D;
  procs : kstate;
  total_frames : Z;
  used_frames : Z;
  timer_ticks : Z;
  current_dir : bytes;
  commands : list command;
}.
Arguments Sys {D}.
Arguments scr {D}.
Arguments fsys {D}.
Arguments procs {D}.
Arguments total_frames {D}.
Arguments used_frames {D}.
Arguments timer_ticks {D}.
Arguments current_dir {D}.
Arguments commands {D}.

(** ** Reading a line

    [input] are the characters that [keyboard_getchar] returns one after the
    other; [None] when they end before the line does.  The characters typed so
    far are kept last one first. *)
Fixpoint readline (input : bytes) (typed : bytes) (s : screen) : option (bytes * bytes * screen) :=
  match input with
  | [] => None
  | c :: input =>
    if c =? KEY_ENTER then Some (rev typed, input, screen_putc KEY_ENTER s)
    else if c =? KEY_BACKSPACE then
      match typed with
      | [] => readline input [] s
      | _ :: typed => readline input typed (screen_putc KEY_BACKSPACE s)
      end
    else if (32 <=? schar c) && (schar c <? 127) && (Z.of_nat (length typed) <? MAX_CMD_LEN - 1)
    then readline input (c :: typed) (screen_putc c s)
    else readline input typed s
  end.
Definition shell_readline (input : bytes) (s : screen) : option (bytes * bytes * screen) := readline input [] s.

(** ** Parsing: [strtok] with the delimiters space and tab *)
Definition is_delim (c : Z) : bool := (c =? 32) || (c =? 9).

(** [shell_parse]: at most [n] more arguments. *)
Fixpoint parse_args (n : nat) (line : bytes) : list bytes :=
  match n with
  | O => []
  | S n =>
    match strtok is_delim line with
    | None => []
    | Some (t, rest) => t :: parse_args n rest
    end
  end.
Definition shell_parse (line : bytes) : list bytes := parse_args MAX_ARGS line.

(** ** Paths *)

(** The path of an argument, built in an array of [MAX_PATH] bytes. *)
Definition join_path (dir arg : bytes) : bytes :=
  if bool_decide (head arg = Some SLASH) then arg
  else if bool_decide (dir = [SLASH]) then dir ++ arg
  else dir ++ [SLASH] ++ arg.
Definition make_path (dir arg : bytes) : outcome bytes :=
  let p := join_path dir arg in
  if (MAX_PATH <=? length p)%nat then Fault else Ok p.

(** The normalisation loop of [cmd_cd]: two slashes become one. *)
Fixpoint squeeze (p : bytes) : bytes :=
  match p with
  | [] => []
  | c :: rest =>
    if (c =? SLASH) && bool_decide (head rest = Some SLASH) then squeeze rest else c :: squeeze rest
  end.

Section Shell.
Context {D : Type} `{!Disk D}.
Context (new_vnode : nat → option Z).
(** Functions declared in vfs.h without a definition: true is success. *)
Context (vfs_mount : bytes → bytes → cmd (vfs D) bool).
Context (vfs_umount vfs_unlink : bytes → cmd (vfs D) bool).
Notation sys := (sys D).

Definition set_scr (x : screen) (s : sys) : sys :=
  Sys x (fsys s) (procs s) (total_frames s) (used_frames s) (timer_ticks s) (current_dir s) (commands s).
Definition set_fsys (x : vfs D) (s : sys) : sys :=
  Sys (scr s) x (procs s) (total_frames s) (used_frames s) (timer_ticks s) (current_dir s) (commands s).
Definition set_procs (x : kstate) (s : sys) : sys :=
  Sys (scr s) (fsys s) x (total_frames s) (used_frames s) (timer_ticks s) (current_dir s) (commands s).
Definition set_ticks (x : Z) (s : sys) : sys :=
  Sys (scr s) (fsys s) (procs s) (total_frames s) (used_frames s) x (current_dir s) (commands s).
Definition set_dir (x : bytes) (s : sys) : sys :=
  Sys (scr s) (fsys s) (procs s) (total_frames s) (used_frames s) (timer_ticks s) x (commands s).
Definition set_commands (x : list command) (s : sys) : sys :=
  Sys (scr s) (fsys s) (procs s) (total_frames s) (used_frames s) (timer_ticks s) (current_dir s) x.

Definition print (str : bytes) (s : sys) : sys := set_scr (screen_print str (scr s)) s.
Definition say (str : string) (s : sys) : sys := print (bytes_of str) s.
Definition print_dec (v : Z) (s : sys) : outcome sys :=
  '(_, x) ← screen_print_dec v (scr s); Ok (set_scr x s).
Definition newline (s : sys) : sys := print [10] s.
Definition on_fs {A} (c : cmd (vfs D) A) : cmd sys A := λ s,
  '(a, x) ← c (fsys s); Ok (a, set_fsys x s).
Definition on_kheap {A} (c : cmd heap_state A) : cmd sys A := λ s,
  '(a, h) ← c (kheap (procs s)); Ok (a, set_procs (set_kheap h (procs s)) s).

(** ** Registration and the prompt *)
Definition shell_register_command (name : bytes) (f : builtin) (desc : bytes) (s : sys) : outcome sys :=
  if (length (commands s) <? 64)%nat then
    if (32 <=? length name)%nat || (128 <=? length desc)%nat then Fault
    else Ok (set_commands (commands s ++ [Command name f desc]) s)
  else Ok s.

Definition builtins : list (string * builtin * string) :=
  [("help", CmdHelp, "Show this help message"); ("clear", CmdClear, "Clear the screen");
   ("ls", CmdLs, "List directory contents"); ("cd", CmdCd, "Change directory");
   ("pwd", CmdPwd, "Print working directory"); ("cat", CmdCat, "Display file contents");
   ("echo", CmdEcho, "Echo arguments"); ("mkdir", CmdMkdir, "Create directory");
   ("touch", CmdTouch, "Create empty file"); ("rm", CmdRm, "Remove file or directory");
   ("ps", CmdPs, "List processes"); ("kill", CmdKill, "Terminate process");
   ("reboot", CmdReboot, "Reboot system"); ("halt", CmdHalt, "Halt system");
   ("meminfo", CmdMeminfo, "Show memory information"); ("mount", CmdMount, "Mount filesystem");
   ("umount", CmdUmount, "Unmount filesystem"); ("df", CmdDf, "Show disk usage");
   ("test", CmdTest, "Run system tests")]%string.

Fixpoint register_all (l : list (string * builtin * string)) (s : sys) : outcome sys :=
  match l with
  | [] => Ok s
  | (n, f, d) :: l => s ← shell_register_command (bytes_of n) f (bytes_of d) s; register_all l s
  end.

Definition shell_prompt (s : sys) : sys :=
  let color c s := set_scr (screen_set_color c COLOR_BLACK (scr s)) s in
  let s := say "solixos" (color COLOR_GREEN s) in
  let s := say ":" (color COLOR_WHITE s) in
  let s := print (current_dir s) (color COLOR_BLUE s) in
  say "$ " (color COLOR_WHITE s).

(** ** Built-in commands: the arguments after the name, the result code *)
Fixpoint help_lines (l : list command) (s : sys) : sys :=
  match l with
  | [] => s
  | c :: l =>
    help_lines l (newline (print (description c) (say " - " (print (cname c) (say "  " s)))))
  end.
Definition cmd_help (s : sys) : outcome (Z * sys) :=
  Ok (0, help_lines (commands s) (newline (say "Available commands:" s))).

Definition cmd_clear (s : sys) : outcome (Z * sys) := Ok (0, set_scr (screen_clear (scr s)) s).

(** The entries of [cmd_ls], [n] of them in [d]. *)
Fixpoint ls_entries (n j : nat) (d path : bytes) (s : sys) : outcome sys :=
  match n with
  | O => Ok s
  | S n =>
    let e := entry_at d j in
    if entry_inode e =? 0 then ls_entries n (S j) d path s
    else
      let s := print (entry_name e) s in
      let full := if bool_decide (path = [SLASH]) then path ++ entry_name e else path ++ [SLASH] ++ entry_name e in
      if (MAX_PATH <=? length full)%nat then Fault else
      '(st, s) ← on_fs (vfs_stat new_vnode full) s;
      let s := match st with
               | Some i => if mode i =? FT_DIRECTORY then say "/" s else s
               | None => s
               end in
      ls_entries n (S j) d path (say "  " s)
  end.

Definition cmd_ls (args : list bytes) (s : sys) : outcome (Z * sys) :=
  path ← match args with
         | [] => Ok (current_dir s)
         | arg :: _ => make_path (current_dir s) arg
         end;
  '(r, s) ← on_fs (vfs_readdir new_vnode path 64) s;
  match r with
  | None =>
    (* dir_read's -1 divided by the entry size is 0, an unresolved path is -1 *)
    Ok (1, newline (say "': No such file or directory" (print path (say "ls: cannot access '" s))))
  | Some d =>
    s ← ls_entries (length d / 260) 0 d path s;
    Ok (0, newline s)
  end.

Definition cmd_cd (args : list bytes) (s : sys) : outcome (Z * sys) :=
  match args with
  | [arg] =>
    p ← make_path (current_dir s) arg;
    let new_path := squeeze p in
    '(st, s) ← on_fs (vfs_stat new_vnode new_path) s;
    let is_dir := match st with Some i => mode i =? FT_DIRECTORY | None => false end in
    if is_dir then Ok (0, set_dir new_path s)
    else Ok (1, newline (say "': No such directory" (print arg (say "cd: '" s))))
  | _ => Ok (1, newline (say "Usage: cd <directory>" s))
  end.

Definition cmd_pwd (s : sys) : outcome (Z * sys) := Ok (0, newline (print (current_dir s) s)).

Definition cmd_cat (args : list bytes) (s : sys) : outcome (Z * sys) :=
  match args with
  | [arg] =>
    path ← make_path (current_dir s) arg;
    '(fd, s) ← on_fs (vfs_open new_vnode path O_RDONLY) s;
    match fd with
    | None => Ok (1, newline (say "': No such file" (print arg (say "cat: '" s))))
    | Some fd =>
      '(r, s) ← on_fs (vfs_read (Z.of_nat fd) 1023) s;
      let s := match r with
               | Some b => if (0 <? length b)%nat then print (c_string b) s else s
               | None => s
               end in
      let s := set_fsys (vfs_close (Z.of_nat fd) (fsys s)).2 s in
      Ok (0, newline s)
    end
  | _ => Ok (1, newline (say "Usage: cat <file>" s))
  end.

Fixpoint echo_args (first : bool) (args : list bytes) (s : sys) : sys :=
  match args with
  | [] => s
  | a :: args => echo_args false args (print a (if first then s else say " " s))
  end.
Definition cmd_echo (args : list bytes) (s : sys) : outcome (Z * sys) :=
  Ok (0, newline (echo_args true args s)).

(** [stack] is what the array of directory entries of [vfs_mkdir] contains. *)
Definition cmd_mkdir (args : list bytes) (stack : bytes) (s : sys) : outcome (Z * sys) :=
  match args with
  | [arg] =>
    path ← make_path (current_dir s) arg;
    '(r, s) ← on_fs (vfs_mkdir new_vnode path (timer_ticks s) stack) s;
    if r =? 0 then Ok (0, s)
    else Ok (1, newline (say "'" (print arg (say "mkdir: cannot create directory '" s))))
  | _ => Ok (1, newline (say "Usage: mkdir <directory>" s))
  end.

Definition cmd_touch (args : list bytes) (s : sys) : outcome (Z * sys) :=
  match args with
  | [arg] =>
    path ← make_path (current_dir s) arg;
    '(fd, s) ← on_fs (vfs_open new_vnode path (Z.lor O_CREAT O_WRONLY)) s;
    match fd with
    | None => Ok (1, newline (say "'" (print arg (say "touch: cannot create file '" s))))
    | Some fd => Ok (0, set_fsys (vfs_close (Z.of_nat fd) (fsys s)).2 s)
    end
  | _ => Ok (1, newline (say "Usage: touch <file>" s))
  end.

Definition cmd_rm (args : list bytes) (s : sys) : outcome (Z * sys) :=
  match args with
  | [arg] =>
    path ← make_path (current_dir s) arg;
    '(ok, s) ← on_fs (vfs_unlink path) s;
    if (ok : bool) then Ok (0, s) else Ok (1, newline (say "'" (print arg (say "rm: cannot remove '" s))))
  | _ => Ok (1, newline (say "Usage: rm <file>" s))
  end.

Definition state_name (st : pstate) : string :=
  match st with RUNNING => "RUN  " | READY => "READY" | BLOCKED => "BLK  " | TERMINATED => "UNK  " end.
Fixpoint ps_lines (l : list process) (s : sys) : outcome sys :=
  match l with
  | [] => Ok s
  | p :: l =>
    if decide (state p = TERMINATED) then ps_lines l s
    else
      s ← print_dec (pid p) s;
      let s := say "   " (say (state_name (state p)) (say "   " s)) in
      s ← print_dec (ppid p) s;
      ps_lines l (newline (say "   [kernel]" s))
  end.
Definition cmd_ps (s : sys) : outcome (Z * sys) :=
  s ← ps_lines (process_table (procs s)) (newline (say "PID  STATE  PPID  COMMAND" s)); Ok (0, s).

(** The first slot of a live process with this number. *)
Fixpoint find_pid (i : nat) (l : list process) (p : Z) : option nat :=
  match l with
  | [] => None
  | q :: l => if (pid q =? p) && bool_decide (state q ≠ TERMINATED) then Some i else find_pid (S i) l p
  end.
Definition cmd_kill (args : list bytes) (s : sys) : outcome (Z * sys) :=
  match args with
  | [arg] =>
    p ← (p ← atoi arg; Ok (u32 p));
    match find_pid 0 (process_table (procs s)) p with
    | Some i =>
      let t := process_table (procs s) in
      let s := set_procs (set_table (<[i := set_state TERMINATED (t !!! i)]> t) (procs s)) s in
      s ← print_dec p (say "Process " s);
      Ok (0, newline (say " terminated" s))
    | None =>
      s ← print_dec p (say "Process not found: " s);
      Ok (1, newline s)
    end
  | _ => Ok (1, newline (say "Usage: kill <pid>" s))
  end.

(** [timer_wait]: the ticks go on while it waits. *)
Definition wait_ticks (n : Z) (s : sys) : outcome sys :=
  match timer_wait (S (Z.to_nat n)) (timer_ticks s) n (timer_ticks s) with
  | Some t => Ok (set_ticks t s)
  | None => Diverge
  end.

(** The store to address 0 that is meant to reset the machine. *)
Definition cmd_reboot (s : sys) : outcome (Z * sys) :=
  s ← wait_ticks 100 (newline (say "Rebooting system..." s)); Fault.
Definition cmd_halt (s : sys) : outcome (Z * sys) :=
  s ← wait_ticks 100 (newline (say "Halting system..." s)); Diverge.

Definition cmd_meminfo (s : sys) : outcome (Z * sys) :=
  let h := kheap (procs s) in
  s ← print_dec (total_frames s) (say "Total frames: " (newline (say "Memory Information:" s)));
  s ← print_dec (used_frames s) (say "Used frames: " (newline s));
  s ← print_dec (u32 (total_frames s - used_frames s)) (say "Free frames: " (newline s));
  s ← print_dec (u32 (kernel_heap_current h - kernel_heap_start h)) (say "Kernel heap used: " (newline s));
  Ok (0, newline (say " bytes" s)).

Definition cmd_mount (args : list bytes) (s : sys) : outcome (Z * sys) :=
  match args with
  | [dev; mp] =>
    '(ok, s) ← on_fs (vfs_mount dev mp) s;
    if (ok : bool) then Ok (0, newline (print mp (say " at " (print dev (say "Mounted " s)))))
    else Ok (1, newline (say "Mount failed" s))
  | _ => Ok (1, newline (say "Usage: mount <device> <mountpoint>" s))
  end.

Definition cmd_umount (args : list bytes) (s : sys) : outcome (Z * sys) :=
  match args with
  | [mp] =>
    '(ok, s) ← on_fs (vfs_umount mp) s;
    if (ok : bool) then Ok (0, newline (print mp (say "Unmounted " s))) else Ok (1, newline (say "Unmount failed" s))
  | _ => Ok (1, newline (say "Usage: umount <mountpoint>" s))
  end.

Definition cmd_df (s : sys) : outcome (Z * sys) :=
  let b := sb (filesys (fsys s)) in
  let kb n := u32 (n * SOLIXFS_BLOCK_SIZE) / 1024 in
  s ← print_dec (kb (total_blocks b))
        (say "SolixFS       " (newline (say "Filesystem    Size    Used    Available    Mount point" s)));
  s ← print_dec (kb (u32 (total_blocks b - free_blocks b))) (say "K    " s);
  s ← print_dec (kb (free_blocks b)) (say "K    " s);
  Ok (0, newline (say "K    /" s)).

(** The file system part of [cmd_test]; a read of -1 bytes puts the terminator
    before the buffer. *)
Definition test_files (s : sys) : outcome sys :=
  let path := bytes_of "/test_file" in
  let data := bytes_of "Hello, SolixOS!" in
  '(fd, s) ← on_fs (vfs_open new_vnode path (Z.lor O_CREAT O_WRONLY)) s;
  match fd with
  | None => Ok s
  | Some fd =>
    '(_, s) ← on_fs (vfs_write (Z.of_nat fd) data) s;
    let s := set_fsys (vfs_close (Z.of_nat fd) (fsys s)).2 s in
    '(fd, s) ← on_fs (vfs_open new_vnode path O_RDONLY) s;
    match fd with
    | None => Ok s
    | Some fd =>
      '(r, s) ← on_fs (vfs_read (Z.of_nat fd) 31) s;
      match r with
      | None => Fault
      | Some b =>
        let s := set_fsys (vfs_close (Z.of_nat fd) (fsys s)).2 s in
        let s := newline (say (if bool_decide (c_string b = data) then "[+] Filesystem test passed"
                               else "[-] Filesystem test failed") s) in
        '(_, s) ← on_fs (vfs_unlink path) s; Ok s
      end
    end
  end.

Definition cmd_test (s : sys) : outcome (Z * sys) :=
  let s := newline (say "Running system tests..." s) in
  '(p1, s) ← on_kheap (kmalloc 1024) s;
  '(p2, s) ← on_kheap (kmalloc 2048) s;
  '(p3, s) ← on_kheap (kmalloc 4096) s;
  let ok := negb (p1 =? NULL) && negb (p2 =? NULL) && negb (p3 =? NULL) in
  let s := newline (say (if ok then "[+] Memory allocation test passed" else "[-] Memory allocation test failed") s) in
  '(_, s) ← on_kheap (kfree p1) s;
  '(_, s) ← on_kheap (kfree p2) s;
  '(_, s) ← on_kheap (kfree p3) s;
  s ← test_files s;
  let start := timer_ticks s in
  s ← wait_ticks 10 s;
  let s := newline (say (if 10 <=? u32 (timer_ticks s - start) then "[+] Timer test passed" else "[-] Timer test failed") s) in
  Ok (0, newline (say "System tests completed" s)).

(** ** Dispatch *)
Definition run (b : builtin) (args : list bytes) (stack : bytes) (s : sys) : outcome (Z * sys) :=
  match b with
  | CmdHelp => cmd_help s
  | CmdClear => cmd_clear s
  | CmdLs => cmd_ls args s
  | CmdCd => cmd_cd args s
  | CmdPwd => cmd_pwd s
  | CmdCat => cmd_cat args s
  | CmdEcho => cmd_echo args s
  | CmdMkdir => cmd_mkdir args stack s
  | CmdTouch => cmd_touch args s
  | CmdRm => cmd_rm args s
  | CmdPs => cmd_ps s
  | CmdKill => cmd_kill args s
  | CmdReboot => cmd_reboot s
  | CmdHalt => cmd_halt s
  | CmdMeminfo => cmd_meminfo s
  | CmdMount => cmd_mount args s
  | CmdUmount => cmd_umount args s
  | CmdDf => cmd_df s
  | CmdTest => cmd_test s
  end.

Fixpoint find_command (l : list command) (name : bytes) : option builtin :=
  match l with
  | [] => None
  | c :: l => if bool_decide (cname c = name) then Some (func c) else find_command l name
  end.

Definition shell_execute (argv : list bytes) (stack : bytes) (s : sys) : outcome sys :=
  match argv with
  | [] => Fault
  | name :: args =>
    match find_command (commands s) name with
    | Some b => '(_, s) ← run b args stack s; Ok s
    | None => Ok (newline (print name (say "Command not found: " s)))
    end
  end.

(** What [shell_start] does before its loop, and one round of the loop; [None]
    when the input ends inside a line. *)
Definition shell_begin (s : sys) : outcome sys :=
  let s := newline (newline (say "Type 'help' for available commands" (newline (say "SolixOS Shell v1.0" s)))) in
  register_all builtins s.

Definition shell_round (input stack : bytes) (s : sys) : outcome (option (bytes * sys)) :=
  let s := shell_prompt s in
  match shell_readline input (scr s) with
  | None => Ok None
  | Some (line, input, x) =>
    let s := set_scr x s in
    if (length line =? 0)%nat then Ok (Some (input, s))
    else
      match shell_parse line with
      | [] => Ok (Some (input, s))
      | argv => s ← shell_execute argv stack s; Ok (Some (input, s))
      end
  end.
End Shell.
