(* ===== verification/ShellSpec.v ===== *)
(** * Correctness of the shell

    Parsing agrees with splitting at the blanks, a typed line is read and run
    as it was typed, and the working directory is always a normalised absolute
    path that fits its array. *)
From S2P Require Import Prelude Screen CString Heap Frames Keyboard Process Solixfs Vfs Shell.

(** ** Parsing *)

Lemma parse_args_words n : ∀ line, parse_args n line = take n (words is_delim line).
Proof.
  induction n as [| n IH]; intros line; [done |]. cbn [parse_args].
  pose proof (strtok_words is_delim line) as H. destruct (strtok is_delim line) as [[t rest] |]; rewrite H; cbn [take]; [| done].
  by rewrite IH.
Qed.

(** [shell_parse] gives the first sixteen of the words of the line, the
    non-empty pieces between blanks: each is non-empty and free of blanks, and
    words joined by blanks are parsed back to themselves. *)
Theorem shell_parse_words line :
  shell_parse line = take MAX_ARGS (words is_delim line) ∧
  Forall (is_word is_delim) (shell_parse line) ∧ (length (shell_parse line) <= 16)%nat ∧
  shell_parse (unwords 32 (shell_parse line)) = shell_parse line.
Proof.
  unfold shell_parse. rewrite !parse_args_words.
  assert (Forall (is_word is_delim) (take MAX_ARGS (words is_delim line))) as H by apply Forall_take, words_are_words.
  split_and!; [done | done | rewrite length_take; unfold MAX_ARGS; lia |].
  rewrite words_unwords by done. by rewrite take_take, Nat.min_id.
Qed.

(** ** Reading a line *)
Definition printable (c : Z) : Prop := 32 <= c < 127.

Lemma printable_key c : is_u8 c → (32 <=? schar c) && (schar c <? 127) = true ↔ printable c.
Proof.
  unfold is_u8, printable, schar. intros Hc. destruct (Z.ltb_spec c 128);
    rewrite andb_true_iff, Z.leb_le, Z.ltb_lt; lia.
Qed.

(** Every key but Enter is consumed: the characters typed so far stay
    printable and fit the array. *)
Lemma readline_reads keys rest : Forall is_u8 keys → KEY_ENTER ∉ keys → ∀ typed s,
  Forall printable typed → (length typed <= 255)%nat →
  ∃ line s', readline (keys ++ KEY_ENTER :: rest) typed s = Some (line, rest, s') ∧
    (length line <= 255)%nat ∧ Forall printable line.
Proof.
  induction 1 as [| c keys Hc _ IH]; intros Hk typed s Ht Hl; cbn [app readline].
  - change (KEY_ENTER =? KEY_ENTER) with true. eexists _, _. split; [reflexivity |].
    rewrite length_rev. split; [done | by apply Forall_rev].
  - apply not_elem_of_cons in Hk as [Hne Hk].
    destruct (Z.eqb_spec c KEY_ENTER); [done |]. destruct (Z.eqb_spec c KEY_BACKSPACE).
    { destruct Ht as [| d typed Hd Ht]; [by apply IH |]. apply IH; [done.. | cbn in Hl; lia]. }
    destruct (_ && _ && _)%bool eqn:E; [| by apply IH].
    apply andb_prop in E as [Ep El%Z.ltb_lt]. unfold MAX_CMD_LEN in El.
    apply IH; [done | constructor; [by apply printable_key | done] | cbn; lia].
Qed.

Lemma readline_typed keys rest : Forall printable keys → ∀ typed s,
  (length typed + length keys <= 255)%nat →
  readline (keys ++ KEY_ENTER :: rest) typed s =
  Some (rev typed ++ keys, rest, screen_print (keys ++ [KEY_ENTER]) s).
Proof.
  induction 1 as [| c keys Hc _ IH]; intros typed s Hl; cbn [app readline screen_print].
  - change (KEY_ENTER =? KEY_ENTER) with true. by rewrite app_nil_r.
  - cbn in Hl. unfold printable in Hc.
    destruct (Z.eqb_spec c KEY_ENTER) as [-> |]; [unfold KEY_ENTER in Hc; lia |].
    destruct (Z.eqb_spec c KEY_BACKSPACE) as [-> |]; [unfold KEY_BACKSPACE in Hc; lia |].
    rewrite (proj2 (printable_key c ltac:(unfold is_u8; lia)) Hc).
    destruct (Z.ltb_spec (Z.of_nat (length typed)) (MAX_CMD_LEN - 1)) as [_ | Hx];
      [| unfold MAX_CMD_LEN in Hx; lia].
    cbn [andb]. rewrite IH by (cbn; lia). cbn [rev]. by rewrite <- app_assoc.
Qed.

(** [shell_readline] returns when Enter is typed, whatever the keys before
    it: the line has at most 255 characters, all printable, so it fits
    [command_line] with its terminator, and the keys after Enter stay for the
    next line; printable keys that fit are returned as typed and echoed. *)
Theorem shell_readline_bounded keys rest s :
  Forall is_u8 keys → KEY_ENTER ∉ keys →
  ∃ line s', shell_readline (keys ++ KEY_ENTER :: rest) s = Some (line, rest, s') ∧
    (length line <= 255)%nat ∧ Forall printable line ∧
    (Forall printable keys → (length keys <= 255)%nat → line = keys ∧ s' = screen_print (keys ++ [KEY_ENTER]) s).
Proof.
  intros Hu Hk. destruct (readline_reads keys rest Hu Hk [] s) as (line & s' & H & Hl & Hp); [constructor | cbn; lia |].
  exists line, s'. repeat split; [done.. | |]; unfold shell_readline in H; rewrite readline_typed in H by done; by simplify_eq.
Qed.

(** ** Normalised paths *)
Fixpoint double_slash (p : bytes) : bool :=
  match p with
  | [] => false
  | c :: rest => ((c =? SLASH) && bool_decide (head rest = Some SLASH)) || double_slash rest
  end.

Lemma squeeze_head p : head (squeeze p) = head p.
Proof.
  induction p as [| c p IH]; [done |]. cbn [squeeze]. destruct (Z.eqb_spec c SLASH) as [-> |]; [| done].
  case_bool_decide as H; cbn [andb]; [| done]. by rewrite IH.
Qed.

Lemma squeeze_normal p : double_slash (squeeze p) = false.
Proof.
  induction p as [| c p IH]; [done |]. cbn [squeeze].
  destruct ((c =? SLASH) && bool_decide (head p = Some SLASH)) eqn:E; [done |].
  cbn [double_slash]. by rewrite squeeze_head, E, IH.
Qed.

Lemma squeeze_id p : double_slash p = false → squeeze p = p.
Proof.
  induction p as [| c p IH]; [done |]. cbn [double_slash squeeze].
  intros [E H]%orb_false_iff. by rewrite E, IH.
Qed.

Lemma squeeze_length p : (length (squeeze p) <= length p)%nat.
Proof. induction p as [| c p IH]; [done |]. cbn [squeeze]. case_match; cbn; lia. Qed.

(** A working directory: absolute, normalised, within its array. *)
Definition dir_ok (d : bytes) : Prop := head d = Some SLASH ∧ double_slash d = false ∧ (length d < MAX_PATH)%nat.

Lemma make_path_ok d arg p : dir_ok d → make_path d arg = Ok p → dir_ok (squeeze p).
Proof.
  intros (Hh & _ & _). unfold make_path. destruct (Nat.leb_spec MAX_PATH (length (join_path d arg))); [done |].
  intros [= <-]. repeat split; [| apply squeeze_normal | pose proof (squeeze_length (join_path d arg)); lia].
  rewrite squeeze_head. unfold join_path. case_bool_decide; [done |]. destruct d; [done |]. by case_bool_decide.
Qed.

Section Invariant.
Context {D : Type} `{!Disk D}.
Context (new_vnode : nat → option Z).
Context (vfs_mount : bytes → bytes → cmd (vfs D) bool).
Context (vfs_umount vfs_unlink : bytes → cmd (vfs D) bool).
Notation sys := (sys D).
Implicit Types s : sys.

(** The variables of the shell itself, which the other components leave
    alone. *)
Definition shell_vars (s : sys) : bytes * list command := (current_dir s, commands s).

Lemma on_fs_vars {A} (c : cmd (vfs D) A) s a s' : on_fs c s = Ok (a, s') → shell_vars s' = shell_vars s.
Proof. unfold on_fs. intros H. apply outcome_bind_ok in H as ([a' x] & _ & H). by injection H as _ <-. Qed.

Lemma on_kheap_vars {A} (c : cmd heap_state A) s a s' : on_kheap c s = Ok (a, s') → shell_vars s' = shell_vars s.
Proof. unfold on_kheap. intros H. apply outcome_bind_ok in H as ([a' x] & _ & H). by injection H as _ <-. Qed.

Lemma print_dec_vars v s s' : print_dec v s = Ok s' → shell_vars s' = shell_vars s.
Proof. unfold print_dec. intros H. apply outcome_bind_ok in H as ([a' x] & _ & H). by injection H as <-. Qed.

Lemma wait_ticks_vars n s s' : wait_ticks n s = Ok s' → shell_vars s' = shell_vars s.
Proof. unfold wait_ticks. case_match; [| done]. by intros [= <-]. Qed.

Lemma help_lines_vars l : ∀ s, shell_vars (help_lines l s) = shell_vars s.
Proof. induction l as [| c l IH]; intros s; [done |]. cbn [help_lines]. by rewrite IH. Qed.

Lemma echo_args_vars args : ∀ first s, shell_vars (echo_args first args s) = shell_vars s.
Proof. induction args as [| a args IH]; intros first s; [done |]. cbn [echo_args]. rewrite IH. by destruct first. Qed.

Lemma ps_lines_vars l : ∀ s s', ps_lines l s = Ok s' → shell_vars s' = shell_vars s.
Proof.
  induction l as [| p l IH]; intros s s'; cbn [ps_lines]; [by intros [= <-] |].
  destruct (decide _); [by apply IH |]. intros (s1 & H1%print_dec_vars & H)%outcome_bind_ok.
  apply outcome_bind_ok in H as (s2 & H2%print_dec_vars & H%IH).
  etrans; [exact H |]. etrans; [exact H2 |]. exact H1.
Qed.

Lemma ls_entries_vars n d path : ∀ j s s', ls_entries new_vnode n j d path s = Ok s' → shell_vars s' = shell_vars s.
Proof.
  induction n as [| n IH]; intros j s s'; cbn [ls_entries]; [by intros [= <-] |].
  destruct (_ =? 0); [by apply IH |]. destruct (_ <=? _)%nat; [done |].
  intros ([st s1] & H1%on_fs_vars & H%IH)%outcome_bind_ok. etrans; [exact H |].
  etrans; [| exact H1]. destruct st as [i |]; [by destruct (_ =? _) | done].
Qed.

Lemma test_files_vars s s' : test_files new_vnode vfs_unlink s = Ok s' → shell_vars s' = shell_vars s.
Proof.
  unfold test_files. intros ([[fd |] s1] & H1%on_fs_vars & H)%outcome_bind_ok; [| by injection H as <-].
  apply outcome_bind_ok in H as ([r s2] & H2%on_fs_vars & H).
  apply outcome_bind_ok in H as ([[fd' |] s3] & H3%on_fs_vars & H);
    [| injection H as <-; rewrite H3; etrans; [exact H2 | exact H1]].
  apply outcome_bind_ok in H as ([[b |] s4] & H4%on_fs_vars & H); [| done].
  apply outcome_bind_ok in H as ([u s5] & H5%on_fs_vars & H). injection H as <-.
  rewrite H5. etrans; [| exact H1]. etrans; [| exact H2]. etrans; [| exact H3]. exact H4.
Qed.

(** Opens a command that returned step by step, with what each step says about
    the variables, and compares. *)
Ltac vars_steps :=
  repeat match goal with
  | H : mbind _ _ = Ok _ |- _ =>
    let x := fresh "x" in
    apply outcome_bind_ok in H as (x & ? & H); try match type of x with prod _ _ => destruct x end
  | H : on_fs _ _ = Ok _ |- _ => apply on_fs_vars in H
  | H : on_kheap _ _ = Ok _ |- _ => apply on_kheap_vars in H
  | H : print_dec _ _ = Ok _ |- _ => apply print_dec_vars in H
  | H : wait_ticks _ _ = Ok _ |- _ => apply wait_ticks_vars in H
  | H : ps_lines _ _ = Ok _ |- _ => apply ps_lines_vars in H
  | H : ls_entries _ _ _ _ _ _ = Ok _ |- _ => apply ls_entries_vars in H
  | H : test_files _ _ _ = Ok _ |- _ => apply test_files_vars in H
  | H : Ok _ = Ok _ |- _ => injection H as H; try subst
  | H : (if ?b then _ else _) = Ok _ |- _ => destruct b
  | H : match ?x with _ => _ end = Ok _ |- _ => destruct x; try discriminate H
  end.
Ltac vars_eq :=
  unfold shell_vars, newline, say, print, set_scr, set_fsys, set_procs, set_ticks in *;
  cbn [current_dir commands] in *;
  repeat match goal with |- context [match ?x with _ => _ end] => destruct x; cbn [current_dir commands] in * end;
  congruence.
Ltac vars_cmd c := unfold c; intros; vars_steps; vars_eq.

Lemma cmd_help_vars s r s' : cmd_help s = Ok (r, s') → shell_vars s' = shell_vars s.
Proof. unfold cmd_help. intros [= _ <-]. by rewrite help_lines_vars. Qed.
Lemma cmd_echo_vars args s r s' : cmd_echo args s = Ok (r, s') → shell_vars s' = shell_vars s.
Proof.
  unfold cmd_echo. intros [= _ <-]. change (shell_vars (newline ?x)) with (shell_vars x). apply echo_args_vars.
Qed.
Lemma cmd_ls_vars args s r s' : cmd_ls new_vnode args s = Ok (r, s') → shell_vars s' = shell_vars s.
Proof. vars_cmd @cmd_ls. Qed.
Lemma cmd_cat_vars args s r s' : cmd_cat new_vnode args s = Ok (r, s') → shell_vars s' = shell_vars s.
Proof. vars_cmd @cmd_cat. Qed.
Lemma cmd_mkdir_vars args stack s r s' : cmd_mkdir new_vnode args stack s = Ok (r, s') → shell_vars s' = shell_vars s.
Proof. vars_cmd @cmd_mkdir. Qed.
Lemma cmd_touch_vars args s r s' : cmd_touch new_vnode args s = Ok (r, s') → shell_vars s' = shell_vars s.
Proof. vars_cmd @cmd_touch. Qed.
Lemma cmd_rm_vars args s r s' : cmd_rm vfs_unlink args s = Ok (r, s') → shell_vars s' = shell_vars s.
Proof. vars_cmd @cmd_rm. Qed.
Lemma cmd_ps_vars s r s' : cmd_ps s = Ok (r, s') → shell_vars s' = shell_vars s.
Proof. vars_cmd @cmd_ps. Qed.
Lemma cmd_kill_vars args s r s' : cmd_kill args s = Ok (r, s') → shell_vars s' = shell_vars s.
Proof. vars_cmd @cmd_kill. Qed.
Lemma cmd_meminfo_vars s r s' : cmd_meminfo s = Ok (r, s') → shell_vars s' = shell_vars s.
Proof. vars_cmd @cmd_meminfo. Qed.
Lemma cmd_mount_vars args s r s' : cmd_mount vfs_mount args s = Ok (r, s') → shell_vars s' = shell_vars s.
Proof. vars_cmd @cmd_mount. Qed.
Lemma cmd_umount_vars args s r s' : cmd_umount vfs_umount args s = Ok (r, s') → shell_vars s' = shell_vars s.
Proof. vars_cmd @cmd_umount. Qed.
Lemma cmd_df_vars s r s' : cmd_df s = Ok (r, s') → shell_vars s' = shell_vars s.
Proof. vars_cmd @cmd_df. Qed.
Lemma cmd_test_vars s r s' : cmd_test new_vnode vfs_unlink s = Ok (r, s') → shell_vars s' = shell_vars s.
Proof. vars_cmd @cmd_test. Qed.
Lemma cmd_cd_vars args s r s' : cmd_cd new_vnode args s = Ok (r, s') → dir_ok (current_dir s) →
  commands s' = commands s ∧ dir_ok (current_dir s').
Proof.
  unfold cmd_cd. intros H Hd. destruct args as [| arg [| ? ?]]; [by injection H as _ <- | | by injection H as _ <-].
  apply outcome_bind_ok in H as (p & Hp & H). apply outcome_bind_ok in H as ([st s1] & [= H1 H2]%on_fs_vars & H).
  destruct (match st with Some _ => _ | None => _ end); injection H as _ <-.
  - split; [exact H2 | exact (make_path_ok _ _ _ Hd Hp)].
  - split; [exact H2 |]. change (dir_ok (current_dir s1)). by rewrite H1.
Qed.

Lemma run_vars b args stack s r s' :
  run new_vnode vfs_mount vfs_umount vfs_unlink b args stack s = Ok (r, s') → dir_ok (current_dir s) →
  commands s' = commands s ∧ dir_ok (current_dir s').
Proof.
  intros H Hd. assert (shell_vars s' = shell_vars s ∨ b = CmdCd) as [[= -> ->] | ->]; [| done |].
  - destruct b; cbn [run] in H; auto; left.
    + by eapply cmd_help_vars.
    + unfold cmd_clear in H. by injection H as _ <-.
    + by eapply cmd_ls_vars.
    + unfold cmd_pwd in H. by injection H as _ <-.
    + by eapply cmd_cat_vars.
    + by eapply cmd_echo_vars.
    + by eapply cmd_mkdir_vars.
    + by eapply cmd_touch_vars.
    + by eapply cmd_rm_vars.
    + by eapply cmd_ps_vars.
    + by eapply cmd_kill_vars.
    + unfold cmd_reboot in H. by apply outcome_bind_ok in H as (? & _ & ?).
    + unfold cmd_halt in H. by apply outcome_bind_ok in H as (? & _ & ?).
    + by eapply cmd_meminfo_vars.
    + by eapply cmd_mount_vars.
    + by eapply cmd_umount_vars.
    + by eapply cmd_df_vars.
    + by eapply cmd_test_vars.
  - by eapply cmd_cd_vars.
Qed.

Lemma shell_execute_vars argv stack s s' :
  shell_execute new_vnode vfs_mount vfs_umount vfs_unlink argv stack s = Ok s' → dir_ok (current_dir s) →
  commands s' = commands s ∧ dir_ok (current_dir s').
Proof.
  unfold shell_execute. destruct argv as [| name args]; [done |].
  destruct (find_command (commands s) name) as [b |]; [| by intros [= <-]].
  intros ([r s1] & H & [= <-])%outcome_bind_ok. by eapply run_vars.
Qed.

Notation round := (shell_round new_vnode vfs_mount vfs_umount vfs_unlink).
Lemma shell_round_vars input stack s rest s' :
  round input stack s = Ok (Some (rest, s')) → dir_ok (current_dir s) →
  commands s' = commands s ∧ dir_ok (current_dir s').
Proof.
  unfold shell_round. intros H Hd. destruct (shell_readline _ _) as [[[line input'] x] |]; [| done].
  destruct (length line =? 0)%nat; [by injection H as _ <- |].
  destruct (shell_parse line) as [| name args] eqn:E; [by injection H as _ <- |].
  apply outcome_bind_ok in H as (s1 & H & [= _ <-]). by apply shell_execute_vars in H.
Qed.

(** ** Sessions *)
Definition registered (e : string * builtin * string) : command :=
  let '(n, f, d) := e in Command (bytes_of n) f (bytes_of d).
Definition builtin_commands : list command := map registered builtins.

Definition entry_fits (e : string * builtin * string) : bool :=
  let '(n, _, d) := e in (length (bytes_of n) <? 32)%nat && (length (bytes_of d) <? 128)%nat.

Lemma register_all_ok l : ∀ s, (length (commands s) + length l <= 64)%nat → forallb entry_fits l = true →
  register_all l s = Ok (set_commands (commands s ++ map registered l) s).
Proof.
  induction l as [| [[n f] d] l IH]; intros s Hl Hf.
  - cbn. rewrite app_nil_r. by destruct s.
  - cbn [forallb entry_fits] in Hf. apply andb_prop in Hf as [[Hn%Nat.ltb_lt Hd%Nat.ltb_lt]%andb_prop Hf].
    cbn [length] in Hl. cbn [register_all]. unfold shell_register_command.
    rewrite (proj2 (Nat.ltb_lt _ _)) by lia. rewrite !(proj2 (Nat.leb_gt _ _)) by lia. cbn [orb].
    change (mbind ?g (Ok ?x)) with (g x). cbv beta. rewrite IH; [| cbn [set_commands commands]; rewrite length_app; cbn; lia | done].
    cbn [map registered set_commands commands]. by rewrite <- app_assoc.
Qed.

Lemma shell_begin_registers s : commands s = [] →
  ∃ s', shell_begin s = Ok s' ∧ commands s' = builtin_commands ∧ current_dir s' = current_dir s.
Proof.
  intros H. unfold shell_begin. rewrite register_all_ok.
  - eexists. split; [reflexivity |]. split; [| reflexivity].
    change (commands s ++ builtin_commands = builtin_commands). by rewrite H.
  - change (length (commands s) + 19 <= 64)%nat. rewrite H. cbn. lia.
  - vm_compute. reflexivity.
Qed.

(** The states of the shell between two rounds: a round starts in one of them,
    after the other components have changed as they like. *)
Inductive session : sys → Prop :=
| session_begin s s' : commands s = [] → current_dir s = [SLASH] → shell_begin s = Ok s' → session s'
| session_other s s' : session s → shell_vars s' = shell_vars s → session s'
| session_round input stack s rest s' : session s → round input stack s = Ok (Some (rest, s')) → session s'.


(** C29. A command line typed at the prompt, of at most 255 printable characters
    and sixteen words, runs the command registered under its first word with
    the other words as arguments, on the screen that shows the prompt and the
    line, and leaves the keys typed after it for the next round. *)
Theorem shell_round_runs s line rest stack name args b :
  Forall printable line → (length line <= 255)%nat → words is_delim line = name :: args → (length args <= 15)%nat →
  find_command (commands s) name = Some b →
  round (line ++ KEY_ENTER :: rest) stack s =
  ('(_, s') ← run new_vnode vfs_mount vfs_umount vfs_unlink b args stack
                (print (line ++ [KEY_ENTER]) (shell_prompt s));
   Ok (Some (rest, s'))).
Proof.
  intros Hp Hl Hw Ha Hb. unfold shell_round, shell_readline. rewrite readline_typed by done.
  cbn [rev app]. destruct (Nat.eqb_spec (length line) 0) as [H0 |].
  { apply nil_length_inv in H0. by subst line. }
  unfold shell_parse. rewrite parse_args_words, Hw, take_ge by (unfold MAX_ARGS; cbn; lia).
  unfold shell_execute. change (commands (set_scr _ _)) with (commands s). rewrite Hb.
  unfold print. by destruct (run _ _ _ _ _ _ _ _) as [[r s'] | | |].
Qed.
End Invariant.
