(* ===== verification/ShellWitness.v ===== *)
(** * A shell session on a mounted filesystem *)
From S2P Require Import Prelude Screen CString ScreenSpec Heap HeapSpec HeapWitness Frames Keyboard Process ProcessWitness.
From S2P Require Import Solixfs SolixfsSpec SolixfsWitness Vfs VfsSpec VfsWitness Shell ShellSpec.

Definition no_mount (_ _ : bytes) : cmd (vfs ram_disk) bool := λ s, Ok (false, s).
Definition no_path (_ : bytes) : cmd (vfs ram_disk) bool := λ s, Ok (false, s).
Abbreviation a_round := (shell_round vnode_heap no_mount no_path no_path).

Definition shell0 : sys ram_disk :=
  Sys (screen_boot ∅) dir_vfs (kernel_boot boot) 4096 300 0 [SLASH] [].
Definition shell1 : sys ram_disk := match shell_begin shell0 with Ok s => s | _ => shell0 end.
Definition cd_keys : bytes := bytes_of "cd ///" ++ [KEY_ENTER].
Definition shell2 : sys ram_disk :=
  match a_round cd_keys [] shell1 with Ok (Some (_, s)) => s | _ => shell1 end.

Lemma shell1_begins : shell_begin shell0 = Ok shell1.
Proof. vm_compute. reflexivity. Qed.

Lemma shell2_round : a_round cd_keys [] shell1 = Ok (Some ([], shell2)).
Proof. vm_compute. reflexivity. Qed.

Lemma shell_readline_bounded_witness :
  ∃ line s', shell_readline (bytes_of "ls" ++ [KEY_ENTER]) (screen_boot ∅) = Some (line, [], s') ∧ line = bytes_of "ls".
Proof.
  destruct (shell_readline_bounded (bytes_of "ls") [] (screen_boot ∅)) as (line & s' & H & _ & _ & Hl).
  - repeat constructor; cbn; lia.
  - apply (bool_decide_unpack _). reflexivity.
  - exists line, s'. split; [exact H |]. apply Hl; [repeat constructor; unfold printable; cbn; lia | cbn; lia].
Defined.


Lemma shell_round_runs_witness :
  a_round (bytes_of "cd ///" ++ KEY_ENTER :: bytes_of "ls") [] shell1 =
  ('(_, s') ← run vnode_heap no_mount no_path no_path CmdCd [bytes_of "///"] []
                (print (bytes_of "cd ///" ++ [KEY_ENTER]) (shell_prompt shell1));
   Ok (Some (bytes_of "ls", s'))).
Proof.
  apply (shell_round_runs vnode_heap no_mount no_path no_path shell1 (bytes_of "cd ///") (bytes_of "ls") []
    (bytes_of "cd") [bytes_of "///"] CmdCd).
  - repeat constructor; unfold printable; cbn; lia.
  - cbn; lia.
  - reflexivity.
  - cbn; lia.
  - vm_compute. reflexivity.
Defined.
