(* ===== verification/Apps.v ===== *)
(** * What the applications share (src/apps, src/include/vfs.h, src/include/net.h)

    The services an application calls: the filesystem ([FileOps], which the
    virtual filesystem implements), TCP ([TcpApi]: net.h declares the functions,
    no source defines them), the network stack with the screen, the heap and the
    clock it contains; and the request line of the HTTP clients. *)
From S2P Require Import Prelude Screen ScreenSpec CString Heap Keyboard Net Solixfs Vfs.

(** ** Services *)

(** The calls of vfs.h; [None] is a result of -1.  [vfs_mkdir] reads the clock. *)
Class FileOps (F : Type) := {
  f_open : bytes → Z → cmd F (option Z);
  f_read : Z → Z → cmd F (option bytes);
  f_write : Z → bytes → cmd F (option Z);
  f_close : Z → F → F;
  f_mkdir : bytes → Z → cmd F Z;
  f_unlink : bytes → cmd F bool;
}.

(** The calls of a connection: a result of 0 is success; [tcp_receive] gives at
    most as many bytes as asked for, none when the connection ended. *)
Class TcpApi (T : Type) := {
  tcp_connect : Z → Z → cmd T Z;
  tcp_send : bytes → cmd T Z;
  tcp_receive : Z → cmd T bytes;
}.

(** The virtual filesystem of src/fs/vfs.c.  [stack] is what the array of
    directory entries of [vfs_mkdir] contains; vfs.h declares [vfs_unlink]
    without a definition. *)
Section Implementation.
Context {D : Type} `{!Disk D}.
Context (new_vnode : nat → option Z) (stack : bytes → bytes) (vfs_unlink : bytes → cmd (vfs D) bool).

Definition open_file (path : bytes) (fl : Z) : cmd (vfs D) (option Z) := λ s,
  '(r, s) ← vfs_open new_vnode path fl s;
  Ok (match r with Some fd => Some (Z.of_nat fd) | None => None end, s).

#[local] Instance vfs_files : FileOps (vfs D) := {|
  f_open := open_file;
  f_read := vfs_read;
  f_write := vfs_write;
  f_close fd := λ s, (vfs_close fd s).2;
  f_mkdir path ticks := vfs_mkdir new_vnode path ticks (stack path);
  f_unlink := vfs_unlink;
|}.
End Implementation.

(** ** State *)
Record env (F T : Type) := Env { e_net : net; e_files : F; e_tcp : T }.
Arguments Env {F T}.
Arguments e_net {F T}.
Arguments e_files {F T}.
Arguments e_tcp {F T}.

Section Env.
Context {F T : Type} `{!FileOps F} `{!TcpApi T}.
Notation env := (env F T).

Definition set_net (x : net) (e : env) : env := Env x (e_files e) (e_tcp e).
Definition on_net (f : net → net) (e : env) : env := set_net (f (e_net e)) e.
Definition a_print (str : bytes) : env → env := on_net (net_print str).
Definition a_say (str : string) : env → env := a_print (bytes_of str).
Definition a_newline : env → env := a_print [10].
Definition set_net_screen (x : screen) (n : net) : net :=
  Net (devices n) (arp_cache n) (sockets n) (ticks n) (net_heap n) (wire n) x.
Definition set_ticks (x : Z) (n : net) : net :=
  Net (devices n) (arp_cache n) (sockets n) x (net_heap n) (wire n) (net_screen n).
Definition on_screen (f : screen → screen) (e : env) : env :=
  on_net (λ n, set_net_screen (f (net_screen n)) n) e.
Definition a_dec (v : Z) (e : env) : outcome env :=
  '(_, x) ← screen_print_dec v (net_screen (e_net e)); Ok (on_screen (λ _, x) e).
Definition a_kmalloc (size : Z) : cmd env Z := λ e, '(p, n) ← net_kmalloc size (e_net e); Ok (p, set_net n e).
Definition a_kfree (p : Z) : cmd env unit := λ e, '(_, n) ← net_kfree p (e_net e); Ok (tt, set_net n e).
Definition a_file {A} (c : cmd F A) : cmd env A := λ e,
  '(a, f) ← c (e_files e); Ok (a, Env (e_net e) f (e_tcp e)).
Definition a_close (fd : Z) (e : env) : env := Env (e_net e) (f_close fd (e_files e)) (e_tcp e).
Definition a_tcp {A} (c : cmd T A) : cmd env A := λ e,
  '(a, t) ← c (e_tcp e); Ok (a, Env (e_net e) (e_files e) t).
(** [timer_wait]: the clock goes on meanwhile. *)
Definition a_wait (n : Z) (e : env) : outcome env :=
  let t := ticks (e_net e) in
  match timer_wait (S (Z.to_nat n)) t n t with
  | Some t => Ok (on_net (set_ticks t) e)
  | None => Diverge
  end.

(** The common beginning of the HTTP clients: the connection to port 80 from
    the device eth0, which is dereferenced without a check, and the request. *)
Definition crlf : bytes := [13; 10].
Definition http_connect (ip : Z) : cmd env Z := λ e,
  match net_get_device (bytes_of "eth0") (e_net e) with
  | None => Fault
  | Some _ => a_tcp (tcp_connect ip 80) e
  end.
Definition http_get (path host : bytes) (more : list bytes) : bytes :=
  bytes_of "GET " ++ path ++ bytes_of " HTTP/1.1" ++ crlf ++
  bytes_of "Host: " ++ host ++ crlf ++ bytes_of "Connection: close" ++ crlf ++
  concat (map (λ l, l ++ crlf) more) ++ crlf.

(** ** curl (src/apps/net/curl.c) *)
Definition http_prefix : bytes := bytes_of "http://".

(** Host and path, in arrays of 256 and 512 bytes. *)
Definition curl_target (url : bytes) : outcome (bytes * bytes) :=
  let u := drop 7 url in
  let '(host, path) := match strchr 47 u with
                       | Some slash => (take (length u - length slash) u, slash)
                       | None => (u, [47])
                       end in
  if (256 <=? length host)%nat || (512 <=? length path)%nat then Fault else Ok (host, path).

(** The responses, 1023 bytes at a time, at most [fuel] of them. *)
Fixpoint curl_receive (fuel : nat) (total : Z) (e : env) : outcome (Z * env) :=
  match fuel with
  | O => Diverge
  | S fuel =>
    '(b, e) ← a_tcp (tcp_receive 1023) e;
    if (length b =? 0)%nat then Ok (total, e) else
    let e := a_print (c_string b) e in
    let total := total + Z.of_nat (length b) in
    if (length b <? 1023)%nat then Ok (total, e) else curl_receive fuel total e
  end.

Definition curl_main (fuel : nat) (args : list bytes) (e : env) : outcome (Z * env) :=
  match args with
  | [url] =>
    if negb (starts http_prefix url) then Ok (1, a_newline (a_say "Only HTTP URLs are supported" e)) else
    '(host, path) ← curl_target url;
    let host_ip := ip_aton host in
    if host_ip =? 0 then
      Ok (1, a_newline (a_say "Hostname resolution not supported, use IP address" e))
    else
      match net_get_device (bytes_of "eth0") (e_net e) with
      | None => Fault
      | Some _ =>
        let e := a_newline (a_say "..." (a_print host (a_say "Connecting to " e))) in
        '(r, e) ← a_tcp (tcp_connect host_ip 80) e;
        if negb (r =? 0) then Ok (1, a_newline (a_say "Connection failed" e)) else
        let request := http_get path host [] in
        if (1024 <=? length request)%nat then Fault else
        '(r, e) ← a_tcp (tcp_send request) e;
        if negb (r =? 0) then Ok (1, a_newline (a_say "Failed to send request" e)) else
        let e := a_newline (a_say "HTTP request sent, waiting for response..." e) in
        '(total, e) ← curl_receive fuel 0 e;
        e ← a_dec (u32 total) (a_say "Total received: " (a_newline e));
        Ok (0, a_newline (a_say " bytes" e))
      end
  | _ => Ok (1, a_newline (a_say "Usage: curl <url>" e))
  end.

(** ** ping (src/apps/net/ping.c); [transmit_op] is what the drivers' transmit
    operations return *)
Context (transmit_op : net_device → bytes → Z).
Fixpoint ping_rounds (n : nat) (ip : Z) (name : bytes) (e : env) : outcome env :=
  match n with
  | O => Ok e
  | S n =>
    let start_time := ticks (e_net e) in
    '(r, x) ← icmp_ping transmit_op ip (e_net e);
    let e := set_net x e in
    e ← (if r =? 0 then
           e ← a_dec (u32 (ticks (e_net e) - start_time)) (a_say ": time=" (a_print name (a_say "Reply from " e)));
           Ok (a_newline (a_say "ms" e))
         else Ok (a_newline (a_say "Request timed out" e)));
    e ← a_wait 100 e;
    ping_rounds n ip name e
  end.

Definition ping_main (args : list bytes) (e : env) : outcome (Z * env) :=
  match args with
  | [arg] =>
    let ip := ip_aton arg in
    if ip =? 0 then Ok (1, a_newline (a_say "Invalid IP address" e)) else
    let e := a_newline (a_say ")" (a_print arg (a_say " (" (a_print arg (a_say "PING " e))))) in
    e ← ping_rounds 4 ip arg e; Ok (0, e)
  | _ => Ok (1, a_newline (a_say "Usage: ping <ip_address>" e))
  end.
End Env.
