(* ===== verification/Pkg.v ===== *)
(** * The package manager (src/apps/pkg/pkg.c, src/include/pkg.h)

    Repositories with their package lists, the parser of the lists, searching,
    installing, removing and listing, on the services of [Apps].  [O_APPEND] is
    used by the code but defined by none of the headers it includes. *)
From S2P Require Import Prelude Screen ScreenSpec CString Heap Keyboard Net Solixfs Vfs Apps.

Definition PKG_MAX_NAME : nat := 64.
Definition PKG_MAX_VERSION : nat := 32.
Definition PKG_MAX_DESC : nat := 256.
Definition PKG_MAX_PATH : nat := 256.
Definition PKG_STATE_AVAILABLE : Z := 0.
Definition PKG_STATE_INSTALLED : Z := 1.
Definition PKG_STATE_UPGRADABLE : Z := 2.
Definition PKG_STATE_BROKEN : Z := 3.
Definition PKG_DB_PATH : bytes := bytes_of "/var/lib/pkg/packages.db".

(** [package_t]; its size is the sum of its arrays and integers. *)
Record package := Package {
  p_name : bytes;
  p_version : bytes;
  p_description : bytes;
  dependencies : list bytes;
  pfiles : list bytes;
  p_size : Z;
  installed_size : Z;
  p_state : Z;
  install_date : Z;
}.
#[export] Instance package_inhabited : Inhabited package := populate (Package [] [] [] [] [] 0 0 0 0).
Definition PACKAGE_SIZE : Z := 64 + 32 + 256 + 16 * 64 + 4 + 128 * 256 + 4 + 4 + 4 + 4 + 4.
Definition set_pstate (st date : Z) (p : package) : package :=
  Package (p_name p) (p_version p) (p_description p) (dependencies p) (pfiles p) (p_size p)
    (installed_size p) st date.

(** [pkg_repo_t]: [r_packages] is the address of the array, [contents] what the
    array holds, [num_packages] the number of entries in use. *)
Record pkg_repo := Repo {
  r_name : bytes;
  r_url : bytes;
  r_path : bytes;
  r_enabled : bool;
  r_packages : Z;
  contents : list package;
  num_packages : nat;
}.
#[export] Instance repo_inhabited : Inhabited pkg_repo := populate (Repo [] [] [] false 0 [] 0).

Record pkg_state (F T : Type) := PkgState { penv : env F T; repos : list pkg_repo; db_loaded : bool }.
Arguments PkgState {F T}.
Arguments penv {F T}.
Arguments repos {F T}.
Arguments db_loaded {F T}.

(** ** Parsing a package list *)

(** [strncpy] of a token into a cleared array of [n] bytes. *)
Definition cut (n : nat) (token : bytes) : bytes := take (n - 1) token.
Definition blank (c : Z) : bool := c =? 32.
Definition newline (c : Z) : bool := c =? 10.

(** One line: name, version, size, description. *)
Definition parse_line (line : bytes) : outcome (option package) :=
  match strtok blank line with
  | None => Ok None
  | Some (name, rest) =>
    match strtok blank rest with
    | None => Ok None
    | Some (version, rest) =>
      match strtok blank rest with
      | None => Ok None
      | Some (size, rest) =>
        n ← atoi size;
        match strtok (λ _, false) rest with
        | None => Ok None
        | Some (desc, _) =>
          Ok (Some (Package (cut PKG_MAX_NAME name) (cut PKG_MAX_VERSION version) (cut PKG_MAX_DESC desc) [] []
                      (u32 n) 0 PKG_STATE_AVAILABLE 0))
        end
      end
    end
  end.

(** The lines of the text; at most [n] more packages. *)
Fixpoint parse_lines (n : nat) (lines : list bytes) : outcome (list package) :=
  match lines, n with
  | [], _ | _, O => Ok []
  | l :: lines, S n' =>
    if (0 <? length l)%nat && (length l <? 512)%nat then
      r ← parse_line l;
      match r with
      | Some p => ps ← parse_lines n' lines; Ok (p :: ps)
      | None => parse_lines n lines
      end
    else parse_lines n lines
  end.
Definition count_lines (text : bytes) : nat := length (filter (λ c, c = 10) text).
Definition parse_text (text : bytes) : outcome (list package) :=
  parse_lines (count_lines text) (pieces newline text).

(** ** Case-insensitive search *)
Fixpoint match_nocase (n h : bytes) : bool :=
  match n, h with
  | [], _ => true
  | c :: n, d :: h => (tolower d =? tolower c) && match_nocase n h
  | _ :: _, [] => false
  end.
Fixpoint strcasestr (needle haystack : bytes) : option bytes :=
  match needle, haystack with
  | [], _ => Some haystack
  | _, [] => None
  | _, _ :: rest => if match_nocase needle haystack then Some haystack else strcasestr needle rest
  end.

Definition pkg_state_to_string (st : Z) : string :=
  if st =? PKG_STATE_AVAILABLE then "Available"
  else if st =? PKG_STATE_INSTALLED then "Installed"
  else if st =? PKG_STATE_UPGRADABLE then "Upgradable"
  else if st =? PKG_STATE_BROKEN then "Broken"
  else "Unknown".

(** ** Looking for packages *)

(** The entries in use; entries are read through the address of the array. *)
Definition entries (r : pkg_repo) : outcome (list package) :=
  if (num_packages r =? 0)%nat then Ok [] else
  if r_packages r =? NULL then Fault else Ok (take (num_packages r) (contents r)).

Fixpoint find_entry (q : package → bool) (j : nat) (ps : list package) : option nat :=
  match ps with
  | [] => None
  | p :: ps => if q p then Some j else find_entry q (S j) ps
  end.
(** The first package with [q] in the repositories with [use]: where it is. *)
Fixpoint find_package (use : pkg_repo → bool) (q : package → bool) (i : nat) (rs : list pkg_repo)
  : outcome (option (nat * nat)) :=
  match rs with
  | [] => Ok None
  | r :: rs =>
    if use r then
      ps ← entries r;
      match find_entry q 0 ps with
      | Some j => Ok (Some (i, j))
      | None => find_package use q (S i) rs
      end
    else find_package use q (S i) rs
  end.
Definition any_repo (r : pkg_repo) : bool := true.
Definition named (name : bytes) (p : package) : bool := bool_decide (p_name p = name).
Definition installed (name : bytes) (p : package) : bool :=
  bool_decide (p_name p = name) && (p_state p =? PKG_STATE_INSTALLED).

Definition set_contents (ps : list package) (r : pkg_repo) : pkg_repo :=
  Repo (r_name r) (r_url r) (r_path r) (r_enabled r) (r_packages r) ps (num_packages r).
Definition set_array (a : Z) (ps : list package) (n : nat) (r : pkg_repo) : pkg_repo :=
  Repo (r_name r) (r_url r) (r_path r) (r_enabled r) a ps n.
Definition update_package (i j : nat) (f : package → package) (rs : list pkg_repo) : list pkg_repo :=
  alter (λ r, set_contents (alter f j (contents r)) r) i rs.

(** ** The target of a download: [sscanf(url, "http://%255[^/]%511[^\n]")] *)
Fixpoint scan_set (stop : Z) (n : nat) (s : bytes) : bytes * bytes :=
  match n, s with
  | S n, c :: s' => if c =? stop then ([], s) else let '(t, r) := scan_set stop n s' in (c :: t, r)
  | _, _ => ([], s)
  end.
Definition scan_url (url : bytes) : option (bytes * bytes) :=
  if negb (starts http_prefix url) then None else
  let '(host, rest) := scan_set 47 255 (drop 7 url) in
  let '(path, _) := scan_set 10 511 rest in
  if (length host =? 0)%nat || (length path =? 0)%nat then None else Some (host, path).

Section Pkg.
Context {F T : Type} `{!FileOps F} `{!TcpApi T}.
Variable O_APPEND : Z.
(** What the receive buffer on the stack contains. *)
Variable garbage : bytes.
Notation st := (pkg_state F T).

Definition on_env (f : env F T → env F T) (s : st) : st := PkgState (f (penv s)) (repos s) (db_loaded s).
Definition in_env {A} (c : cmd (env F T) A) : cmd st A := λ s,
  '(a, e) ← c (penv s); Ok (a, PkgState e (repos s) (db_loaded s)).
Definition set_repos (rs : list pkg_repo) (s : st) : st := PkgState (penv s) rs (db_loaded s).
Definition set_loaded (b : bool) (s : st) : st := PkgState (penv s) (repos s) b.
Definition p_print (x : bytes) : st → st := on_env (a_print x).
Definition p_say (x : string) : st → st := on_env (a_say x).
Definition p_line (x : string) (s : st) : st := p_print [10] (p_say x s).
Definition p_dec (v : Z) (s : st) : outcome st :=
  e ← a_dec v (penv s); Ok (on_env (λ _, e) s).
Definition p_file {A} (c : cmd F A) : cmd st A := in_env (a_file c).
Definition p_close (fd : Z) : st → st := on_env (a_close fd).
(** [vfs_mkdir], whose result is ignored. *)
Definition p_mkdir (path : bytes) (s : st) : outcome st :=
  '(_, s) ← p_file (f_mkdir path (ticks (e_net (penv s)))) s; Ok s.

(** ** Downloading *)

(** The rest of the response: each part is written through a descriptor of its
    own. *)
Fixpoint receive_rest (fuel : nat) (dest : bytes) (total : Z) (s : st) : outcome (Z * st) :=
  match fuel with
  | O => Diverge
  | S fuel =>
    '(b, s) ← in_env (a_tcp (tcp_receive 4096)) s;
    if (length b =? 0)%nat then Ok (total, s) else
    '(fd, s) ← p_file (f_open dest (Z.lor O_WRONLY O_APPEND)) s;
    match fd with
    | None => Ok (-1, s)
    | Some fd =>
      '(_, s) ← p_file (f_write fd b) s;
      receive_rest fuel dest (total + Z.of_nat (length b)) (p_close fd s)
    end
  end.

(** The headers: [strstr] looks at the whole buffer, which is not terminated
    after the bytes received. *)
Fixpoint skip_headers (fuel : nat) (buffer dest : bytes) (s : st) : outcome (Z * st) :=
  match fuel with
  | O => Diverge
  | S fuel =>
    '(b, s) ← in_env (a_tcp (tcp_receive 4096)) s;
    if (length b =? 0)%nat then Ok (-1, s) else
    let buffer := b ++ drop (length b) buffer in
    let text := c_string buffer in
    match strstr (crlf ++ crlf) text with
    | Some r =>
      let start := (length text - length r + 4)%nat in
      let body := drop start b in
      '(fd, s) ← p_file (f_open dest (Z.lor O_CREAT O_WRONLY)) s;
      match fd with
      | None => Ok (-1, s)
      | Some fd =>
        (* found after the bytes received: the length is negative *)
        if (length b <? start)%nat then Fault else
        '(_, s) ← p_file (f_write fd body) s;
        receive_rest fuel dest (Z.of_nat (length body)) (p_close fd s)
      end
    | None => if (length text =? length buffer)%nat then Fault else skip_headers fuel buffer dest s
    end
  end.

Definition pkg_download_file (fuel : nat) (url dest : bytes) : cmd st Z := λ s,
  match scan_url url with
  | None => Ok (-1, s)
  | Some (host, path) =>
    '(r, s) ← in_env (http_connect (ip_aton host)) s;
    if negb (r =? 0) then Ok (-1, s) else
    '(r, s) ← in_env (a_tcp (tcp_send (http_get path host []))) s;
    if negb (r =? 0) then Ok (-1, s) else
    skip_headers fuel garbage dest s
  end.

(** ** The database and the archives, which the code only touches *)
Definition pkg_db_load (s : st) : outcome (Z * st) :=
  if db_loaded s then Ok (0, s) else
  '(fd, s) ← p_file (f_open PKG_DB_PATH O_RDONLY) s;
  match fd with
  | None => Ok (0, p_line "Creating new package database" s)
  | Some fd => Ok (0, set_loaded true (p_close fd s))
  end.
Definition pkg_db_save (s : st) : outcome (Z * st) :=
  '(fd, s) ← p_file (f_open PKG_DB_PATH (Z.lor O_CREAT O_WRONLY)) s;
  match fd with
  | None => Ok (-1, s)
  | Some fd => Ok (0, p_close fd s)
  end.
Definition pkg_extract (archive_path dest_path : bytes) (s : st) : outcome (Z * st) :=
  let s := p_print [10] (p_print dest_path (p_say " to " (p_print archive_path (p_say "Extracting " s)))) in
  let dummy := dest_path ++ bytes_of "/dummy.txt" in
  if (PKG_MAX_PATH <=? length dummy)%nat then Fault else
  '(fd, s) ← p_file (f_open dummy (Z.lor O_CREAT O_WRONLY)) s;
  match fd with
  | None => Ok (0, s)
  | Some fd =>
    '(_, s) ← p_file (f_write fd (bytes_of "Package file")) s;
    Ok (0, p_close fd s)
  end.
Definition pkg_install_from_directory (dir_path : bytes) (s : st) : Z * st :=
  (0, p_print [10] (p_print dir_path (p_say "Installing from " s))).

(** ** Repositories *)
Definition repo_named (name : bytes) (r : pkg_repo) : bool := bool_decide (r_name r = name).

Definition pkg_add_repo (name url path : bytes) (s : st) : outcome (Z * st) :=
  if (16 <=? length (repos s))%nat then Ok (-1, s) else
  if existsb (repo_named name) (repos s) then Ok (-1, s) else
  if (PKG_MAX_NAME <=? length name)%nat || (PKG_MAX_PATH <=? length url)%nat || (PKG_MAX_PATH <=? length path)%nat
  then Fault else
  s ← p_mkdir path s;
  let s := set_repos (repos s ++ [Repo name url path true NULL [] 0]) s in
  Ok (0, p_print [10] (p_print name (p_say "Added repository: " s))).

(** The repositories after the removed one move down. *)
Definition pkg_remove_repo (name : bytes) (s : st) : outcome (Z * st) :=
  match find_index (repo_named name) (repos s) with
  | None => Ok (-1, s)
  | Some i =>
    let r := repos s !!! i in
    '(_, s) ← (if r_packages r =? NULL then Ok (tt, s) else in_env (a_kfree (r_packages r)) s);
    let s := set_repos (take i (repos s) ++ drop (S i) (repos s)) s in
    Ok (0, p_print [10] (p_print name (p_say "Removed repository: " s)))
  end.

(** [pkg_parse_package_list] for the repository at index [i]. *)
Definition pkg_parse_package_list (i : nat) (file_path : bytes) (s : st) : outcome (Z * st) :=
  '(fd, s) ← p_file (f_open file_path O_RDONLY) s;
  match fd with
  | None => Ok (-1, s)
  | Some fd =>
    '(b, s) ← p_file (f_read fd 4095) s;
    let s := p_close fd s in
    match b with
    | None | Some [] => Ok (-1, s)
    | Some b =>
      let text := c_string b in
      let count := count_lines text in
      if (count =? 0)%nat then Ok (0, s) else
      let r := repos s !!! i in
      '(_, s) ← (if r_packages r =? NULL then Ok (tt, s) else in_env (a_kfree (r_packages r)) s);
      '(p, s) ← in_env (a_kmalloc (Z.of_nat count * PACKAGE_SIZE)) s;
      if p =? NULL then Ok (-1, set_repos (alter (set_array NULL [] (num_packages r)) i (repos s)) s) else
      ps ← parse_text text;
      let s := set_repos (alter (set_array p ps (length ps)) i (repos s)) s in
      s ← p_dec (Z.of_nat (length ps)) (p_say "Parsed " s);
      Ok (0, p_print [10] (p_print (r_name r) (p_say " packages from " s)))
    end
  end.

(** One repository of [pkg_update_repos]; a download counts as failed unless
    it returns 0. *)
Definition update_repo (fuel i : nat) (s : st) : outcome st :=
  let r := repos s !!! i in
  if negb (r_enabled r) then Ok s else
  let s := p_line "..." (p_print (r_name r) (p_say "Updating " s)) in
  let url := r_url r ++ bytes_of "/packages.txt" in
  let local_path := r_path r ++ bytes_of "/packages.txt" in
  if (PKG_MAX_PATH <=? length url)%nat || (PKG_MAX_PATH <=? length local_path)%nat then Fault else
  '(d, s) ← pkg_download_file fuel url local_path s;
  if negb (d =? 0) then Ok (p_print [10] (p_print (r_name r) (p_say "Failed to download package list for " s)))
  else '(_, s) ← pkg_parse_package_list i local_path s; Ok s.
Fixpoint update_all (fuel n i : nat) (s : st) : outcome st :=
  match n with
  | O => Ok s
  | S n => s ← update_repo fuel i s; update_all fuel n (S i) s
  end.
Definition pkg_update_repos (fuel : nat) (s : st) : outcome (Z * st) :=
  s ← update_all fuel (length (repos s)) 0 (p_line "Updating package repositories..." s);
  Ok (0, p_line "Repository update completed" s).

(** The repositories are cleared; their number stays. *)
Definition pkg_init (s : st) : outcome st :=
  let s := set_loaded false (set_repos (map (λ _, Repo [] [] [] false NULL [] 0) (repos s)) s) in
  s ← p_mkdir (bytes_of "/var") s;
  s ← p_mkdir (bytes_of "/var/lib") s;
  s ← p_mkdir (bytes_of "/var/lib/pkg") s;
  s ← p_mkdir (bytes_of "/var/cache") s;
  s ← p_mkdir (bytes_of "/var/cache/pkg") s;
  s ← p_mkdir (bytes_of "/etc") s;
  s ← p_mkdir (bytes_of "/etc/pkg") s;
  '(_, s) ← pkg_db_load s;
  '(_, s) ← pkg_add_repo (bytes_of "main") (bytes_of "http://packages.solixos.org") (bytes_of "/var/cache/pkg/main") s;
  Ok (p_line "Package manager initialized" s).

(** ** Queries *)
Definition matches (pattern : bytes) (p : package) : bool :=
  bool_decide (is_Some (strcasestr pattern (p_name p))) || bool_decide (is_Some (strcasestr pattern (p_description p))).
Definition print_package (p : package) (s : st) : st :=
  p_print (p_description p) (p_say " - " (p_print (p_version p) (p_say " " (p_print (p_name p) s)))).

Fixpoint search_entries (pattern repo : bytes) (ps : list package) (found : Z) (s : st) : Z * st :=
  match ps with
  | [] => (found, s)
  | p :: ps =>
    if matches pattern p
    then search_entries pattern repo ps (found + 1) (p_line "]" (p_print repo (p_say " [" (print_package p s))))
    else search_entries pattern repo ps found s
  end.
Fixpoint search_repos (pattern : bytes) (rs : list pkg_repo) (found : Z) (s : st) : outcome (Z * st) :=
  match rs with
  | [] => Ok (found, s)
  | r :: rs =>
    if r_enabled r then
      ps ← entries r;
      let '(found, s) := search_entries pattern (r_name r) ps found s in
      search_repos pattern rs found s
    else search_repos pattern rs found s
  end.
Definition pkg_search (pattern : bytes) (s : st) : outcome (Z * st) :=
  let s := p_print [10] (p_print [10] (p_print pattern (p_say "Searching for packages matching: " s))) in
  '(found, s) ← search_repos pattern (repos s) 0 s;
  if found =? 0 then Ok (0, p_line "No packages found" s)
  else s ← p_dec found (p_say "Found " (p_print [10] s)); Ok (0, p_line " packages" s).

Fixpoint print_deps (ds : list bytes) (s : st) : st :=
  match ds with
  | [] => s
  | d :: ds => print_deps ds (p_print [10] (p_print d (p_say "  " s)))
  end.
Definition pkg_info (name : bytes) (s : st) : outcome (Z * st) :=
  r ← find_package r_enabled (named name) 0 (repos s);
  match r with
  | None => Ok (-1, p_print [10] (p_print name (p_say "Package not found: " s)))
  | Some (i, j) =>
    let repo := repos s !!! i in
    let p := contents repo !!! j in
    let s := p_print [10] (p_print (p_name p) (p_say "Package: " s)) in
    let s := p_print [10] (p_print (p_version p) (p_say "Version: " s)) in
    let s := p_print [10] (p_print (r_name repo) (p_say "Repository: " s)) in
    let s := p_print [10] (p_print (p_description p) (p_say "Description: " s)) in
    s ← p_dec (p_size p) (p_say "Size: " s);
    let s := p_line (pkg_state_to_string (p_state p)) (p_say "State: " (p_line " bytes" s)) in
    Ok (0, if (length (dependencies p) =? 0)%nat then s
           else print_deps (dependencies p) (p_line "Dependencies:" s))
  end.

Fixpoint list_entries (st0 : Z) (indent : string) (ps : list package) (count : Z) (s : st) : Z * st :=
  match ps with
  | [] => (count, s)
  | p :: ps =>
    if p_state p =? st0
    then list_entries st0 indent ps (count + 1) (p_print [10] (print_package p (p_say indent s)))
    else list_entries st0 indent ps count s
  end.
Fixpoint list_installed (rs : list pkg_repo) (count : Z) (s : st) : outcome (Z * st) :=
  match rs with
  | [] => Ok (count, s)
  | r :: rs =>
    ps ← entries r;
    let '(count, s) := list_entries PKG_STATE_INSTALLED "" ps count s in
    list_installed rs count s
  end.
Definition pkg_list_installed (s : st) : outcome (Z * st) :=
  '(count, s) ← list_installed (repos s) 0 (p_print [10] (p_line "Installed packages:" s));
  if count =? 0 then Ok (0, p_line "No packages installed" s)
  else s ← p_dec count (p_say "Total: " (p_print [10] s)); Ok (0, p_line " packages" s).
Fixpoint list_available (rs : list pkg_repo) (count : Z) (s : st) : outcome (Z * st) :=
  match rs with
  | [] => Ok (count, s)
  | r :: rs =>
    if r_enabled r then
      let s := p_print [10] (p_print (r_name r) (p_say "Repository: " s)) in
      ps ← entries r;
      let '(count, s) := list_entries PKG_STATE_AVAILABLE "  " ps count s in
      list_available rs count (p_print [10] s)
    else list_available rs count s
  end.
Definition pkg_list_available (s : st) : outcome (Z * st) :=
  '(count, s) ← list_available (repos s) 0 (p_print [10] (p_line "Available packages:" s));
  if count =? 0 then Ok (0, p_line "No packages available" s)
  else s ← p_dec count (p_say "Total: " s); Ok (0, p_line " packages" s).

(** ** Installing and removing *)
Fixpoint check_deps (ds : list bytes) (s : st) : outcome (bool * st) :=
  match ds with
  | [] => Ok (true, s)
  | d :: ds =>
    r ← find_package any_repo (installed d) 0 (repos s);
    match r with
    | Some _ => check_deps ds s
    | None => Ok (false, p_print [10] (p_print d (p_say "Missing dependency: " s)))
    end
  end.
Definition pkg_check_dependencies (p : package) (s : st) : outcome (bool * st) := check_deps (dependencies p) s.

(** The base name of the files of a package, and the path with a suffix in an
    array of [PKG_MAX_PATH] bytes. *)
Definition package_path (base : bytes) (p : package) (suffix : string) : outcome bytes :=
  let path := base ++ [47] ++ p_name p ++ [45] ++ p_version p ++ bytes_of suffix in
  if (PKG_MAX_PATH <=? length path)%nat then Fault else Ok path.

Definition pkg_install (fuel : nat) (name : bytes) (s : st) : outcome (Z * st) :=
  let s := p_line "..." (p_print name (p_say "Installing " s)) in
  r ← find_package r_enabled (named name) 0 (repos s);
  match r with
  | None => Ok (-1, p_print [10] (p_print name (p_say "Package not found: " s)))
  | Some (i, j) =>
    let repo := repos s !!! i in
    let p := contents repo !!! j in
    if p_state p =? PKG_STATE_INSTALLED then Ok (0, p_line "Package already installed" s) else
    '(ok, s) ← pkg_check_dependencies p s;
    if negb ok then Ok (-1, p_line "Dependency check failed" s) else
    url ← package_path (r_url repo) p ".pkg";
    local_path ← package_path (r_path repo) p ".pkg";
    '(d, s) ← pkg_download_file fuel url local_path (p_line "Downloading package..." s);
    if negb (d =? 0) then Ok (-1, p_line "Failed to download package" s) else
    extract_path ← package_path (r_path repo) p "";
    s ← p_mkdir extract_path s;
    '(x, s) ← pkg_extract local_path extract_path (p_line "Extracting package..." s);
    if negb (x =? 0) then Ok (-1, p_line "Failed to extract package" s) else
    let '(x, s) := pkg_install_from_directory extract_path (p_line "Installing files..." s) in
    if negb (x =? 0) then Ok (-1, p_line "Failed to install files" s) else
    let s := set_repos (update_package i j (set_pstate PKG_STATE_INSTALLED (ticks (e_net (penv s)))) (repos s)) s in
    '(_, s) ← pkg_db_save s;
    Ok (0, p_line " installed successfully" (p_print name (p_say "Package " s)))
  end.

Fixpoint unlink_all (fs : list bytes) (s : st) : outcome st :=
  match fs with
  | [] => Ok s
  | f :: fs => '(_, s) ← p_file (f_unlink f) s; unlink_all fs s
  end.
Definition pkg_remove (name : bytes) (s : st) : outcome (Z * st) :=
  let s := p_line "..." (p_print name (p_say "Removing " s)) in
  r ← find_package any_repo (installed name) 0 (repos s);
  match r with
  | None => Ok (-1, p_print [10] (p_print name (p_say "Package not installed: " s)))
  | Some (i, j) =>
    let p := contents (repos s !!! i) !!! j in
    s ← unlink_all (pfiles p) s;
    let s := set_repos (update_package i j (λ p, set_pstate PKG_STATE_AVAILABLE (install_date p) p) (repos s)) s in
    '(_, s) ← pkg_db_save s;
    Ok (0, p_line " removed successfully" (p_print name (p_say "Package " s)))
  end.
End Pkg.
