(* ===== verification/PkgSpec.v ===== *)
(** * Correctness of the package manager

    Searching agrees with plain searching in lower case, a package list is read
    back as it was written, and the repositories keep distinct names. *)
From S2P Require Import Prelude Screen ScreenSpec CString Heap Keyboard Net Solixfs Vfs Apps Pkg.

(** ** Searching *)
Lemma match_nocase_starts n h : match_nocase n h = starts (map tolower n) (map tolower h).
Proof.
  revert h. induction n as [| c n IH]; intros h; [done |]. destruct h as [| e h]; [done |].
  cbn [match_nocase starts map]. by rewrite IH, Z.eqb_sym.
Qed.

Lemma strcasestr_suffix n h r : strcasestr n h = Some r → ∃ pre, h = pre ++ r.
Proof.
  revert r. induction h as [| c h IH]; intros r.
  - destruct n; cbn; [| done]. intros [= <-]. by exists [].
  - cbn [strcasestr]. destruct n as [| e n]; [intros [= <-]; by exists [] |].
    destruct (match_nocase _ _); [intros [= <-]; by exists [] |].
    intros [pre ->]%IH. by exists (c :: pre).
Qed.

(** The case-insensitive search of [pkg_search] is [strstr] on the texts in
    lower case: it finds the first occurrence, as a rest of the text searched. *)
Theorem strcasestr_lower needle haystack :
  map tolower <$> strcasestr needle haystack = strstr (map tolower needle) (map tolower haystack) ∧
  ∀ r, strcasestr needle haystack = Some r → ∃ pre, haystack = pre ++ r.
Proof.
  split; [| apply strcasestr_suffix].
  induction haystack as [| c h IH].
  - by destruct needle.
  - cbn [strcasestr strstr map]. destruct needle as [| e n]; [done |].
    rewrite match_nocase_starts. cbn [map] in *. by destruct (starts _ _).
Qed.

(** ** Lists of packages as text *)
Definition digits (n : Z) : bytes := match dec_string n with Ok d => d | _ => [] end.
Definition show_package (p : package) : bytes :=
  p_name p ++ 32 :: p_version p ++ 32 :: digits (p_size p) ++ 32 :: p_description p.
Definition show_list (ps : list package) : bytes := concat (map (λ p, show_package p ++ [10]) ps).

(** The packages a list can describe. *)
Definition no_break (c : Z) : Prop := c ≠ 0 ∧ c ≠ 10.
Record listed (p : package) : Prop := {
  l_name : is_word blank (p_name p) ∧ Forall no_break (p_name p) ∧ (length (p_name p) < PKG_MAX_NAME)%nat;
  l_version : is_word blank (p_version p) ∧ Forall no_break (p_version p) ∧ (length (p_version p) < PKG_MAX_VERSION)%nat;
  l_desc : p_description p ≠ [] ∧ Forall no_break (p_description p) ∧ (length (p_description p) < PKG_MAX_DESC)%nat;
  l_size : 0 <= p_size p < 2147483648;
  l_new : p = Package (p_name p) (p_version p) (p_description p) [] [] (p_size p) 0 PKG_STATE_AVAILABLE 0;
}.

Lemma number_digits s : Forall (λ c, 48 <= c <= 57) s → number s 0 = dec_value s.
Proof.
  intros H. unfold dec_value, digits_value. generalize 0 as acc.
  induction H as [| c s Hc _ IH]; intros acc; [done |]. cbn [number map fold_left].
  destruct (Z.leb_spec 48 c), (Z.leb_spec c 57); [| lia..]. apply IH.
Qed.

Lemma atoi_digits c s : 48 <= c <= 57 → atoi (c :: s) = to_int (number (c :: s) 0).
Proof.
  intros Hc. unfold atoi.
  assert (skip_space (c :: s) = c :: s) as ->.
  { cbn [skip_space]. replace (isspace c) with false; [done |]. symmetry. unfold isspace.
    apply orb_false_intro; [| apply andb_false_intro2]; lia. }
  assert (c ∈ map Z.of_nat (seq 48 10)) as Hin.
  { apply list_elem_of_fmap. exists (Z.to_nat c). rewrite elem_of_seq. lia. }
  cbn in Hin. by set_unfold; destruct_or! Hin; subst c.
Qed.

Lemma digits_ok n : is_u32 n →
  is_word blank (digits n) ∧ Forall no_break (digits n) ∧ (length (digits n) <= 10)%nat ∧
  (n < 2147483648 → atoi (digits n) = Ok n).
Proof.
  intros Hn. unfold digits. destruct (dec_string_ok n Hn) as (str & -> & Hl & Hd & Hv & Hne).
  assert (Hw : Forall (λ c, blank c = false) str).
  { eapply Forall_impl; [exact Hd |]. cbv beta. intros c Hc. apply Z.eqb_neq. lia. }
  split_and!; [split; [naive_solver | done] | | done |].
  - eapply Forall_impl; [exact Hd |]. unfold no_break. cbv beta. lia.
  - intros Hmax. destruct Hd as [| c str Hc Hd]; [naive_solver |]. cbv beta in Hc.
    rewrite atoi_digits, number_digits by (done || by constructor). rewrite Hv. unfold to_int.
    unfold is_u32 in Hn.
    by replace ((-2147483648 <=? n) && (n <? 2147483648)) with true by (symmetry; apply andb_true_intro; lia).
Qed.

Lemma strtok_rest s : s ≠ [] → strtok (λ _, false) s = Some (s, []).
Proof. intros Hs. apply strtok_end. split; [done |]. by apply Forall_true. Qed.

Lemma cut_id n s : (length s < n)%nat → cut n s = s.
Proof. intros H. unfold cut. apply take_ge. lia. Qed.

Lemma parse_line_show p : listed p → parse_line (show_package p) = Ok (Some p).
Proof.
  intros [(Hn & _ & Hnl) (Hv & _ & Hvl) (Hd & _ & Hdl) Hs Hp]. unfold parse_line, show_package.
  destruct (digits_ok (p_size p)) as (Hz & _ & _ & Ha); [unfold is_u32; lia |].
  rewrite strtok_word, strtok_word, strtok_word by done. rewrite Ha by lia.
  change (mbind ?g (Ok ?x)) with (g x). cbv beta. rewrite strtok_rest by done.
  rewrite !cut_id by done. rewrite u32_small by (unfold is_u32; lia). by rewrite <- Hp.
Qed.

Lemma show_package_line p : listed p →
  Forall no_break (show_package p) ∧ (0 < length (show_package p) < 512)%nat.
Proof.
  intros [(_ & Hn & Hnl) (_ & Hv & Hvl) (_ & Hd & Hdl) Hs _]. unfold show_package.
  destruct (digits_ok (p_size p)) as (_ & Hz & Hzl & _); [unfold is_u32; lia |].
  unfold PKG_MAX_NAME, PKG_MAX_VERSION, PKG_MAX_DESC in *.
  split; [| rewrite !length_app; cbn [length]; rewrite !length_app; cbn [length]; rewrite length_app; cbn [length]; lia].
  repeat (apply Forall_app; split; [done |]; constructor; [unfold no_break; lia |]). done.
Qed.

Lemma pieces_line l text : Forall no_break l → pieces newline (l ++ 10 :: text) = l :: pieces newline text.
Proof.
  induction 1 as [| c l [_ Hc] _ IH]; [done |]. cbn [app pieces]. rewrite IH.
  unfold newline at 1. by rewrite (proj2 (Z.eqb_neq _ _) Hc).
Qed.

Lemma count_lines_line l text : Forall no_break l → count_lines (l ++ 10 :: text) = S (count_lines text).
Proof.
  intros Hl. unfold count_lines. rewrite filter_app.
  assert (filter (λ c, c = 10) l = []) as ->.
  { induction Hl as [| c l [_ Hc] _ IH]; [done |]. by rewrite filter_cons_False. }
  cbn [app]. by rewrite filter_cons_True.
Qed.

(** A list that is written is read back. *)
Lemma parse_text_show ps : Forall listed ps → parse_text (show_list ps) = Ok ps ∧ count_lines (show_list ps) = length ps.
Proof.
  unfold parse_text. induction 1 as [| p ps Hp _ [IH IHc]]; [done |].
  destruct (show_package_line p Hp) as [Hb Hlen].
  change (show_list (p :: ps)) with ((show_package p ++ [10]) ++ show_list ps). rewrite <- app_assoc. cbn [app].
  rewrite count_lines_line, pieces_line by done. split; [| by rewrite IHc].
  cbn [parse_lines].
  replace ((0 <? length (show_package p))%nat && (length (show_package p) <? 512)%nat) with true
    by (symmetry; apply andb_true_intro; split; apply Nat.ltb_lt; lia).
  rewrite parse_line_show by done. change (mbind ?g (Ok ?x)) with (g x). cbv beta iota. by rewrite IH.
Qed.

Lemma c_string_show ps : Forall listed ps → c_string (show_list ps) = show_list ps.
Proof.
  intros Hps. assert (Forall (λ c, c ≠ 0) (show_list ps)) as H.
  { unfold show_list. induction Hps as [| p ps Hp _ IH]; [constructor |]. cbn [map concat].
    apply Forall_app; split; [| done]. apply Forall_app; split; [| by repeat constructor].
    eapply Forall_impl; [apply (show_package_line p Hp) |]. by intros c [? _]. }
  induction H as [| c l Hc _ IH]; [done |]. cbn [c_string]. by rewrite (proj2 (Z.eqb_neq _ _) Hc), IH.
Qed.

Section Operations.
Context {F T : Type} `{!FileOps F} `{!TcpApi T}.
Implicit Types s : pkg_state F T.

Lemma p_dec_ok v s : is_u32 v → ∃ s', p_dec v s = Ok s' ∧ repos s' = repos s.
Proof.
  intros Hv. unfold p_dec, a_dec, screen_print_dec. destruct (dec_string_ok v Hv) as (str & -> & _).
  change (mbind ?g (Ok ?x)) with (g x). cbv beta iota. eexists. split; [reflexivity | done].
Qed.

End Operations.

(** ** Repositories *)
Section Repositories.
Context {F T : Type} `{!FileOps F} `{!TcpApi T}.
Variables (O_APPEND : Z) (garbage : bytes).
Implicit Types s : pkg_state F T.

Lemma in_env_repos {A} (c : cmd (env F T) A) s a s' : in_env c s = Ok (a, s') → repos s' = repos s.
Proof. unfold in_env. intros ([b e] & _ & [= _ <-])%outcome_bind_ok. done. Qed.

Lemma p_file_repos {A} (c : cmd F A) s a s' : p_file c s = Ok (a, s') → repos s' = repos s.
Proof. apply in_env_repos. Qed.

Lemma p_mkdir_repos path s s' : p_mkdir path s = Ok s' → repos s' = repos s.
Proof. unfold p_mkdir. intros ([b e] & H%p_file_repos & [= <-])%outcome_bind_ok. done. Qed.

Lemma p_dec_repos v s s' : p_dec v s = Ok s' → repos s' = repos s.
Proof. unfold p_dec. intros (e & _ & [= <-])%outcome_bind_ok. done. Qed.

(** Opens a command that returned, with what each step says about the
    repositories. *)
Ltac repos_steps :=
  repeat match goal with
  | H : mbind _ _ = Ok _ |- _ =>
    let x := fresh "x" in
    apply outcome_bind_ok in H as (x & ? & H); try match type of x with prod _ _ => destruct x end
  | H : in_env _ _ = Ok _ |- _ => apply in_env_repos in H
  | H : p_file _ _ = Ok _ |- _ => apply p_file_repos in H
  | H : p_mkdir _ _ = Ok _ |- _ => apply p_mkdir_repos in H
  | H : p_dec _ _ = Ok _ |- _ => apply p_dec_repos in H
  | H : Ok (_, _) = Ok (_, _) |- _ => injection H as ? ?; try subst
  | H : Ok _ = Ok _ |- _ => injection H as H; try subst
  | H : (if ?b then _ else _) = Ok _ |- _ => destruct b; try discriminate H
  | H : match ?x with _ => _ end = Ok _ |- _ => destruct x; try discriminate H
  end.
Ltac repos_eq := unfold p_line, p_say, p_print, p_close, on_env, set_loaded in *; cbn [repos] in *; congruence.

Lemma receive_rest_repos dest : ∀ fuel total s r s',
  receive_rest O_APPEND fuel dest total s = Ok (r, s') → repos s' = repos s.
Proof.
  induction fuel as [| fuel IH]; intros total s r s'; cbn [receive_rest]; [done |]. intros H.
  repos_steps; try repos_eq. apply IH in H. repos_eq.
Qed.

Lemma skip_headers_repos dest : ∀ fuel buffer s r s',
  skip_headers O_APPEND fuel buffer dest s = Ok (r, s') → repos s' = repos s.
Proof.
  induction fuel as [| fuel IH]; intros buffer s r s'; cbn [skip_headers]; [done |]. intros H.
  repos_steps; try repos_eq.
  - apply receive_rest_repos in H. repos_eq.
  - apply IH in H. repos_eq.
Qed.

Lemma pkg_download_file_repos fuel url dest s r s' :
  pkg_download_file O_APPEND garbage fuel url dest s = Ok (r, s') → repos s' = repos s.
Proof.
  unfold pkg_download_file. intros H. repos_steps; try repos_eq. apply skip_headers_repos in H. repos_eq.
Qed.

Lemma pkg_db_save_repos s r s' : pkg_db_save s = Ok (r, s') → repos s' = repos s.
Proof. unfold pkg_db_save. intros H. repos_steps; repos_eq. Qed.

Lemma pkg_extract_repos a d s r s' : pkg_extract a d s = Ok (r, s') → repos s' = repos s.
Proof. unfold pkg_extract. intros H. repos_steps; repos_eq. Qed.

Lemma check_deps_repos ds : ∀ s r s', check_deps ds s = Ok (r, s') → repos s' = repos s.
Proof.
  induction ds as [| d ds IH]; intros s r s'; cbn [check_deps]; [by intros [= _ <-] |]. intros H.
  repos_steps; [by apply IH in H | repos_eq].
Qed.

Lemma unlink_all_repos fs : ∀ s s', unlink_all fs s = Ok s' → repos s' = repos s.
Proof.
  induction fs as [| f fs IH]; intros s s'; cbn [unlink_all]; [by intros [= <-] |]. intros H.
  repos_steps. apply IH in H. repos_eq.
Qed.

(** The strings fit their arrays, and an array of packages holds the number of
    packages recorded. *)
Record repo_ok (r : pkg_repo) : Prop := {
  ro_name : (length (r_name r) < PKG_MAX_NAME)%nat;
  ro_url : (length (r_url r) < PKG_MAX_PATH)%nat;
  ro_path : (length (r_path r) < PKG_MAX_PATH)%nat;
  ro_array : r_packages r ≠ NULL → length (contents r) = num_packages r;
}.
Definition repos_ok (rs : list pkg_repo) : Prop :=
  (length rs <= 16)%nat ∧ NoDup (map r_name rs) ∧ Forall repo_ok rs.

Lemma repos_ok_alter f i rs :
  (∀ r, r_name (f r) = r_name r) → (∀ r, repo_ok r → repo_ok (f r)) → repos_ok rs → repos_ok (alter f i rs).
Proof.
  intros Hf Hok (Hl & Hn & Hr). split_and!; [by rewrite length_alter | | by apply Forall_alter; auto].
  replace (map r_name (alter f i rs)) with (map r_name rs); [done |].
  clear -Hf. revert i. induction rs as [| r rs IH]; intros [| i]; cbn; [done.. | by rewrite Hf | ].
  f_equal. apply IH.
Qed.

Lemma set_array_ok a ps n r : (a ≠ NULL → length ps = n) → repo_ok r → repo_ok (set_array a ps n r).
Proof. intros Ha [? ? ? ?]. by split. Qed.

Lemma update_package_ok i j f rs : repos_ok rs → repos_ok (update_package i j f rs).
Proof.
  apply repos_ok_alter; [done |]. intros r [? ? ? Ha]. split; [done.. |].
  unfold set_contents. cbn. by rewrite length_alter.
Qed.

Lemma pkg_parse_ok i path s r s' :
  pkg_parse_package_list i path s = Ok (r, s') → repos_ok (repos s) → repos_ok (repos s').
Proof.
  unfold pkg_parse_package_list. intros H Hok. repos_steps;
    repeat match goal with H : (if ?b then _ else _) = Ok _ |- _ => destruct b; repos_steps end;
    unfold p_line, p_say, p_print, p_close, on_env, set_repos in *; cbn [repos] in *;
    repeat match goal with H : repos ?x = _ |- context [repos ?x] => rewrite H end; try done;
    try (apply repos_ok_alter; [done | | congruence]; intros r0; apply set_array_ok; done).
Qed.

Lemma update_all_ok fuel : ∀ n i s s',
  update_all O_APPEND garbage fuel n i s = Ok s' → repos_ok (repos s) → repos_ok (repos s').
Proof.
  induction n as [| n IH]; intros i s s'; cbn [update_all]; [by intros [= <-] |].
  intros (s1 & H1 & H)%outcome_bind_ok Hok. apply (IH _ _ _ H). clear H IH.
  unfold update_repo in H1. destruct (negb _); [by injection H1 as <- |].
  destruct (_ || _); [done |].
  apply outcome_bind_ok in H1 as ([d s2] & H2%pkg_download_file_repos & H1).
  assert (repos_ok (repos s2)) by (by rewrite H2). destruct (negb _); [by injection H1 as <- |].
  apply outcome_bind_ok in H1 as ([x s3] & H3 & [= <-]). by apply (pkg_parse_ok _ _ _ _ _ H3).
Qed.

Lemma pkg_add_repo_ok name url path s r s' :
  pkg_add_repo name url path s = Ok (r, s') → repos_ok (repos s) → repos_ok (repos s').
Proof.
  unfold pkg_add_repo. intros H (Hl & Hn & Hr). destruct (Nat.leb_spec 16 (length (repos s))); [by injection H as _ <- |].
  destruct (existsb _ _) eqn:Ex; [by injection H as _ <- |].
  destruct (_ || _) eqn:Eb; [done |]. apply orb_false_elim in Eb as [[E1 E2]%orb_false_elim E3].
  apply Nat.leb_gt in E1, E2, E3.
  apply outcome_bind_ok in H as (s1 & H1%p_mkdir_repos & [= _ <-]). rewrite H1.
  change (repos_ok (repos s ++ [Repo name url path true NULL [] 0])).
  split_and!; [rewrite length_app; cbn; lia | | apply Forall_app; split; [done | apply Forall_singleton; by split]].
  rewrite map_app. apply NoDup_app. split_and!; [done | | apply NoDup_singleton].
  intros x Hx ->%list_elem_of_singleton. apply Bool.diff_false_true. rewrite <- Ex. apply existsb_exists.
  apply list_elem_of_fmap in Hx as (r0 & Hr0 & Hin). exists r0. split; [by apply list_elem_of_In |].
  unfold repo_named. by rewrite bool_decide_eq_true.
Qed.

Lemma pkg_remove_repo_ok name s r s' :
  pkg_remove_repo name s = Ok (r, s') → repos_ok (repos s) → repos_ok (repos s').
Proof.
  unfold pkg_remove_repo. intros H (Hl & Hn & Hr). destruct (find_index _ _) as [i |]; [| by injection H as _ <-].
  apply outcome_bind_ok in H as ([u s1] & H1 & [= _ <-]).
  assert (repos s1 = repos s) as Hs by (destruct (_ =? NULL); [by injection H1 as _ <- | by apply in_env_repos in H1]).
  change (repos_ok (take i (repos s1) ++ drop (S i) (repos s1))). rewrite Hs.
  split_and!.
  - rewrite length_app, length_take, length_drop. lia.
  - eapply sublist_NoDup; [exact Hn |]. change (map r_name) with (fmap (M:=list) r_name).
    apply (fmap_sublist r_name). rewrite <- (take_drop i (repos s)) at 3. apply sublist_app; [done |].
    replace (S i) with (i + 1)%nat by lia. rewrite <- drop_drop. apply sublist_drop.
  - apply Forall_app. split; [by apply Forall_take | by apply Forall_drop].
Qed.

Lemma pkg_install_ok fuel name s r s' :
  pkg_install O_APPEND garbage fuel name s = Ok (r, s') → repos_ok (repos s) → repos_ok (repos s').
Proof.
  unfold pkg_install. intros (x & _ & H)%outcome_bind_ok Hok. destruct x as [[i j] |]; [| by injection H as _ <-].
  destruct (p_state _ =? _); [by injection H as _ <- |].
  apply outcome_bind_ok in H as ([ok s1] & H1%check_deps_repos & H).
  assert (repos_ok (repos s1)) as Hok1 by (by rewrite H1). destruct (negb ok); [by injection H as _ <- |].
  apply outcome_bind_ok in H as (url & _ & H). apply outcome_bind_ok in H as (path & _ & H).
  apply outcome_bind_ok in H as ([d s2] & H2%pkg_download_file_repos & H).
  assert (repos_ok (repos s2)) as Hok2 by (by rewrite H2). destruct (negb _); [by injection H as _ <- |].
  apply outcome_bind_ok in H as (dir & _ & H). apply outcome_bind_ok in H as (s3 & H3%p_mkdir_repos & H).
  apply outcome_bind_ok in H as ([z s4] & H4%pkg_extract_repos & H).
  assert (repos_ok (repos s4)) as Hok4 by (rewrite H4; change (repos_ok (repos s3)); by rewrite H3).
  destruct (negb _); [by injection H as _ <- |]. unfold pkg_install_from_directory in H. cbn [Z.eqb negb] in H.
  apply outcome_bind_ok in H as ([y s5] & H5%pkg_db_save_repos & [= _ <-]).
  change (repos_ok (repos s5)). rewrite H5. by apply update_package_ok.
Qed.

Lemma pkg_remove_ok name s r s' : pkg_remove name s = Ok (r, s') → repos_ok (repos s) → repos_ok (repos s').
Proof.
  unfold pkg_remove. intros (x & _ & H)%outcome_bind_ok Hok. destruct x as [[i j] |]; [| by injection H as _ <-].
  apply outcome_bind_ok in H as (s1 & H1%unlink_all_repos & H).
  apply outcome_bind_ok in H as ([y s2] & H2%pkg_db_save_repos & [= _ <-]).
  change (repos_ok (repos s2)). rewrite H2. apply update_package_ok. by rewrite H1.
Qed.

(** The states of the package manager: it starts without repositories, and the
    rest of the system may change between its commands. *)
Inductive pkg_reach : pkg_state F T → Prop :=
| reach_start s : repos s = [] → pkg_reach s
| reach_other s s' : pkg_reach s → repos s' = repos s → pkg_reach s'
| reach_add name url path s r s' : pkg_reach s → pkg_add_repo name url path s = Ok (r, s') → pkg_reach s'
| reach_remove_repo name s r s' : pkg_reach s → pkg_remove_repo name s = Ok (r, s') → pkg_reach s'
| reach_update fuel s r s' : pkg_reach s → pkg_update_repos O_APPEND garbage fuel s = Ok (r, s') → pkg_reach s'
| reach_install fuel name s r s' : pkg_reach s → pkg_install O_APPEND garbage fuel name s = Ok (r, s') → pkg_reach s'
| reach_remove name s r s' : pkg_reach s → pkg_remove name s = Ok (r, s') → pkg_reach s'.

End Repositories.
