(* ===== verification/PkgWitness.v ===== *)
(** * A package manager on a filesystem of one file *)
From S2P Require Import Prelude Screen ScreenSpec CString Heap HeapSpec HeapWitness Keyboard Net Solixfs Vfs.
From S2P Require Import Apps Pkg PkgSpec.

(** Every path names the same file, which is read from its beginning. *)
#[local] Instance one_file : FileOps bytes := {|
  f_open _ _ := λ f, Ok (Some 3, f);
  f_read _ n := λ f, Ok (Some (take (Z.to_nat n) f), f);
  f_write _ b := λ f, Ok (Some (Z.of_nat (length b)), f ++ b);
  f_close _ f := f;
  f_mkdir _ _ := λ f, Ok (0, f);
  f_unlink _ := λ f, Ok (true, []);
|}.
(** The answers of a server. *)
#[local] Instance answers : TcpApi (list bytes) := {|
  tcp_connect _ _ := λ t, Ok (0, t);
  tcp_send _ := λ t, Ok (0, t);
  tcp_receive _ := λ t, match t with b :: t => Ok (b, t) | [] => Ok ([], []) end;
|}.

Definition editor : package := Package (bytes_of "vi") (bytes_of "1.0") (bytes_of "a small editor") [] [] 40960 0 0 0.
Definition pager : package := Package (bytes_of "less") (bytes_of "5.3") (bytes_of "pager") [] [] 0 0 0 0.
Definition the_list : list package := [editor; pager].
Definition main_repo : pkg_repo := Repo (bytes_of "main") (bytes_of "http://10.0.0.1") (bytes_of "/p") true NULL [] 0.
Definition pkg_boot (rs : list pkg_repo) : pkg_state bytes (list bytes) :=
  PkgState (Env (Net [] [] [] 7 boot [] (screen_boot ∅)) (show_list the_list) []) rs true.

Lemma the_list_listed : Forall listed the_list.
Proof.
  repeat constructor; try (cbn; lia); try discriminate; try (apply (bool_decide_unpack _); vm_compute; reflexivity).
Qed.

Definition array_at : Z := match kmalloc (2 * PACKAGE_SIZE) boot with Ok (a, _) => a | _ => 0 end.
Definition after_array : heap_state := exec (kmalloc (2 * PACKAGE_SIZE)) boot.
Lemma array_allocated : kmalloc (2 * PACKAGE_SIZE) boot = Ok (array_at, after_array).
Proof. vm_compute. reflexivity. Qed.


Definition with_main : pkg_state bytes (list bytes) :=
  match pkg_add_repo (bytes_of "main") (bytes_of "http://10.0.0.1") (bytes_of "/p") (pkg_boot []) with
  | Ok (_, s) => s
  | _ => pkg_boot []
  end.

