(* ===== verification/Browser.v ===== *)
(** * The text browser (src/apps/browser/lynx.c, src/include/browser.h)

    Fetching a page, turning HTML into text and links, rendering, history and
    the keyboard commands, on the services of [Apps].  No source defines
    [screen_get_height] and [screen_get_width]: parameters. *)
From S2P Require Import Prelude Screen ScreenSpec CString Heap Keyboard Net Solixfs Vfs Printk Apps.

Definition BROWSER_MAX_URL : nat := 256.
Definition BROWSER_MAX_CONTENT : Z := 65536.
Definition BROWSER_MAX_LINKS : nat := 256.
Definition BROWSER_HISTORY_SIZE : nat := 50.
Definition BLUE : Z := 1.
Definition RED : Z := 4.
Definition WHITE : Z := 15.
Definition QUOTE : Z := 34.
Definition LT : Z := 60.
Definition GT : Z := 62.

(** ** Data *)
Record browser_link := Link { l_url : bytes; l_text : bytes; l_line : Z; l_col : Z }.
#[export] Instance link_inhabited : Inhabited browser_link := populate (Link [] [] 0 0).
(** [links] is the whole array, [num_links] the number in use. *)
Record browser_page := Page {
  pg_url : bytes;
  content : bytes;
  links : list browser_link;
  num_links : nat;
  current_line : Z;
  num_lines : Z;
}.
Record browser_history := History { urls : list bytes; h_current : Z; h_count : nat }.
(** [keys] are the characters that [keyboard_getchar] will return. *)
Record browser (F T : Type) := Browser {
  benv : env F T;
  keys : bytes;
  page : browser_page;
  history : browser_history;
  showing_links : bool;
  browser_active : bool;
}.
Arguments Browser {F T}.
Arguments benv {F T}.
Arguments keys {F T}.
Arguments page {F T}.
Arguments history {F T}.
Arguments showing_links {F T}.
Arguments browser_active {F T}.

(** ** [browser_parse_url]: host and path, in arrays of the given sizes *)
Definition browser_parse_url (url : bytes) (host_size path_size : nat) : option (bytes * bytes) :=
  if negb (starts http_prefix url) then None else
  let host_start := drop 7 url in
  match strchr 47 host_start with
  | Some path_start =>
    let host_len := (length host_start - length path_start)%nat in
    if (host_size <=? host_len)%nat then None else
    if (path_size <=? length path_start)%nat then None else
    Some (take host_len host_start, path_start)
  | None =>
    if (host_size <=? length host_start)%nat then None else Some (host_start, [47])
  end.

(** ** [browser_format_text]

    [skip] characters still belong to a closing script tag; [out] is the output
    so far, last character first. *)
Fixpoint format_loop (limit : nat) (skip : nat) (in_tag in_script : bool) (html out : bytes) : bytes :=
  match html with
  | [] => out
  | c :: rest =>
    match skip with
    | S skip => format_loop limit skip in_tag in_script rest out
    | O =>
      if (limit <=? length out)%nat then out else
      if negb (starts (bytes_of "<script") html) && starts (bytes_of "</script>") html
      then format_loop limit 8 in_tag false rest out else
      if in_script || starts (bytes_of "<script") html then format_loop limit 0 in_tag true rest out else
      if c =? LT then format_loop limit 0 true false rest out else
      if c =? GT then format_loop limit 0 false false rest out else
      if in_tag then format_loop limit 0 true false rest out else
      if (c =? 32) && bool_decide (head out = Some 32) then format_loop limit 0 false false rest out else
      if (c =? 10) || (c =? 13) then
        format_loop limit 0 false false rest
          (match out with
           | [] => []
           | l :: _ => if l =? 10 then out else 10 :: out
           end)
      else format_loop limit 0 false false rest (c :: out)
    end
  end.
Definition browser_format_text (html : bytes) (output_size : nat) : bytes :=
  rev (format_loop (output_size - 1) 0 false false html []).

(** ** [browser_extract_links] *)

(** The characters before the first [<], and from it on. *)
Fixpoint until_lt (s : bytes) : bytes * bytes :=
  match s with
  | [] => ([], [])
  | c :: s' => if c =? LT then ([], s) else let '(t, r) := until_lt s' in (c :: t, r)
  end.
(** The text after the quote that closes the address: up to the tag after the
    next one. *)
Definition link_text (after : bytes) : bytes :=
  let text_start := (until_lt after).2 in
  let text_start := match text_start with [] => [] | _ :: r => skip_space r end in
  (until_lt text_start).1.

Fixpoint extract_loop (fuel : nat) (html : bytes) (link_num : Z) (n : nat) (ls : list browser_link)
  : outcome (nat * list browser_link) :=
  match fuel with
  | O => Diverge
  | S fuel =>
    if (length html =? 0)%nat || (BROWSER_MAX_LINKS <=? n)%nat then Ok (n, ls) else
    match strstr (bytes_of "href=" ++ [QUOTE]) html with
    | None => Ok (n, ls)
    | Some r =>
      let href_start := drop 6 r in
      match strchr QUOTE href_start with
      | None => Ok (n, ls)
      | Some href_end =>
        let url := take (length href_start - length href_end) href_start in
        let after := drop 1 href_end in
        if (length url <? BROWSER_MAX_URL)%nat then
          let text := link_text after in
          if (0 <? length text)%nat && (length text <? 127)%nat
          then extract_loop fuel after link_num (S n) (<[n := Link url text (-1) (-1)]> ls)
          else
            num ← itoa link_num 10;
            extract_loop fuel after (link_num + 1) (S n) (<[n := Link url ([91] ++ num ++ [93]) (-1) (-1)]> ls)
        else extract_loop fuel after link_num n ls
      end
    end
  end.
Definition browser_extract_links (html : bytes) (ls : list browser_link) : outcome (nat * list browser_link) :=
  extract_loop (S (length html)) html 1 0 ls.

Definition count_newlines (s : bytes) : Z := Z.of_nat (length (filter (λ c, c = 10) s)).
Definition browser_parse_html (html : bytes) (p : browser_page) : outcome browser_page :=
  let formatted := browser_format_text html (Z.to_nat BROWSER_MAX_CONTENT) in
  let text := if Z.of_nat (length formatted) <? BROWSER_MAX_CONTENT then formatted else content p in
  '(n, ls) ← browser_extract_links html (links p);
  Ok (Page (pg_url p) text ls n 0 (1 + count_newlines text)).

Section Browser.
Context {F T : Type} `{!TcpApi T}.
Variables screen_height screen_width : Z.
Notation br := (browser F T).

Definition with_env (f : env F T → env F T) (b : br) : br :=
  Browser (f (benv b)) (keys b) (page b) (history b) (showing_links b) (browser_active b).
Definition set_keys (k : bytes) (b : br) : br :=
  Browser (benv b) k (page b) (history b) (showing_links b) (browser_active b).
Definition set_page (p : browser_page) (b : br) : br :=
  Browser (benv b) (keys b) p (history b) (showing_links b) (browser_active b).
Definition set_history (h : browser_history) (b : br) : br :=
  Browser (benv b) (keys b) (page b) h (showing_links b) (browser_active b).
Definition set_showing (x : bool) (b : br) : br :=
  Browser (benv b) (keys b) (page b) (history b) x (browser_active b).
Definition set_active (x : bool) (b : br) : br :=
  Browser (benv b) (keys b) (page b) (history b) (showing_links b) x.
Definition set_line (l : Z) (p : browser_page) : browser_page :=
  Page (pg_url p) (content p) (links p) (num_links p) l (num_lines p).
Definition set_pg_url (u : bytes) (p : browser_page) : browser_page :=
  Page u (content p) (links p) (num_links p) (current_line p) (num_lines p).

Definition b_print (x : bytes) : br → br := with_env (a_print x).
Definition b_say (x : string) : br → br := with_env (a_say x).
Definition b_line (x : string) (b : br) : br := b_print [10] (b_say x b).
Definition b_color (fg bg : Z) : br → br := with_env (on_screen (screen_set_color fg bg)).
Definition b_clear : br → br := with_env (on_screen screen_clear).
Definition b_cursor (x y : Z) : br → br := with_env (on_screen (screen_set_cursor x y)).
Definition b_dec (v : Z) (b : br) : outcome br := e ← a_dec v (benv b); Ok (with_env (λ _, e) b).
(** [keyboard_getchar] waits for ever when no key comes. *)
Definition b_getchar : cmd br Z := λ b,
  match keys b with
  | [] => Diverge
  | c :: k => Ok (c, set_keys k b)
  end.

(** ** Rendering *)
Fixpoint skip_line (s : bytes) : bytes :=
  match s with
  | [] => []
  | c :: s => if c =? 10 then s else skip_line s
  end.
Fixpoint skip_lines (n : nat) (s : bytes) : bytes :=
  match n with
  | O => s
  | S n => match s with [] => [] | _ => skip_lines n (skip_line s) end
  end.
Definition link_at (line col : Z) (p : browser_page) : option browser_link :=
  List.find (λ l, (l_line l =? line) && (l_col l =? col)) (take (num_links p) (links p)).
Fixpoint render_lines (text : bytes) (p : browser_page) (max_lines line col rendered : Z) (b : br) : br :=
  match text with
  | [] => b
  | c :: text =>
    if max_lines <=? rendered then b else
    if c =? 10 then render_lines text p max_lines (line + 1) 0 (rendered + 1) (b_print [10] b)
    else
      match link_at line col p with
      | Some l =>
        let b := b_color WHITE COLOR_BLACK (b_say "]" (b_print (l_text l) (b_say "[" (b_color BLUE COLOR_BLACK b)))) in
        render_lines text p max_lines line (col + Z.of_nat (length (l_text l)) + 2) rendered b
      | None => render_lines text p max_lines line (col + 1) rendered (b_print [c] b)
      end
  end.
Definition browser_render_page (b : br) : outcome br :=
  let p := page b in
  let b := b_print [10] (b_print (pg_url p) (b_color BLUE WHITE (b_clear b))) in
  let b := b_print [10] (b_color WHITE COLOR_BLACK b) in
  let text := skip_lines (Z.to_nat (current_line p)) (content p) in
  let b := render_lines text p (screen_height - 4) 0 0 0 b in
  let b := b_color COLOR_BLACK WHITE (b_cursor 0 (u8 (screen_height - 1)) b) in
  line ← itoa (current_line p + 1) 10;
  lines ← itoa (num_lines p) 10;
  num ← itoa (Z.of_nat (num_links p)) 10;
  let b := b_say " | Press 'h' for help" (b_print num (b_say " | Links: " (b_print lines
             (b_say "/" (b_print line (b_say "Line " b)))))) in
  Ok (b_color WHITE COLOR_BLACK b).

(** ** Messages and help *)
Definition browser_status_message (message : bytes) (b : br) : br :=
  let b := b_color COLOR_BLACK WHITE (b_cursor 0 (u8 (screen_height - 1)) b) in
  let b := b_print message b in
  b_color WHITE COLOR_BLACK (b_print (replicate (Z.to_nat screen_width - length message) 32) b).
Definition browser_error_message (error : string) (b : br) : outcome br :=
  let b := b_line error (b_say "Error: " (b_color RED COLOR_BLACK b)) in
  let b := b_color WHITE COLOR_BLACK b in
  e ← a_wait 2000 (benv b); Ok (with_env (λ _, e) b).

Definition help_text : list string :=
  ["SolixOS Text Browser - Help"; ""; "Navigation:"; "  g        - Go to URL"; "  r        - Refresh page";
   "  b        - Go back"; "  f        - Go forward"; "  l        - List links"; "  q        - Quit browser"; "";
   "Scrolling:"; "  Up/Down  - Scroll one line"; "  Space    - Page down"; "  Home/End - Go to top/bottom"; "";
   "Links:"; "  0-9      - Follow link number"; "  h        - Show this help"; ""]%string.
Fixpoint print_lines (l : list string) (b : br) : br :=
  match l with
  | [] => b
  | x :: l => print_lines l (b_line x b)
  end.
Definition browser_show_help (b : br) : outcome br :=
  let b := b_say "Press any key to continue..." (print_lines help_text (b_clear b)) in
  '(_, b) ← b_getchar b; browser_render_page b.
Definition browser_show (b : br) : outcome br :=
  if browser_active b then Ok b else browser_show_help (set_active true (b_clear b)).
Definition browser_hide (b : br) : br := b_line "Returning to shell..." (b_clear (set_active false b)).

(** ** Navigation *)

(** Where the string passed to [browser_navigate] lies: outside the browser's
    state, or in the current page or the history, which the call changes. *)
Inductive url_ref := Given (u : bytes) | CurrentUrl | LinkUrl (n : nat) | HistoryUrl (n : nat).
Definition deref (r : url_ref) (b : br) : bytes :=
  match r with
  | Given u => u
  | CurrentUrl => pg_url (page b)
  | LinkUrl n => l_url (links (page b) !!! n)
  | HistoryUrl n => urls (history b) !!! n
  end.

(** The response, in parts of at most 1024 bytes, in a buffer of [size]. *)
Fixpoint fetch_loop (fuel : nat) (size : Z) (buffer : bytes) : cmd br bytes := λ b,
  match fuel with
  | O => Diverge
  | S fuel =>
    if size - 1 <=? Z.of_nat (length buffer) then Ok (buffer, b) else
    '(x, e) ← a_tcp (tcp_receive 1024) (benv b);
    let b := with_env (λ _, e) b in
    if (length x =? 0)%nat then Ok (buffer, b) else
    if Z.of_nat (length buffer + length x) <? size then fetch_loop fuel size (buffer ++ x) b
    else Ok (buffer, b)
  end.

(** The body, or [None] for a result of 0 or less. *)
Definition browser_download_page (fuel : nat) (url : bytes) (size : Z) : cmd br (option bytes) := λ b,
  match browser_parse_url url 256 512 with
  | None => Ok (None, b)
  | Some (host, path) =>
    '(r, e) ← http_connect (ip_aton host) (benv b);
    let b := with_env (λ _, e) b in
    if negb (r =? 0) then Ok (None, b) else
    '(r, e) ← a_tcp (tcp_send (http_get path host [bytes_of "User-Agent: SolixOS-Lynx/1.0"])) (benv b);
    let b := with_env (λ _, e) b in
    if negb (r =? 0) then Ok (None, b) else
    '(buffer, b) ← fetch_loop fuel size [] b;
    match strstr (crlf ++ crlf) (c_string buffer) with
    | Some r => let body := drop 4 r in Ok (if (length body =? 0)%nat then None else Some body, b)
    | None => Ok (None, b)
    end
  end.

Definition add_history (u : bytes) (h : browser_history) : browser_history :=
  if (h_count h <? BROWSER_HISTORY_SIZE)%nat
  then History (<[h_count h := u]> (urls h)) (Z.of_nat (h_count h)) (S (h_count h))
  else h.

(** [browser_navigate].  The history gets the string after the page was parsed,
    from where it lies. *)
Definition browser_navigate (fuel : nat) (r : url_ref) (b : br) : outcome br :=
  b ← browser_show b;
  let b := browser_status_message (bytes_of "Loading...") b in
  let url := deref r b in
  if negb (starts http_prefix url) then browser_error_message "Only HTTP URLs are supported" b else
  '(response, b) ← browser_download_page fuel url BROWSER_MAX_CONTENT b;
  match response with
  | None => browser_error_message "Failed to download page" b
  | Some html =>
    let url := deref r b in
    if (BROWSER_MAX_URL <=? length url)%nat then Fault else
    p ← browser_parse_html html (set_pg_url url (page b));
    b ← browser_render_page (set_page p b);
    let url := deref r b in
    if (h_count (history b) <? BROWSER_HISTORY_SIZE)%nat && (BROWSER_MAX_URL <=? length url)%nat then Fault else
    let b := set_history (add_history url (history b)) b in
    Ok (browser_status_message (bytes_of "Page loaded") b)
  end.

Definition browser_back (fuel : nat) (b : br) : outcome br :=
  let h := history b in
  if 0 <? h_current h then
    let c := h_current h - 1 in
    browser_navigate fuel (HistoryUrl (Z.to_nat c)) (set_history (History (urls h) c (h_count h)) b)
  else Ok b.
Definition browser_forward (fuel : nat) (b : br) : outcome br :=
  let h := history b in
  if h_current h <? Z.of_nat (h_count h) - 1 then
    let c := h_current h + 1 in
    browser_navigate fuel (HistoryUrl (Z.to_nat c)) (set_history (History (urls h) c (h_count h)) b)
  else Ok b.
Definition browser_refresh (fuel : nat) (b : br) : outcome br :=
  if (0 <? length (pg_url (page b)))%nat then browser_navigate fuel CurrentUrl b else Ok b.

Definition go_to_line (l : Z) (b : br) : outcome br := browser_render_page (set_page (set_line l (page b)) b).
Definition browser_scroll_up (b : br) : outcome br :=
  if 0 <? current_line (page b) then go_to_line (current_line (page b) - 1) b else Ok b.
Definition browser_scroll_down (b : br) : outcome br :=
  if current_line (page b) <? num_lines (page b) - 1 then go_to_line (current_line (page b) + 1) b else Ok b.
Definition browser_page_up (b : br) : outcome br :=
  let lines := screen_height - 4 in
  go_to_line (if lines <? current_line (page b) then current_line (page b) - lines else 0) b.
Definition browser_page_down (b : br) : outcome br :=
  let lines := screen_height - 4 in
  go_to_line (if current_line (page b) + lines <? num_lines (page b) then current_line (page b) + lines
              else num_lines (page b) - 1) b.
Definition browser_home (b : br) : outcome br := go_to_line 0 b.
Definition browser_end (b : br) : outcome br := go_to_line (num_lines (page b) - 1) b.

Definition browser_follow_link (fuel : nat) (link_num : Z) (b : br) : outcome br :=
  if (0 <? link_num) && (link_num <=? Z.of_nat (num_links (page b)))
  then browser_navigate fuel (LinkUrl (Z.to_nat (link_num - 1))) b else Ok b.

Fixpoint list_links (i : Z) (ls : list browser_link) (b : br) : outcome br :=
  match ls with
  | [] => Ok b
  | l :: ls =>
    b ← b_dec (i + 1) (b_say "[" b);
    list_links (i + 1) ls (b_print [10] (b_print (l_url l) (b_say " -> " (b_print (l_text l) (b_say "] " b)))))
  end.
Definition browser_toggle_links (b : br) : outcome br :=
  let b := set_showing (negb (showing_links b)) b in
  if showing_links b then
    let b := b_print [10] (b_line "Available links:" (b_clear b)) in
    b ← list_links 0 (take (num_links (page b)) (links (page b))) b;
    let b := b_say "Press any key to return to page..." (b_print [10] b) in
    '(_, b) ← b_getchar b;
    browser_render_page (set_showing false b)
  else Ok b.

(** ** The keyboard *)

(** The URL typed after [g], last character first; a backspace is not shown. *)
Fixpoint read_url (input : bytes) (typed : bytes) (b : br) : outcome (bytes * br) :=
  if (BROWSER_MAX_URL - 1 <=? length typed)%nat then Ok (rev typed, set_keys input b) else
  match input with
  | [] => Diverge
  | c :: input =>
    if c =? KEY_ENTER then Ok (rev typed, set_keys input b)
    else if (c =? KEY_BACKSPACE) && (0 <? length typed)%nat then read_url input (drop 1 typed) b
    else if (32 <=? schar c) && (schar c <? 127) then read_url input (c :: typed) (b_print [c] b)
    else read_url input typed b
  end.

Definition browser_arrow (b : br) : outcome br :=
  '(c, b) ← b_getchar b;
  if negb (c =? 91) then Ok b else
  '(a, b) ← b_getchar b;
  if a =? 65 then browser_scroll_up b
  else if a =? 66 then browser_scroll_down b
  else if a =? 53 then '(c, b) ← b_getchar b; if c =? 126 then browser_page_up b else Ok b
  else if a =? 54 then '(c, b) ← b_getchar b; if c =? 126 then browser_page_down b else Ok b
  else Ok b.

Definition browser_handle_input (fuel : nat) (c : Z) (b : br) : outcome br :=
  if c =? 113 then Ok (browser_hide b)
  else if c =? 104 then browser_show_help b
  else if c =? 114 then browser_refresh fuel b
  else if c =? 98 then browser_back fuel b
  else if c =? 102 then browser_forward fuel b
  else if c =? 108 then browser_toggle_links b
  else if c =? 103 then
    let b := b_say "Enter URL: " (b_print [10] b) in
    '(url, b) ← read_url (keys b) [] b;
    let b := b_print [10] b in
    if (0 <? length url)%nat then browser_navigate fuel (Given url) b else Ok b
  else if (49 <=? c) && (c <=? 57) then browser_follow_link fuel (c - 48) b
  else if c =? 48 then browser_follow_link fuel 10 b
  else if c =? 27 then browser_arrow b
  else if c =? 32 then browser_page_down b
  else Ok b.

Definition browser_init (b : br) : br :=
  let b := Browser (benv b) (keys b)
             (Page [] [] (replicate BROWSER_MAX_LINKS (Link [] [] 0 0)) 0 0 0)
             (History (replicate BROWSER_HISTORY_SIZE []) 0 0) false false in
  b_line "Lynx-like text browser initialized" b.

(** [lynx_main]: before the loop, and the loop for [n] keys. *)
Definition lynx_start (fuel : nat) (args : list bytes) (b : br) : outcome br :=
  let b := browser_init b in
  match args with
  | [url] => browser_navigate fuel (Given url) b
  | _ => browser_show b
  end.
Fixpoint lynx_loop (n fuel : nat) (b : br) : outcome br :=
  if negb (browser_active b) then Ok b else
  match n with
  | O => Diverge
  | S n => '(c, b) ← b_getchar b; b ← browser_handle_input fuel c b; lynx_loop n fuel b
  end.
End Browser.
