(* ===== verification/BrowserSpec.v ===== *)
(** * Correctness of the text browser

    URLs are split where they should be, the text made of a page is clean and a
    fixed point of the formatter, links come from the page and fit their arrays,
    and the place in the page and in the history stays in range. *)
From S2P Require Import Prelude Screen ScreenSpec CString Heap Keyboard Net Solixfs Vfs Printk PrintkSpec Apps Browser.

(** ** URLs *)

Lemma starts_prefix r : starts http_prefix (http_prefix ++ r) = true.
Proof. apply starts_spec. eauto. Qed.

Lemma parse_url_path host p hs ps :
  47 ∉ host → (length host < hs)%nat → (length (47%Z :: p) < ps)%nat →
  browser_parse_url (http_prefix ++ host ++ 47 :: p) hs ps = Some (host, 47 :: p).
Proof.
  intros Hh Hl Hp. unfold browser_parse_url. rewrite starts_prefix. cbn [negb].
  change (drop 7 (http_prefix ++ ?r)) with r. rewrite strchr_app by done.
  assert (length (host ++ 47%Z :: p) - length (47%Z :: p) = length host)%nat as -> by (rewrite length_app; lia).
  rewrite (proj2 (Nat.leb_gt _ _)), (proj2 (Nat.leb_gt _ _)) by done. by rewrite take_app_length.
Qed.

Lemma parse_url_host host hs ps :
  47 ∉ host → (length host < hs)%nat → browser_parse_url (http_prefix ++ host) hs ps = Some (host, [47]).
Proof.
  intros Hh Hl. unfold browser_parse_url. rewrite starts_prefix. cbn [negb].
  change (drop 7 (http_prefix ++ ?r)) with r. rewrite strchr_none by done. by rewrite (proj2 (Nat.leb_gt _ _)).
Qed.

(** [browser_parse_url] succeeds exactly on the URLs made of http://, a host
    without a slash that fits, and a path that starts with a slash and fits or is
    missing, and gives back host and path, a slash for a missing path. *)
Theorem parse_url_exact url hs ps host path :
  browser_parse_url url hs ps = Some (host, path) ↔
  47 ∉ host ∧ (length host < hs)%nat ∧
  ((url = http_prefix ++ host ++ path ∧ head path = Some 47 ∧ (length path < ps)%nat) ∨
   (url = http_prefix ++ host ∧ path = [47])).
Proof.
  split.
  - unfold browser_parse_url. destruct (starts http_prefix url) eqn:E; cbn [negb]; [| done].
    apply starts_spec in E as [r ->]. change (drop 7 (http_prefix ++ r)) with r.
    destruct (strchr 47 r) as [x |] eqn:Er.
    + apply strchr_some in Er as (pre & post & -> & -> & Hpre).
      assert (length (pre ++ 47%Z :: post) - length (47%Z :: post) = length pre)%nat as -> by (rewrite length_app; lia).
      rewrite take_app_length. destruct (Nat.leb_spec hs (length pre)); [done |].
      destruct (Nat.leb_spec ps (length (47%Z :: post))); [done |]. intros [= <- <-].
      split_and!; [done.. |]. by left.
    + destruct (Nat.leb_spec hs (length r)); [done |]. intros [= <- <-]. split_and!; [| done | auto].
      intros Hin. by apply strchr_not_none in Hin.
  - intros (Hh & Hl & [(-> & Hp & Hpl) | [-> ->]]); [| by apply parse_url_host].
    destruct path as [| c p]; [done |]. injection Hp as ->. by apply parse_url_path.
Qed.

(** ** Formatting *)

(** What the output looks like, last character first: no tags and carriage
    returns, no two blanks or line ends in a row, no line end at the start. *)
Fixpoint tidy (out : bytes) : Prop :=
  match out with
  | [] => True
  | c :: r =>
    c ≠ LT ∧ c ≠ GT ∧ c ≠ 13 ∧ (c = 32 → head r ≠ Some 32) ∧ (c = 10 → ∃ l, head r = Some l ∧ l ≠ 10) ∧ tidy r
  end.
Definition tidy_text (text : bytes) : Prop := tidy (rev text).

Lemma tidy_app a b : tidy (a ++ b) → tidy b.
Proof. induction a as [| c a IH]; [done |]. cbn. intros (_ & _ & _ & _ & _ & H). auto. Qed.

Lemma format_loop_tidy limit html : ∀ skip in_tag in_script out,
  tidy out → (length out <= limit)%nat →
  tidy (format_loop limit skip in_tag in_script html out) ∧
  (length (format_loop limit skip in_tag in_script html out) <= limit)%nat.
Proof.
  induction html as [| c html IH]; intros skip in_tag in_script out Ht Hl; cbn [format_loop]; [done |].
  destruct skip as [| skip]; [| by apply IH].
  destruct (Nat.leb_spec limit (length out)); [done |].
  destruct (negb _ && _); [by apply IH |]. destruct (in_script || _); [by apply IH |].
  destruct (Z.eqb_spec c LT); [by apply IH |]. destruct (Z.eqb_spec c GT); [by apply IH |].
  destruct in_tag; [by apply IH |].
  destruct ((c =? 32) && bool_decide (head out = Some 32)) eqn:Eb; [by apply IH |].
  destruct ((c =? 10) || (c =? 13)) eqn:En.
  - destruct out as [| l out]; [by apply IH |]. destruct (Z.eqb_spec l 10); [by apply IH |].
    apply IH; [| cbn in *; lia]. cbn [tidy] in *. unfold LT, GT. repeat split; try done; try tauto. intros _. by exists l.
  - apply orb_false_elim in En as [E10%Z.eqb_neq E13%Z.eqb_neq].
    apply IH; [| cbn in *; lia]. cbn [tidy]. split_and!; [done | done | done | | done | done].
    intros -> Hh. rewrite Hh in Eb. by rewrite bool_decide_eq_true_2 in Eb.
Qed.

Lemma starts_lt p c html : c ≠ LT → starts (LT :: p) (c :: html) = false.
Proof. intros Hc. cbn [starts]. apply andb_false_intro1. apply Z.eqb_neq. congruence. Qed.

Lemma format_loop_id limit text : ∀ out,
  tidy (rev text ++ out) → (length text + length out <= limit)%nat →
  format_loop limit 0 false false text out = rev text ++ out.
Proof.
  induction text as [| c text IH]; intros out Ht Hl; [done |]. cbn [rev] in *. rewrite <- app_assoc in *.
  cbn [app] in *. cbn [length] in Hl.
  pose proof (tidy_app _ _ Ht) as (H1 & H2 & H3 & H4 & H5 & _).
  cbn [format_loop]. rewrite (proj2 (Nat.leb_gt _ _)) by lia.
  change (bytes_of "<script") with (LT :: bytes_of "script"). change (bytes_of "</script>") with (LT :: bytes_of "/script>").
  rewrite !starts_lt by done. cbn [negb andb orb].
  rewrite (proj2 (Z.eqb_neq c LT)), (proj2 (Z.eqb_neq c GT)), (proj2 (Z.eqb_neq c 13)) by done.
  destruct (Z.eqb_spec c 32) as [-> |]; cbn [andb].
  - rewrite bool_decide_eq_false_2 by auto. cbn [Z.eqb orb]. apply IH; [done | cbn; lia].
  - destruct (Z.eqb_spec c 10) as [-> |]; cbn [orb].
    + destruct (H5 eq_refl) as (l & Hh & Hne). destruct out as [| l' out]; [done |]. injection Hh as ->.
      rewrite (proj2 (Z.eqb_neq _ _) Hne). apply IH; [done | cbn in *; lia].
    + apply IH; [done | cbn; lia].
Qed.

(** C34. The text the browser makes of a page fits its array with the
    terminator, contains no tag brackets, no carriage returns, no runs of blanks or
    of line ends and no leading line end; and text that is already like that
    does not change, so formatting twice is the same as formatting once. *)
Theorem format_text_tidy html size :
  (0 < size)%nat →
  let text := browser_format_text html size in
  (length text < size)%nat ∧ tidy_text text ∧ browser_format_text text size = text.
Proof.
  intros Hs. unfold browser_format_text, tidy_text.
  destruct (format_loop_tidy (size - 1) html 0 false false [] I ltac:(cbn; lia)) as [Ht Hl].
  set (out := format_loop _ _ _ _ html []) in *. rewrite rev_involutive, length_rev.
  split_and!; [lia | done |].
  rewrite format_loop_id; rewrite ?rev_involutive, ?app_nil_r, ?length_rev; [done.. | cbn; lia].
Qed.

(** ** Links *)
Definition href (u : bytes) : bytes := bytes_of "href=" ++ [QUOTE] ++ u ++ [QUOTE].
(** A link of the page [html], with strings that fit their arrays. *)
Record link_of (html : bytes) (l : browser_link) : Prop := {
  lo_occurs : ∃ pre post, html = pre ++ href (l_url l) ++ post;
  lo_url : (length (l_url l) < BROWSER_MAX_URL)%nat ∧ QUOTE ∉ l_url l;
  lo_text : (0 < length (l_text l) < 128)%nat;
}.

Lemma itoa_small k : 1 <= k <= 256 → ∃ num, itoa k 10 = Ok num ∧ (length num <= 3)%nat.
Proof.
  intros Hk.
  assert (H : Forall (λ k, match itoa (Z.of_nat k) 10 with Ok num => (length num <=? 3)%nat | _ => false end = true)
                (seq 1 256)) by (apply (bool_decide_unpack _); vm_compute; reflexivity).
  rewrite Forall_forall in H. specialize (H (Z.to_nat k)). rewrite elem_of_seq, Z2Nat.id in H by lia.
  specialize (H ltac:(lia)). destruct (itoa k 10) as [num | | |]; [| done..]. exists num. by rewrite <- Nat.leb_le.
Qed.

(** One occurrence: the address and what follows it. *)
Lemma href_found html r end_ :
  strstr (bytes_of "href=" ++ [QUOTE]) html = Some r → strchr QUOTE (drop 6 r) = Some end_ →
  ∃ pre u post, html = pre ++ href u ++ post ∧ u = take (length (drop 6 r) - length end_) (drop 6 r) ∧
    post = drop 1 end_ ∧ QUOTE ∉ u ∧ (length post < length html)%nat.
Proof.
  intros (pre & rest & -> & -> & _)%strstr_some Hend. rewrite drop_app_length' in * by done.
  apply strchr_some in Hend as (u & post & -> & -> & Hu). exists pre, u, post. cbn [drop].
  assert (length (u ++ QUOTE :: post) - length (QUOTE :: post) = length u)%nat as -> by (rewrite length_app; lia).
  rewrite take_app_length. split_and!; [| done | done | done |].
  - unfold href. by rewrite <- !app_assoc.
  - rewrite !length_app. cbn. lia.
Qed.

Lemma add_link whole l ls n :
  length ls = BROWSER_MAX_LINKS → (n < BROWSER_MAX_LINKS)%nat → link_of whole l →
  (∀ i, (i < n)%nat → link_of whole (ls !!! i)) →
  length (<[n := l]> ls) = BROWSER_MAX_LINKS ∧ ∀ i, (i < S n)%nat → link_of whole (<[n := l]> ls !!! i).
Proof.
  intros Hlen Hn Hl Hi. rewrite length_insert. split; [done |]. intros i H.
  destruct (decide (i = n)) as [-> |].
  - rewrite list_lookup_total_insert_eq by lia. done.
  - rewrite list_lookup_total_insert_ne by done. apply Hi. lia.
Qed.

Lemma extract_loop_ok whole : ∀ fuel html before k n ls,
  whole = before ++ html → (length html < fuel)%nat → 1 <= k <= Z.of_nat n + 1 → (n <= BROWSER_MAX_LINKS)%nat →
  length ls = BROWSER_MAX_LINKS → (∀ i, (i < n)%nat → link_of whole (ls !!! i)) →
  ∃ n' ls', extract_loop fuel html k n ls = Ok (n', ls') ∧ (n' <= BROWSER_MAX_LINKS)%nat ∧
    length ls' = BROWSER_MAX_LINKS ∧ ∀ i, (i < n')%nat → link_of whole (ls' !!! i).
Proof.
  induction fuel as [| fuel IH]; intros html before k n ls Hw Hf Hk Hn Hlen Hi; [lia |]. cbn [extract_loop].
  destruct (_ || _) eqn:E; [by exists n, ls |]. apply orb_false_elim in E as [_ Hmax%Nat.leb_gt].
  destruct (strstr _ html) as [r |] eqn:Er; [| by exists n, ls].
  destruct (strchr QUOTE (drop 6 r)) as [end_ |] eqn:Ee; [| by exists n, ls].
  destruct (href_found _ _ _ Er Ee) as (pre & u & post & -> & <- & <- & Hu & Hpost).
  assert (whole = (before ++ pre ++ href u) ++ post) as Hw' by (rewrite Hw, <- !app_assoc; done).
  destruct (Nat.ltb_spec (length u) BROWSER_MAX_URL); [| eapply IH; [exact Hw' | lia..| done | done]].
  assert (Hlink : ∀ t, (0 < length t < 128)%nat → link_of whole (Link u t (-1) (-1))).
  { intros t Ht. split; [| done | done]. exists (before ++ pre), post. by rewrite Hw', <- !app_assoc. }
  destruct (_ && _) eqn:Et.
  - apply andb_prop in Et as [H1%Nat.ltb_lt H2%Nat.ltb_lt].
    destruct (add_link whole (Link u (link_text post) (-1) (-1)) ls n) as [? ?]; [done.. | apply Hlink; lia | done |].
    eapply IH; [exact Hw' | lia | lia | lia | done | done].
  - unfold BROWSER_MAX_LINKS in Hmax. destruct (itoa_small k) as (num & -> & Hnum); [lia |].
    change (mbind ?g (Ok ?x)) with (g x). cbv beta.
    destruct (add_link whole (Link u ([91] ++ num ++ [93]) (-1) (-1)) ls n) as [? ?]; [done.. | | done |].
    { apply Hlink. rewrite !length_app. cbn. lia. }
    eapply IH; [exact Hw' | lia | lia | unfold BROWSER_MAX_LINKS; lia | done | done].
Qed.

(** C35. Reading the links of a page ends, whatever the page: at most 256 links
    are recorded, each with an address that stands in the page between the quotes
    of an href attribute, and with address and text that fit their arrays. *)
Theorem extract_links_ok html ls :
  length ls = BROWSER_MAX_LINKS →
  ∃ n ls', browser_extract_links html ls = Ok (n, ls') ∧ (n <= BROWSER_MAX_LINKS)%nat ∧
    length ls' = BROWSER_MAX_LINKS ∧ ∀ i, (i < n)%nat → link_of html (ls' !!! i).
Proof.
  intros Hlen. unfold browser_extract_links. apply (extract_loop_ok html _ html []); [done | lia | lia | lia | done |].
  intros i Hi. lia.
Qed.

(** ** The place in the page and in the history *)
Section Place.
Context {F T : Type} `{!TcpApi T}.
Variables screen_height screen_width : Z.
Implicit Types b : browser F T.

(** Before the first page is loaded there are no lines, and the code uses -1 as
    the last one. *)
Definition place_ok (p : browser_page) : Prop :=
  (num_lines p = 0 ∧ -1 <= current_line p <= 0) ∨ 0 <= current_line p < num_lines p.
Record browser_ok (b : browser F T) : Prop := {
  bo_place : place_ok (page b);
  bo_links : length (links (page b)) = BROWSER_MAX_LINKS ∧ (num_links (page b) <= BROWSER_MAX_LINKS)%nat;
  bo_urls : length (urls (history b)) = BROWSER_HISTORY_SIZE;
  bo_history : (h_count (history b) <= BROWSER_HISTORY_SIZE)%nat ∧
    (0 <= h_current (history b) < Z.of_nat (h_count (history b)) ∨ h_current (history b) = 0);
}.

(** What rendering, messages and downloading leave alone. *)
Definition frame (b : browser F T) : browser_page * browser_history := (page b, history b).

Lemma frame_env f b : frame (with_env f b) = frame b.
Proof. done. Qed.

Lemma frame_ok b b' : frame b' = frame b → browser_ok b → browser_ok b'.
Proof. intros [= H1 H2] [? ? ? ?]. split; by rewrite ?H1, ?H2. Qed.

Lemma render_lines_frame p m text : ∀ line col k b, frame (render_lines text p m line col k b) = frame b.
Proof.
  induction text as [| c text IH]; intros line col k b; cbn [render_lines]; [done |].
  destruct (m <=? k); [done |]. destruct (c =? 10); [by rewrite IH |]. destruct (link_at _ _ _); by rewrite IH.
Qed.

Lemma browser_render_page_frame b b' : browser_render_page screen_height b = Ok b' → frame b' = frame b.
Proof.
  unfold browser_render_page. intros (x & _ & H)%outcome_bind_ok. apply outcome_bind_ok in H as (y & _ & H).
  apply outcome_bind_ok in H as (z & _ & [= <-]).
  match goal with |- frame (b_color _ _ (b_say _ (b_print _ (b_say _ (b_print _ (b_say _ (b_print _ (b_say _ (b_color _ _ (b_cursor _ _ ?r)))))))))) = _ =>
    change (frame r = frame b) end.
  by rewrite render_lines_frame.
Qed.

Lemma b_getchar_frame b c b' : b_getchar b = Ok (c, b') → frame b' = frame b.
Proof. unfold b_getchar. destruct (keys b); [done |]. by intros [= _ <-]. Qed.

Lemma print_lines_frame l : ∀ b, frame (print_lines l b) = frame b.
Proof. induction l as [| x l IH]; intros b; [done |]. cbn [print_lines]. by rewrite IH. Qed.

Lemma browser_show_help_frame b b' : browser_show_help screen_height b = Ok b' → frame b' = frame b.
Proof.
  unfold browser_show_help. intros ([c b1] & H1%b_getchar_frame & H%browser_render_page_frame)%outcome_bind_ok.
  rewrite H, H1. transitivity (frame (print_lines help_text (b_clear b))); [exact (frame_env _ _) |].
  rewrite print_lines_frame. apply frame_env.
Qed.

Lemma browser_show_frame b b' : browser_show screen_height b = Ok b' → frame b' = frame b.
Proof. unfold browser_show. destruct (browser_active b); [by intros [= <-] |]. by intros H%browser_show_help_frame. Qed.

Lemma browser_error_frame e b b' : browser_error_message e b = Ok b' → frame b' = frame b.
Proof. unfold browser_error_message. by intros (x & _ & [= <-])%outcome_bind_ok. Qed.

Lemma fetch_loop_frame size : ∀ fuel buffer b x b', fetch_loop fuel size buffer b = Ok (x, b') → frame b' = frame b.
Proof.
  induction fuel as [| fuel IH]; intros buffer b x b'; cbn [fetch_loop]; [done |].
  destruct (_ <=? _); [by intros [= _ <-] |]. intros ([y e] & _ & H)%outcome_bind_ok.
  destruct (_ =? 0)%nat; [by injection H as _ <- |]. destruct (_ <? size); [by apply IH in H | by injection H as _ <-].
Qed.

Lemma browser_download_frame fuel url size b x b' :
  browser_download_page fuel url size b = Ok (x, b') → frame b' = frame b.
Proof.
  unfold browser_download_page. destruct (browser_parse_url _ _ _) as [[host path] |]; [| by intros [= _ <-]].
  intros ([r e] & _ & H)%outcome_bind_ok. destruct (negb _); [by injection H as _ <- |].
  apply outcome_bind_ok in H as ([r' e'] & _ & H). destruct (negb _); [by injection H as _ <- |].
  apply outcome_bind_ok in H as ([buf b1] & H1%fetch_loop_frame & H).
  destruct (strstr _ _); injection H as _ <-; exact H1.
Qed.

Lemma parse_html_place html p p' : browser_parse_html html p = Ok p' → length (links p) = BROWSER_MAX_LINKS →
  place_ok p' ∧ length (links p') = BROWSER_MAX_LINKS ∧ (num_links p' <= BROWSER_MAX_LINKS)%nat.
Proof.
  unfold browser_parse_html. intros ([n ls] & H & [= <-])%outcome_bind_ok Hl. cbn [links num_links].
  unfold browser_extract_links in H.
  destruct (extract_loop_ok html (S (length html)) html [] 1 0 (links p)) as (n' & ls' & E & Hn & Hls & _);
    [done | lia | lia | lia | done | intros i Hi; lia |].
  rewrite E in H. injection H as <- <-. split_and!; [| done | done].
  right. cbn [current_line num_lines]. unfold count_newlines. lia.
Qed.

Lemma browser_navigate_ok fuel r b b' :
  browser_navigate screen_height screen_width fuel r b = Ok b' → browser_ok b → browser_ok b'.
Proof.
  unfold browser_navigate. intros (b1 & H1%browser_show_frame & H)%outcome_bind_ok Hb.
  assert (browser_ok b1) as Hb1 by (by apply (frame_ok b)). clear Hb H1.
  destruct (negb _); [apply browser_error_frame in H; by apply (frame_ok b1) |].
  apply outcome_bind_ok in H as ([x b2] & H2%browser_download_frame & H).
  assert (browser_ok b2) as Hb2 by (by apply (frame_ok b1)). clear Hb1 H2.
  destruct x as [html |]; [| apply browser_error_frame in H; by apply (frame_ok b2)].
  destruct (_ <=? _)%nat; [done |]. apply outcome_bind_ok in H as (p & Hp & H).
  apply outcome_bind_ok in H as (b3 & H3%browser_render_page_frame & H). destruct (_ && _)%bool; [done |].
  injection H as <-. injection H3 as H3p H3h. destruct Hb2 as [_ [Hl _] Hu [Hc Hcur]].
  destruct (parse_html_place _ _ _ Hp Hl) as (Hpl & Hls & Hn).
  split; change (page (browser_status_message _ _ _ (set_history _ b3))) with (page b3); rewrite ?H3p; [done | done | |].
  all: change (history (browser_status_message _ _ _ (set_history ?h b3))) with h; rewrite H3h;
    change (history (set_page _ b2)) with (history b2); unfold add_history;
    destruct (Nat.ltb_spec (h_count (history b2)) BROWSER_HISTORY_SIZE); cbn [urls h_count h_current];
    rewrite ?length_insert; try done; lia.
Qed.

Lemma go_to_line_ok l b b' : go_to_line screen_height l b = Ok b' → place_ok (set_line l (page b)) →
  browser_ok b → browser_ok b'.
Proof.
  unfold go_to_line. intros H%browser_render_page_frame Hl [_ H2 H3 H4].
  eapply frame_ok; [exact H |]. by split.
Qed.

Lemma browser_history_ok fuel c b b' :
  browser_navigate screen_height screen_width fuel (HistoryUrl (Z.to_nat c))
    (set_history (History (urls (history b)) c (h_count (history b))) b) = Ok b' →
  0 <= c < Z.of_nat (h_count (history b)) → browser_ok b → browser_ok b'.
Proof.
  intros H Hc [H1 H2 H3 [H4 H5]]. apply browser_navigate_ok in H; [done |]. split; cbn; [done.. |]. auto.
Qed.

Lemma browser_toggle_frame b b' : browser_toggle_links screen_height b = Ok b' → frame b' = frame b.
Proof.
  unfold browser_toggle_links. destruct (showing_links _); [| by intros [= <-]].
  intros (b1 & H1 & H)%outcome_bind_ok.
  apply outcome_bind_ok in H as ([c b2] & H2%b_getchar_frame & H%browser_render_page_frame).
  rewrite H. change (frame (set_showing _ b2)) with (frame b2). rewrite H2.
  transitivity (frame b1); [done |].
  assert (Hl : ∀ ls i b0 b9, list_links i ls b0 = Ok b9 → frame b9 = frame b0).
  { clear. induction ls as [| l ls IH]; intros i b0 b9; cbn [list_links]; [by intros [= <-] |].
    intros (b1 & H1 & H%IH)%outcome_bind_ok. unfold b_dec in H1. apply outcome_bind_ok in H1 as (e & _ & [= <-]).
    etrans; [exact H | done]. }
  apply Hl in H1. etrans; [exact H1 | done].
Qed.

Lemma read_url_frame input : ∀ typed b u b', read_url input typed b = Ok (u, b') → frame b' = frame b.
Proof.
  induction input as [| c input IH]; intros typed b u b'; cbn [read_url];
    (destruct (_ <=? _)%nat; [by intros [= _ <-] |]); [done |].
  destruct (c =? KEY_ENTER); [by intros [= _ <-] |]. destruct (_ && _)%bool; [by apply IH |].
  destruct (_ && _)%bool; [| by apply IH]. intros H%IH. etrans; [exact H | done].
Qed.

Hypothesis height_ok : 4 <= screen_height.

Lemma browser_scroll_ok b b' : browser_ok b →
  browser_scroll_up screen_height b = Ok b' ∨ browser_scroll_down screen_height b = Ok b' ∨
  browser_page_up screen_height b = Ok b' ∨ browser_page_down screen_height b = Ok b' → browser_ok b'.
Proof.
  intros Hb H. pose proof (bo_place _ Hb) as Hp. unfold place_ok in Hp.
  assert (Hgo : ∀ l, go_to_line screen_height l b = Ok b' →
    (num_lines (page b) = 0 ∧ -1 <= l <= 0) ∨ 0 <= l < num_lines (page b) → browser_ok b').
  { intros l Hl Hr. by apply go_to_line_ok in Hl. }
  unfold browser_scroll_up, browser_scroll_down, browser_page_up, browser_page_down in H.
  destruct H as [H | [H | [H | H]]].
  - destruct (Z.ltb_spec 0 (current_line (page b))); [apply Hgo in H; [done | lia] | by injection H as <-].
  - destruct (Z.ltb_spec (current_line (page b)) (num_lines (page b) - 1));
      [apply Hgo in H; [done | lia] | by injection H as <-].
  - apply Hgo in H; [done |]. destruct (Z.ltb_spec (screen_height - 4) (current_line (page b))); lia.
  - apply Hgo in H; [done |].
    destruct (Z.ltb_spec (current_line (page b) + (screen_height - 4)) (num_lines (page b))); lia.
Qed.

Lemma browser_arrow_ok b b' : browser_arrow screen_height b = Ok b' → browser_ok b → browser_ok b'.
Proof.
  unfold browser_arrow. intros ([c b1] & H1%b_getchar_frame & H)%outcome_bind_ok Hb.
  assert (browser_ok b1) as Hb1 by (by apply (frame_ok b)). clear Hb H1.
  destruct (negb _); [by injection H as <- |]. apply outcome_bind_ok in H as ([a b2] & H2%b_getchar_frame & H).
  assert (browser_ok b2) as Hb2 by (by apply (frame_ok b1)). clear Hb1 H2.
  destruct (a =? 65); [eapply browser_scroll_ok; eauto |]. destruct (a =? 66); [eapply browser_scroll_ok; eauto |].
  destruct (a =? 53); [| destruct (a =? 54); [| by injection H as <-]];
    apply outcome_bind_ok in H as ([x b3] & H3%b_getchar_frame & H);
    (assert (browser_ok b3) as Hb3 by (by apply (frame_ok b2)));
    (destruct (x =? 126); [eapply browser_scroll_ok; eauto | by injection H as <-]).
Qed.

Lemma browser_handle_input_ok fuel c b b' :
  browser_handle_input screen_height screen_width fuel c b = Ok b' → browser_ok b → browser_ok b'.
Proof.
  intros H Hb. unfold browser_handle_input in H.
  destruct (c =? 113); [injection H as <-; by apply (frame_ok b) |].
  destruct (c =? 104); [apply browser_show_help_frame in H; by apply (frame_ok b) |].
  destruct (c =? 114).
  { unfold browser_refresh in H. destruct (_ <? _)%nat; [by apply browser_navigate_ok in H | by injection H as <-]. }
  pose proof (bo_history _ Hb) as [_ Hh].
  destruct (c =? 98).
  { unfold browser_back in H. destruct (Z.ltb_spec 0 (h_current (history b))); [| by injection H as <-].
    apply browser_history_ok in H; [done | lia | done]. }
  destruct (c =? 102).
  { unfold browser_forward in H. destruct (Z.ltb_spec (h_current (history b)) (Z.of_nat (h_count (history b)) - 1));
      [| by injection H as <-]. apply browser_history_ok in H; [done | lia | done]. }
  destruct (c =? 108); [apply browser_toggle_frame in H; by apply (frame_ok b) |].
  destruct (c =? 103).
  { apply outcome_bind_ok in H as ([u b1] & H1%read_url_frame & H).
    assert (browser_ok b1) by (by apply (frame_ok b)).
    destruct (_ <? _)%nat; [apply browser_navigate_ok in H; [done |] | injection H as <-]; by apply (frame_ok b1). }
  assert (Hf : ∀ n, browser_follow_link screen_height screen_width fuel n b = Ok b' → browser_ok b').
  { clear H. intros n. unfold browser_follow_link. destruct (_ && _)%bool; [by intros ?%browser_navigate_ok | by intros [= <-]]. }
  destruct (_ && _)%bool; [by apply Hf in H |]. destruct (c =? 48); [by apply Hf in H |].
  destruct (c =? 27); [by apply browser_arrow_ok in H |].
  destruct (c =? 32); [| by injection H as <-]. eapply browser_scroll_ok; eauto.
Qed.

(** The states of the browser between keys: it starts with or without a URL,
    and keys are handled while the rest of the system changes. *)
Inductive browsing : browser F T → Prop :=
| browsing_start fuel args b b' : lynx_start screen_height screen_width fuel args b = Ok b' → browsing b'
| browsing_other b b' : browsing b → frame b' = frame b → browsing b'
| browsing_key fuel c b b' : browsing b → browser_handle_input screen_height screen_width fuel c b = Ok b' → browsing b'.

End Place.
