(* ===== verification/BrowserWitness.v ===== *)
(** * The browser on a page of one link *)
From S2P Require Import Prelude Screen ScreenSpec CString Heap HeapSpec HeapWitness Keyboard Net Solixfs Vfs Printk PrintkSpec.
From S2P Require Import Apps Browser BrowserSpec.

#[local] Instance one_answer : TcpApi (list bytes) := {|
  tcp_connect _ _ := λ t, Ok (0, t);
  tcp_send _ := λ t, Ok (0, t);
  tcp_receive _ := λ t, match t with b :: t => Ok (b, t) | [] => Ok ([], []) end;
|}.

Definition a_page : bytes :=
  bytes_of "<p>Hello  <a href=" ++ [QUOTE] ++ bytes_of "http://10.0.0.1/x" ++ [QUOTE] ++ bytes_of "><b> more </b></a></p>".

Lemma format_text_tidy_witness : tidy_text (browser_format_text a_page 32).
Proof. apply (format_text_tidy a_page 32). lia. Defined.

Lemma extract_links_ok_witness :
  ∃ n ls, browser_extract_links a_page (replicate BROWSER_MAX_LINKS (Link [] [] 0 0)) = Ok (n, ls) ∧
    n = 1%nat ∧ link_of a_page (ls !!! 0%nat).
Proof.
  destruct (extract_links_ok a_page (replicate BROWSER_MAX_LINKS (Link [] [] 0 0)) (length_replicate _ _))
    as (n & ls & H & _ & _ & Hl).
  assert (n = 1%nat) as Hn by (vm_compute in H; injection H as <- _; reflexivity).
  exists n, ls. split; [exact H |]. split; [exact Hn |]. apply Hl. rewrite Hn. lia.
Defined.

Definition answer : bytes := bytes_of "HTTP/1.1 200 OK" ++ crlf ++ crlf ++ a_page.
Definition a_device : net_device := NetDevice 0 (bytes_of "eth0") [] 0 true true.
Definition before : browser (list bytes) (list bytes) :=
  Browser (Env (Net [a_device] [] [] 7 boot [] (screen_boot ∅)) [] [answer]) [32; 32]
    (Page [] [] [] 0 0 0) (History [] 0 0) false false.
Definition loaded : browser (list bytes) (list bytes) :=
  match lynx_start 25 80 5 [bytes_of "http://10.0.0.1/"] before with Ok b => b | _ => before end.
Definition paged : browser (list bytes) (list bytes) :=
  match browser_handle_input 25 80 5 32 loaded with Ok b => b | _ => loaded end.

