(* ===== verification/Ifconfig.v ===== *)
(** * Network interface configuration (src/apps/net/ifconfig.c)

    The devices are reached through the array of pointers of the network stack;
    here they carry the netmask and the gateway, which only this program uses. *)
From S2P Require Import Prelude Screen Net NetSpec.

Record ifdev := IfDev { if_dev : net_device; netmask : Z; gateway : Z }.
(** The 16 pointers of [devices], [num_devices], the devices by address, the screen. *)
Record ifs := Ifs { if_array : list Z; if_num : nat; if_store : gmap Z ifdev; if_screen : screen }.
Definition if_say (x : bytes) (s : ifs) : ifs := Ifs (if_array s) (if_num s) (if_store s) (screen_print x (if_screen s)).
Definition put_ifdev (p : Z) (d : ifdev) (s : ifs) : ifs := Ifs (if_array s) (if_num s) (<[p := d]> (if_store s)) (if_screen s).
Definition set_ip (ip : Z) (d : ifdev) : ifdev :=
  let x := if_dev d in IfDev (NetDevice (dev_id x) (dev_name x) (mac x) ip (up x) (transmit x)) (netmask d) (gateway d).
Definition set_netmask (m : Z) (d : ifdev) : ifdev := IfDev (if_dev d) m (gateway d).
Definition set_gateway (g : Z) (d : ifdev) : ifdev := IfDev (if_dev d) (netmask d) g.

Definition get_if (p : Z) (s : ifs) : outcome ifdev := match if_store s !! p with Some d => Ok d | None => Fault end.

(** [net_get_device_by_index]: the entries that are not null count. *)
Fixpoint by_index (l : list Z) (count index : nat) : Z :=
  match l with
  | [] => NULL
  | p :: l => if p =? NULL then by_index l count index else if (count =? index)%nat then p else by_index l (S count) index
  end.
Definition net_get_device_by_index (index : nat) (s : ifs) : Z :=
  if (16 <=? index)%nat then NULL else by_index (take 16 (if_array s)) 0 index.

(** [net_get_device] on the array. *)
Fixpoint find_named (n i : nat) (name : bytes) (s : ifs) : outcome Z :=
  match n with
  | O => Ok NULL
  | S n =>
    d ← get_if (if_array s !!! i) s;
    if bool_decide (dev_name (if_dev d) = name) then Ok (if_array s !!! i) else find_named n (S i) name s
  end.

Fixpoint mac_text (first : bool) (m : bytes) (s : ifs) : ifs :=
  match m with
  | [] => s
  | b :: m =>
    let s := if first then s else if_say (bytes_of ":") s in
    mac_text false m (Ifs (if_array s) (if_num s) (if_store s) (screen_print_hex b (if_screen s)))
  end.

(** The listing from index [i] on. *)
Fixpoint list_devices (n i : nat) : cmd ifs unit := λ s,
  match n with
  | O => Ok (tt, s)
  | S n =>
    let p := net_get_device_by_index i s in
    if p =? NULL then Ok (tt, s) else
    d ← get_if p s;
    let gap := bytes_of "      " in
    let s := if_say (dev_name (if_dev d) ++ bytes_of "            ") s in
    let s := if_say (ip_ntoa (ip_addr (if_dev d)) ++ gap) s in
    let s := if_say (ip_ntoa (netmask d) ++ gap) s in
    let s := if_say (ip_ntoa (gateway d) ++ gap) s in
    list_devices n (S i) (if_say [10] (mac_text true (take 6 (mac (if_dev d))) s))
  end.

(** The arguments after the program's name. *)
Definition ifconfig_main (args : list bytes) : cmd ifs Z := λ s,
  match args with
  | [] =>
    let s := if_say (bytes_of "Interface      IP Address      Netmask         Gateway         MAC Address" ++ [10]) s in
    let s := if_say (bytes_of "-----------------------------------------------------------------------------" ++ [10]) s in
    '(_, s) ← list_devices 16 0 s; Ok (0, s)
  | [_] => Ok (1, if_say (bytes_of "Usage: ifconfig <interface> <ip_address> [netmask] [gateway]" ++ [10]) s)
  | name :: ip :: rest =>
    p ← find_named (if_num s) 0 name s;
    if p =? NULL then Ok (1, if_say (bytes_of "Interface not found: " ++ name ++ [10]) s) else
    d ← get_if p s;
    let d := set_ip (ip_aton ip) d in
    let d := match rest with m :: _ => set_netmask (ip_aton m) d | [] => d end in
    let d := match rest with _ :: g :: _ => set_gateway (ip_aton g) d | _ => d end in
    Ok (0, if_say (bytes_of "Interface " ++ dev_name (if_dev d) ++ bytes_of " configured" ++ [10]) (put_ifdev p d s))
  end.

(** ** What it does *)

(** The pointers in use are to devices. *)
Definition ifs_ok (s : ifs) : Prop :=
  (if_num s <= length (if_array s))%nat ∧ ∀ p, p ∈ take (if_num s) (if_array s) → p ≠ NULL ∧ is_Some (if_store s !! p).

Lemma find_named_spec name s n : ∀ i, ifs_ok s → (i + n = if_num s)%nat →
  ∃ p, find_named n i name s = Ok p ∧
    (p = NULL ∧ (∀ j d, (i <= j < if_num s)%nat → if_store s !! (if_array s !!! j) = Some d → dev_name (if_dev d) ≠ name) ∨
     p ≠ NULL ∧ ∃ d, if_store s !! p = Some d ∧ dev_name (if_dev d) = name).
Proof.
  induction n as [| n IH]; intros i Hok Hin; cbn [find_named]; [exists NULL; split; [done |]; left; split; [done |]; lia |].
  pose proof Hok as [Hn Hk].
  assert (Hp : if_array s !!! i ∈ take (if_num s) (if_array s)).
  { apply list_elem_of_lookup. exists i. rewrite lookup_take_lt by lia. apply list_lookup_lookup_total_lt. lia. }
  destruct (Hk _ Hp) as [Hnn [d Hd]]. unfold get_if. rewrite Hd. ok_bind. cbv beta.
  destruct (bool_decide_reflect (dev_name (if_dev d) = name)) as [E | Hne]; [by exists (if_array s !!! i); split; [| right; eauto] |].
  destruct (IH (S i) Hok ltac:(lia)) as (p & Hf & Hc). exists p. split; [done |].
  destruct Hc as [[-> Hj] | ?]; [left; split; [done |] | by right].
  intros j d' Hji Hd'. destruct (decide (j = i)) as [-> |]; [congruence | apply (Hj j d'); [lia | done]].
Qed.

(** [ifconfig name address netmask gateway] with the addresses as they are
    printed gives the device of that name these addresses and changes no other
    device; it reports failure and changes nothing but the screen when no device
    has the name. *)
Theorem ifconfig_sets name ip m g s :
  ifs_ok s → is_u32 ip → is_u32 m → is_u32 g →
  ∃ r s', ifconfig_main [name; ip_ntoa ip; ip_ntoa m; ip_ntoa g] s = Ok (r, s') ∧
    (r = 0 ∧ (∃ p d, if_store s !! p = Some d ∧ dev_name (if_dev d) = name ∧
        if_store s' = <[p := set_gateway g (set_netmask m (set_ip ip d))]> (if_store s)) ∨
     r = 1 ∧ if_store s' = if_store s ∧
       ∀ j d, (j < if_num s)%nat → if_store s !! (if_array s !!! j) = Some d → dev_name (if_dev d) ≠ name).
Proof.
  intros Hok Hip Hm Hg. unfold ifconfig_main. destruct (find_named_spec name s (if_num s) 0 Hok eq_refl) as (p & -> & Hc). ok_bind.
  cbv beta. destruct Hc as [[-> Hno] | (Hp & d & Hd & Hname)].
  - eexists 1, _. split; [done |]. right. split_and!; [done | done |]. intros j d Hj. apply Hno. lia.
  - rewrite (proj2 (Z.eqb_neq _ _) Hp). unfold get_if. rewrite Hd. ok_bind. cbv beta zeta. rewrite !ip_aton_ntoa by done.
    eexists 0, _. split; [done |]. left. split; [done |]. by exists p, d.
Qed.

Lemma ifconfig_sets_witness : ∃ r s', ifconfig_main [bytes_of "eth0"; ip_ntoa 0x0A000002; ip_ntoa 0xFF000000; ip_ntoa 0x0A000001]
    (Ifs (64 :: replicate 15 0) 1 {[ 64 := IfDev (NetDevice 64 (bytes_of "eth0") [1; 2; 3; 4; 5; 6] 0 true true) 0 0 ]} (screen_boot ∅)) = Ok (r, s').
Proof.
  set (s := Ifs _ _ _ _).
  assert (Hok : ifs_ok s).
  { split; [cbn; lia |]. intros p Hp. cbn in Hp. apply list_elem_of_singleton in Hp as ->. split; [discriminate | eexists; reflexivity]. }
  destruct (ifconfig_sets (bytes_of "eth0") 0x0A000002 0xFF000000 0x0A000001 s Hok) as (r & s' & H & _);
    [unfold is_u32; lia | unfold is_u32; lia | unfold is_u32; lia |].
  exists r, s'. exact H.
Defined.
