(* ===== verification/Wifi.v ===== *)
(** * The WiFi layer (src/drivers/wifi.c, src/include/wifi.h)

    A table of at most eight devices; scanning and connecting go to the first
    one.  The drivers are not in the sources: their operations are parameters.
    The table as a multiset of devices, and the failures of the calls. *)
From S2P Require Import Prelude Screen.

Definition WIFI_MAX_DEVICES : nat := 8.
Definition WIFI_SECURITY_OPEN : Z := 0.
Definition WIFI_SECURITY_WEP : Z := 1.
Definition WIFI_SECURITY_WPA : Z := 2.
Definition WIFI_SECURITY_WPA2 : Z := 3.

Record wifi_network := WifiNetwork {
  ssid : bytes; bssid : bytes; security : Z; channel : Z; rssi : Z; net_connected : bool;
}.
(** The operations are numbers of drivers; [None] is a null pointer. *)
Record wifi_device := WifiDevice {
  wifi_name : bytes; dev_scan : option nat; dev_connect : option nat; dev_disconnect : option nat; dev_get_status : option nat;
}.
(** The array of pointers, the count, the devices by address, the screen. *)
Record wifi := Wifi {
  wifi_devices : list Z; num_wifi_devices : nat; wifi_store : gmap Z wifi_device; wifi_screen : screen;
}.
Definition set_wifi_table (t : list Z) (n : nat) (w : wifi) : wifi := Wifi t n (wifi_store w) (wifi_screen w).
Definition wifi_say (x : bytes) (w : wifi) : wifi :=
  Wifi (wifi_devices w) (num_wifi_devices w) (wifi_store w) (screen_print x (wifi_screen w)).

(** [wifi_init] clears the table but not the count. *)
Definition wifi_init (w : wifi) : wifi :=
  wifi_say (bytes_of "WiFi subsystem initialized" ++ [10]) (set_wifi_table (replicate WIFI_MAX_DEVICES NULL) (num_wifi_devices w) w).

Definition get_wifi (p : Z) (w : wifi) : outcome wifi_device :=
  match wifi_store w !! p with Some d => Ok d | None => Fault end.

Definition wifi_register_device (dev : Z) : cmd wifi Z := λ w,
  if (WIFI_MAX_DEVICES <=? num_wifi_devices w)%nat then Ok (-1, w) else
  let w := set_wifi_table (<[num_wifi_devices w := dev]> (wifi_devices w)) (S (num_wifi_devices w)) w in
  d ← get_wifi dev w;
  Ok (0, wifi_say (bytes_of "Registered WiFi device: " ++ wifi_name d ++ [10]) w).

(** The loop from entry [i] on, [n] entries left. *)
Fixpoint unregister_loop (n i : nat) (dev : Z) (w : wifi) : Z * wifi :=
  match n with
  | O => (-1, w)
  | S n =>
    if wifi_devices w !!! i =? dev then
      let k := pred (num_wifi_devices w) in
      (0, set_wifi_table (<[i := wifi_devices w !!! k]> (wifi_devices w)) k w)
    else unregister_loop n (S i) dev w
  end.
Definition wifi_unregister_device (dev : Z) (w : wifi) : Z * wifi := unregister_loop (num_wifi_devices w) 0 dev w.

Fixpoint get_loop (n i : nat) (name : bytes) (w : wifi) : outcome Z :=
  match n with
  | O => Ok NULL
  | S n =>
    d ← get_wifi (wifi_devices w !!! i) w;
    if bool_decide (wifi_name d = name) then Ok (wifi_devices w !!! i) else get_loop n (S i) name w
  end.
Definition wifi_get_device (name : bytes) (w : wifi) : outcome Z := get_loop (num_wifi_devices w) 0 name w.

Section Operations.
(** The operations of the drivers. *)
Variable do_scan : nat → Z → Z → cmd wifi (Z * list wifi_network).
Variable do_connect : nat → Z → bytes → bytes → cmd wifi Z.
Variable do_disconnect : nat → Z → cmd wifi Z.
Variable do_get_status : nat → Z → cmd wifi Z.

(** The first device and one of its operations, or the failure. *)
Definition with_first {A} (op : wifi_device → option nat) (fail : A) (run : nat → Z → cmd wifi A) : cmd wifi A := λ w,
  if (num_wifi_devices w =? 0)%nat then Ok (fail, w) else
  let p := wifi_devices w !!! 0%nat in
  d ← get_wifi p w;
  match op d with None => Ok (fail, w) | Some f => run f p w end.

Definition wifi_scan (max_count : Z) : cmd wifi (Z * list wifi_network) :=
  with_first dev_scan (-1, []) (λ f p, do_scan f p max_count).

Definition wifi_connect (name password : bytes) : cmd wifi Z :=
  with_first dev_connect (-1) (λ f p w,
    let w := wifi_say (bytes_of "Connecting to " ++ name ++ bytes_of "..." ++ [10]) w in
    '(result, w) ← do_connect f p name password w;
    Ok (result, wifi_say (bytes_of (if result =? 0 then "Connected to " else "Failed to connect to ") ++ name ++ [10]) w)).

Definition wifi_disconnect : cmd wifi Z :=
  with_first dev_disconnect (-1) (λ f p w,
    '(result, w) ← do_disconnect f p w;
    Ok (result, if result =? 0 then wifi_say (bytes_of "Disconnected from WiFi" ++ [10]) w else w)).

Definition wifi_get_status : cmd wifi Z := with_first dev_get_status (-1) (λ f p, do_get_status f p).
End Operations.

Definition wifi_security_to_string (s : Z) : string :=
  if s =? WIFI_SECURITY_OPEN then "Open" else if s =? WIFI_SECURITY_WEP then "WEP"
  else if s =? WIFI_SECURITY_WPA then "WPA" else if s =? WIFI_SECURITY_WPA2 then "WPA2" else "Unknown".

Definition wifi_rssi_to_percent (r : Z) : Z :=
  if -50 <=? r then 100 else if -60 <=? r then 80 else if -70 <=? r then 60
  else if -80 <=? r then 40 else if -90 <=? r then 20 else 10.

(** ** The table as a multiset *)
Record wifi_ok (w : wifi) : Prop := {
  wf_len : length (wifi_devices w) = WIFI_MAX_DEVICES;
  wf_num : (num_wifi_devices w <= WIFI_MAX_DEVICES)%nat;
  wf_known : ∀ p, p ∈ take (num_wifi_devices w) (wifi_devices w) → p ≠ NULL ∧ is_Some (wifi_store w !! p);
}.
Definition present_devices (w : wifi) : list Z := take (num_wifi_devices w) (wifi_devices w).

Lemma present_lookup w i : wifi_ok w → (i < num_wifi_devices w)%nat → present_devices w !! i = Some (wifi_devices w !!! i).
Proof.
  intros [Hl Hn _] Hi. unfold present_devices. rewrite lookup_take_lt by done.
  apply list_lookup_lookup_total_lt. unfold WIFI_MAX_DEVICES in *. lia.
Qed.

Lemma register_present w dev d : wifi_ok w → dev ≠ NULL → wifi_store w !! dev = Some d →
  (num_wifi_devices w < WIFI_MAX_DEVICES)%nat →
  ∃ w', wifi_register_device dev w = Ok (0, w') ∧ wifi_ok w' ∧ present_devices w' = present_devices w ++ [dev].
Proof.
  intros [Hl Hn Hk] Hdev Hd Hlt. unfold wifi_register_device. rewrite (proj2 (Nat.leb_gt _ _)) by done.
  unfold get_wifi. cbn [wifi_store set_wifi_table]. rewrite Hd. eexists. split; [reflexivity |].
  assert (Hp : take (S (num_wifi_devices w)) (<[num_wifi_devices w := dev]> (wifi_devices w)) = present_devices w ++ [dev]).
  { rewrite (take_S_r _ _ dev) by (apply list_lookup_insert_eq; unfold WIFI_MAX_DEVICES in *; lia). by rewrite take_insert_ge. }
  split; [| exact Hp]. split; cbn [wifi_devices num_wifi_devices wifi_store wifi_say set_wifi_table].
  - by rewrite length_insert.
  - lia.
  - rewrite Hp. intros p [Hin | ->%list_elem_of_singleton]%elem_of_app; [by apply Hk | by split; [| exists d]].
Qed.

(** Overwriting an entry with the last one and shortening. *)
Lemma swap_last (l : list Z) n i : (i < n)%nat → (n <= length l)%nat →
  l !!! i :: take (pred n) (<[i := l !!! (pred n)]> l) ≡ₚ take n l.
Proof.
  intros Hi Hn. destruct n as [| n]; [lia |]. cbn [pred].
  destruct (lookup_lt_is_Some_2 l n) as [x Hx]; [lia |]. rewrite (list_lookup_total_correct _ _ _ Hx).
  destruct (lookup_lt_is_Some_2 l i) as [y Hy]; [lia |]. rewrite (list_lookup_total_correct _ _ _ Hy).
  rewrite (take_S_r _ _ _ Hx). destruct (decide (i = n)) as [-> | Hne].
  - rewrite take_insert_ge by lia. rewrite Permutation_cons_append. by simplify_eq.
  - rewrite take_insert_lt by lia.
    assert (Hy' : take n l !! i = Some y) by (by rewrite lookup_take_lt by lia).
    rewrite <- Permutation_cons_append. symmetry. rewrite <- (take_drop_middle _ _ _ Hy') at 1.
    rewrite insert_take_drop by (apply lookup_lt_Some in Hy'; done).
    rewrite <- !Permutation_middle. constructor.
Qed.

Lemma unregister_loop_spec dev w n : ∀ i, wifi_ok w → (i + n = num_wifi_devices w)%nat →
  match unregister_loop n i dev w with
  | (0, w') => wifi_ok w' ∧ dev :: present_devices w' ≡ₚ present_devices w
  | (r, w') => r = -1 ∧ w' = w ∧ ∀ j, (i <= j < i + n)%nat → wifi_devices w !!! j ≠ dev
  end.
Proof.
  induction n as [| n IH]; intros i Hok Hin; cbn [unregister_loop]; [split_and!; [done | done | lia] |].
  destruct (Z.eqb_spec (wifi_devices w !!! i) dev) as [E | Hne].
  - pose proof Hok as [Hl Hn Hk]. unfold WIFI_MAX_DEVICES in *.
    pose proof (swap_last (wifi_devices w) (num_wifi_devices w) i ltac:(lia) ltac:(lia)) as Hp. rewrite E in Hp.
    split; [| exact Hp]. split; cbn [wifi_devices num_wifi_devices wifi_store set_wifi_table].
    + by rewrite length_insert.
    + unfold WIFI_MAX_DEVICES. lia.
    + intros p Hpin. apply Hk. rewrite <- Hp. by right.
  - specialize (IH (S i) Hok ltac:(lia)). destruct (unregister_loop n (S i) dev w) as [[| r | r] w'].
    + done.
    + by destruct IH as [? _].
    + destruct IH as (? & ? & Hj). split_and!; [done | done |]. intros j Hji. destruct (decide (j = i)) as [-> |]; [done | apply Hj; lia].
Qed.

(** The table is a multiset of devices: registering adds a device unless eight
    are there, unregistering takes one occurrence out or fails and changes
    nothing when the device is not registered; the devices stay known. *)
Theorem wifi_registry w dev d : wifi_ok w → dev ≠ NULL → wifi_store w !! dev = Some d →
  (∃ r w', wifi_register_device dev w = Ok (r, w') ∧ wifi_ok w' ∧
     (r = 0 ∧ present_devices w' = present_devices w ++ [dev] ∨ r = -1 ∧ w' = w ∧ length (present_devices w) = 8%nat)) ∧
  let '(r, w') := wifi_unregister_device dev w in
  wifi_ok w' ∧ (r = 0 ∧ dev :: present_devices w' ≡ₚ present_devices w ∨ r = -1 ∧ w' = w ∧ dev ∉ present_devices w).
Proof.
  intros Hok Hdev Hd. pose proof Hok as [Hl Hn Hk]. split.
  - destruct (decide (num_wifi_devices w < WIFI_MAX_DEVICES)%nat) as [Hlt | Hge].
    + destruct (register_present w dev d Hok Hdev Hd Hlt) as (w' & Hr & Hok' & Hp). exists 0, w'. split_and!; [done | done | by left].
    + exists (-1), w. unfold wifi_register_device. rewrite (proj2 (Nat.leb_le _ _)) by lia. split; [done |]. split; [done |].
      right. split_and!; [done | done |]. unfold present_devices. rewrite length_take. unfold WIFI_MAX_DEVICES in *. lia.
  - unfold wifi_unregister_device. pose proof (unregister_loop_spec dev w (num_wifi_devices w) 0 Hok eq_refl) as Hu.
    destruct (unregister_loop _ _ _ _) as [[| r | r] w'].
    + destruct Hu as [Hok' Hp]. split; [done | by left].
    + by destruct Hu as [? _].
    + destruct Hu as (-> & -> & Hj). split; [done |]. right. split_and!; [done | done |].
      intros (i & Hi)%list_elem_of_lookup. assert (i < num_wifi_devices w)%nat.
      { apply lookup_lt_Some in Hi. unfold present_devices in Hi. rewrite length_take in Hi. lia. }
      rewrite present_lookup in Hi by done. injection Hi as Hi. by apply (Hj i); [lia |].
Qed.

(** A stronger signal is never a lower percentage. *)
Theorem rssi_monotone r r' : r <= r' → 10 <= wifi_rssi_to_percent r <= wifi_rssi_to_percent r' ∧ wifi_rssi_to_percent r' <= 100.
Proof. intros Hr. unfold wifi_rssi_to_percent. repeat case_match; lia. Qed.

(** After [wifi_init] with devices registered before, every call goes through a
    null pointer. *)
Theorem wifi_init_dangling w get st : num_wifi_devices w ≠ 0%nat → wifi_store w !! NULL = None →
  wifi_get_status get (wifi_init w) = Fault ∧ wifi_get_device st (wifi_init w) = Fault.
Proof.
  intros Hn Hnull. unfold wifi_get_status, with_first, wifi_get_device. cbn [num_wifi_devices wifi_init wifi_say set_wifi_table].
  rewrite (proj2 (Nat.eqb_neq _ _) Hn). destruct (num_wifi_devices w) as [| n]; [done |]. cbn [get_loop].
  unfold get_wifi. cbn [wifi_store wifi_devices wifi_init wifi_say set_wifi_table].
  change (replicate WIFI_MAX_DEVICES NULL !!! 0%nat) with NULL. rewrite Hnull. done.
Qed.

Lemma wifi_registry_witness : ∃ w', wifi_unregister_device 64
    (Wifi [64; 128; 0; 0; 0; 0; 0; 0] 2 {[ 64 := WifiDevice (bytes_of "wlan0") None None None None; 128 := WifiDevice (bytes_of "wlan1") None None None None ]} (screen_boot ∅)) = (0, w') ∧
  present_devices w' = [128].
Proof.
  set (w := Wifi _ _ _ _).
  assert (Hok : wifi_ok w).
  { split; [reflexivity | cbn; unfold WIFI_MAX_DEVICES; lia |]. intros p Hp. cbn in Hp.
    apply elem_of_cons in Hp as [-> | Hp%list_elem_of_singleton]; [| subst p]; (split; [discriminate | eexists; reflexivity]). }
  destruct (wifi_registry w 64 (WifiDevice (bytes_of "wlan0") None None None None) Hok ltac:(discriminate) eq_refl) as [_ _].
  eexists. split; reflexivity.
Defined.
