(* ===== verification/Ethernet.v ===== *)
(** * The RTL8139 network card (src/drivers/ethernet.c)

    The card and the PCI bus are hardware: a function from the port accesses so
    far to the value the next read returns.  The driver finds the card, owns a
    ring of four transmit buffers and a receive buffer, and hands what it
    receives to the network stack ([Net]). *)
From S2P Require Import Prelude Heap Frames Screen Net.

Definition RTL8139_PORT_BASE : Z := 0xC000.
Definition RTL8139_IRQ : Z := 32.
Definition RTL8139_IDR : Z := 0x00.
Definition RTL8139_CMD : Z := 0x37.
Definition RTL8139_CAPR : Z := 0x38.
Definition RTL8139_CBA : Z := 0x30.
Definition RTL8139_IMR : Z := 0x3C.
Definition RTL8139_ISR : Z := 0x3E.
Definition RTL8139_TSD : Z := 0x10.
Definition RTL8139_RCR : Z := 0x44.
Definition RTL8139_RBSTART : Z := 0x30.
Definition CMD_RESET : Z := 0x10.
Definition CMD_TX_ENABLE : Z := 0x04.
Definition CMD_RX_ENABLE : Z := 0x08.
Definition RX_BUFFER_SIZE : Z := 8192.
Definition TX_BUFFER_SIZE : Z := 1536.
Definition CONFIG_ADDRESS : Z := 0xCF8.
Definition CONFIG_DATA : Z := 0xCFC.

(** An access to a port: a read, or a write of a value. *)
Inductive access := In (port : Z) | Out (port value : Z).

(** The static variables.  [rx_data] and [tx_data] are the contents of the
    buffers; [accesses] the port accesses, the last one first; [vector] the
    interrupt vector the handler is registered for. *)
Record nic := Nic {
  nic_dev : net_device;
  rx_buffer : Z;
  rx_data : bytes;
  tx_buffers : list Z;
  tx_data : list bytes;
  current_tx_buffer : nat;
  accesses : list access;
  vector : option Z;
  nic_net : net;
}.
Definition set_nic_dev (x : net_device) (s : nic) : nic :=
  Nic x (rx_buffer s) (rx_data s) (tx_buffers s) (tx_data s) (current_tx_buffer s) (accesses s) (vector s) (nic_net s).
Definition set_rx_buffer (x : Z) (s : nic) : nic :=
  Nic (nic_dev s) x (rx_data s) (tx_buffers s) (tx_data s) (current_tx_buffer s) (accesses s) (vector s) (nic_net s).
Definition set_tx_buffers (x : list Z) (s : nic) : nic :=
  Nic (nic_dev s) (rx_buffer s) (rx_data s) x (tx_data s) (current_tx_buffer s) (accesses s) (vector s) (nic_net s).
Definition set_tx_data (x : list bytes) (s : nic) : nic :=
  Nic (nic_dev s) (rx_buffer s) (rx_data s) (tx_buffers s) x (current_tx_buffer s) (accesses s) (vector s) (nic_net s).
Definition set_current_tx (x : nat) (s : nic) : nic :=
  Nic (nic_dev s) (rx_buffer s) (rx_data s) (tx_buffers s) (tx_data s) x (accesses s) (vector s) (nic_net s).
Definition add_access (x : access) (s : nic) : nic :=
  Nic (nic_dev s) (rx_buffer s) (rx_data s) (tx_buffers s) (tx_data s) (current_tx_buffer s) (x :: accesses s) (vector s) (nic_net s).
Definition set_vector (x : option Z) (s : nic) : nic :=
  Nic (nic_dev s) (rx_buffer s) (rx_data s) (tx_buffers s) (tx_data s) (current_tx_buffer s) (accesses s) x (nic_net s).
Definition set_nic_net (x : net) (s : nic) : nic :=
  Nic (nic_dev s) (rx_buffer s) (rx_data s) (tx_buffers s) (tx_data s) (current_tx_buffer s) (accesses s) (vector s) x.

(** The device is shared with the network stack: its flag changes in both. *)
Definition set_up (b : bool) (d : net_device) : net_device :=
  NetDevice (dev_id d) (dev_name d) (mac d) (ip_addr d) b (transmit d).
Definition mark_up (b : bool) (s : nic) : nic :=
  let s := set_nic_dev (set_up b (nic_dev s)) s in
  set_nic_net (set_devices ((λ d, if dev_id d =? dev_id (nic_dev s) then set_up b d else d) <$> devices (nic_net s)) (nic_net s)) s.

Definition in_net {A} (c : cmd net A) : cmd nic A := λ s, '(a, n) ← c (nic_net s); Ok (a, set_nic_net n s).

Section Driver.
(** What the next read of a port returns. *)
Variable card : list access → Z → Z.
Variable drv : net_device → bytes → Z.
Variable stale : Z.

Definition outp (port value : Z) (s : nic) : nic := add_access (Out port value) s.
Definition inp (port : Z) (s : nic) : Z * nic := (card (accesses s) port, add_access (In port) s).

(** ** PCI *)
Definition config_address (bus slot func offset : Z) : Z :=
  Z.lor (Z.lor (Z.lor (Z.lor (Z.shiftl bus 16) (Z.shiftl slot 11)) (Z.shiftl func 8)) (Z.land offset 0xFC)) 0x80000000.
Definition pci_config_read_word (bus slot func offset : Z) (s : nic) : Z * nic :=
  let s := outp CONFIG_ADDRESS (config_address bus slot func offset) s in
  let '(v, s) := inp CONFIG_DATA s in
  (Z.land (Z.shiftr v (Z.land offset 2 * 8)) 0xFFFF, s).
Definition pci_config_write_word (bus slot func offset value : Z) (s : nic) : nic :=
  outp CONFIG_DATA value (outp CONFIG_ADDRESS (config_address bus slot func offset) s).

(** The three loops of [find_rtl8139]: [n] functions, [n] slots, and buses
    without end, since a [uint8_t] is always below 256. *)
Definition is_rtl8139 (b sl f : Z) (s : nic) : bool * nic :=
  let '(vendor, s) := pci_config_read_word b sl f 0x00 s in
  let '(device, s) := pci_config_read_word b sl f 0x02 s in
  ((vendor =? 0x10EC) && (device =? 0x8139), s).
Fixpoint scan_funcs (n : nat) (b sl f : Z) (s : nic) : option (Z * Z * Z) * nic :=
  match n with
  | O => (None, s)
  | S n =>
    let '(hit, s) := is_rtl8139 b sl f s in
    if hit then (Some (b, sl, f), s) else scan_funcs n b sl (f + 1) s
  end.
Fixpoint scan_slots (n : nat) (b sl : Z) (s : nic) : option (Z * Z * Z) * nic :=
  match n with
  | O => (None, s)
  | S n =>
    match scan_funcs 8 b sl 0 s with
    | (Some r, s) => (Some r, s)
    | (None, s) => scan_slots n b (sl + 1) s
    end
  end.
Fixpoint find_rtl8139 (fuel : nat) (b : Z) : cmd nic (Z * Z * Z) := λ s,
  match fuel with
  | O => Diverge
  | S fuel =>
    match scan_slots 32 b 0 s with
    | (Some r, s) => Ok (r, s)
    | (None, s) => find_rtl8139 fuel (u8 (b + 1)) s
    end
  end.

(** ** The device operations *)
Fixpoint alloc_tx (n i : nat) : cmd nic bool := λ s,
  match n with
  | O => Ok (true, s)
  | S n =>
    '(p, s) ← in_net (net_kmalloc TX_BUFFER_SIZE) s;
    let s := set_tx_buffers (<[i := p]> (tx_buffers s)) s in
    if p =? NULL then Ok (false, s) else alloc_tx n (S i) s
  end.
Fixpoint wait_reset (fuel : nat) : cmd nic unit := λ s,
  match fuel with
  | O => Diverge
  | S fuel =>
    let '(v, s) := inp (RTL8139_PORT_BASE + RTL8139_CMD) s in
    if Z.land v CMD_RESET =? 0 then Ok (tt, s) else wait_reset fuel s
  end.
Definition rtl8139_open (fuel : nat) : cmd nic Z := λ s,
  '(p, s) ← in_net (net_kmalloc RX_BUFFER_SIZE) s;
  let s := set_rx_buffer p s in
  if p =? NULL then Ok (-1, s) else
  '(done, s) ← alloc_tx 4 0 s;
  if negb done then Ok (-1, s) else
  let s := outp (RTL8139_PORT_BASE + RTL8139_CMD) CMD_RESET s in
  '(_, s) ← wait_reset fuel s;
  let s := outp (RTL8139_PORT_BASE + RTL8139_RBSTART) (rx_buffer s) s in
  let s := outp (RTL8139_PORT_BASE + RTL8139_CMD) (Z.lor CMD_TX_ENABLE CMD_RX_ENABLE) s in
  let s := outp (RTL8139_PORT_BASE + RTL8139_RCR) (Z.lor 0x0F (Z.shiftl 1 7)) s in
  let s := outp (RTL8139_PORT_BASE + RTL8139_IMR) 0x0005 s in
  let s := mark_up true s in
  Ok (0, set_nic_net (net_print (bytes_of "RTL8139 network card initialized" ++ [10]) (nic_net s)) s).

Fixpoint free_tx (bs : list Z) : cmd nic unit := λ s,
  match bs with
  | [] => Ok (tt, s)
  | p :: bs => '(_, s) ← in_net (net_kfree p) s; free_tx bs s
  end.
Definition rtl8139_close : cmd nic Z := λ s,
  let s := outp (RTL8139_PORT_BASE + RTL8139_CMD) 0 s in
  '(_, s) ← in_net (net_kfree (rx_buffer s)) s;
  '(_, s) ← free_tx (tx_buffers s) s;
  Ok (0, mark_up false s).

(** [memcpy] to a buffer that was never allocated is a fault. *)
Definition rtl8139_transmit (data : bytes) : cmd nic Z := λ s,
  let len := Z.of_nat (length data) in
  if TX_BUFFER_SIZE <? len then Ok (-1, s) else
  let i := current_tx_buffer s in
  if tx_buffers s !!! i =? NULL then Fault else
  let s := set_tx_data (<[i := data ++ drop (length data) (tx_data s !!! i)]> (tx_data s)) s in
  let s := outp (RTL8139_PORT_BASE + RTL8139_TSD + Z.of_nat i * 4) len s in
  Ok (0, set_current_tx ((i + 1) mod 4)%nat s).

(** ** Reception

    The loop of the handler from position [capr] on; [cbr] was read before it.
    Reads behind the end of the buffer are faults; a length below 4 makes the
    length of the packet wrap around. *)
Definition next_capr (capr packet_len : Z) : Z :=
  let capr := Z.land (capr + packet_len + 4 + 3) (Z.lnot 3) mod 65536 in
  if RX_BUFFER_SIZE <=? capr then capr - RX_BUFFER_SIZE else capr.
Fixpoint rx_loop (fuel : nat) (capr cbr : Z) : cmd nic unit := λ s,
  match fuel with
  | O => Diverge
  | S fuel =>
    if capr =? cbr then Ok (tt, s) else
    if RX_BUFFER_SIZE <? capr + 6 then Fault else
    let packet_len := ntohs (get16 (rx_data s) (Z.to_nat (capr + 2))) in
    '(_, s) ← (if (0 <? packet_len) && (packet_len <? RX_BUFFER_SIZE) then
                 let len := u32 (packet_len - 4) in
                 if RX_BUFFER_SIZE <? capr + 4 + len then Fault else
                 in_net (eth_receive drv (nic_dev s) stale (take (Z.to_nat len) (drop (Z.to_nat (capr + 4)) (rx_data s)))) s
               else Ok (tt, s));
    let capr := next_capr capr packet_len in
    rx_loop fuel capr cbr (outp (RTL8139_PORT_BASE + RTL8139_CAPR) ((capr - 16) mod 65536) s)
  end.
Definition rtl8139_handler (fuel : nat) : cmd nic unit := λ s,
  let '(status, s) := inp (RTL8139_PORT_BASE + RTL8139_ISR) s in
  '(_, s) ← (if Z.land status 1 =? 0 then Ok (tt, s) else
             let '(capr, s) := inp (RTL8139_PORT_BASE + RTL8139_CAPR) s in
             let '(cbr, s) := inp (RTL8139_PORT_BASE + RTL8139_CBA) s in
             rx_loop fuel capr cbr s);
  Ok (tt, outp (RTL8139_PORT_BASE + RTL8139_ISR) status s).

(** ** Initialisation *)
Definition mac_bytes (mac0 mac4 : Z) : bytes :=
  [Z.land mac0 0xFF; Z.land (Z.shiftr mac0 8) 0xFF; Z.land (Z.shiftr mac0 16) 0xFF; Z.land (Z.shiftr mac0 24) 0xFF;
   Z.land mac4 0xFF; Z.land (Z.shiftr mac4 8) 0xFF].
Definition rtl8139_init (fuel : nat) : cmd nic Z := λ s,
  '(r, s) ← find_rtl8139 fuel 0 s;
  let '(bus, slot, func) := r in
  let '(command, s) := pci_config_read_word bus slot func 0x04 s in
  let s := pci_config_write_word bus slot func 0x04 (Z.lor command 0x04) s in
  let '(mac0, s) := inp (RTL8139_PORT_BASE + RTL8139_IDR) s in
  let '(mac4, s) := inp (RTL8139_PORT_BASE + RTL8139_IDR + 4) s in
  let d := NetDevice (dev_id (nic_dev s)) (bytes_of "eth0") (mac_bytes mac0 mac4) (ip_aton (bytes_of "192.168.1.100")) false true in
  let s := set_vector (Some RTL8139_IRQ) (set_nic_dev d s) in
  '(_, s) ← in_net (net_register_device d) s;
  Ok (0, s).
End Driver.
