(* ===== verification/EthernetSpec.v ===== *)
(** * Correctness of the network card driver

    The search for the card, the ring of transmit buffers, and the delivery of
    received packets to the network stack. *)
From S2P Require Import Prelude Heap Frames Screen Net Ethernet.

(** ** The search on the bus

    The configuration registers hold [cfg]: writing an address to the first
    port selects what the second one reads. *)
Section Bus.
Variable card : list access → Z → Z.
Variable cfg : Z → Z.
Hypothesis pci_answers : ∀ h a, card (Out CONFIG_ADDRESS a :: h) CONFIG_DATA = cfg a.

(** Vendor and device number of the card at this place of the bus. *)
Definition present (b sl f : Z) : bool :=
  (Z.land (cfg (config_address b sl f 0)) 0xFFFF =? 0x10EC) &&
  (Z.land (Z.shiftr (cfg (config_address b sl f 0)) 16) 0xFFFF =? 0x8139).

Lemma is_rtl8139_present b sl f s : fst (is_rtl8139 card b sl f s) = present b sl f.
Proof.
  unfold is_rtl8139, pci_config_read_word, inp, outp. cbn [accesses add_access fst]. rewrite !pci_answers.
  unfold present. change (Z.land 0 2 * 8) with 0. rewrite Z.shiftr_0_r. done.
Qed.

Lemma scan_funcs_spec b sl n : ∀ f s,
  match fst (scan_funcs card n b sl f s) with
  | Some r => ∃ f', f <= f' < f + Z.of_nat n ∧ r = (b, sl, f') ∧ present b sl f' = true ∧ ∀ g, f <= g < f' → present b sl g = false
  | None => ∀ g, f <= g < f + Z.of_nat n → present b sl g = false
  end.
Proof.
  induction n as [| n IH]; intros f s; cbn [scan_funcs]; [cbn; lia |].
  pose proof (is_rtl8139_present b sl f s) as Hp. destruct (is_rtl8139 card b sl f s) as [hit s1]. cbn [fst] in Hp. subst hit.
  destruct (present b sl f) eqn:E; cbn [fst].
  - exists f. split_and!; [lia | lia | done | done | lia].
  - specialize (IH (f + 1) s1). destruct (fst (scan_funcs card n b sl (f + 1) s1)) as [r |].
    + destruct IH as (f' & Hf & Hr & Hp & Hb). exists f'. split_and!; [lia | lia | done | done |].
      intros g Hg. destruct (Z.eq_dec g f) as [-> |]; [done | apply Hb; lia].
    + intros g Hg. destruct (Z.eq_dec g f) as [-> |]; [done | apply IH; lia].
Qed.

(** The order of the search within a bus. *)
Definition before (sl f sl' f' : Z) : Prop := sl < sl' ∨ sl = sl' ∧ f < f'.

Lemma scan_slots_spec b n : ∀ sl s,
  match fst (scan_slots card n b sl s) with
  | Some r => ∃ sl' f', sl <= sl' < sl + Z.of_nat n ∧ 0 <= f' < 8 ∧ r = (b, sl', f') ∧ present b sl' f' = true ∧
      ∀ x g, sl <= x → 0 <= g < 8 → before x g sl' f' → present b x g = false
  | None => ∀ x g, sl <= x < sl + Z.of_nat n → 0 <= g < 8 → present b x g = false
  end.
Proof.
  induction n as [| n IH]; intros sl s; cbn [scan_slots]; [cbn; lia |].
  pose proof (scan_funcs_spec b sl 8 0 s) as Hf. destruct (scan_funcs card 8 b sl 0 s) as [[r |] s1]; cbn [fst] in Hf |- *.
  - destruct Hf as (f' & Hf' & -> & Hp & Hb). exists sl, f'. split_and!; [lia | lia | lia | lia | done | done |].
    intros x g Hx Hg [Hlt | [-> Hlt]]; [lia | apply Hb; lia].
  - specialize (IH (sl + 1) s1). destruct (fst (scan_slots card n b (sl + 1) s1)) as [r |].
    + destruct IH as (sl' & f' & Hs & Hf' & -> & Hp & Hb). exists sl', f'. split_and!; [lia | lia | lia | lia | done | done |].
      intros x g Hx Hg Hlt. destruct (Z.eq_dec x sl) as [-> |]; [apply Hf; lia | apply Hb; [lia | lia | done]].
    + intros x g Hx Hg. destruct (Z.eq_dec x sl) as [-> |]; [apply Hf; lia | apply IH; lia].
Qed.

Definition on_bus (b : Z) : Prop := ∃ sl f, 0 <= sl < 32 ∧ 0 <= f < 8 ∧ present b sl f = true.

Lemma scan_bus b s :
  match scan_slots card 32 b 0 s with
  | (Some r, _) => on_bus b ∧ ∃ sl f, r = (b, sl, f) ∧ present b sl f = true
  | (None, _) => ¬ on_bus b
  end.
Proof.
  pose proof (scan_slots_spec b 32 0 s) as H. destruct (scan_slots card 32 b 0 s) as [[r |] s1]; cbn [fst] in H.
  - destruct H as (sl & f & Hs & Hf & -> & Hp & _). split; [| eauto]. exists sl, f. split_and!; [lia | lia | lia | lia | done].
  - intros (sl & f & Hs & Hf & Hp). rewrite H in Hp by lia. done.
Qed.

Lemma find_rtl8139_from fuel : ∀ b s, 0 <= b < 256 →
  match find_rtl8139 card fuel b s with
  | Ok ((b', sl, f), _) => present b' sl f = true ∧ 0 <= b' < 256 ∧ on_bus b'
  | Diverge => ∀ b', b <= b' < Z.min 256 (b + Z.of_nat fuel) → ¬ on_bus b'
  | _ => False
  end.
Proof.
  induction fuel as [| fuel IH]; intros b s Hb; cbn [find_rtl8139]; [lia |].
  pose proof (scan_bus b s) as Hs. destruct (scan_slots card 32 b 0 s) as [[r |] s1].
  - by destruct Hs as (Hon & sl & f & -> & Hp).
  - assert (Hu : 0 <= u8 (b + 1) < 256) by (unfold u8; lia). specialize (IH (u8 (b + 1)) s1 Hu).
    destruct (find_rtl8139 card fuel (u8 (b + 1)) s1) as [[[[b' sl] f] s2] | | |]; [done | done | done |].
    intros b' Hb'. destruct (Z.eq_dec b' b) as [-> |]; [done |]. apply IH. unfold u8 in *. rewrite Z.mod_small by lia. lia.
Qed.

Lemma find_rtl8139_endless fuel : ∀ b s, 0 <= b < 256 →
  (∀ b', 0 <= b' < 256 → ¬ on_bus b') → find_rtl8139 card fuel b s = Diverge.
Proof.
  induction fuel as [| fuel IH]; intros b s Hb Hno; cbn [find_rtl8139]; [done |].
  pose proof (scan_bus b s) as Hs. destruct (scan_slots card 32 b 0 s) as [[r |] s1].
  - destruct Hs as [Hon _]. by destruct (Hno b Hb).
  - apply IH; [unfold u8; lia | done].
Qed.

(** C36. The search for the card ends exactly when there is one: it is found within
    one pass over the 256 buses, and without a card the search never ends, since
    its bus number is a [uint8_t] that is always below 256. *)
Theorem find_rtl8139_ends s :
  (∃ b sl f s', find_rtl8139 card 256 0 s = Ok ((b, sl, f), s') ∧ present b sl f = true) ∧ (∃ b, 0 <= b < 256 ∧ on_bus b) ∨
  (∀ fuel, find_rtl8139 card fuel 0 s = Diverge) ∧ (∀ b, 0 <= b < 256 → ¬ on_bus b).
Proof.
  pose proof (find_rtl8139_from 256 0 s ltac:(lia)) as H.
  destruct (find_rtl8139 card 256 0 s) as [[[[b sl] f] s1] | | |] eqn:E; [| done | done |].
  - destruct H as (Hp & Hb & Hon). left. split; [by exists b, sl, f, s1 | by exists b].
  - assert (Hno : ∀ b, 0 <= b < 256 → ¬ on_bus b) by (intros b Hb; apply H; lia).
    right. split; [| done]. intros fuel. by apply find_rtl8139_endless.
Qed.
End Bus.

(** ** Transmission *)
Definition transmit_all (frames : list bytes) : cmd nic unit :=
  foldr (λ f c s, '(_, s) ← rtl8139_transmit f s; c s) (λ s, Ok (tt, s)) frames.

(** What the card is told: buffer [i mod 4] holds a frame of this length. *)
Fixpoint tsd_writes (i : nat) (frames : list bytes) : list access :=
  match frames with
  | [] => []
  | f :: frames => Out (RTL8139_PORT_BASE + RTL8139_TSD + Z.of_nat (i mod 4) * 4) (Z.of_nat (length f)) :: tsd_writes (S i) frames
  end.

(** The transmit buffers are allocated, [n] frames went out, and the last four
    of [sent] are in their buffers. *)
Record tx_ok (sent : list bytes) (s : nic) : Prop := {
  tx_alloc : length (tx_buffers s) = 4%nat ∧ Forall (λ p, p ≠ NULL) (tx_buffers s);
  tx_len : length (tx_data s) = 4%nat;
  tx_cur : current_tx_buffer s = (length sent mod 4)%nat;
  tx_last : ∀ k f, sent !! k = Some f → (length sent <= k + 4)%nat → take (length f) (tx_data s !!! (k mod 4)%nat) = f;
}.

Lemma transmit_one sent s f : tx_ok sent s → Z.of_nat (length f) <= TX_BUFFER_SIZE →
  ∃ s', rtl8139_transmit f s = Ok (0, s') ∧ tx_ok (sent ++ [f]) s' ∧ accesses s' = tsd_writes (length sent) [f] ++ accesses s.
Proof.
  intros [[Hb Hnz] Hl Hc Hlast] Hf. unfold rtl8139_transmit. destruct (Z.ltb_spec TX_BUFFER_SIZE (Z.of_nat (length f))); [lia |].
  assert (Hi : (current_tx_buffer s < 4)%nat) by (rewrite Hc; by apply Nat.mod_upper_bound).
  assert (Hp : tx_buffers s !!! current_tx_buffer s ≠ NULL).
  { rewrite Forall_lookup in Hnz. destruct (lookup_lt_is_Some_2 (tx_buffers s) (current_tx_buffer s)) as [p Hp]; [lia |].
    rewrite (list_lookup_total_correct _ _ _ Hp). by eapply Hnz. }
  rewrite (proj2 (Z.eqb_neq _ _) Hp). eexists. split; [reflexivity |]. split; [| cbn; by rewrite Hc].
  split; cbn [tx_buffers tx_data current_tx_buffer set_current_tx outp add_access set_tx_data].
  - done.
  - by rewrite length_insert.
  - rewrite Hc, length_app. change (length [f]) with 1%nat. by rewrite Nat.Div0.add_mod_idemp_l.
  - intros k g Hk Hlen. rewrite length_app in Hlen. cbn in Hlen. destruct (decide (k = length sent)) as [-> | Hne].
    + rewrite lookup_app_r, Nat.sub_diag in Hk by lia. injection Hk as <-.
      rewrite Hc, list_lookup_total_insert_eq by (rewrite Hl; by apply Nat.mod_upper_bound). by rewrite take_app_length.
    + assert (k < length sent)%nat by (apply lookup_lt_Some in Hk; rewrite length_app in Hk; cbn in Hk; lia).
      rewrite lookup_app_l in Hk by done. rewrite list_lookup_total_insert_ne; [apply Hlast; [done | lia] |].
      rewrite Hc. intros He. pose proof (Nat.div_mod_eq k 4). pose proof (Nat.div_mod_eq (length sent) 4). lia.
Qed.

Lemma transmit_many frames : ∀ sent s, tx_ok sent s → Forall (λ f, Z.of_nat (length f) <= TX_BUFFER_SIZE) frames →
  ∃ s', transmit_all frames s = Ok (tt, s') ∧ tx_ok (sent ++ frames) s' ∧
    accesses s' = rev (tsd_writes (length sent) frames) ++ accesses s.
Proof.
  induction frames as [| f frames IH]; intros sent s Hok Hall; cbn [transmit_all foldr tsd_writes].
  - exists s. rewrite app_nil_r. done.
  - inversion Hall as [| ? ? Hf Hall']; subst. destruct (transmit_one sent s f Hok Hf) as (s1 & -> & Hok1 & Ha1). ok_bind.
    destruct (IH _ _ Hok1 Hall') as (s' & Hs & Hok' & Ha). exists s'. split; [exact Hs |].
    rewrite <- app_assoc in Hok'. split; [exact Hok' |]. rewrite Ha, Ha1, length_app. cbn [length tsd_writes rev app].
    rewrite Nat.add_1_r, <- app_assoc. done.
Qed.

(** Frames handed to the driver go to the four transmit buffers in turn: each
    is announced to the card with its buffer and its length, in order, and the
    last four are intact in their buffers. *)
Theorem transmit_round_robin frames sent s :
  tx_ok sent s → Forall (λ f, Z.of_nat (length f) <= TX_BUFFER_SIZE) frames →
  ∃ s', transmit_all frames s = Ok (tt, s') ∧ tx_ok (sent ++ frames) s' ∧
    accesses s' = rev (tsd_writes (length sent) frames) ++ accesses s.
Proof. intros Hok Hall. by apply transmit_many. Qed.

(** ** Reception *)
Section Reception.
Variable drv : net_device → bytes → Z.
Variable stale : Z.

(** From [capr] to [cbr] the buffer holds these packets, as the driver reads
    them: the length plus 4 in network order at offset 2, the packet at offset
    4, the next packet at the next multiple of 4 behind its end plus 4. *)
Inductive ring_holds (buf : bytes) (cbr : Z) : Z → list bytes → Prop :=
| ring_end : ring_holds buf cbr cbr []
| ring_packet capr frame frames :
    let len := Z.of_nat (length frame) + 4 in
    capr ≠ cbr → 0 <= capr → capr mod 4 = 0 → capr + 6 <= RX_BUFFER_SIZE → capr + len <= RX_BUFFER_SIZE → len < RX_BUFFER_SIZE →
    ntohs (get16 buf (Z.to_nat (capr + 2))) = len →
    take (length frame) (drop (Z.to_nat (capr + 4)) buf) = frame →
    ring_holds buf cbr ((capr + (len + 7) / 4 * 4) mod RX_BUFFER_SIZE) frames →
    ring_holds buf cbr capr (frame :: frames).

Fixpoint deliver (dev : net_device) (frames : list bytes) (n : net) : outcome net :=
  match frames with
  | [] => Ok n
  | f :: frames => '(_, n) ← eth_receive drv dev stale f n; deliver dev frames n
  end.

Lemma next_capr_round capr len : 0 <= capr → capr mod 4 = 0 → 4 <= len → capr + len <= RX_BUFFER_SIZE →
  next_capr capr len = (capr + (len + 7) / 4 * 4) mod RX_BUFFER_SIZE.
Proof.
  unfold next_capr, RX_BUFFER_SIZE. intros H1 H2 H3 H4.
  assert (Hround : ∀ a, Z.land a (Z.lnot 3) = a / 4 * 4).
  { intros a. rewrite <- Z.ldiff_land. change 3 with (Z.ones 2).
    by rewrite Z.ldiff_ones_r, Z.shiftl_mul_pow2, Z.shiftr_div_pow2 by lia. }
  rewrite Hround.
  assert (Hq : capr = capr / 4 * 4) by lia.
  replace (capr + len + 4 + 3) with (len + 7 + capr / 4 * 4) by lia. rewrite Z.div_add by lia.
  replace (((len + 7) / 4 + capr / 4) * 4) with (capr + (len + 7) / 4 * 4) by lia.
  rewrite (Z.mod_small _ 65536) by lia. set (x := capr + (len + 7) / 4 * 4) in *.
  assert (Hx : 0 <= x < 8200) by (unfold x; lia). clearbody x. destruct (Z.leb_spec 8192 x); lia.
Qed.

Lemma rx_loop_delivers cbr fuel : ∀ capr frames s,
  ring_holds (rx_data s) cbr capr frames → (length frames < fuel)%nat →
  ('(_, s') ← rx_loop drv stale fuel capr cbr s; Ok (nic_net s')) = deliver (nic_dev s) frames (nic_net s).
Proof.
  induction fuel as [| fuel IH]; intros capr frames s Hr Hf; [lia |].
  cbn [rx_loop]. destruct Hr as [| capr frame frames len Hne H0 H4 H6 Hl Hl' Hlen Hfr Hr].
  - by rewrite Z.eqb_refl.
  - rewrite (proj2 (Z.eqb_neq _ _) Hne), (proj2 (Z.ltb_ge _ _) H6), Hlen.
    assert (Hle : 4 <= len) by (unfold len; lia).
    rewrite (proj2 (Z.ltb_lt 0 len)), (proj2 (Z.ltb_lt len _)) by lia. cbn [andb].
    rewrite (u32_small (len - 4)) by (unfold is_u32, RX_BUFFER_SIZE in *; lia).
    rewrite (proj2 (Z.ltb_ge RX_BUFFER_SIZE (capr + 4 + (len - 4)))) by lia.
    replace (Z.to_nat (len - 4)) with (length frame) by (unfold len; lia). rewrite Hfr.
    cbn [deliver]. unfold in_net. destruct (eth_receive drv (nic_dev s) stale frame (nic_net s)) as [[[] n] | | |]; [| done..].
    ok_bind. cbv beta iota. rewrite next_capr_round by (done || lia). cbn [length] in Hf.
    rewrite IH with (frames := frames); [done | exact Hr | lia].
Qed.


(** A length of 1, 2 or 3 in the buffer wraps around and the handler reads far
    behind the buffer. *)
Theorem rx_short_length_faults fuel capr cbr s :
  capr ≠ cbr → capr + 6 <= RX_BUFFER_SIZE → 0 <= capr →
  0 < ntohs (get16 (rx_data s) (Z.to_nat (capr + 2))) < 4 → rx_loop drv stale (S fuel) capr cbr s = Fault.
Proof.
  intros Hne H6 H0 Hlen. cbn [rx_loop]. rewrite (proj2 (Z.eqb_neq _ _) Hne), (proj2 (Z.ltb_ge _ _) H6).
  set (len := ntohs _) in *. unfold RX_BUFFER_SIZE in *. rewrite (proj2 (Z.ltb_lt 0 len)), (proj2 (Z.ltb_lt len _)) by lia. cbn [andb].
  rewrite (proj2 (Z.ltb_lt 8192 _)); [done |]. unfold u32. lia.
Qed.
End Reception.
