(* ===== verification/EthernetWitness.v ===== *)
(** * A card on which the theorems on the network card driver apply *)
From S2P Require Import Prelude Heap Frames Screen Net Ethernet EthernetSpec.

(** One card, in slot 3 of bus 0. *)
Definition sample_cfg (a : Z) : Z := if a =? config_address 0 3 0 0 then 0x813910EC else 0xFFFFFFFF.
Definition sample_card (h : list access) (port : Z) : Z :=
  match h with
  | Out p a :: _ => if (p =? CONFIG_ADDRESS) && (port =? CONFIG_DATA) then sample_cfg a else 0
  | _ => 0
  end.
Definition sample_dev : net_device := NetDevice 1 (bytes_of "eth0") [2; 0; 0; 0; 0; 1] 0 true true.
Definition sample_nic (rx : bytes) : nic :=
  Nic sample_dev 4096 rx [64; 1664; 3264; 4864] (replicate 4 (replicate 1536 0)) 0 [] None (Net [] [] [] 0 heap_zero [] (screen_boot ∅)).

Lemma find_rtl8139_ends_witness : ∃ b sl f s', find_rtl8139 sample_card 256 0 (sample_nic []) = Ok ((b, sl, f), s').
Proof.
  destruct (find_rtl8139_ends sample_card sample_cfg (λ _ _, eq_refl) (sample_nic [])) as [[(b & sl & f & s' & H & _) _] | [_ H]].
  - exists b, sl, f, s'. exact H.
  - exfalso. apply (H 0); [lia |]. exists 3, 0. split; [lia |]. split; [lia | reflexivity].
Defined.

Lemma sample_tx_ok : tx_ok [] (sample_nic []).
Proof. split; [split; [reflexivity | repeat constructor; discriminate] | reflexivity | reflexivity |]. intros k f Hk. by rewrite lookup_nil in Hk. Qed.

Lemma transmit_round_robin_witness : ∃ s', transmit_all [[1; 2; 3]; [4]] (sample_nic []) = Ok (tt, s') ∧
  accesses s' = [Out 0xC014 1; Out 0xC010 3].
Proof.
  destruct (transmit_round_robin [[1; 2; 3]; [4]] [] (sample_nic []) sample_tx_ok) as (s' & H & _ & Ha).
  - repeat constructor; vm_compute; discriminate.
  - exists s'. split; [exact H |]. rewrite Ha. reflexivity.
Defined.

(** A packet of two bytes at the start of the receive buffer. *)
Definition one_packet : bytes := [0; 0; 0; 6; 7; 8; 0; 0; 0; 0; 0; 0].
Lemma one_packet_ring : ring_holds one_packet 12 0 [[7; 8]].
Proof.
  apply ring_packet; try reflexivity; try (vm_compute; discriminate). apply ring_end.
Qed.

