(* ===== verification/Debug.v ===== *)
(** * Debugging and diagnostics (src/kernel/debug.c)

    Messages filtered by level with a ring of timestamps, dumps of memory, of
    processes and of the stack, and a second way to create processes.
    [screen_print_char] is declared nowhere in the sources: a parameter. *)
From S2P Require Import Prelude Heap Frames Process Screen.

Definition DEBUG_ERROR : Z := 1.
Definition DEBUG_WARN : Z := 2.
Definition DEBUG_INFO : Z := 3.
Definition LOG_SIZE : Z := 1024.

Record debug_info := DebugInfo {
  debug_level : Z; log_buffer : list Z; log_index : Z; panic_count : Z; last_panic_time : Z;
}.
(** The fields of [process_t] that only debug.c uses. *)
Record pextra := PExtra { creation_time : Z; cpu_time : Z; pname : bytes; priority : Z }.
#[export] Instance pextra_inhabited : Inhabited pextra := populate (PExtra 0 0 [] 0).

(** [timestamp] and [last_search] are static variables of functions. *)
Record dstate := DState {
  debug_state : debug_info;
  timestamp : Z;
  last_search : nat;
  dscreen : screen;
  dk : kstate;
  extras : list pextra;
}.
Definition set_debug (x : debug_info) (s : dstate) : dstate :=
  DState x (timestamp s) (last_search s) (dscreen s) (dk s) (extras s).
Definition set_timestamp (x : Z) (s : dstate) : dstate :=
  DState (debug_state s) x (last_search s) (dscreen s) (dk s) (extras s).
Definition set_last_search (x : nat) (s : dstate) : dstate :=
  DState (debug_state s) (timestamp s) x (dscreen s) (dk s) (extras s).
Definition set_dscreen (x : screen) (s : dstate) : dstate :=
  DState (debug_state s) (timestamp s) (last_search s) x (dk s) (extras s).
Definition set_dk (x : kstate) (s : dstate) : dstate :=
  DState (debug_state s) (timestamp s) (last_search s) (dscreen s) x (extras s).
Definition set_extras (x : list pextra) (s : dstate) : dstate :=
  DState (debug_state s) (timestamp s) (last_search s) (dscreen s) (dk s) x.

(** ** Numbers *)

(** The loop of [print_dec], with [n] cells of the buffer left. *)
Fixpoint dec_fill (n : nat) (num : Z) (acc : bytes) : bytes :=
  match n with
  | O => acc
  | S n => if num <=? 0 then acc else dec_fill n (num / 10) (48 + num mod 10 :: acc)
  end.
Definition print_dec (num : Z) (s : screen) : screen :=
  if num =? 0 then screen_print [48] s else screen_print (dec_fill 11 num []) s.

(** [kernel_get_timestamp]: a counter of its calls. *)
Definition kernel_get_timestamp (s : dstate) : Z * dstate := (timestamp s, set_timestamp (u32 (timestamp s + 1)) s).

(** How often [kernel_delay] turns. *)
Definition kernel_delay (milliseconds : Z) : Z := u32 (milliseconds * 10000).

Definition kernel_get_version : bytes := bytes_of "1.0-Enhanced".

Section Debug.
Variable screen_print_char : Z → screen → screen.
Definition print_chars (cs : bytes) (s : screen) : screen := foldl (λ s c, screen_print_char c s) s cs.
Definition say (x : string) (s : screen) : screen := screen_print (bytes_of x) s.
Definition newline (s : screen) : screen := screen_print [10] s.

Definition print_hex (value : Z) (s : screen) : screen := print_chars (hex_digits 8 value 28) (say "0x" s).

(** ** Messages *)

(** The loop of [debug_print] over the format. *)
Fixpoint print_format (fmt : bytes) (s : screen) : screen :=
  match fmt with
  | [] => s
  | c :: fmt' =>
    match fmt' with
    | d :: rest =>
      if c =? 37 then
        print_format rest
          (if d =? 115 then say "(string)" s
           else if d =? 100 then say "(number)" s
           else screen_print_char d (say "%" s))
      else print_format fmt' (screen_print_char c s)
    | [] => screen_print_char c s
    end
  end.

Definition log_message (s : dstate) : dstate :=
  let d := debug_state s in
  let index := log_index d mod LOG_SIZE in
  let '(t, s) := kernel_get_timestamp s in
  set_debug (DebugInfo (debug_level d) (<[Z.to_nat index := t]> (log_buffer d)) (u32 (log_index d + 1))
    (panic_count d) (last_panic_time d)) s.

Definition debug_print (level : Z) (fmt : bytes) (s : dstate) : dstate :=
  if debug_level (debug_state s) <? level then s else
  let s := log_message s in
  set_dscreen (print_format fmt (dscreen s)) s.

Definition debug_init (s : dstate) : dstate :=
  debug_print DEBUG_INFO (bytes_of "Debug system initialized")
    (set_debug (DebugInfo DEBUG_INFO (replicate (Z.to_nat LOG_SIZE) 0) 0 0 0) s).

(** ** Dumps; [mem] reads a byte, [word] a word of memory *)
Section Dumps.
Variable mem : Z → Z.
Variable word : Z → Z.

(** The bytes of a row: [n] columns from [j] on, [left] bytes in the region. *)
Fixpoint row_hex (n : nat) (a left : Z) (s : screen) : screen :=
  match n with
  | O => s
  | S n =>
    if left <=? 0 then s else
    let b := mem (u32 a) in
    let s := if b <? 16 then say "0" s else s in
    row_hex n (a + 1) (left - 1) (say " " (print_hex b s))
  end.
Fixpoint row_ascii (n : nat) (a left : Z) (s : screen) : screen :=
  match n with
  | O => s
  | S n =>
    if left <=? 0 then s else
    let c := schar (mem (u32 a)) in
    row_ascii n (a + 1) (left - 1) (screen_print_char (if (32 <=? c) && (c <=? 126) then c else 46) s)
  end.
(** [n] rows from offset [i] on. *)
Fixpoint dump_rows (n : nat) (addr size i : Z) (s : screen) : screen :=
  match n with
  | O => s
  | S n =>
    if negb (i <? size) then s else
    let s := say ": " (print_hex (u32 (addr + i)) s) in
    let s := row_hex 16 (addr + i) (size - i) s in
    let s := row_ascii 16 (addr + i) (size - i) (say " " s) in
    dump_rows n addr size (i + 16) (newline s)
  end.
Definition debug_dump_memory (addr size : Z) (s : screen) : screen :=
  let s := print_hex addr (say "Memory dump at 0x" s) in
  let s := print_dec size (say ", size " s) in
  dump_rows 16 addr size 0 (newline (say ":" s)).

(** [ebp] is the frame pointer when the function is entered. *)
Fixpoint trace_frames (n : nat) (i ebp : Z) (s : screen) : screen :=
  match n with
  | O => s
  | S n =>
    if ebp =? NULL then s else
    let ret_addr := word (u32 (ebp + 4)) in
    let s := newline (print_hex ret_addr (say "] 0x" (print_dec i (say "  [" s)))) in
    let ebp := word ebp in
    if (ebp <? 0x100000) || (0x80000000 <? ebp) then newline (say "  Invalid stack frame, stopping trace" s)
    else trace_frames n (i + 1) ebp s
  end.
Definition debug_trace_stack (max_frames ebp : Z) (s : screen) : screen :=
  trace_frames (Z.to_nat max_frames) 0 ebp
    (newline (say " frames max):" (print_dec max_frames (say "Stack trace (" s)))).
End Dumps.

Definition state_number (st : pstate) : Z :=
  match st with RUNNING => 0 | READY => 1 | BLOCKED => 2 | TERMINATED => 3 end.
Definition debug_dump_process (proc : option nat) (s : dstate) : dstate :=
  match proc with
  | None => s
  | Some i =>
    let p := process_table (dk s) !!! i in
    let x := extras s !!! i in
    let o := newline (say ":" (print_dec (pid p) (say "Process PID " (dscreen s)))) in
    let o := newline (print_dec (ppid p) (say "  Parent PID: " o)) in
    let o := newline (print_dec (state_number (state p)) (say "  State: " o)) in
    let o := newline (print_hex (kernel_stack p) (say "  Stack: 0x" o)) in
    let o := newline (print_dec (priority x) (say "  Priority: " o)) in
    let o := newline (print_dec (cpu_time x) (say "  CPU time: " o)) in
    set_dscreen o s
  end.

Definition debug_assert (condition : bool) (msg : string) : cmd dstate unit := λ s,
  if condition then Ok (tt, s) else Panic msg.

(** ** Creation of processes *)

(** The loop of [find_free_pid], from [i] on, [n] iterations left. *)
Fixpoint search_free (n : nat) (from i : nat) (b : list Z) : option nat :=
  match n with
  | O => None
  | S n =>
    let index := ((from + i) mod 256)%nat in
    if slot_free b index then Some index else search_free n from (S i) b
  end.
Definition find_free_pid_cyclic (s : dstate) : nat * dstate :=
  match search_free 256 (last_search s) 0 (process_bitmap (dk s)) with
  | Some index => (index, set_last_search index (set_dk (set_bitmap (take_slot (process_bitmap (dk s)) index) (dk s)) s))
  | None => (0%nat, s)
  end.

Definition process_create_enhanced (name : option bytes) : cmd dstate Z := λ s,
  let '(index, s) := find_free_pid_cyclic s in
  if (index =? 0)%nat then Ok (0, debug_print DEBUG_WARN (bytes_of "No free process slots available") s) else
  let k := dk s in
  let new_pid := next_pid k in
  let parent := match current k with Some c => pid (process_table k !!! c) | None => 0 end in
  '(stack, h) ← kmalloc KERNEL_STACK_SIZE (kheap k);
  let '(t, s) := kernel_get_timestamp s in
  let p := Process new_pid parent READY stack USER_STACK_TOP 0 (replicate (Z.to_nat MAX_OPEN_FILES) 0) 1 in
  let k := set_kheap h (set_next_pid (u32 (new_pid + 1)) (set_table (<[index := p]> (process_table k)) k)) in
  let x := PExtra t 0 (take 31 (default [] name)) 5 in
  let s := set_extras (<[index := x]> (extras s)) (set_dk k s) in
  Ok (new_pid, debug_print DEBUG_INFO (bytes_of "Created process PID %d: %s") s).
End Debug.
