(* ===== verification/DebugSpec.v ===== *)
(** * Correctness of the debugging functions

    Numbers print as they do on the screen, the log is a ring of the last 1024
    timestamps, dumps read the region they are asked for, and the second way to
    create processes keeps the process table well formed. *)
From S2P Require Import Prelude Heap HeapSpec HeapAlloc HeapFree HeapAligned Frames Process Screen ScreenSpec Debug.

(** ** Numbers *)
Lemma dec_fill_loop : ∀ fuel value i acc r n,
  dec_loop fuel value i acc = Ok r → i < Z.of_nat n → dec_fill n value acc = r.
Proof.
  induction fuel as [| fuel IH]; intros value i acc r n; [done |]. cbn [dec_loop]. destruct (Z.leb_spec value 0) as [Hv | Hv].
  - intros [= <-] _. destruct n; [done |]. cbn [dec_fill]. by rewrite (proj2 (Z.leb_le value 0) Hv).
  - destruct (Z.ltb_spec i 0); [done |]. intros Hl Hi. destruct n as [| n]; [lia |]. cbn [dec_fill].
    rewrite (proj2 (Z.leb_gt value 0) Hv). apply (IH _ _ _ _ n Hl). lia.
Qed.

(** [print_dec] prints what [screen_print_dec] prints. *)
Theorem print_dec_same num s : is_u32 num → screen_print_dec num s = Ok (tt, print_dec num s).
Proof.
  intros Hn. destruct (dec_string_ok num Hn) as (str & Hs & _). unfold screen_print_dec. rewrite Hs. cbn. do 2 f_equal.
  unfold dec_string in Hs. unfold print_dec. destruct (num =? 0); [by injection Hs as <- |].
  f_equal. symmetry. eapply dec_fill_loop; [exact Hs | lia].
Qed.

(** ** The log *)

(** [hist] are all timestamps logged since the buffer was cleared. *)
Definition log_shows (hist : list Z) (s : dstate) : Prop :=
  log_index (debug_state s) = u32 (Z.of_nat (length hist)) ∧
  length (log_buffer (debug_state s)) = 1024%nat ∧
  ∀ m, (length hist < m + 1024)%nat → (m < length hist)%nat →
    log_buffer (debug_state s) !! (m mod 1024)%nat = hist !! m.

Lemma log_slot n : Z.to_nat (u32 (Z.of_nat n) mod LOG_SIZE) = (n mod 1024)%nat.
Proof.
  unfold u32, LOG_SIZE. rewrite Z.mod_mod_divide by by exists 4194304.
  change 1024 with (Z.of_nat 1024). rewrite <- Nat2Z.inj_mod. apply Nat2Z.id.
Qed.

Lemma log_message_shows hist s : log_shows hist s → log_shows (hist ++ [timestamp s]) (log_message s).
Proof.
  intros (Hi & Hl & Hs). unfold log_message. cbn [kernel_get_timestamp]. split; [| split]; cbn [debug_state set_debug log_index log_buffer].
  - rewrite Hi, length_app. unfold u32. rewrite Zplus_mod_idemp_l. f_equal. cbn. lia.
  - by rewrite length_insert.
  - rewrite length_app. cbn. intros m Hm Hm'. rewrite Hi, log_slot.
    destruct (decide (m = length hist)) as [-> | Hne].
    + rewrite list_lookup_insert_eq by (rewrite Hl; apply Nat.mod_upper_bound; lia).
      rewrite lookup_app_r by lia. by rewrite Nat.sub_diag.
    + rewrite lookup_app_l by lia. rewrite <- Hs by lia. apply list_lookup_insert_ne.
      intros He. pose proof (Nat.div_mod_eq m 1024) as E1. pose proof (Nat.div_mod_eq (length hist) 1024) as E2. lia.
Qed.

Section Debug.
Variable screen_print_char : Z → screen → screen.
Notation debug_print := (debug_print screen_print_char).
Notation debug_init := (debug_init screen_print_char).
Notation process_create_enhanced := (process_create_enhanced screen_print_char).

(** A sequence of messages, each with its level. *)
Definition debug_prints (ms : list (Z * bytes)) (s : dstate) : dstate :=
  foldl (λ s m, debug_print (fst m) (snd m) s) s ms.

Lemma debug_print_shows level fmt hist s : log_shows hist s →
  log_shows (hist ++ if debug_level (debug_state s) <? level then [] else [timestamp s]) (debug_print level fmt s) ∧
  debug_level (debug_state (debug_print level fmt s)) = debug_level (debug_state s) ∧
  timestamp (debug_print level fmt s) = u32 (timestamp s + if debug_level (debug_state s) <? level then 0 else 1) ∨
  ¬ is_u32 (timestamp s).
Proof.
  intros Hs. unfold Debug.debug_print. destruct (_ <? level).
  - rewrite app_nil_r, Z.add_0_r. destruct (decide (0 <= timestamp s < 4294967296)) as [Ht | Ht]; [left | by right].
    rewrite u32_small by done. done.
  - left. split; [exact (log_message_shows hist s Hs) | done].
Qed.

(** The messages that the level lets through. *)
Definition passing (level : Z) (ms : list (Z * bytes)) : nat := length (filter (λ m, fst m <= level) ms).

Lemma debug_prints_shows ms : ∀ hist s,
  log_shows hist s → is_u32 (timestamp s) →
  let n := passing (debug_level (debug_state s)) ms in
  log_shows (hist ++ ((λ i, u32 (timestamp s + Z.of_nat i)) <$> seq 0 n)) (debug_prints ms s).
Proof.
  induction ms as [| [level fmt] ms IH]; intros hist s Hs Ht n; subst n; [cbn; by rewrite app_nil_r |].
  change (debug_prints ((level, fmt) :: ms) s) with (debug_prints ms (debug_print level fmt s)).
  destruct (debug_print_shows level fmt hist s Hs) as [(Hs' & Hl & Hts) | Hn]; [| by destruct Hn].
  unfold passing. cbn [fst]. destruct (Z.ltb_spec (debug_level (debug_state s)) level) as [Hlt | Hle].
  - rewrite filter_cons_False by (cbn; lia). rewrite app_nil_r in Hs'.
    specialize (IH hist _ Hs'). rewrite Hts, Hl in IH. rewrite Z.add_0_r, u32_small in IH by done. by apply IH.
  - rewrite filter_cons_True by done. cbn [length seq fmap list_fmap].
    specialize (IH _ _ Hs' ltac:(rewrite Hts; apply u32_range)). cbv zeta in IH. rewrite Hts, Hl, <- app_assoc in IH. cbn [app] in IH.
    rewrite Z.add_0_r, u32_small by done. rewrite <- fmap_S_seq, <- list_fmap_compose.
    erewrite list_fmap_ext; [exact IH |]. intros _ i _. cbn [compose]. unfold u32. rewrite Zplus_mod_idemp_l. f_equal. lia.
Qed.

(** After [debug_init] and any messages, the log holds the timestamps of the
    last 1024 messages that passed the level, each at its number modulo 1024:
    the counter of messages may wrap around. *)
Theorem debug_log_ring ms s :
  is_u32 (timestamp s) →
  let n := S (passing DEBUG_INFO ms) in
  log_shows ((λ i, u32 (timestamp s + Z.of_nat i)) <$> seq 0 n) (debug_prints ms (debug_init s)).
Proof.
  intros Ht n. set (s0 := set_debug (DebugInfo DEBUG_INFO (replicate (Z.to_nat LOG_SIZE) 0) 0 0 0) s).
  assert (H0 : log_shows [] s0) by (split; [done |]; split; [done |]; cbn; lia).
  exact (debug_prints_shows ((DEBUG_INFO, bytes_of "Debug system initialized") :: ms) [] s0 H0 Ht).
Qed.

(** ** Creation of processes *)
Lemma search_free_spec from b : ∀ n i,
  match search_free n from i b with
  | Some j => ∃ d, (i <= d < i + n)%nat ∧ j = ((from + d) mod 256)%nat ∧ slot_bit b j = false ∧
      ∀ l, (i <= l < d)%nat → slot_bit b ((from + l) mod 256)%nat = true
  | None => ∀ l, (i <= l < i + n)%nat → slot_bit b ((from + l) mod 256)%nat = true
  end.
Proof.
  induction n as [| n IH]; intros i; cbn [search_free]; [lia |]. rewrite slot_free_bit.
  destruct (slot_bit b ((from + i) mod 256)) eqn:E; cbn [negb].
  - specialize (IH (S i)). destruct (search_free n from (S i) b) as [j |].
    + destruct IH as (d & Hd & Hj & Hb & Hl). exists d. split_and!; [lia | lia | done | done |].
      intros l Hll. destruct (decide (l = i)) as [-> |]; [done |]. apply Hl. lia.
    + intros l Hll. destruct (decide (l = i)) as [-> |]; [done |]. apply IH. lia.
  - exists i. split_and!; [lia | lia | done | done |]. lia.
Qed.

(** Every slot is at some distance from where the search starts. *)
Lemma cyclic_distance from i : (from < 256)%nat → (i < 256)%nat → ∃ d, (d < 256)%nat ∧ ((from + d) mod 256)%nat = i.
Proof.
  intros Hf Hi. exists ((i + 256 - from) mod 256)%nat. split; [by apply Nat.mod_upper_bound |].
  rewrite Nat.Div0.add_mod_idemp_r. replace (from + (i + 256 - from))%nat with (i + 1 * 256)%nat by lia.
  rewrite Nat.Div0.mod_add. by apply Nat.mod_small.
Qed.

Lemma debug_print_dk level fmt s :
  dk (debug_print level fmt s) = dk s ∧ extras (debug_print level fmt s) = extras s ∧ last_search (debug_print level fmt s) = last_search s.
Proof. unfold Debug.debug_print. by destruct (_ <? _). Qed.

(** C40. [process_create_enhanced] puts a ready process with a fresh identifier,
    the current process as parent and the first 31 characters of its name into
    the first free slot after the one found last, going around; the process
    table stays well formed, and it answers 0 exactly when no slot is free. *)
Theorem process_create_enhanced_ok name s bs :
  proc_base (dk s) → heap_ok (kheap (dk s)) bs → slot_bit (process_bitmap (dk s)) 0 = true → (last_search s < 256)%nat →
  length (extras s) = 256%nat → 0 < next_pid (dk s) → next_pid (dk s) + 1 < 4294967296 →
  (∃ d s', (d < 256)%nat ∧ let i := ((last_search s + d) mod 256)%nat in
     state (process_table (dk s) !!! i) = TERMINATED ∧
     (∀ l, (l < d)%nat → state (process_table (dk s) !!! ((last_search s + l) mod 256)%nat) ≠ TERMINATED) ∧
     process_create_enhanced name s = Ok (next_pid (dk s), s') ∧ proc_base (dk s') ∧
     pid (process_table (dk s') !!! i) = next_pid (dk s) ∧ state (process_table (dk s') !!! i) = READY ∧
     pname (extras s' !!! i) = take 31 (default [] name) ∧
     ∀ j, j ≠ i → process_table (dk s') !!! j = process_table (dk s) !!! j ∧ extras s' !!! j = extras s !!! j) ∨
  (∀ j, (j < 256)%nat → state (process_table (dk s) !!! j) ≠ TERMINATED) ∧
   ∃ s', process_create_enhanced name s = Ok (0, s') ∧ dk s' = dk s ∧ extras s' = extras s.
Proof.
  intros Hbase Hheap H0 Hls Hx Hn0 Hn. pose proof (pb_bits _ Hbase) as Hbits.
  unfold Debug.process_create_enhanced, find_free_pid_cyclic.
  pose proof (search_free_spec (last_search s) (process_bitmap (dk s)) 256 0) as Hf.
  destruct (search_free _ _ _ _) as [i |].
  2:{ right. split.
      - intros j Hj. destruct (cyclic_distance (last_search s) j Hls Hj) as (d & Hd & <-).
        apply Hbits; [done |]. apply Hf. lia.
      - eexists. split; [done |]. by destruct (debug_print_dk DEBUG_WARN (bytes_of "No free process slots available") s) as (? & ? & _). }
  left. destruct Hf as (d & Hd & Hi & Hfree & Hbefore). exists d.
  assert (Hi256 : (i < 256)%nat) by (rewrite Hi; by apply Nat.mod_upper_bound).
  destruct (Nat.eqb_spec i 0) as [-> | Hi0]; [congruence |].
  destruct (kmalloc_returns KERNEL_STACK_SIZE (kheap (dk s)) bs Hheap) as (stack & h & Hk); [unfold KERNEL_STACK_SIZE; lia |].
  cbn [dk set_last_search set_dk kheap set_bitmap]. rewrite Hk. ok_bind. cbv beta iota. cbn [kernel_get_timestamp].
  eexists. split; [lia |]. cbv zeta. rewrite <- Hi. split.
  { destruct (decide (state (process_table (dk s) !!! i) = TERMINATED)) as [| Hne]; [done |].
    apply Hbits in Hne; [congruence | done]. }
  split. { intros l Hl. apply Hbits; [by apply Nat.mod_upper_bound |]. apply Hbefore. lia. }
  split; [reflexivity |].
  rewrite (proj1 (debug_print_dk _ _ _)), (proj1 (proj2 (debug_print_dk _ _ _))).
  cbn [dk extras set_extras set_dk]. split; [by apply (fill_slot_base (dk s) i) |].
  cbn [process_table set_kheap set_next_pid set_table set_bitmap dk extras set_last_search set_dk set_timestamp].
  pose proof (pb_table _ Hbase) as Htab. rewrite !list_lookup_total_insert_eq by (rewrite ?Htab, ?Hx; lia).
  split_and!; try done. intros j Hj. by rewrite !list_lookup_total_insert_ne.
Qed.

(** ** Dumps *)
Section Dumps.
Variables (mem mem' : Z → Z).

Lemma row_hex_frame n : ∀ a left s, (∀ x, a <= x < a + Z.min left (Z.of_nat n) → mem (u32 x) = mem' (u32 x)) →
  row_hex screen_print_char mem n a left s = row_hex screen_print_char mem' n a left s.
Proof.
  induction n as [| n IH]; intros a left s Hm; cbn [row_hex]; [done |]. destruct (Z.leb_spec left 0); [done |].
  rewrite (Hm a) by lia. apply IH. intros x Hx. apply Hm. lia.
Qed.
Lemma row_ascii_frame n : ∀ a left s, (∀ x, a <= x < a + Z.min left (Z.of_nat n) → mem (u32 x) = mem' (u32 x)) →
  row_ascii screen_print_char mem n a left s = row_ascii screen_print_char mem' n a left s.
Proof.
  induction n as [| n IH]; intros a left s Hm; cbn [row_ascii]; [done |]. destruct (Z.leb_spec left 0); [done |].
  rewrite (Hm a) by lia. apply IH. intros x Hx. apply Hm. lia.
Qed.
Lemma dump_rows_frame n : ∀ addr size i s,
  (∀ x, addr + i <= x < addr + Z.min size (i + 16 * Z.of_nat n) → mem (u32 x) = mem' (u32 x)) →
  dump_rows screen_print_char mem n addr size i s = dump_rows screen_print_char mem' n addr size i s.
Proof.
  induction n as [| n IH]; intros addr size i s Hm; cbn [dump_rows]; [done |].
  destruct (Z.ltb_spec i size); cbn [negb]; [| done].
  rewrite row_hex_frame, row_ascii_frame by (intros x Hx; apply Hm; lia). apply IH. intros x Hx. apply Hm. lia.
Qed.

(** A dump reads at most the first 256 bytes of the region, and nothing outside it. *)
Theorem debug_dump_memory_reads addr size s :
  (∀ x, addr <= x < addr + Z.min size 256 → mem (u32 x) = mem' (u32 x)) →
  debug_dump_memory screen_print_char mem addr size s = debug_dump_memory screen_print_char mem' addr size s.
Proof. intros Hm. apply dump_rows_frame. intros x Hx. apply Hm. lia. Qed.
End Dumps.
End Debug.
