(* ===== verification/DebugWitness.v ===== *)
(** * States on which the theorems on the debugging functions apply *)
From S2P Require Import Prelude Heap HeapSpec HeapAlloc HeapFree HeapAligned HeapWitness Frames Process ProcessWitness.
From S2P Require Import Screen ScreenSpec Debug DebugSpec.

Definition debug_boot (k : kstate) : dstate :=
  DState (DebugInfo DEBUG_INFO (replicate 1024 0) 0 0 0) 0 0 (screen_boot ∅) k (replicate 256 inhabitant).

Lemma debug_log_ring_witness :
  log_shows [0; 1; 2] (debug_prints screen_putc [(1, bytes_of "a%d"); (4, bytes_of "b"); (2, bytes_of "c")]
    (debug_init screen_putc (debug_boot (kernel_boot heap_zero)))).
Proof.
  exact (debug_log_ring screen_putc [(1, bytes_of "a%d"); (4, bytes_of "b"); (2, bytes_of "c")]
    (debug_boot (kernel_boot heap_zero)) ltac:(split; [discriminate | reflexivity])).
Defined.

Lemma process_create_enhanced_ok_witness :
  ∃ k s' i, proc_base k ∧ process_create_enhanced screen_putc (Some (bytes_of "child")) (debug_boot k) = Ok (2, s') ∧
    proc_base (dk s') ∧ pname (extras s' !!! i) = bytes_of "child".
Proof.
  destruct running_init as (k & Hb & Hh & Hbit & Hn & Hc & _ & Ht).
  destruct (process_create_enhanced_ok screen_putc (Some (bytes_of "child")) (debug_boot k) (blocks boot) Hb
    (running_init_heap k Hh) Hbit) as [(d & s' & Hd & _ & _ & H & Hb' & _ & _ & Hname & _) | [H _]].
  - cbn. lia.
  - apply length_replicate.
  - cbn [debug_boot dk]. rewrite Hn. lia.
  - cbn [debug_boot dk]. rewrite Hn. lia.
  - cbn [debug_boot dk] in H. rewrite Hn in H. exists k, s', ((0 + d) mod 256)%nat.
    split; [exact Hb |]. split; [exact H |]. split; [exact Hb' | exact Hname].
  - exfalso. specialize (H 1%nat ltac:(lia)). cbn [debug_boot dk] in H. rewrite Ht in H by lia. by rewrite decide_False in H.
Defined.
