(* ===== verification/KernelInit.v ===== *)
(** * The start of the kernel (src/kernel/kernel.c, [kernel_init])

    The initialisation functions of the components, in the order of the code, on
    one state.  The kernel heap is shared by the memory manager and the process
    table, the process table by the interrupt handlers.  The start completes, and
    the first timer interrupt panics the kernel. *)
From S2P Require Import Prelude Heap HeapSpec HeapAlloc HeapFree HeapAligned HeapWitness Frames Paging PagingInit MmWitness.
From S2P Require Import Screen Process ProcessWitness Keyboard Solixfs Vfs Interrupts Debug.

Record system (D : Type) := System {
  s_dbg : dstate;
  s_mm : mm_state;
  s_machine : machine;
  s_vfs : option (vfs D);
  interrupts_on : bool;
}.
Arguments System {D}.
Arguments s_dbg {D}.
Arguments s_mm {D}.
Arguments s_machine {D}.
Arguments s_vfs {D}.
Arguments interrupts_on {D}.

Section Init.
Context {D : Type} `{!Disk D}.
Variable screen_print_char : Z → screen → screen.
(** The end of the kernel image, the stubs of interrupts, the disk and what its
    buffer holds, and the [kmalloc] of vnodes. *)
Variable image_end : Z.
Variables isr irq : nat → Z.
Variable syscall : Z.
Variable disk : D.
Variable buffer : bytes.
Variable no_fs : fs D.
Variable new_vnode : nat → option Z.

Definition on_dbg (f : dstate → dstate) (s : system D) : system D :=
  System (f (s_dbg s)) (s_mm s) (s_machine s) (s_vfs s) (interrupts_on s).
Definition print (x : string) : system D → system D :=
  on_dbg (λ d, set_dscreen (screen_print (bytes_of x ++ [10]) (dscreen d)) d).
Definition log (x : string) : system D → system D := on_dbg (debug_print screen_print_char DEBUG_INFO (bytes_of x)).

(** A step on the process table; the heap is the memory manager's. *)
Definition on_processes (c : cmd kstate unit) : cmd (system D) unit := λ s,
  '(_, k) ← c (set_kheap (heap (s_mm s)) (dk (s_dbg s)));
  Ok (tt, System (set_dk k (s_dbg s)) (set_heap (kheap k) (s_mm s)) (set_kernel k (s_machine s)) (s_vfs s) (interrupts_on s)).
(** A step of the memory manager. *)
Definition on_mm {A} (c : cmd mm_state A) : cmd (system D) A := λ s,
  '(a, m) ← c (s_mm s);
  let k := set_kheap (heap m) (dk (s_dbg s)) in
  Ok (a, System (set_dk k (s_dbg s)) m (set_kernel k (s_machine s)) (s_vfs s) (interrupts_on s)).
Definition on_machine (c : cmd machine unit) : cmd (system D) unit := λ s,
  '(_, m) ← c (s_machine s); Ok (tt, System (s_dbg s) (s_mm s) m (s_vfs s) (interrupts_on s)).

Definition verify_heap : cmd mm_state bool := λ m,
  '(b, h) ← verify_heap_integrity (total_frames m) (heap m); Ok (b, set_heap h m).

(** [timer_init] and [keyboard_init] with the registration of their handlers. *)
Definition start_timer : cmd machine unit := λ m,
  '(_, m) ← irq_register_handler 0 TimerHandler m;
  let '(t, ports) := timer_init in
  Ok (tt, foldl (λ m pv, send (fst pv) (snd pv) m) (set_ticks t m) ports).
Definition start_keyboard : cmd machine unit := λ m,
  '(_, m) ← irq_register_handler 1 KeyboardHandler m;
  Ok (tt, set_keyboard (keyboard_init (m_keyboard m)) m).

(** [kernel_init], to the check of the heap and from there on. *)
Definition init_core : cmd (system D) unit := λ s,
  let s := print "[*] Initializing kernel subsystems..." (log "Initializing kernel subsystems..." s) in
  let s := print "[+] Debug system initialized" (on_dbg (debug_init screen_print_char) s) in
  '(_, s) ← on_processes process_init s;
  let s := print "[+] Process management initialized" s in
  '(_, s) ← on_mm (mm_init image_end) s;
  '(sound, s) ← on_mm verify_heap s;
  if negb sound then Panic "Memory management initialization failed" else
  Ok (tt, print "[+] Memory management initialized" s).
Definition init_devices : cmd (system D) unit := λ s,
  '(_, s) ← on_machine (λ m, Ok (tt, interrupts_init isr irq syscall m)) s;
  let s := print "[+] Interrupt system initialized" s in
  v ← vfs_init new_vnode disk buffer no_fs;
  let s := System (s_dbg s) (s_mm s) (s_machine s) (Some v) (interrupts_on s) in
  let s := print "[+] Virtual filesystem initialized" s in
  '(_, s) ← on_machine start_timer s;
  '(_, s) ← on_machine start_keyboard s;
  let s := print "[+] Hardware drivers initialized" s in
  let s := System (s_dbg s) (s_mm s) (s_machine s) (s_vfs s) true in
  let s := print "[+] Interrupts enabled" s in
  let s := print "[*] Kernel initialization complete
" s in
  Ok (tt, log "All kernel subsystems operational" s).
Definition kernel_init : cmd (system D) unit := λ s, '(_, s) ← init_core s; init_devices s.

(** ** The start completes *)

(** The static variables before the start. *)
Record at_boot (s : system D) : Prop := {
  bt_table : length (process_table (dk (s_dbg s))) = 256%nat;
  bt_heap : heap_head (heap (s_mm s)) = NULL;
  bt_pid : next_pid (dk (s_dbg s)) = 1;
  bt_sched : (sched_index (dk (s_dbg s)) < 256)%nat;
  bt_handlers : length (m_handlers (s_machine s)) = 16%nat;
  bt_paging : Z.land (cr0 (s_mm s)) 0x80000000 = 0;
}.

Lemma log_dk x s : dk (s_dbg (log x s)) = dk (s_dbg s) ∧ s_mm (log x s) = s_mm s ∧ s_machine (log x s) = s_machine s.
Proof. unfold log, on_dbg, debug_print. cbn. by destruct (_ <? _). Qed.

Lemma init_dk s : dk (debug_init screen_print_char s) = dk s.
Proof. unfold debug_init, debug_print. by destruct (_ <? _). Qed.

Lemma log_rest x s : s_vfs (log x s) = s_vfs s ∧ interrupts_on (log x s) = interrupts_on s.
Proof. done. Qed.

Lemma schedule_init_panics k : proc_base k →
  (∀ j, (j < 256)%nat → state (process_table k !!! j) = if decide (j = 0%nat) then RUNNING else TERMINATED) →
  process_schedule k = Panic "No runnable processes".
Proof.
  intros Hb Ht. destruct (process_schedule_cases k Hb) as [(d & i & k'' & _ & Hi' & Hr & _) | [_ H]]; [| exact H].
  exfalso. rewrite Ht in Hr by (rewrite Hi'; apply Nat.mod_upper_bound; lia). by case_decide.
Qed.

Lemma proc_base_heap k h : proc_base k → proc_base (set_kheap h k).
Proof. by intros []. Qed.

(** Steps that return. *)
Lemma on_processes_ok c s k : c (set_kheap (heap (s_mm s)) (dk (s_dbg s))) = Ok (tt, k) →
  on_processes c s = Ok (tt, System (set_dk k (s_dbg s)) (set_heap (kheap k) (s_mm s)) (set_kernel k (s_machine s)) (s_vfs s) (interrupts_on s)).
Proof. intros Hc. unfold on_processes. by rewrite Hc. Qed.

Definition with_mm (m : mm_state) (s : system D) : system D :=
  let k := set_kheap (heap m) (dk (s_dbg s)) in
  System (set_dk k (s_dbg s)) m (set_kernel k (s_machine s)) (s_vfs s) (interrupts_on s).
Lemma on_mm_ok {A} (c : cmd mm_state A) s a m : c (s_mm s) = Ok (a, m) → on_mm c s = Ok (a, with_mm m s).
Proof. intros Hc. unfold on_mm. by rewrite Hc. Qed.

Lemma on_machine_ok c s m : c (s_machine s) = Ok (tt, m) →
  on_machine c s = Ok (tt, System (s_dbg s) (s_mm s) m (s_vfs s) (interrupts_on s)).
Proof. intros Hc. unfold on_machine. by rewrite Hc. Qed.

Lemma start_drivers m : length (m_handlers m) = 16%nat → ∃ m1 m2,
  start_timer m = Ok (tt, m1) ∧ start_keyboard m1 = Ok (tt, m2) ∧
  m_handlers m2 !! 0%nat = Some (Some TimerHandler) ∧ m_handlers m2 !! 1%nat = Some (Some KeyboardHandler) ∧ m_kernel m2 = m_kernel m.
Proof.
  intros Hl. eexists _, _. split; [reflexivity |]. split; [reflexivity |]. cbn. split_and!; [| | done].
  - rewrite list_lookup_insert_ne by done. apply list_lookup_insert_eq. lia.
  - apply list_lookup_insert_eq. rewrite length_insert. lia.
Qed.

Lemma tick_panics m scancode : process_schedule (m_kernel m) = Panic "No runnable processes" →
  irq_handler 0 scancode m = Panic "No runnable processes".
Proof.
  intros Hs. unfold irq_handler. cbn [Nat.ltb Nat.leb negb Nat.eqb].
  match goal with |- context [process_schedule (m_kernel ?x)] => assert (Hk : m_kernel x = m_kernel m) end.
  { cbn. destruct (m_handlers m !! 0%nat) as [[[] |] |]; done. }
  by rewrite Hk, Hs.
Qed.

(** What the first half leaves. *)
Record core_ok (s : system D) (bs : list ablock) : Prop := {
  co_heap : heap_ok (heap (s_mm s)) bs;
  co_base : proc_base (dk (s_dbg s));
  co_kernel : m_kernel (s_machine s) = dk (s_dbg s);
  co_init : ∀ j, (j < 256)%nat → state (process_table (dk (s_dbg s)) !!! j) = if decide (j = 0%nat) then RUNNING else TERMINATED;
  co_handlers : length (m_handlers (s_machine s)) = 16%nat;
}.

Lemma init_core_ok s :
  at_boot s → 0 < image_end → image_end mod 4 = 0 → image_end + KERNEL_HEAP_SIZE < 4294967296 →
  init_core s = Panic "Memory management initialization failed" ∨ ∃ s' bs, init_core s = Ok (tt, s') ∧ core_ok s' bs.
Proof.
  intros [B1 B2 B3 B4 B5 B6] Hi Him Hir. unfold init_core.
  set (s1 := print "[+] Debug system initialized" _).
  assert (E1 : dk (s_dbg s1) = dk (s_dbg s) ∧ s_mm s1 = s_mm s ∧ s_machine s1 = s_machine s).
  { unfold s1, print, on_dbg. cbn [s_dbg s_mm s_machine dk set_dscreen]. rewrite init_dk. cbn [dk set_dscreen]. apply log_dk. }
  clearbody s1. destruct E1 as (E1 & E2 & E3).
  destruct (process_init_base (set_kheap (heap (s_mm s)) (dk (s_dbg s))) NULL _ B1 B3 B4
    (kmalloc_no_heap KERNEL_STACK_SIZE (heap (s_mm s)) ltac:(unfold KERNEL_STACK_SIZE; lia) B2))
    as (k & Hk & Hb & Hcur & _ & _ & _ & _ & Ht). rewrite <- E1, <- E2 in Hk.
  rewrite (on_processes_ok process_init s1 k Hk). ok_bind. cbv beta iota zeta.
  set (s2 := print "[+] Process management initialized" _).
  assert (F : dk (s_dbg s2) = k ∧ cr0 (s_mm s2) = cr0 (s_mm s) ∧ m_handlers (s_machine s2) = m_handlers (s_machine s))
    by (cbn; rewrite E2, E3; done).
  clearbody s2. destruct F as (F1 & F2 & F3). rewrite <- F2 in B6.
  destruct (mm_init_ok image_end (s_mm s2) Hi Him Hir B6) as (st & bs & Hm & Hok & _ & _ & Hfr & _).
  rewrite (on_mm_ok (mm_init image_end) s2 tt st Hm). ok_bind. cbv beta iota zeta.
  destruct (verify_heap_integrity_total (total_frames st) (heap st)) as [sound Hsound]; [lia |].
  assert (Hver : verify_heap (s_mm (with_mm st s2)) = Ok (sound, st)) by (unfold verify_heap; cbn [s_mm with_mm]; rewrite Hsound; by destruct st).
  rewrite (on_mm_ok verify_heap _ sound st Hver). ok_bind. cbv beta iota zeta.
  destruct sound; cbn [negb]; [right | by left]. eexists _, bs. split; [reflexivity |].
  split; cbn [print on_dbg with_mm s_mm s_dbg s_machine dk set_dk set_dscreen m_kernel set_kernel m_handlers].
  - exact Hok.
  - rewrite F1. by repeat apply proc_base_heap.
  - done.
  - rewrite F1. exact Ht.
  - by rewrite F3.
Qed.

Lemma init_devices_ok s bs v scancode : core_ok s bs → vfs_init new_vnode disk buffer no_fs = Ok v →
  ∃ s', init_devices s = Ok (tt, s') ∧ heap (s_mm s') = heap (s_mm s) ∧ dk (s_dbg s') = dk (s_dbg s) ∧
    s_vfs s' = Some v ∧ interrupts_on s' = true ∧
    m_handlers (s_machine s') !! 0%nat = Some (Some TimerHandler) ∧
    m_handlers (s_machine s') !! 1%nat = Some (Some KeyboardHandler) ∧
    irq_handler 0 scancode (s_machine s') = Panic "No runnable processes".
Proof.
  intros [P0 P1 P2 P3 P5] Hv. unfold init_devices.
  rewrite (on_machine_ok (λ m, Ok (tt, interrupts_init isr irq syscall m)) s
    (interrupts_init isr irq syscall (s_machine s)) eq_refl). ok_bind. cbv beta iota zeta. rewrite Hv. ok_bind. cbv beta zeta.
  destruct (start_drivers (interrupts_init isr irq syscall (s_machine s)) P5) as (m1 & m2 & Hm1 & Hm2 & H0 & H1 & Hkern).
  erewrite (on_machine_ok start_timer) by exact Hm1. ok_bind. cbv beta iota zeta.
  erewrite (on_machine_ok start_keyboard) by exact Hm2. ok_bind. cbv beta iota zeta.
  set (s5 := print "[*] Kernel initialization complete
" _). destruct (log_dk "All kernel subsystems operational" s5) as (F1 & F2 & F3).
  destruct (log_rest "All kernel subsystems operational" s5) as [F4 F5].
  exists (log "All kernel subsystems operational" s5). split; [reflexivity |]. rewrite F1, F2, F3, F4, F5.
  split; [reflexivity |]. split; [reflexivity |]. split; [reflexivity |]. split; [reflexivity |]. split; [exact H0 |]. split; [exact H1 |].
  apply tick_panics. change (m_kernel (s_machine s5)) with (m_kernel m2). rewrite Hkern.
  change (m_kernel (interrupts_init isr irq syscall (s_machine s))) with (m_kernel (s_machine s)).
  rewrite P2. by apply schedule_init_panics.
Qed.

End Init.
