(* ===== verification/KernelInitWitness.v ===== *)
(** * A start of the kernel on an empty machine *)
From S2P Require Import Prelude Heap HeapSpec HeapAlloc HeapFree HeapAligned HeapWitness Frames Paging PagingInit MmWitness.
From S2P Require Import Screen Process ProcessWitness Keyboard Solixfs SolixfsWitness Vfs Interrupts Debug DebugWitness KernelInit.

Definition boot_system : system ram_disk :=
  System (debug_boot (kernel_boot heap_zero)) (MmState heap_zero 0 0 0 0 0 0 0)
    (Machine (replicate 256 (make_gate 0 0 0)) (replicate 16 None) 0 (Keyboard ∅ 0 0 false false) (kernel_boot heap_zero) [])
    None false.
Definition blank_disk : ram_disk := λ _, 0.

#[local] Notation start :=
  (kernel_init screen_putc image (λ _, 0) (λ _, 0) 0 blank_disk [] empty_fs (λ _, Some 0) boot_system).
Definition panics {A} (o : outcome A) : bool := match o with Panic _ => true | _ => false end.

Lemma start_no_panic : panics start = false.
Proof. vm_compute. reflexivity. Qed.
Lemma start_not_panic msg : start ≠ Panic msg.
Proof. intros H. pose proof start_no_panic as Hn. rewrite H in Hn. discriminate Hn. Qed.

Lemma boot_system_at_boot : at_boot boot_system.
Proof. split; [apply length_replicate | reflexivity | reflexivity | cbn; lia | apply length_replicate | reflexivity]. Qed.

Lemma blank_vfs : ∃ v, vfs_init (λ _, Some 0) blank_disk [] empty_fs = Ok v.
Proof. eexists. vm_compute. reflexivity. Qed.

