(* ===== verification/LinuxVfs.v ===== *)
(** * The Linux-style filesystem layer (src/kernel/linux_vfs.c, src/include/linux_vfs.h)

    Inodes in a hash table with reference counts, directory entries, filesystem
    types, mounts, open files.  The structures are reached by their addresses; the
    lists through them are kept link by link ([Lists]), because the code also
    links nodes of different structures together.  Operations of filesystems and
    [path_put] are code that is not in the sources: parameters.  Locks are taken
    and released within each function and never nested; messages are left out. *)
From S2P Require Import Prelude Screen Heap Frames Solixfs Slab Lists.

Definition INODE_HASH_SIZE : Z := 256.
Definition O_ACCMODE : Z := 3.
Definition SEEK_SET : Z := 0.
Definition SEEK_CUR : Z := 1.
Definition SEEK_END : Z := 2.
Definition S_IRUSR : Z := 0x100.
Definition S_IWUSR : Z := 0x80.
Definition S_IXUSR : Z := 0x40.
Definition HWCACHE_ALIGN : Z := SLAB_HWCACHE_ALIGN.
(** [sizeof(struct inode)], [sizeof(struct dentry)], [sizeof(struct vfsmount)] *)
Definition INODE_SIZE : Z := 112.
Definition DENTRY_SIZE : Z := 308.
Definition MOUNT_SIZE : Z := 44.

(** ** Data *)

(** The nodes of lists: heads and the members of structures. *)
Inductive lnode :=
| Bucket (k : Z) | IHash (p : Z)
| SbInodes (sb : Z) | ISbList (p : Z)
| IDentry (p : Z) | Subdirs (d : Z) | DChild (d : Z)
| FsTypes | FsNext (f : Z)
| MountList | MntChild (m : Z).
#[export] Instance lnode_eq_dec : EqDecision lnode.
Proof. solve_decision. Defined.

(** [struct inode]; [i_fop] is the number of a table of operations.  The fields
    that no function reads are left out. *)
Record linode := LInode {
  i_mode : Z; i_uid : Z; i_gid : Z; i_ino : Z; i_size : Z; i_blocks : Z;
  i_atime : Z; i_mtime : Z; i_ctime : Z; i_nlink : Z; i_blksize : Z; i_rdev : Z;
  i_fop : option nat; i_sb : Z; i_count : Z;
}.
(** [struct qstr] is declared but not defined: a name and a length. *)
Record qstr := Qstr { q_name : bytes; q_len : nat }.
Record dentry := Dentry {
  d_name : bytes; d_name_len : nat; d_inode : Z; d_parent : Z; d_sb : Z; d_count : Z;
}.
Record super_block := SuperBlock { s_dev : Z; s_blocksize : Z; s_type : Z; s_op : option nat }.
Record file_system_type := FsType {
  fs_name : option bytes; fs_mount : option nat; fs_kill_sb : option nat; fs_supers : list Z;
}.
(** [mnt_devname] is an address; [devname] the string there. *)
Record vfsmount := VfsMount {
  mnt_root : Z; mnt_sb : Z; mnt_flags : Z; mnt_devname : Z; devname : bytes;
}.
Record lfile := LFile {
  f_mnt : Z; f_dentry : Z; f_inode : Z; f_op : option nat; f_pos : Z; f_flags : Z; f_mode : Z; f_count : Z;
}.
Record stat := Stat {
  st_dev : Z; st_ino : Z; st_mode : Z; st_nlink : Z; st_uid : Z; st_gid : Z; st_rdev : Z; st_size : Z;
  st_blksize : Z; st_blocks : Z; st_atime : Z; st_mtime : Z; st_ctime : Z;
}.

(** The static variables, the structures by address, and the links. *)
Record lvfs := LVfs {
  lslab : slab_state;
  inode_cache : Z;
  dentry_cache : Z;
  file_cache : Z;
  inodes : gmap Z linode;
  dentries : gmap Z dentry;
  sbs : gmap Z super_block;
  fstypes : gmap Z file_system_type;
  mounts : gmap Z vfsmount;
  files : gmap Z lfile;
  lk : links lnode;
  next_ino : Z;
  nr_inodes : Z;
  nr_dentries : Z;
}.

Definition set_lslab (x : slab_state) (s : lvfs) : lvfs :=
  LVfs x (inode_cache s) (dentry_cache s) (file_cache s) (inodes s) (dentries s) (sbs s) (fstypes s) (mounts s) (files s) (lk s) (next_ino s) (nr_inodes s) (nr_dentries s).
Definition set_caches (i d f : Z) (s : lvfs) : lvfs :=
  LVfs (lslab s) i d f (inodes s) (dentries s) (sbs s) (fstypes s) (mounts s) (files s) (lk s) (next_ino s) (nr_inodes s) (nr_dentries s).
Definition set_inodes (x : gmap Z linode) (s : lvfs) : lvfs :=
  LVfs (lslab s) (inode_cache s) (dentry_cache s) (file_cache s) x (dentries s) (sbs s) (fstypes s) (mounts s) (files s) (lk s) (next_ino s) (nr_inodes s) (nr_dentries s).
Definition set_dentries (x : gmap Z dentry) (s : lvfs) : lvfs :=
  LVfs (lslab s) (inode_cache s) (dentry_cache s) (file_cache s) (inodes s) x (sbs s) (fstypes s) (mounts s) (files s) (lk s) (next_ino s) (nr_inodes s) (nr_dentries s).
Definition set_fstypes (x : gmap Z file_system_type) (s : lvfs) : lvfs :=
  LVfs (lslab s) (inode_cache s) (dentry_cache s) (file_cache s) (inodes s) (dentries s) (sbs s) x (mounts s) (files s) (lk s) (next_ino s) (nr_inodes s) (nr_dentries s).
Definition set_mounts (x : gmap Z vfsmount) (s : lvfs) : lvfs :=
  LVfs (lslab s) (inode_cache s) (dentry_cache s) (file_cache s) (inodes s) (dentries s) (sbs s) (fstypes s) x (files s) (lk s) (next_ino s) (nr_inodes s) (nr_dentries s).
Definition set_files (x : gmap Z lfile) (s : lvfs) : lvfs :=
  LVfs (lslab s) (inode_cache s) (dentry_cache s) (file_cache s) (inodes s) (dentries s) (sbs s) (fstypes s) (mounts s) x (lk s) (next_ino s) (nr_inodes s) (nr_dentries s).
Definition set_lk (x : links lnode) (s : lvfs) : lvfs :=
  LVfs (lslab s) (inode_cache s) (dentry_cache s) (file_cache s) (inodes s) (dentries s) (sbs s) (fstypes s) (mounts s) (files s) x (next_ino s) (nr_inodes s) (nr_dentries s).
Definition set_counters (n i d : Z) (s : lvfs) : lvfs :=
  LVfs (lslab s) (inode_cache s) (dentry_cache s) (file_cache s) (inodes s) (dentries s) (sbs s) (fstypes s) (mounts s) (files s) (lk s) n i d.

Definition set_i_ino (n : Z) (i : linode) : linode :=
  LInode (i_mode i) (i_uid i) (i_gid i) n (i_size i) (i_blocks i) (i_atime i) (i_mtime i) (i_ctime i) (i_nlink i) (i_blksize i) (i_rdev i) (i_fop i) (i_sb i) (i_count i).
Definition set_i_count (n : Z) (i : linode) : linode :=
  LInode (i_mode i) (i_uid i) (i_gid i) (i_ino i) (i_size i) (i_blocks i) (i_atime i) (i_mtime i) (i_ctime i) (i_nlink i) (i_blksize i) (i_rdev i) (i_fop i) (i_sb i) n.
Definition set_d_count (n : Z) (d : dentry) : dentry :=
  Dentry (d_name d) (d_name_len d) (d_inode d) (d_parent d) (d_sb d) n.
Definition set_d_inode (i : Z) (d : dentry) : dentry :=
  Dentry (d_name d) (d_name_len d) i (d_parent d) (d_sb d) (d_count d).
Definition set_f_pos (n : Z) (f : lfile) : lfile :=
  LFile (f_mnt f) (f_dentry f) (f_inode f) (f_op f) n (f_flags f) (f_mode f) (f_count f).

Definition l_slab {A} (c : cmd slab_state A) : cmd lvfs A := λ s,
  '(a, x) ← c (lslab s); Ok (a, set_lslab x s).

(** A dereference: a null or foreign pointer is a fault. *)
Definition deref {A} (m : gmap Z A) (p : Z) : outcome A :=
  match m !! p with Some x => Ok x | None => Fault end.

(** ** [list_for_each_entry]: the first entry with [test], at most [fuel] steps.
    The test reads the structure around the node. *)
Fixpoint find_node (fuel : nat) (L : links lnode) (head cur : lnode) (test : lnode → outcome bool) : outcome (option lnode) :=
  match fuel with
  | O => Diverge
  | S fuel =>
    if decide (cur = head) then Ok None else
    b ← test cur;
    if (b : bool) then Ok (Some cur) else find_node fuel L head (next L cur) test
  end.
Definition for_each (fuel : nat) (L : links lnode) (head : lnode) (test : lnode → outcome bool) : outcome (option lnode) :=
  find_node fuel L head (next L head) test.

(** ** Hashing *)
Definition inode_hash (sb ino : Z) : Z :=
  let tmp := u32 (ino + sb) in
  let tmp := u32 (tmp + Z.shiftr tmp 4 + u32 (Z.shiftl tmp 4)) in
  Z.land tmp (INODE_HASH_SIZE - 1).

(** ** Access checks; the bits of the mask are not defined in the sources *)
Section Permission.
Variables MAY_READ MAY_WRITE MAY_EXEC : Z.
Definition inode_permission (inode mask : Z) (s : lvfs) : outcome kret :=
  if inode =? NULL then Ok (Err EINVAL) else
  i ← deref (inodes s) inode;
  let lacks may bit := negb (Z.land mask may =? 0) && (Z.land (i_mode i) bit =? 0) in
  if lacks MAY_READ S_IRUSR then Ok (Err EACCES) else
  if lacks MAY_WRITE S_IWUSR then Ok (Err EACCES) else
  if lacks MAY_EXEC S_IXUSR then Ok (Err EACCES) else Ok (Ret 0).
Definition generic_permission (inode mask : Z) (s : lvfs) : outcome kret := inode_permission inode mask s.
End Permission.

(** ** Paths: only the root, and its path is empty *)
Definition kern_path (name : option bytes) : kret * (Z * Z) :=
  match name with
  | None => (Err EINVAL, (NULL, NULL))
  | Some name => if bool_decide (name = bytes_of "/") then (Ret 0, (NULL, NULL)) else (Err ENOENT, (NULL, NULL))
  end.

(** [vfs_mkdir], [vfs_rmdir], [vfs_mknod], [vfs_unlink], [vfs_symlink],
    [vfs_link] and [vfs_rename] do nothing and report success. *)
Definition vfs_nothing (s : lvfs) : kret * lvfs := (Ret 0, s).

Section Layer.
Context `{ListApi}.
(** The operations of filesystems, by the number of their table; [None] is a
    null pointer. *)
Variable op_alloc_inode : nat → option (Z → cmd lvfs Z).
Variable op_read_inode : nat → option (Z → cmd lvfs unit).
Variable op_evict_inode : nat → option (Z → cmd lvfs unit).
Variable do_mount : nat → Z → Z → option bytes → Z → cmd lvfs (errno + Z).
Variable do_kill_sb : nat → Z → cmd lvfs unit.
Variable fop_open : nat → option (Z → Z → cmd lvfs kret).
Variable fop_release : nat → option (Z → Z → cmd lvfs kret).
Variable fop_read : nat → option (Z → Z → cmd lvfs (kret * bytes)).
Variable fop_write : nat → option (Z → bytes → cmd lvfs kret).
Variable fop_llseek : nat → option (Z → Z → Z → cmd lvfs kret).
Variable path_put : Z * Z → cmd lvfs unit.
Variables FMODE_READ FMODE_WRITE : Z.
(** [sizeof(struct file)]: it contains members of a type that is not defined. *)
Variable file_size : Z.

Definition add_link (x h : lnode) (s : lvfs) : lvfs := set_lk (list_add x h (lk s)) s.
Definition del_link (x : lnode) (s : lvfs) : lvfs := set_lk (list_del x (lk s)) s.
Definition init_link (x : lnode) (s : lvfs) : lvfs := set_lk (INIT_LIST_HEAD x (lk s)) s.

(** ** Initialisation *)
Fixpoint init_buckets (n : nat) (k : Z) (s : lvfs) : lvfs :=
  match n with
  | O => s
  | S n => init_buckets n (k + 1) (init_link (Bucket k) s)
  end.
Definition vfs_init : cmd lvfs kret := λ s,
  let s := init_link MountList (init_link FsTypes s) in
  let s := init_buckets (Z.to_nat INODE_HASH_SIZE) 0 s in
  '(i, s) ← l_slab (kmem_cache_create (bytes_of "inode_cache") INODE_SIZE 0 HWCACHE_ALIGN None None) s;
  let s := set_caches i (dentry_cache s) (file_cache s) s in
  if i =? NULL then Ok (Err ENOMEM, s) else
  '(d, s) ← l_slab (kmem_cache_create (bytes_of "dentry_cache") DENTRY_SIZE 0 HWCACHE_ALIGN None None) s;
  let s := set_caches i d (file_cache s) s in
  if d =? NULL then '(_, s) ← l_slab (kmem_cache_destroy i) s; Ok (Err ENOMEM, s) else
  '(f, s) ← l_slab (kmem_cache_create (bytes_of "file_cache") file_size 0 HWCACHE_ALIGN None None) s;
  let s := set_caches i d f s in
  if f =? NULL then
    '(_, s) ← l_slab (kmem_cache_destroy d) s;
    '(_, s) ← l_slab (kmem_cache_destroy i) s;
    Ok (Err ENOMEM, s)
  else Ok (Ret 0, s).

(** ** Inodes *)
Definition new_inode (sb ino blksize : Z) : linode := LInode 0 0 0 ino 0 0 0 0 0 0 blksize 0 None sb 1.

Definition alloc_inode (sb : Z) : cmd lvfs Z := λ s,
  '(p, s) ← l_slab (kmem_cache_alloc (inode_cache s)) s;
  if p =? NULL then Ok (NULL, s) else
  b ← deref (sbs s) sb;
  let ino := next_ino s in
  let s := set_inodes (<[p := new_inode sb ino (u32 (s_blocksize b))]> (inodes s)) s in
  let s := set_counters (u32 (ino + 1)) (nr_inodes s) (nr_dentries s) s in
  let s := init_link (IDentry p) (init_link (ISbList p) (init_link (IHash p) s)) in
  let s := add_link (ISbList p) (SbInodes sb) s in
  let s := add_link (IHash p) (Bucket (inode_hash sb ino)) s in
  Ok (p, set_counters (next_ino s) (u32 (nr_inodes s + 1)) (nr_dentries s) s).

Definition destroy_inode (p : Z) : cmd lvfs unit := λ s,
  if p =? NULL then Ok (tt, s) else
  i ← deref (inodes s) p;
  let s := del_link (ISbList p) (del_link (IHash p) s) in
  let s := set_counters (next_ino s) (u32 (nr_inodes s - 1)) (nr_dentries s) s in
  '(u, s) ← l_slab (kmem_cache_free (inode_cache s) p) s;
  Ok (u, set_inodes (delete p (inodes s)) s).

(** An entry of a bucket: the node of an inode. *)
Definition is_inode (sb ino : Z) (s : lvfs) (n : lnode) : outcome bool :=
  match n with
  | IHash p => i ← deref (inodes s) p; Ok ((i_ino i =? ino) && (i_sb i =? sb))
  | _ => Fault
  end.

Definition iget (fuel : nat) (sb ino : Z) : cmd lvfs Z := λ s,
  r ← for_each fuel (lk s) (Bucket (inode_hash sb ino)) (is_inode sb ino s);
  match r with
  | Some (IHash p) =>
    Ok (p, set_inodes (alter (λ i, set_i_count (u32 (i_count i + 1)) i) p (inodes s)) s)
  | Some _ => Fault
  | None =>
    b ← deref (sbs s) sb;
    match (o ← s_op b; op_alloc_inode o) with
    | None => Ok (NULL, s)
    | Some alloc =>
      '(p, s) ← alloc sb s;
      if p =? NULL then Ok (NULL, s) else
      i ← deref (inodes s) p;
      let s := set_inodes (<[p := set_i_ino ino i]> (inodes s)) s in
      b ← deref (sbs s) sb;
      match (o ← s_op b; op_read_inode o) with
      | None => Ok (p, s)
      | Some read => '(_, s) ← read p s; Ok (p, s)
      end
    end
  end.

Definition iput (p : Z) : cmd lvfs unit := λ s,
  if p =? NULL then Ok (tt, s) else
  i ← deref (inodes s) p;
  let c := u32 (i_count i - 1) in
  let s := set_inodes (<[p := set_i_count c i]> (inodes s)) s in
  if c =? 0 then
    b ← deref (sbs s) (i_sb i);
    '(_, s) ← (match (o ← s_op b; op_evict_inode o) with Some evict => evict p s | None => Ok (tt, s) end);
    destroy_inode p s
  else Ok (tt, s).

(** ** Directory entries *)
Definition d_alloc (parent : Z) (name : option qstr) : cmd lvfs Z := λ s,
  '(p, s) ← l_slab (kmem_cache_alloc (dentry_cache s)) s;
  if p =? NULL then Ok (NULL, s) else
  let s := init_link (DChild p) (init_link (Subdirs p) s) in
  '(nm, len) ← match name with
               | None => Ok ([], O)
               | Some q => if (256 <=? q_len q)%nat then Fault else Ok (take (q_len q) (q_name q), q_len q)
               end;
  let d := Dentry nm len NULL parent NULL 1 in
  '(d, s) ← (if parent =? NULL then Ok (d, s) else
             pd ← deref (dentries s) parent;
             Ok (Dentry nm len NULL parent (d_sb pd) 1, add_link (DChild p) (Subdirs parent) s));
  let s := set_dentries (<[p := d]> (dentries s)) s in
  Ok (p, set_counters (next_ino s) (nr_inodes s) (u32 (nr_dentries s + 1)) s).

Definition d_free (p : Z) : cmd lvfs unit := λ s,
  if p =? NULL then Ok (tt, s) else
  d ← deref (dentries s) p;
  let s := if d_parent d =? NULL then s else del_link (DChild p) s in
  let s := set_counters (next_ino s) (nr_inodes s) (u32 (nr_dentries s - 1)) s in
  '(u, s) ← l_slab (kmem_cache_free (dentry_cache s) p) s;
  Ok (u, set_dentries (delete p (dentries s)) s).

(** [d_add] links the inode's list head behind the entry's own node. *)
Definition d_add (p inode : Z) : cmd lvfs kret := λ s,
  if p =? NULL then Ok (Err EINVAL, s) else
  d ← deref (dentries s) p;
  let s := set_dentries (<[p := set_d_inode inode d]> (dentries s)) s in
  if inode =? NULL then Ok (Ret 0, s) else
  i ← deref (inodes s) inode;
  Ok (Ret 0, add_link (IDentry inode) (DChild p) s).

(** An entry of a list of children: the node of a directory entry. *)
Definition is_named (name : qstr) (s : lvfs) (n : lnode) : outcome bool :=
  match n with
  | DChild p =>
    d ← deref (dentries s) p;
    Ok ((d_name_len d =? q_len name)%nat && bool_decide (take (q_len name) (d_name d) = take (q_len name) (q_name name)))
  | _ => Fault
  end.

Definition d_lookup (fuel : nat) (parent : Z) (name : option qstr) : cmd lvfs Z := λ s,
  match name with
  | None => Ok (NULL, s)
  | Some name =>
    if parent =? NULL then Ok (NULL, s) else
    r ← for_each fuel (lk s) (Subdirs parent) (is_named name s);
    match r with
    | Some (DChild p) => Ok (p, set_dentries (alter (λ d, set_d_count (u32 (d_count d + 1)) d) p (dentries s)) s)
    | Some _ => Fault
    | None => Ok (NULL, s)
    end
  end.

(** ** Filesystem types *)
Definition is_fs (name : bytes) (s : lvfs) (n : lnode) : outcome bool :=
  match n with
  | FsNext p =>
    f ← deref (fstypes s) p;
    match fs_name f with None => Fault | Some nm => Ok (bool_decide (nm = name)) end
  | _ => Fault
  end.

Definition register_filesystem (fuel : nat) (fs : Z) : cmd lvfs kret := λ s,
  if fs =? NULL then Ok (Err EINVAL, s) else
  f ← deref (fstypes s) fs;
  match fs_name f with
  | None => Ok (Err EINVAL, s)
  | Some name =>
    r ← for_each fuel (lk s) FsTypes (is_fs name s);
    match r with
    | Some _ => Ok (Err EBUSY, s)
    | None =>
      let s := add_link (FsNext fs) FsTypes s in
      Ok (Ret 0, set_fstypes (<[fs := FsType (fs_name f) (fs_mount f) (fs_kill_sb f) []]> (fstypes s)) s)
    end
  end.

Definition unregister_filesystem (fs : Z) : cmd lvfs kret := λ s,
  if fs =? NULL then Ok (Err EINVAL, s) else
  f ← deref (fstypes s) fs;
  if negb (length (fs_supers f) =? 0)%nat then Ok (Err EBUSY, s) else
  Ok (Ret 0, del_link (FsNext fs) s).

Definition get_fs_type (fuel : nat) (name : option bytes) (s : lvfs) : outcome Z :=
  match name with
  | None => Ok NULL
  | Some name =>
    r ← for_each fuel (lk s) FsTypes (is_fs name s);
    match r with
    | Some (FsNext p) => Ok p
    | Some _ => Fault
    | None => Ok NULL
    end
  end.

(** ** Mounts *)

(** [strdup]: a copy on the heap. *)
Definition strdup (str : bytes) : cmd lvfs Z := λ s,
  l_slab (on_heap (kmalloc (Z.of_nat (length str) + 1))) s.

Definition vfs_mount (fuel : nat) (dev_name : option bytes) (type : option bytes) (flags data : Z) : cmd lvfs kret := λ s,
  fs ← get_fs_type fuel type s;
  if fs =? NULL then Ok (Err ENODEV, s) else
  '(mnt, s) ← l_slab (on_heap (kmalloc MOUNT_SIZE)) s;
  if mnt =? NULL then Ok (Err ENOMEM, s) else
  let err_free_mnt (e : errno) (s : lvfs) := '(_, s) ← l_slab (on_heap (kfree mnt)) s; Ok (Err e, s) in
  f ← deref (fstypes s) fs;
  match fs_mount f with
  | None => err_free_mnt ENOSYS s
  | Some m =>
    '(r, s) ← do_mount m fs flags dev_name data s;
    match r with
    | inl e => err_free_mnt e s
    | inr root =>
      d ← deref (dentries s) root;
      '(dn, s) ← match dev_name with None => Ok (NULL, s) | Some n => strdup n s end;
      let s := set_mounts (<[mnt := VfsMount root (d_sb d) flags dn (default [] dev_name)]> (mounts s)) s in
      let s := init_link (MntChild mnt) s in
      Ok (Ret 0, add_link (MntChild mnt) MountList s)
    end
  end.

Definition is_mount (target : bytes) (s : lvfs) (n : lnode) : outcome bool :=
  match n with
  | MntChild p =>
    m ← deref (mounts s) p;
    Ok (negb (mnt_devname m =? NULL) && bool_decide (devname m = target))
  | _ => Fault
  end.

Definition vfs_umount (fuel : nat) (target : bytes) : cmd lvfs kret := λ s,
  r ← for_each fuel (lk s) MountList (is_mount target s);
  match r with
  | None => Ok (Err ENOENT, s)
  | Some (MntChild p) =>
    m ← deref (mounts s) p;
    b ← deref (sbs s) (mnt_sb m);
    '(_, s) ← (if s_type b =? NULL then Ok (tt, s) else
               f ← deref (fstypes s) (s_type b);
               match fs_kill_sb f with Some k => do_kill_sb k (mnt_sb m) s | None => Ok (tt, s) end);
    '(_, s) ← (if mnt_devname m =? NULL then Ok (tt, s) else l_slab (on_heap (kfree (mnt_devname m))) s);
    let s := del_link (MntChild p) s in
    '(_, s) ← l_slab (on_heap (kfree p)) s;
    Ok (Ret 0, set_mounts (delete p (mounts s)) s)
  | Some _ => Fault
  end.

(** ** Files *)
Definition filp_open (filename : option bytes) (flags : Z) : cmd lvfs (kret + Z) := λ s,
  match kern_path filename with
  | (Err e, _) => Ok (inl (Err e), s)
  | (Ret r, path) =>
    if negb (r =? 0) then Ok (inl (Ret r), s) else
    '(p, s) ← l_slab (kmem_cache_alloc (file_cache s)) s;
    if p =? NULL then '(_, s) ← path_put path s; Ok (inl (Err ENOMEM), s) else
    d ← deref (dentries s) (snd path);
    fop ← (if d_inode d =? NULL then Ok None else i ← deref (inodes s) (d_inode d); Ok (i_fop i));
    let f := LFile (fst path) (snd path) (d_inode d) fop 0 flags (Z.land (u32 (flags + 1)) O_ACCMODE) 1 in
    let s := set_files (<[p := f]> (files s)) s in
    match (o ← fop; fop_open o) with
    | None => Ok (inr p, s)
    | Some open =>
      '(r, s) ← open (d_inode d) p s;
      if bool_decide (r = Ret 0) then Ok (inr p, s) else
      '(_, s) ← l_slab (kmem_cache_free (file_cache s) p) s;
      '(_, s) ← path_put path s;
      Ok (inl r, s)
    end
  end.

Definition filp_close (p : Z) : cmd lvfs kret := λ s,
  if p =? NULL then Ok (Err EINVAL, s) else
  f ← deref (files s) p;
  '(_, s) ← (match (o ← f_op f; fop_release o) with
             | Some release => '(_, s) ← release (f_inode f) p s; Ok (tt, s)
             | None => Ok (tt, s)
             end);
  '(_, s) ← path_put (f_mnt f, f_dentry f) s;
  '(_, s) ← l_slab (kmem_cache_free (file_cache s) p) s;
  Ok (Ret 0, set_files (delete p (files s)) s).

(** The bytes stored in the buffer with the result. *)
Definition vfs_read (p count : Z) : cmd lvfs (kret * bytes) := λ s,
  if p =? NULL then Ok (Err EINVAL, [], s) else
  f ← deref (files s) p;
  if Z.land (f_mode f) FMODE_READ =? 0 then Ok (Err EBADF, [], s) else
  match (o ← f_op f; fop_read o) with
  | Some read => read p count s
  | None => Ok (Err EINVAL, [], s)
  end.
Definition vfs_write (p : Z) (buf : bytes) : cmd lvfs kret := λ s,
  if p =? NULL then Ok (Err EINVAL, s) else
  f ← deref (files s) p;
  if Z.land (f_mode f) FMODE_WRITE =? 0 then Ok (Err EBADF, s) else
  match (o ← f_op f; fop_write o) with
  | Some write => write p buf s
  | None => Ok (Err EINVAL, s)
  end.

Definition vfs_llseek (p offset whence : Z) : cmd lvfs kret := λ s,
  if p =? NULL then Ok (Err EINVAL, s) else
  f ← deref (files s) p;
  let go (n : Z) := Ok (Ret n, set_files (<[p := set_f_pos n f]> (files s)) s) in
  match (o ← f_op f; fop_llseek o) with
  | Some seek => seek p offset whence s
  | None =>
    if whence =? SEEK_SET then go offset
    else if whence =? SEEK_CUR then go (f_pos f + offset)
    else if whence =? SEEK_END then
      if f_inode f =? NULL then Ok (Err EINVAL, s) else i ← deref (inodes s) (f_inode f); go (i_size i + offset)
    else Ok (Err EINVAL, s)
  end.

Definition fill_stat (i : linode) (b : super_block) : stat :=
  Stat (s_dev b) (i_ino i) (i_mode i) (i_nlink i) (i_uid i) (i_gid i) (i_rdev i) (i_size i) (i_blksize i)
    (i_blocks i) (i_atime i) (i_mtime i) (i_ctime i).
Definition vfs_stat (name : option bytes) : cmd lvfs (kret * option stat) := λ s,
  match kern_path name with
  | (Err e, _) => Ok (Err e, None, s)
  | (Ret r, path) =>
    if negb (r =? 0) then Ok (Ret r, None, s) else
    d ← deref (dentries s) (snd path);
    if d_inode d =? NULL then '(_, s) ← path_put path s; Ok (Err ENOENT, None, s) else
    i ← deref (inodes s) (d_inode d);
    b ← deref (sbs s) (i_sb i);
    '(_, s) ← path_put path s;
    Ok (Ret 0, Some (fill_stat i b), s)
  end.
End Layer.
