(* ===== verification/LinuxVfsSpec.v ===== *)
(** * Correctness of the Linux-style filesystem layer

    Loops over linked lists are searches in lists; the hash table of inodes finds
    exactly the inodes in memory as long as their numbers do not change; names of
    directory entries and filesystem types are found again. *)
From stdpp Require Import functions fin_maps.
From S2P Require Import Prelude Screen Heap HeapSpec Frames Solixfs Slab SlabSpec SlabCache Lists LinuxVfs.

(** ** Loops over lists *)
Fixpoint find_list (test : lnode → outcome bool) (xs : list lnode) : outcome (option lnode) :=
  match xs with
  | [] => Ok None
  | x :: xs => b ← test x; if (b : bool) then Ok (Some x) else find_list test xs
  end.

Lemma find_node_segment L h test xs : ∀ fuel p,
  segment L p xs h → h ∉ xs → (length xs < fuel)%nat → find_node fuel L h (next L p) test = find_list test xs.
Proof.
  induction xs as [| x xs IH]; intros fuel p Hs Hh Hf; (destruct fuel as [| fuel]; [cbn in Hf; lia |]); cbn [find_node find_list].
  - destruct Hs as [-> _]. by rewrite decide_True.
  - destruct Hs as (-> & _ & Hs). apply not_elem_of_cons in Hh as [Hx Hh]. rewrite decide_False by congruence.
    destruct (test x) as [[] | | |]; [done | | done..]. change (mbind ?g (Ok ?x)) with (g x). cbv beta iota.
    apply IH; [done | done | cbn in Hf; lia].
Qed.

Lemma for_each_linked L h xs test fuel :
  linked L h xs → (length xs < fuel)%nat → for_each fuel L h test = find_list test xs.
Proof. intros [HN Hs] Hf. apply NoDup_cons in HN as [Hh _]. by apply find_node_segment. Qed.

Lemma find_list_none test xs : (∀ x, x ∈ xs → test x = Ok false) → find_list test xs = Ok None.
Proof.
  induction xs as [| x xs IH]; intros Ht; [done |]. cbn [find_list]. rewrite Ht by set_solver.
  change (mbind ?g (Ok ?x)) with (g x). cbv beta iota. apply IH. set_solver.
Qed.

Lemma find_list_first test xs x ys :
  (∀ y, y ∈ xs → test y = Ok false) → test x = Ok true → find_list test (xs ++ x :: ys) = Ok (Some x).
Proof.
  intros Hxs Hx. induction xs as [| y xs IH]; cbn [app find_list].
  - by rewrite Hx.
  - rewrite Hxs by set_solver. change (mbind ?g (Ok ?x)) with (g x). cbv beta iota. apply IH. set_solver.
Qed.

(** ** Families of disjoint lists

    The lists with the heads [hd k], for [k] in [dom], of nodes [nd p]. *)
Record family (dom : Z → Prop) (hd nd : Z → lnode) (L : links lnode) (F : Z → list Z) : Prop := {
  fam_linked : ∀ k, dom k → linked L (hd k) (nd <$> F k);
  fam_disjoint : ∀ k k' p, p ∈ F k → p ∈ F k' → k = k';
}.

Section Family.
Context `{ListApi}.
Context (dom : Z → Prop) (hd nd : Z → lnode) `{!Inj (=) (=) hd} `{!Inj (=) (=) nd}.
Hypothesis apart : ∀ k p, hd k ≠ nd p.
Implicit Types (L : links lnode) (F : Z → list Z).

(** The nodes of the list with head [k]. *)
Definition list_nodes F (k : Z) : list lnode := hd k :: (nd <$> F k).

Lemma family_frame L L' F l :
  family dom hd nd L F → same_outside l L L' → (∀ k a, dom k → a ∈ list_nodes F k → a ∉ l) → family dom hd nd L' F.
Proof. intros [Hl Hd] Hs Ho. split; [| done]. intros k Hk. apply (linked_frame l L); [done | | by apply Hl]. intros a Ha. by apply (Ho k). Qed.

Lemma family_apart L F k k' a : family dom hd nd L F → k ≠ k' → a ∈ list_nodes F k → a ∉ list_nodes F k'.
Proof.
  intros [_ Hd] Hne Ha Ha'. unfold list_nodes in *.
  apply elem_of_cons in Ha as [-> | (p & -> & Hp)%list_elem_of_fmap];
    apply elem_of_cons in Ha' as [He | (q & He & Hq)%list_elem_of_fmap].
  - by apply Hne, (inj hd).
  - by apply (apart k q).
  - by apply (apart k' p).
  - apply (inj nd) in He as ->. apply Hne. by apply (Hd k k' q).
Qed.

Lemma add_frame L F k p : family dom hd nd L F → dom k → same_outside (nd p :: list_nodes F k) L (list_add (nd p) (hd k) L).
Proof. intros [Hl _] Hk. apply list_add_frame. by apply Hl. Qed.

Lemma family_add L F k p : family dom hd nd L F → dom k → (∀ j, p ∉ F j) →
  family dom hd nd (list_add (nd p) (hd k) L) (<[k := p :: F k]> F).
Proof.
  intros Hf Hk Hp. pose proof Hf as [Hl Hd]. split.
  - intros j Hj. destruct (decide (j = k)) as [-> | Hne].
    + rewrite fn_lookup_insert. cbn. apply list_add_linked; [by apply Hl |].
      apply not_elem_of_cons. split; [by intros He; apply (apart k p) |].
      intros (q & He & Hq)%list_elem_of_fmap. apply (inj nd) in He as ->. by apply (Hp k).
    + rewrite fn_lookup_insert_ne by done. apply (linked_frame (nd p :: list_nodes F k) L); [by apply add_frame | | by apply Hl].
      intros a Ha [-> | Ha']%elem_of_cons; [| by apply (family_apart L F j k a)].
      apply elem_of_cons in Ha as [He | (q & He & Hq)%list_elem_of_fmap]; [by apply (apart j p) |].
      apply (inj nd) in He as <-. by apply (Hp j).
  - intros j j' q Hq Hq'. destruct (decide (j = k)) as [-> | Hj], (decide (j' = k)) as [-> | Hj'];
      rewrite ?fn_lookup_insert, ?fn_lookup_insert_ne in Hq by done; rewrite ?fn_lookup_insert, ?fn_lookup_insert_ne in Hq' by done.
    + done.
    + apply elem_of_cons in Hq as [-> | Hq]; [by apply Hp in Hq' | by apply (Hd k j' q)].
    + apply elem_of_cons in Hq' as [-> | Hq']; [by apply Hp in Hq | by apply (Hd j k q)].
    + by apply (Hd j j' q).
Qed.

Definition without (p : Z) (l : list Z) : list Z := filter (λ q, q ≠ p) l.
Lemma without_id p l : p ∉ l → without p l = l.
Proof.
  intros Hp. induction l as [| q l IH]; [done |]. apply not_elem_of_cons in Hp as [? ?]. unfold without in *.
  rewrite filter_cons_True by done. by rewrite IH.
Qed.
Lemma without_split p xs ys : p ∉ xs → p ∉ ys → without p (xs ++ p :: ys) = xs ++ ys.
Proof.
  intros Hx Hy. unfold without. rewrite filter_app, filter_cons_False by naive_solver.
  f_equal; by apply without_id.
Qed.
Lemma elem_of_without p q l : q ∈ without p l ↔ q ≠ p ∧ q ∈ l.
Proof. unfold without. by rewrite list_elem_of_filter. Qed.

Lemma family_split L F k p : family dom hd nd L F → dom k → p ∈ F k →
  ∃ xs ys, F k = xs ++ p :: ys ∧ p ∉ xs ∧ p ∉ ys.
Proof.
  intros [Hl _] Hk Hp. apply list_elem_of_split in Hp as (xs & ys & E). exists xs, ys.
  specialize (Hl k Hk). destruct Hl as [HN _]. apply NoDup_cons in HN as [_ HN].
  apply (NoDup_fmap_1 nd) in HN. rewrite E in HN. apply NoDup_app in HN as (_ & H1 & HN).
  apply NoDup_cons in HN as [HN _]. set_solver.
Qed.

Lemma del_frame L F k p : family dom hd nd L F → dom k → p ∈ F k →
  same_outside (list_nodes F k) L (list_del (nd p) L).
Proof.
  intros Hf Hk Hp. destruct (family_split L F k p Hf Hk Hp) as (xs & ys & E & _ & _).
  destruct Hf as [Hl _]. specialize (Hl k Hk). unfold list_nodes. rewrite E in *. rewrite fmap_app, fmap_cons in *.
  by apply list_del_frame.
Qed.

Lemma family_del L F k p : family dom hd nd L F → dom k → p ∈ F k →
  family dom hd nd (list_del (nd p) L) (λ j, without p (F j)).
Proof.
  intros Hf Hk Hp. destruct (family_split L F k p Hf Hk Hp) as (xs & ys & E & Hx & Hy). pose proof Hf as [Hl Hd]. split.
  - intros j Hj. destruct (decide (j = k)) as [-> | Hne].
    + rewrite E, without_split by done. rewrite fmap_app. apply list_del_linked. specialize (Hl k Hj).
      by rewrite E, fmap_app, fmap_cons in Hl.
    + rewrite without_id by (intros Hpj; apply Hne; by apply (Hd j k p)).
      apply (linked_frame (list_nodes F k) L); [by apply del_frame | | by apply Hl].
      intros a Ha. by apply (family_apart L F j k a).
  - intros j j' q (_ & Hq)%elem_of_without (_ & Hq')%elem_of_without. by apply (Hd j j' q).
Qed.
End Family.

(** ** The table of inodes *)

Definition is_bucket (k : Z) : Prop := 0 <= k < INODE_HASH_SIZE.
#[local] Instance Bucket_inj : Inj (=) (=) Bucket.
Proof. by intros ? ? [= ->]. Qed.
#[local] Instance IHash_inj : Inj (=) (=) IHash.
Proof. by intros ? ? [= ->]. Qed.
#[local] Instance SbInodes_inj : Inj (=) (=) SbInodes.
Proof. by intros ? ? [= ->]. Qed.
#[local] Instance ISbList_inj : Inj (=) (=) ISbList.
Proof. by intros ? ? [= ->]. Qed.

(** [B k] are the inodes in bucket [k], [I sb] those in the list of a superblock. *)
Record icache_ok (s : lvfs) (B I : Z → list Z) : Prop := {
  ic_bucket : family is_bucket Bucket IHash (lk s) B;
  ic_sb : family (λ sb, is_Some (sbs s !! sb)) SbInodes ISbList (lk s) I;
  ic_in : ∀ k p, p ∈ B k ↔ ∃ i, inodes s !! p = Some i ∧ inode_hash (i_sb i) (i_ino i) = k;
  ic_in_sb : ∀ sb p, p ∈ I sb ↔ ∃ i, inodes s !! p = Some i ∧ i_sb i = sb;
  ic_unique : ∀ p q i j, inodes s !! p = Some i → inodes s !! q = Some j →
    i_sb i = i_sb j → i_ino i = i_ino j → p = q;
  ic_numbers : ∀ p i, inodes s !! p = Some i → p ≠ NULL ∧ i_ino i < next_ino s ∧ is_Some (sbs s !! i_sb i);
  ic_count : nr_inodes s = u32 (Z.of_nat (size (inodes s))) ∧ 0 <= next_ino s < 2 ^ 32;
}.

Lemma inode_hash_range sb ino : 0 <= inode_hash sb ino < INODE_HASH_SIZE.
Proof.
  unfold inode_hash, INODE_HASH_SIZE. change (256 - 1) with (Z.ones 8). rewrite Z.land_ones by lia.
  apply Z.mod_pos_bound. lia.
Qed.

Lemma find_inode s sb ino xs : (∀ p, p ∈ xs → is_Some (inodes s !! p)) →
  match find_list (is_inode sb ino s) (IHash <$> xs) with
  | Ok (Some (IHash p)) => ∃ i, inodes s !! p = Some i ∧ i_sb i = sb ∧ i_ino i = ino
  | Ok None => ∀ p i, p ∈ xs → inodes s !! p = Some i → i_sb i = sb → i_ino i ≠ ino
  | _ => False
  end.
Proof.
  induction xs as [| p xs IH]; intros Hin; cbn [fmap list_fmap find_list]; [set_solver |].
  destruct (Hin p) as [i Hi]; [set_solver |]. cbn [is_inode]. unfold deref. rewrite Hi.
  repeat (change (mbind ?g (Ok ?x)) with (g x); cbv beta iota).
  destruct ((i_ino i =? ino) && (i_sb i =? sb)) eqn:E.
  - apply andb_prop in E as [E1%Z.eqb_eq E2%Z.eqb_eq]. eauto.
  - specialize (IH ltac:(set_solver)). destruct (find_list _ _) as [[[] |] | | |]; try done.
    intros q j [-> | Hq]%elem_of_cons Hj Hsb Hino; [| by apply (IH q j)].
    rewrite Hi in Hj. injection Hj as <-. by rewrite Hsb, Hino, !Z.eqb_refl in E.
Qed.

(** The search of [iget] finds an inode exactly when it is in memory. *)
Lemma iget_search s B I fuel sb ino :
  icache_ok s B I → (length (B (inode_hash sb ino)) < fuel)%nat →
  match for_each fuel (lk s) (Bucket (inode_hash sb ino)) (is_inode sb ino s) with
  | Ok (Some (IHash p)) => ∃ i, inodes s !! p = Some i ∧ i_sb i = sb ∧ i_ino i = ino
  | Ok None => ∀ p i, inodes s !! p = Some i → i_sb i = sb → i_ino i ≠ ino
  | _ => False
  end.
Proof.
  intros Hok Hf. rewrite (for_each_linked _ _ (IHash <$> B (inode_hash sb ino)));
    [| by apply (fam_linked _ _ _ _ _ (ic_bucket _ _ _ Hok)), inode_hash_range | by rewrite length_fmap].
  pose proof (find_inode s sb ino (B (inode_hash sb ino))) as H.
  destruct (find_list _ _) as [[[] |] | | |]; 
    try (apply H; intros r0 (i0 & Hi0 & _)%(ic_in _ _ _ Hok); by exists i0).
  intros p i Hi Hsb Hino. eapply H; [| | exact Hi | exact Hsb | exact Hino].
  - intros q (j & Hj & _)%(ic_in _ _ _ Hok). by exists j.
  - apply (ic_in _ _ _ Hok). exists i. by rewrite Hsb, Hino.
Qed.

(** A change of an inode that keeps its superblock and its number. *)
Lemma icache_update s B I p i j :
  icache_ok s B I → inodes s !! p = Some i → i_sb j = i_sb i → i_ino j = i_ino i →
  icache_ok (set_inodes (<[p := j]> (inodes s)) s) B I.
Proof.
  intros [H1 H2 H3 H4 H5 H6 [H7 H8]] Hp Hsb Hino.
  assert (Hl : ∀ q x, <[p := j]> (inodes s) !! q = Some x →
    ∃ y, inodes s !! q = Some y ∧ i_sb y = i_sb x ∧ i_ino y = i_ino x).
  { intros q x. destruct (decide (q = p)) as [-> | Hne]; [| rewrite lookup_insert_ne by done; eauto].
    rewrite lookup_insert_eq. intros [= <-]. eauto. }
  assert (Hr : ∀ q y, inodes s !! q = Some y →
    ∃ x, <[p := j]> (inodes s) !! q = Some x ∧ i_sb x = i_sb y ∧ i_ino x = i_ino y).
  { intros q y Hy. destruct (decide (q = p)) as [-> | Hne]; [| rewrite lookup_insert_ne by done; eauto].
    rewrite lookup_insert_eq. simplify_eq. eauto. }
  split; cbn [lk sbs inodes next_ino nr_inodes set_inodes]; [done | done | | | | |].
  - intros k q. rewrite H3. split; [intros (y & Hy & <-) | intros (x & Hx & <-)].
    + destruct (Hr q y Hy) as (x & Hx & E1 & E2). exists x. by rewrite E1, E2.
    + destruct (Hl q x Hx) as (y & Hy & E1 & E2). exists y. by rewrite E1, E2.
  - intros k q. rewrite H4. split; [intros (y & Hy & <-) | intros (x & Hx & <-)].
    + destruct (Hr q y Hy) as (x & Hx & E1 & E2). by exists x.
    + destruct (Hl q x Hx) as (y & Hy & E1 & E2). by exists y.
  - intros q r x y Hx Hy E1 E2. destruct (Hl q x Hx) as (x' & Hx' & ? & ?), (Hl r y Hy) as (y' & Hy' & ? & ?).
    apply (H5 q r x' y'); congruence.
  - intros q x Hx. destruct (Hl q x Hx) as (y & Hy & <- & <-). by apply H6.
  - split; [| done]. rewrite map_size_insert, Hp. done.
Qed.

Lemma init_frame (x : lnode) L : same_outside [x] L (INIT_LIST_HEAD x L).
Proof. intros a Ha. unfold INIT_LIST_HEAD. cbn. rewrite !fn_lookup_insert_ne by set_solver. done. Qed.

Lemma family_init dom hd nd L F x :
  family dom hd nd L F → (∀ k, hd k ≠ x) → (∀ k p, p ∈ F k → nd p ≠ x) → family dom hd nd (INIT_LIST_HEAD x L) F.
Proof.
  intros Hf Hh Hn. apply (family_frame dom hd nd L _ F [x] Hf (init_frame x L)).
  intros k a _ Ha Hx. apply list_elem_of_singleton in Hx. subst a.
  apply elem_of_cons in Ha as [He | (p & He & Hp)%list_elem_of_fmap]; [by apply (Hh k) | by apply (Hn k p)].
Qed.

(** What the slab allocator does is not seen by the table. *)
Lemma icache_slab x s B I : icache_ok s B I → icache_ok (set_lslab x s) B I.
Proof. by intros []. Qed.

(** The links after [alloc_inode]. *)
Definition alloc_links `{ListApi} (p sb k : Z) (L : links lnode) : links lnode :=
  list_add (IHash p) (Bucket k) (list_add (ISbList p) (SbInodes sb)
    (INIT_LIST_HEAD (IDentry p) (INIT_LIST_HEAD (ISbList p) (INIT_LIST_HEAD (IHash p) L)))).

(** The lists of the buckets and those of the superblocks have different nodes. *)
Lemma bucket_not_sb B I k sb a : a ∈ list_nodes Bucket IHash B k → a ∉ list_nodes SbInodes ISbList I sb.
Proof.
  intros [-> | (p & -> & _)%list_elem_of_fmap]%elem_of_cons [[=] | (q & [=] & _)%list_elem_of_fmap]%elem_of_cons.
Qed.
Lemma bucket_not_node B k p a : a ∈ list_nodes Bucket IHash B k → a ≠ ISbList p.
Proof. by intros [-> | (q & -> & _)%list_elem_of_fmap]%elem_of_cons. Qed.
Lemma sb_not_node I sb p a : a ∈ list_nodes SbInodes ISbList I sb → a ≠ IHash p.
Proof. by intros [-> | (q & -> & _)%list_elem_of_fmap]%elem_of_cons. Qed.

Section Links.
Context `{ListApi} (dsb : Z → Prop) (L : links lnode) (B I : Z → list Z) (p sb k : Z).
Hypothesis HB : family is_bucket Bucket IHash L B.
Hypothesis HI : family dsb SbInodes ISbList L I.
Hypothesis Hsb : dsb sb.
Hypothesis Hk : is_bucket k.

Let L0 := INIT_LIST_HEAD (IDentry p) (INIT_LIST_HEAD (ISbList p) (INIT_LIST_HEAD (IHash p) L)).

Lemma alloc_links_ok : (∀ j, p ∉ B j) → (∀ j, p ∉ I j) →
  family is_bucket Bucket IHash (alloc_links p sb k L) (<[k := p :: B k]> B) ∧
  family dsb SbInodes ISbList (alloc_links p sb k L) (<[sb := p :: I sb]> I).
Proof.
  intros HpB HpI.
  assert (HB0 : family is_bucket Bucket IHash L0 B).
  { repeat apply family_init; try done. intros j q Hq [= ->]. by apply (HpB j). }
  assert (HI0 : family dsb SbInodes ISbList L0 I).
  { repeat apply family_init; try done. intros j q Hq [= ->]. by apply (HpI j). }
  assert (HB1 : family is_bucket Bucket IHash (list_add (ISbList p) (SbInodes sb) L0) B).
  { apply (family_frame _ _ _ L0 _ B (ISbList p :: list_nodes SbInodes ISbList I sb)); [done | by apply (add_frame dsb) |].
    intros j a _ Ha [Hx | Hx]%elem_of_cons; [by eapply bucket_not_node | by eapply bucket_not_sb]. }
  assert (HI1 : family dsb SbInodes ISbList (list_add (ISbList p) (SbInodes sb) L0) (<[sb := p :: I sb]> I)).
  { apply family_add; (done || apply _). }
  unfold alloc_links. split; [apply family_add; (done || apply _) |].
  apply (family_frame _ _ _ (list_add (ISbList p) (SbInodes sb) L0) _ _ (IHash p :: list_nodes Bucket IHash B k));
    [done | by apply (add_frame is_bucket) |].
  intros j a _ Ha [Hx | Hx]%elem_of_cons; [by eapply sb_not_node | by eapply (bucket_not_sb B)].
Qed.

Lemma destroy_links_ok : p ∈ B k → p ∈ I sb →
  family is_bucket Bucket IHash (list_del (ISbList p) (list_del (IHash p) L)) (λ j, without p (B j)) ∧
  family dsb SbInodes ISbList (list_del (ISbList p) (list_del (IHash p) L)) (λ j, without p (I j)).
Proof.
  intros HpB HpI.
  assert (HB1 : family is_bucket Bucket IHash (list_del (IHash p) L) (λ j, without p (B j))).
  { apply (family_del _ _ _) with (k := k); (done || apply _). }
  assert (HI1 : family dsb SbInodes ISbList (list_del (IHash p) L) I).
  { apply (family_frame _ _ _ L _ I (list_nodes Bucket IHash B k)); [done | apply (del_frame is_bucket); (done || apply _) |].
    intros j a _ Ha Hx. by eapply (bucket_not_sb B I k j a). }
  split; [| apply (family_del _ _ _) with (k := sb); (done || apply _)].
  apply (family_frame _ _ _ (list_del (IHash p) L) _ _ (list_nodes SbInodes ISbList I sb)); [done | apply (del_frame dsb); (done || apply _) |].
  intros j a _ Ha. by eapply bucket_not_sb.
Qed.
End Links.

(** ** The table under allocation and release *)
Section Table.
Context `{ListApi}.

(** The states in which [alloc_inode] and [destroy_inode] leave the layer. *)
Definition inserted (p sb : Z) (b : super_block) (s : lvfs) : lvfs :=
  set_counters (u32 (next_ino s + 1)) (u32 (nr_inodes s + 1)) (nr_dentries s)
    (set_lk (alloc_links p sb (inode_hash sb (next_ino s)) (lk s))
      (set_inodes (<[p := new_inode sb (next_ino s) (u32 (s_blocksize b))]> (inodes s)) s)).
Definition removed (p : Z) (s : lvfs) : lvfs :=
  set_counters (next_ino s) (u32 (nr_inodes s - 1)) (nr_dentries s)
    (set_lk (list_del (ISbList p) (list_del (IHash p) (lk s))) (set_inodes (delete p (inodes s)) s)).

Lemma alloc_inode_eq sb p x b s :
  kmem_cache_alloc (inode_cache s) (lslab s) = Ok (p, x) → p ≠ NULL → sbs s !! sb = Some b →
  alloc_inode sb s = Ok (p, inserted p sb b (set_lslab x s)).
Proof.
  intros Hk Hp Hb. unfold alloc_inode, l_slab. rewrite Hk. ok_bind. cbv beta iota.
  destruct (Z.eqb_spec p NULL); [done |]. unfold deref. change (sbs (set_lslab x s)) with (sbs s). rewrite Hb. done.
Qed.

Lemma destroy_inode_eq p x i s :
  kmem_cache_free (inode_cache s) p (lslab s) = Ok (tt, x) → p ≠ NULL → inodes s !! p = Some i →
  destroy_inode p s = Ok (tt, removed p (set_lslab x s)).
Proof.
  intros Hk Hp Hi. unfold destroy_inode. destruct (Z.eqb_spec p NULL); [done |]. unfold deref. rewrite Hi. ok_bind.
  cbv beta zeta. unfold l_slab. cbn [lslab inode_cache set_counters del_link set_lk]. rewrite Hk. done.
Qed.

Lemma icache_insert s B I p sb b :
  icache_ok s B I → p ≠ NULL → inodes s !! p = None → sbs s !! sb = Some b → next_ino s + 1 < 2 ^ 32 →
  let k := inode_hash sb (next_ino s) in
  icache_ok (inserted p sb b s) (<[k := p :: B k]> B) (<[sb := p :: I sb]> I).
Proof.
  intros [H1 H2 H3 H4 H5 H6 [H7 H8]] Hp Hn Hb Hno k.
  assert (HpB : ∀ j, p ∉ B j) by (intros j (i & Hi & _)%H3; congruence).
  assert (HpI : ∀ j, p ∉ I j) by (intros j (i & Hi & _)%H4; congruence).
  destruct (alloc_links_ok _ (lk s) B I p sb k H1 H2) as [L1 L2]; [by exists b | apply inode_hash_range | done | done |].
  assert (Hl : ∀ q x, <[p := new_inode sb (next_ino s) (u32 (s_blocksize b))]> (inodes s) !! q = Some x →
    q = p ∧ i_sb x = sb ∧ i_ino x = next_ino s ∨ q ≠ p ∧ inodes s !! q = Some x).
  { intros q x. destruct (decide (q = p)) as [-> | Hne]; [| rewrite lookup_insert_ne by done; tauto].
    rewrite lookup_insert_eq. intros [= <-]. by left. }
  unfold inserted. split; cbn [lk sbs inodes next_ino nr_inodes set_inodes set_lk set_counters].
  - done.
  - done.
  - intros j q. destruct (decide (q = p)) as [-> | Hqp].
    + rewrite lookup_insert_eq. destruct (decide (j = k)) as [-> | Hj].
      * rewrite fn_lookup_insert. split; [intros _; eexists; done | intros _; by left].
      * rewrite fn_lookup_insert_ne by done. split; [by intros ?%HpB | intros (i & [= <-] & Hi); by subst].
    + rewrite lookup_insert_ne by done. rewrite <- H3. destruct (decide (j = k)) as [-> | Hj];
        [rewrite fn_lookup_insert | by rewrite fn_lookup_insert_ne by done].
      rewrite elem_of_cons. tauto.
  - intros j q. destruct (decide (q = p)) as [-> | Hqp].
    + rewrite lookup_insert_eq. destruct (decide (j = sb)) as [-> | Hj].
      * rewrite fn_lookup_insert. split; [intros _; eexists; done | intros _; by left].
      * rewrite fn_lookup_insert_ne by done. split; [by intros ?%HpI | intros (i & [= <-] & Hi); by subst].
    + rewrite lookup_insert_ne by done. rewrite <- H4. destruct (decide (j = sb)) as [-> | Hj];
        [rewrite fn_lookup_insert | by rewrite fn_lookup_insert_ne by done].
      rewrite elem_of_cons. tauto.
  - intros q r x y Hx Hy E1 E2. destruct (Hl q x Hx) as [(-> & ? & ?) | (? & Hx')], (Hl r y Hy) as [(-> & ? & ?) | (? & Hy')].
    + done.
    + apply H6 in Hy'. lia.
    + apply H6 in Hx'. lia.
    + by apply (H5 q r x y).
  - intros q x Hx. rewrite u32_small by (unfold is_u32; lia).
    destruct (Hl q x Hx) as [(-> & -> & ->) | (? & Hx')]; [split_and!; [done | lia | by exists b] |].
    apply H6 in Hx' as (? & ? & ?). split_and!; [done | lia | done].
  - split; [| rewrite u32_small by (unfold is_u32; lia); lia].
    rewrite map_size_insert_None by done. rewrite H7. unfold u32. rewrite Zplus_mod_idemp_l. f_equal. lia.
Qed.

Lemma icache_remove s B I p i :
  icache_ok s B I → inodes s !! p = Some i →
  icache_ok (removed p s) (λ j, without p (B j)) (λ j, without p (I j)).
Proof.
  intros [H1 H2 H3 H4 H5 H6 [H7 H8]] Hi.
  destruct (destroy_links_ok _ (lk s) B I p (i_sb i) (inode_hash (i_sb i) (i_ino i)) H1 H2) as [L1 L2];
    [by apply (H6 p) | apply inode_hash_range | apply H3; eauto | apply H4; eauto |].
  unfold removed. split; cbn [lk sbs inodes next_ino nr_inodes set_inodes set_lk set_counters]; [done | done | | | | |].
  - intros j q. rewrite elem_of_without, H3. setoid_rewrite lookup_delete_Some. naive_solver.
  - intros j q. rewrite elem_of_without, H4. setoid_rewrite lookup_delete_Some. naive_solver.
  - intros q r x y (_ & Hx)%lookup_delete_Some (_ & Hy)%lookup_delete_Some. by apply H5.
  - intros q x (_ & Hx)%lookup_delete_Some. by apply (H6 q).
  - split; [| done]. rewrite map_size_delete_Some by eauto. rewrite H7. unfold u32. rewrite Zminus_mod_idemp_l. f_equal.
    assert (size (inodes s) ≠ 0%nat); [| lia]. intros Hz%map_size_empty_inv. by rewrite Hz in Hi.
Qed.
End Table.

(** The caches of inodes and of directory entries that [vfs_init] creates count
    one object more than a page holds: the last one ends behind the page. *)
Lemma layer_caches_overflow :
  Forall (λ '(name, size), let c := new_cache (bytes_of name) size 0 HWCACHE_ALIGN None None in
                  4096 < SLAB_HDR + colour_off c + num c * object_size c)
    [("inode_cache"%string, INODE_SIZE); ("dentry_cache"%string, DENTRY_SIZE)].
Proof. repeat constructor. Qed.

(** ** The inodes in memory

    The table is well formed, every inode in it is a live object of the slab
    cache, and its reference count is positive.  The slabs of the cache fit their
    pages ([cache_ok]); those of the cache that [vfs_init] creates do not
    ([layer_caches_overflow]), until that is repaired the theorems are about a
    cache created without [SLAB_HWCACHE_ALIGN]. *)
Definition inodes_ok (s : lvfs) : Prop := ∃ B I c fls,
  icache_ok s B I ∧ cache_ok (lslab s) (inode_cache s) c fls ∧ has_poison c = false ∧ ctor c = None ∧
  ∀ p i, inodes s !! p = Some i → live_obj c fls p ∧ 0 < i_count i < 2 ^ 32.

Lemma inodes_numbers s p i : inodes_ok s → inodes s !! p = Some i → p ≠ NULL ∧ is_Some (sbs s !! i_sb i) ∧ 0 < i_count i < 2 ^ 32.
Proof. intros (B & I & c & fls & Hok & _ & _ & _ & Hl) Hi. apply (ic_numbers _ _ _ Hok) in Hi as ?. apply Hl in Hi as ?. tauto. Qed.

Lemma shape_plain c c' : same_shape c c' → has_poison c = false → ctor c = None → has_poison c' = false ∧ ctor c' = None.
Proof. intros (_ & _ & _ & _ & Hf & Hc). unfold has_poison. by rewrite Hf, Hc. Qed.

(** No bucket has more inodes than there are. *)
Lemma bucket_length s B I k : icache_ok s B I → is_bucket k → (length (B k) <= size (inodes s))%nat.
Proof.
  intros Hok Hk. pose proof (fam_linked _ _ _ _ _ (ic_bucket _ _ _ Hok) k Hk) as [HN _].
  apply NoDup_cons in HN as [_ HN]. apply (NoDup_fmap_1 IHash) in HN.
  rewrite <- size_dom, <- (size_list_to_set (C := gset Z)) by done. apply subseteq_size.
  intros p Hp%elem_of_list_to_set. apply (ic_in _ _ _ Hok) in Hp as (i & Hi & _). apply elem_of_dom. by exists i.
Qed.

Lemma inodes_ok_update s p i n : inodes_ok s → inodes s !! p = Some i → 0 < n < 2 ^ 32 →
  inodes_ok (set_inodes (<[p := set_i_count n i]> (inodes s)) s).
Proof.
  intros (B & I & c & fls & Hok & Hc & Hpo & Hct & Hl) Hi Hn. exists B, I, c, fls.
  split; [by apply (icache_update s B I p i) |]. split; [done |]. split; [done |]. split; [done |].
  intros q j. cbn [inodes set_inodes]. destruct (decide (q = p)) as [-> | Hne].
  - rewrite lookup_insert_eq. intros [= <-]. split; [by apply (Hl p i) | done].
  - rewrite lookup_insert_ne by done. apply Hl.
Qed.

(** ** Reference counts *)
Inductive inode_event := EvAlloc (sb ino : Z) | EvFull | EvGet (sb ino : Z) | EvPut (sb ino : Z).

(** What an event does to the references to an inode, and a history. *)
Definition hits (sb ino sb' ino' : Z) : Z := if decide (sb = sb' ∧ ino = ino') then 1 else 0.
Definition delta (e : inode_event) (sb ino : Z) : Z :=
  match e with
  | EvAlloc sb' ino' | EvGet sb' ino' => hits sb ino sb' ino'
  | EvFull => 0
  | EvPut sb' ino' => - hits sb ino sb' ino'
  end.
Fixpoint balance (es : list inode_event) (sb ino : Z) : Z :=
  match es with [] => 0 | e :: es => delta e sb ino + balance es sb ino end.

(** The inode [ino] of [sb] has [n] references; one that is not in memory has none. *)
Definition ref_at (s : lvfs) (sb ino n : Z) : Prop :=
  (∃ p i, inodes s !! p = Some i ∧ i_sb i = sb ∧ i_ino i = ino ∧ i_count i = n) ∨
  n = 0 ∧ ∀ p i, inodes s !! p = Some i → ¬ (i_sb i = sb ∧ i_ino i = ino).

Lemma ref_at_same s s' sb ino n : inodes s' = inodes s → ref_at s sb ino n → ref_at s' sb ino n.
Proof. unfold ref_at. by intros ->. Qed.

Lemma ref_at_insert s s' p j sb ino n :
  inodes s !! p = None → inodes s' = <[p := j]> (inodes s) → i_count j = 1 →
  (∀ q i, inodes s !! q = Some i → i_ino i ≠ i_ino j) →
  ref_at s sb ino n → ref_at s' sb ino (n + hits sb ino (i_sb j) (i_ino j)).
Proof.
  intros Hp Hm Hj Hn Hr. unfold ref_at, hits. rewrite Hm. destruct (decide _) as [[-> ->] | Hne].
  - left. exists p, j. rewrite lookup_insert_eq. split_and!; try done.
    destruct Hr as [(q & i & Hi & _ & E & _) | [-> _]]; [by destruct (Hn q i Hi) | lia].
  - rewrite Z.add_0_r. destruct Hr as [(q & i & Hi & E) | [-> Hno]].
    + left. exists q, i. by rewrite lookup_insert_ne by congruence.
    + right. split; [done |]. intros q i. destruct (decide (q = p)) as [-> | Hq].
      * rewrite lookup_insert_eq. intros [= <-] [E1 E2]. by apply Hne.
      * rewrite lookup_insert_ne by done. apply Hno.
Qed.

Lemma ref_at_update s s' p i m B I sb ino n d :
  icache_ok s B I → inodes s !! p = Some i → inodes s' = <[p := set_i_count m i]> (inodes s) →
  ref_at s sb ino n → m = i_count i + d →
  ref_at s' sb ino (n + d * hits sb ino (i_sb i) (i_ino i)).
Proof.
  intros Hok Hi Hm Hr ->. unfold ref_at, hits. rewrite Hm. destruct (decide _) as [[-> ->] | Hne].
  - left. exists p. eexists. rewrite lookup_insert_eq. split_and!; try done.
    destruct Hr as [(q & j & Hj & E1 & E2 & <-) | [-> Hno]]; [| by destruct (Hno p i Hi)].
    assert (q = p) as -> by (by apply (ic_unique _ _ _ Hok q p j i)). cbn. replace j with i by congruence. lia.
  - rewrite Z.mul_0_r, Z.add_0_r. destruct Hr as [(q & j & Hj & E1 & E2 & E3) | [-> Hno]].
    + left. exists q, j. rewrite lookup_insert_ne; [done |]. intros <-. apply Hne. by simplify_eq.
    + right. split; [done |]. intros q j. destruct (decide (q = p)) as [-> | Hq].
      * rewrite lookup_insert_eq. intros [= <-] [E1 E2]. by apply Hne.
      * rewrite lookup_insert_ne by done. apply Hno.
Qed.

Lemma ref_at_delete s s' p i B I sb ino n :
  icache_ok s B I → inodes s !! p = Some i → inodes s' = delete p (inodes s) → i_count i = 1 →
  ref_at s sb ino n → ref_at s' sb ino (n + - hits sb ino (i_sb i) (i_ino i)).
Proof.
  intros Hok Hi Hm Hc Hr. unfold ref_at, hits. rewrite Hm. destruct (decide _) as [[-> ->] | Hne].
  - right. destruct Hr as [(q & j & Hj & E1 & E2 & <-) | [-> Hno]]; [| by destruct (Hno p i Hi)].
    assert (q = p) as -> by (by apply (ic_unique _ _ _ Hok q p j i)). replace j with i by congruence.
    split; [lia |]. intros r x (Hr & Hx)%lookup_delete_Some [F1 F2]. apply Hr.
    symmetry. by apply (ic_unique _ _ _ Hok r p x i).
  - rewrite Z.add_0_r. destruct Hr as [(q & j & Hj & E1 & E2 & E3) | [-> Hno]].
    + left. exists q, j. rewrite lookup_delete_ne; [done |]. intros <-. apply Hne. by simplify_eq.
    + right. split; [done |]. intros q j (_ & Hj)%lookup_delete_Some. by apply (Hno q).
Qed.

Section Operations.
Context `{ListApi}.
Variable op_alloc_inode : nat → option (Z → cmd lvfs Z).
Variable op_read_inode : nat → option (Z → cmd lvfs unit).
Variable op_evict_inode : nat → option (Z → cmd lvfs unit).
(** Evicting an inode writes back the filesystem's data and leaves the state of
    the layer alone. *)
Hypothesis evict_frame : ∀ o f p s, op_evict_inode o = Some f → f p s = Ok (tt, s).

Lemma alloc_inode_returns s sb b :
  inodes_ok s → sbs s !! sb = Some b → next_ino s + 1 < 2 ^ 32 →
  ∃ p s', alloc_inode sb s = Ok (p, s') ∧ inodes_ok s' ∧ sbs s' = sbs s ∧
    (p = NULL ∧ inodes s' = inodes s ∧ next_ino s' = next_ino s ∨
     p ≠ NULL ∧ inodes s !! p = None ∧ next_ino s' = next_ino s + 1 ∧
     inodes s' = <[p := new_inode sb (next_ino s) (u32 (s_blocksize b))]> (inodes s)).
Proof.
  intros (B & I & c & fls & Hok & Hc & Hpo & Hct & Hl) Hb Hno.
  pose proof (ic_count _ _ _ Hok) as [_ Hno0].
  destruct (kmem_cache_alloc_cases (lslab s) (inode_cache s) c fls Hc Hpo Hct)
    as (p & x & c' & fls' & Hk & [(-> & _ & _ & -> & Hc') | (Hp & Hc' & Hsh & Hlive & Hnew & Hold)]).
  - exists NULL, (set_lslab x s). split; [unfold alloc_inode, l_slab; by rewrite Hk |].
    split; [| split; [done | by left]].
    eexists B, I, _, fls. split; [by apply icache_slab |]. split; [exact Hc' |]. done.
  - assert (Hn : inodes s !! p = None).
    { destruct (inodes s !! p) as [i |] eqn:Hi; [| done]. destruct Hnew. by apply (Hl p i). }
    exists p, (inserted p sb b (set_lslab x s)). split; [by apply alloc_inode_eq |].
    split; [| split; [done |]].
    2:{ right. split_and!; [done | done | | done]. cbn. rewrite u32_small; [done | unfold is_u32; lia]. }
    destruct (shape_plain c c' Hsh Hpo Hct) as [Hpo' Hct'].
    eexists _, _, c', fls'. split; [by apply icache_insert; [apply icache_slab | ..] |].
    split; [done |]. split; [done |]. split; [done |].
    intros q j. cbn [inserted inodes set_inodes set_lk set_counters set_lslab].
    destruct (decide (q = p)) as [-> | Hne].
    + rewrite lookup_insert_eq. intros [= <-]. split; [done | cbn; lia].
    + rewrite lookup_insert_ne by done. intros Hj. destruct (Hl q j Hj) as [Hq Hcnt]. split; [by apply Hold | done].
Qed.

Notation iget := (iget op_alloc_inode op_read_inode).
Notation iput := (iput op_evict_inode).

(** [iget] of an inode in memory returns it and counts the reference. *)
Lemma iget_hit s p i fuel :
  inodes_ok s → inodes s !! p = Some i → (size (inodes s) < fuel)%nat →
  iget fuel (i_sb i) (i_ino i) s = Ok (p, set_inodes (<[p := set_i_count (u32 (i_count i + 1)) i]> (inodes s)) s).
Proof.
  intros (B & I & c & fls & Hok & _) Hi Hf. unfold LinuxVfs.iget.
  pose proof (bucket_length s B I (inode_hash (i_sb i) (i_ino i)) Hok (inode_hash_range _ _)) as Hlen.
  pose proof (iget_search s B I fuel (i_sb i) (i_ino i) Hok ltac:(lia)) as Hs.
  destruct (for_each _ _ _ _) as [[[] |] | | |]; try done.
  - destruct Hs as (j & Hj & E1 & E2). assert (p0 = p) as -> by (apply (ic_unique _ _ _ Hok p0 p j i); congruence).
    ok_bind. cbv beta iota. do 3 f_equal. rewrite Hi in Hj. injection Hj as <-.
    apply map_eq. intros q. destruct (decide (q = p)) as [-> | Hne].
    + by rewrite lookup_alter_eq, lookup_insert_eq, Hi.
    + by rewrite lookup_alter_ne, lookup_insert_ne.
  - by destruct (Hs p i Hi).
Qed.

Lemma iput_returns s p i :
  inodes_ok s → inodes s !! p = Some i →
  ∃ s', iput p s = Ok (tt, s') ∧ inodes_ok s' ∧ sbs s' = sbs s ∧ next_ino s' = next_ino s ∧
    inodes s' = (if i_count i =? 1 then delete p (inodes s) else <[p := set_i_count (i_count i - 1) i]> (inodes s)).
Proof.
  intros Hw Hi. destruct (inodes_numbers s p i Hw Hi) as (Hp & (b & Hb) & Hc).
  unfold LinuxVfs.iput, deref. destruct (Z.eqb_spec p NULL); [done |]. rewrite Hi. ok_bind. cbv beta zeta.
  rewrite (u32_small (i_count i - 1)) by (unfold is_u32; lia).
  destruct (Z.eqb_spec (i_count i) 1) as [E1 | E1].
  - rewrite (proj2 (Z.eqb_eq (i_count i - 1) 0)) by lia. set (s1 := set_inodes _ s).
    change (sbs s1) with (sbs s). rewrite Hb. ok_bind. cbv beta.
    assert (Hev : ∀ r, r = Ok (tt, s1) → mbind (λ '(_, s), destroy_inode p s) r = destroy_inode p s1) by by intros ? ->.
    rewrite Hev.
    2:{ destruct (s_op b) as [o |]; [| done]. change (mbind ?g (Some ?x)) with (g x). cbv beta.
        destruct (op_evict_inode o) as [f |] eqn:Ho; [by apply (evict_frame o f) | done]. }
    clear Hev.
    destruct Hw as (B & I & c & fls & Hok & Hch & Hpo & Hct & Hl).
    destruct (Hl p i Hi) as [(pg & Hpg & Ho & Hlive) _].
    destruct (kmem_cache_free_post (lslab s) (inode_cache s) c fls pg p Hch Hpo Hpg Ho Hlive) as (x & c' & Hk & Hc' & Hsh & Hold).
    exists (removed p (set_lslab x s1)).
    assert (Hi1 : inodes s1 !! p = Some (set_i_count (i_count i - 1) i)) by apply lookup_insert_eq.
    split; [by apply (destroy_inode_eq p x _ s1 Hk Hp Hi1) |]. cbn [removed inodes sbs next_ino set_inodes set_counters set_lk set_lslab].
    assert (Hd : delete p (inodes s1) = delete p (inodes s)) by (cbn [s1 inodes set_inodes]; apply delete_insert_eq).
    split; [| by rewrite Hd].
    destruct (shape_plain c c' Hsh Hpo Hct) as [Hpo' Hct'].
    eexists _, _, c', _. split.
    { apply (icache_remove _ B I p (set_i_count (i_count i - 1) i)); [| exact Hi1].
      apply icache_slab. by apply (icache_update s B I p i). }
    split; [exact Hc' |]. split; [done |]. split; [done |].
    intros q j. cbn [removed inodes set_inodes set_counters set_lk set_lslab]. rewrite Hd.
    intros (Hne & Hj)%lookup_delete_Some. destruct (Hl q j Hj) as [Hq Hcnt]. split; [by apply Hold | done].
  - rewrite (proj2 (Z.eqb_neq (i_count i - 1) 0)) by lia. eexists. split; [done |].
    split; [apply (inodes_ok_update s p i); [done | done | lia] | done].
Qed.

(** ** The specification: reference counts

    A history of calls; [EvFull] is an allocation that found no memory. *)
Inductive inode_step : lvfs → inode_event → lvfs → Prop :=
| step_alloc s sb p s' :
    is_Some (sbs s !! sb) → next_ino s + 1 < 2 ^ 32 → alloc_inode sb s = Ok (p, s') → p ≠ NULL →
    inode_step s (EvAlloc sb (next_ino s)) s'
| step_full s sb s' :
    is_Some (sbs s !! sb) → next_ino s + 1 < 2 ^ 32 → alloc_inode sb s = Ok (NULL, s') → inode_step s EvFull s'
| step_get s p i fuel r s' :
    inodes s !! p = Some i → i_count i + 1 < 2 ^ 32 → (size (inodes s) < fuel)%nat →
    iget fuel (i_sb i) (i_ino i) s = Ok (r, s') → inode_step s (EvGet (i_sb i) (i_ino i)) s'
| step_put s p i s' :
    inodes s !! p = Some i → iput p s = Ok (tt, s') → inode_step s (EvPut (i_sb i) (i_ino i)) s'.

Inductive inode_history : lvfs → list inode_event → lvfs → Prop :=
| history_nil s : inode_history s [] s
| history_cons s e s1 es s' : inode_step s e s1 → inode_history s1 es s' → inode_history s (e :: es) s'.

Lemma inode_step_ok s e s' : inodes_ok s → inode_step s e s' → inodes_ok s'.
Proof.
  intros Hw Hs. destruct Hs as [s sb p s' [b Hb] Hno E _ | s sb s' [b Hb] Hno E | s p i fuel r s' Hi Hc Hf E | s p i s' Hi E].
  - destruct (alloc_inode_returns s sb b Hw Hb Hno) as (q & s'' & E' & Hw' & _). rewrite E in E'. by injection E' as <- <-.
  - destruct (alloc_inode_returns s sb b Hw Hb Hno) as (q & s'' & E' & Hw' & _). rewrite E in E'. by injection E' as <- <-.
  - rewrite (iget_hit s p i fuel Hw Hi Hf) in E. injection E as <- <-.
    destruct (inodes_numbers s p i Hw Hi) as (_ & _ & ?).
    apply (inodes_ok_update s p i); [done | done |]. rewrite u32_small by (unfold is_u32; lia). lia.
  - destruct (iput_returns s p i Hw Hi) as (s'' & E' & Hw' & _). rewrite E in E'. by injection E' as <-.
Qed.

Lemma inode_step_refs s e s' sb ino n :
  inodes_ok s → inode_step s e s' → ref_at s sb ino n → ref_at s' sb ino (n + delta e sb ino).
Proof.
  intros Hw Hs Hr. pose proof Hw as (B & I & c & fls & Hok & _).
  destruct Hs as [s sb0 p s' [b Hb] Hno E Hp | s sb0 s' [b Hb] Hno E | s p i fuel r s' Hi Hc Hf E | s p i s' Hi E]; cbn [delta].
  - destruct (alloc_inode_returns s sb0 b Hw Hb Hno) as (q & s'' & E' & _ & _ & Hcase). rewrite E in E'. injection E' as <- <-.
    destruct Hcase as [(-> & _) | (_ & Hn & _ & Hm)]; [done |].
    apply (ref_at_insert s s' p (new_inode sb0 (next_ino s) (u32 (s_blocksize b)))); [done | done | done | | done].
    intros q j Hj. apply (ic_numbers _ _ _ Hok) in Hj. cbn. lia.
  - destruct (alloc_inode_returns s sb0 b Hw Hb Hno) as (q & s'' & E' & _ & _ & Hcase). rewrite E in E'. injection E' as <- <-.
    destruct Hcase as [(_ & Hm & _) | (? & _)]; [| done]. rewrite Z.add_0_r. by apply (ref_at_same s).
  - rewrite (iget_hit s p i fuel Hw Hi Hf) in E. injection E as <- <-.
    destruct (inodes_numbers s p i Hw Hi) as (_ & _ & ?).
    rewrite <- (Z.mul_1_l (hits _ _ _ _)). apply (ref_at_update s _ p i (u32 (i_count i + 1)) B I); [done | done | done | done |].
    rewrite u32_small by (unfold is_u32; lia). lia.
  - destruct (iput_returns s p i Hw Hi) as (s'' & E' & _ & _ & _ & Hm). rewrite E in E'. injection E' as <-.
    destruct (Z.eqb_spec (i_count i) 1) as [E1 | E1].
    + by apply (ref_at_delete s s' p i B I).
    + replace (- hits _ _ _ _) with (-1 * hits sb ino (i_sb i) (i_ino i)) by lia.
      apply (ref_at_update s s' p i (i_count i - 1) B I); [done | done | done | done | lia].
Qed.

Lemma inode_history_ok s es s' : inode_history s es s' → inodes_ok s → inodes_ok s'.
Proof. induction 1 as [| s e s1 es s' Hs _ IH]; intros Hw; [done |]. by apply IH, (inode_step_ok s e). Qed.

Lemma inode_history_refs s es s' : inode_history s es s' → inodes_ok s → ∀ sb ino n,
  ref_at s sb ino n → ref_at s' sb ino (n + balance es sb ino).
Proof.
  induction 1 as [s | s e s1 es s' Hs _ IH]; intros Hw sb ino n Hr; cbn [balance]; [by rewrite Z.add_0_r |].
  rewrite Z.add_assoc. apply IH; [by apply (inode_step_ok s e) | by apply (inode_step_refs s)].
Qed.



Lemma iget_search_frame s s' B I fuel sb ino :
  icache_ok s B I → (size (inodes s) < fuel)%nat →
  linked (lk s') (Bucket (inode_hash sb ino)) (IHash <$> B (inode_hash sb ino)) →
  (∀ q, q ∈ B (inode_hash sb ino) → inodes s' !! q = inodes s !! q) →
  (∀ p i, inodes s !! p = Some i → i_sb i = sb → i_ino i ≠ ino) →
  for_each fuel (lk s') (Bucket (inode_hash sb ino)) (is_inode sb ino s') = Ok None.
Proof.
  intros Hok Hf Hl Hm Hno. pose proof (bucket_length s B I _ Hok (inode_hash_range sb ino)).
  rewrite (for_each_linked _ _ (IHash <$> B (inode_hash sb ino))); [| done | rewrite length_fmap; lia].
  apply find_list_none. intros x (q & -> & Hq)%list_elem_of_fmap. cbn [is_inode]. unfold deref.
  rewrite (Hm q Hq). apply (ic_in _ _ _ Hok) in Hq as (j & Hj & _). rewrite Hj. ok_bind.
  f_equal. apply andb_false_iff. destruct (Z.eqb_spec (i_sb j) sb) as [E |]; [left | by right].
  apply Z.eqb_neq. by apply (Hno q j).
Qed.

(** A filesystem whose [alloc_inode] is the layer's and that reads nothing. *)
Section Miss.
Context (sb : Z) (b : super_block) (o : nat) (ino : Z) (fuel : nat).
Hypothesis Hop : s_op b = Some o.
Hypothesis Halloc : op_alloc_inode o = Some alloc_inode.
Hypothesis Hread : op_read_inode o = None.

Lemma iget_new s x p : sbs s !! sb = Some b →
  for_each fuel (lk s) (Bucket (inode_hash sb ino)) (is_inode sb ino s) = Ok None →
  kmem_cache_alloc (inode_cache s) (lslab s) = Ok (p, x) →
  iget fuel sb ino s =
    if p =? NULL then Ok (NULL, set_lslab x s) else
    let s1 := inserted p sb b (set_lslab x s) in
    Ok (p, set_inodes (<[p := set_i_ino ino (new_inode sb (next_ino s) (u32 (s_blocksize b)))]> (inodes s1)) s1).
Proof.
  intros Hb Hs Hk. assert (Hd : deref (sbs s) sb = Ok b) by (unfold deref; by rewrite Hb).
  unfold LinuxVfs.iget. rewrite Hs. ok_bind. cbv beta iota. rewrite Hd. ok_bind.
  cbv beta. rewrite Hop. change (mbind ?g (Some ?x)) with (g x). cbv beta. rewrite Halloc.
  destruct (Z.eqb_spec p NULL) as [-> | Hp].
  - unfold alloc_inode, l_slab. rewrite Hk. done.
  - rewrite (alloc_inode_eq sb p x b s Hk Hp Hb). ok_bind. cbv beta iota. rewrite (proj2 (Z.eqb_neq p NULL) Hp).
    unfold deref. cbn [inserted inodes sbs set_inodes set_counters set_lk set_lslab]. rewrite lookup_insert_eq. ok_bind.
    cbv beta zeta. cbn [inserted inodes sbs set_inodes set_counters set_lk set_lslab]. rewrite Hb. ok_bind. cbv beta.
    rewrite Hop. change (mbind ?g (Some ?x)) with (g x). cbv beta. rewrite Hread. done.
Qed.

(** An inode that [iget] had to allocate stays in the bucket of the number it
    was allocated with, not the one it gets: the next [iget] of the same inode
    does not find it and returns another one (or none). *)
Theorem iget_forgets s :
  inodes_ok s → sbs s !! sb = Some b → next_ino s + 1 < 2 ^ 32 → (size (inodes s) < fuel)%nat →
  (∀ p i, inodes s !! p = Some i → i_sb i = sb → i_ino i ≠ ino) → inode_hash sb ino ≠ inode_hash sb (next_ino s) →
  ∃ p s1 q s2, iget fuel sb ino s = Ok (p, s1) ∧
    (p = NULL ∨ (∃ i, inodes s1 !! p = Some i ∧ i_sb i = sb ∧ i_ino i = ino) ∧ iget fuel sb ino s1 = Ok (q, s2) ∧ q ≠ p).
Proof.
  intros (B & I & c & fls & Hok & Hc & Hpo & Hct & Hl) Hb Hno Hf Hmiss Hne.
  assert (Hs : for_each fuel (lk s) (Bucket (inode_hash sb ino)) (is_inode sb ino s) = Ok None).
  { apply (iget_search_frame s s B I); try done. apply (fam_linked _ _ _ _ _ (ic_bucket _ _ _ Hok)), inode_hash_range. }
  destruct (kmem_cache_alloc_cases (lslab s) (inode_cache s) c fls Hc Hpo Hct) as (p & x & c' & fls' & Hk & Hcase).
  pose proof (iget_new s x p Hb Hs Hk) as Hget.
  destruct Hcase as [(-> & _) | (Hp & Hc' & Hsh & Hlive & Hnew & _)].
  { exists NULL, (set_lslab x s), NULL, s. split; [exact Hget | by left]. }
  rewrite (proj2 (Z.eqb_neq p NULL) Hp) in Hget. cbv zeta in Hget. set (s1 := set_inodes _ _) in Hget.
  assert (Hn : inodes s !! p = None).
  { destruct (inodes s !! p) as [i |] eqn:Hi; [| done]. destruct Hnew. by apply (Hl p i). }
  assert (Hs1 : for_each fuel (lk s1) (Bucket (inode_hash sb ino)) (is_inode sb ino s1) = Ok None).
  { apply (iget_search_frame s s1 B I); [done | done | | | done].
    - pose proof (icache_insert _ B I p sb b (icache_slab x _ _ _ Hok) Hp Hn Hb Hno) as Hok1.
      pose proof (fam_linked _ _ _ _ _ (ic_bucket _ _ _ Hok1) _ (inode_hash_range sb ino)) as HL.
      by rewrite fn_lookup_insert_ne in HL by (intros E; by apply Hne).
    - intros q (j & Hj & _)%(ic_in _ _ _ Hok). unfold s1. cbn [inserted inodes set_inodes set_counters set_lk set_lslab].
      rewrite !lookup_insert_ne by congruence. done. }
  destruct (shape_plain c c' Hsh Hpo Hct) as [Hpo' Hct'].
  destruct (kmem_cache_alloc_cases x (inode_cache s) c' fls' Hc' Hpo' Hct') as (q & y & c2 & fls2 & Hk2 & Hcase2).
  pose proof (iget_new s1 y q Hb Hs1 Hk2) as Hget2.
  assert (Hqp : q ≠ p) by (destruct Hcase2 as [(-> & _) | (_ & _ & _ & _ & Hd & _)]; [done | by intros ->]).
  exists p, s1. destruct (Z.eqb_spec q NULL) as [-> | _]; eexists _, _; (split; [exact Hget |]); right;
    (split; [eexists; split; [apply lookup_insert_eq | done] |]); (split; [exact Hget2 | done]).
Qed.
End Miss.

End Operations.
