(* ===== verification/LinuxVfsNames.v ===== *)
(** * Names in the Linux-style filesystem layer

    The registry of filesystem types as a map from names; a directory whose
    entries get inodes; opening files. *)
From stdpp Require Import functions fin_maps.
From S2P Require Import Prelude Screen Heap HeapSpec Frames Solixfs Slab SlabSpec SlabCache Lists LinuxVfs LinuxVfsSpec.

(** ** Filesystem types *)

(** The registered types [l], last registered first: named, each name once. *)
Record registry_ok (s : lvfs) (l : list Z) : Prop := {
  rg_linked : linked (lk s) FsTypes (FsNext <$> l);
  rg_named : ∀ p, p ∈ l → p ≠ NULL ∧ ∃ f nm, fstypes s !! p = Some f ∧ fs_name f = Some nm;
  rg_unique : ∀ p q f g, p ∈ l → q ∈ l → fstypes s !! p = Some f → fstypes s !! q = Some g → fs_name f = fs_name g → p = q;
}.

(** The registry: the type registered under a name. *)
Definition registered (s : lvfs) (l : list Z) (nm : bytes) (p : Z) : Prop :=
  p ∈ l ∧ ∃ f, fstypes s !! p = Some f ∧ fs_name f = Some nm.

Lemma find_fs s nm l : (∀ p, p ∈ l → ∃ f n, fstypes s !! p = Some f ∧ fs_name f = Some n) →
  match find_list (is_fs nm s) (FsNext <$> l) with
  | Ok (Some (FsNext p)) => registered s l nm p
  | Ok None => ∀ p, ¬ registered s l nm p
  | _ => False
  end.
Proof.
  unfold registered. induction l as [| p l IH]; intros Hn; cbn [fmap list_fmap find_list]; [set_solver |].
  destruct (Hn p) as (f & n & Hf & Hnm); [set_solver |]. cbn [is_fs]. unfold deref. rewrite Hf. ok_bind. cbv beta.
  rewrite Hnm. ok_bind. cbv beta. destruct (bool_decide_reflect (n = nm)) as [-> | Hne]; [split; [by left | eauto] |].
  specialize (IH ltac:(set_solver)). destruct (find_list _ _) as [[[] |] | | |]; try done.
  - destruct IH as [H1 H2]. split; [by right | done].
  - intros q ([-> | Hq]%elem_of_cons & g & Hg & Hgn); [congruence | apply (IH q); eauto].
Qed.

Lemma find_registered s l nm fuel : registry_ok s l → (length l < fuel)%nat →
  match for_each fuel (lk s) FsTypes (is_fs nm s) with
  | Ok (Some (FsNext p)) => registered s l nm p
  | Ok None => ∀ p, ¬ registered s l nm p
  | _ => False
  end.
Proof.
  intros [Hl Hn _] Hf. rewrite (for_each_linked _ _ _ _ _ Hl) by by rewrite length_fmap.
  apply find_fs. intros p Hp. by apply (Hn p).
Qed.

Lemma get_fs_type_spec s l nm fuel : registry_ok s l → (length l < fuel)%nat →
  ∃ p, get_fs_type fuel (Some nm) s = Ok p ∧ (registered s l nm p ∨ p = NULL ∧ ∀ q, ¬ registered s l nm q).
Proof.
  intros Hok Hf. unfold get_fs_type. pose proof (find_registered s l nm fuel Hok Hf) as H.
  destruct (for_each _ _ _ _) as [[[] |] | | |]; try done; eexists; (split; [done |]); [by left | by right].
Qed.

Lemma registered_unique s l nm p q : registry_ok s l → registered s l nm p → registered s l nm q → p = q.
Proof. intros Hok (Hp & f & Hf & Hfn) (Hq & g & Hg & Hgn). apply (rg_unique _ _ Hok p q f g); congruence. Qed.

Section Registry.
Context `{ListApi}.

(** The state after [register_filesystem] of a type [f] at [fs]. *)
Definition enrolled (fs : Z) (f : file_system_type) (s : lvfs) : lvfs :=
  set_fstypes (<[fs := FsType (fs_name f) (fs_mount f) (fs_kill_sb f) []]> (fstypes s)) (add_link (FsNext fs) FsTypes s).

Lemma registry_add s l fs f nm : registry_ok s l → fs ≠ NULL → fs ∉ l → fstypes s !! fs = Some f → fs_name f = Some nm →
  (∀ p, ¬ registered s l nm p) → registry_ok (enrolled fs f s) (fs :: l).
Proof.
  intros [Hl Hn Hu] Hfs Hnot Hf Hnm Hno.
  assert (Hold : ∀ p, p ∈ l → fstypes (enrolled fs f s) !! p = fstypes s !! p).
  { intros p Hp. unfold enrolled. cbn. rewrite lookup_insert_ne; [done |]. by intros <-. }
  assert (Hfs' : fstypes (enrolled fs f s) !! fs = Some (FsType (fs_name f) (fs_mount f) (fs_kill_sb f) [])) by apply lookup_insert_eq.
  split.
  - cbn [enrolled lk set_fstypes add_link set_lk fmap list_fmap]. apply list_add_linked; [done |].
    apply not_elem_of_cons. split; [done |]. by intros (q & [= ->] & Hq)%list_elem_of_fmap.
  - intros p [-> | Hp]%elem_of_cons; [split; [done |]; eauto |]. rewrite Hold by done. by apply Hn.
  - intros p q g h Hp Hq Hg Hh E. apply elem_of_cons in Hp as [-> | Hp], Hq as [-> | Hq]; [done | | |].
    + rewrite Hold in Hh by done. rewrite Hfs' in Hg. injection Hg as <-. destruct (Hno q). split; [done |].
      exists h. split; [done |]. cbn in E. congruence.
    + rewrite Hold in Hg by done. rewrite Hfs' in Hh. injection Hh as <-. destruct (Hno p). split; [done |].
      exists g. split; [done |]. cbn in E. congruence.
    + rewrite Hold in Hg, Hh by done. by apply (Hu p q g h).
Qed.

(** Registering a filesystem type under a name that is taken is refused and
    changes nothing; under a free name it succeeds, the type is found under its
    name, and every other name finds what it found. *)
Theorem register_then_get s l fs f nm fuel :
  registry_ok s l → fs ≠ NULL → fs ∉ l → fstypes s !! fs = Some f → fs_name f = Some nm → (S (length l) < fuel)%nat →
  (∃ p, registered s l nm p) ∧ register_filesystem fuel fs s = Ok (Err EBUSY, s) ∨
  (∀ p, ¬ registered s l nm p) ∧ ∃ s', register_filesystem fuel fs s = Ok (Ret 0, s') ∧ registry_ok s' (fs :: l) ∧
    get_fs_type fuel (Some nm) s' = Ok fs ∧
    ∀ nm', nm' ≠ nm → get_fs_type fuel (Some nm') s' = get_fs_type fuel (Some nm') s.
Proof.
  intros Hok Hfs Hnot Hf Hnm Hfuel. unfold register_filesystem. destruct (Z.eqb_spec fs NULL); [done |].
  unfold deref. rewrite Hf. ok_bind. cbv beta. rewrite Hnm. pose proof (find_registered s l nm fuel Hok ltac:(lia)) as Hs.
  destruct (for_each _ _ _ _) as [[[] |] | | |]; try done; [left; eauto |]. right. split; [done |].
  pose proof (registry_add s l fs f nm Hok Hfs Hnot Hf Hnm Hs) as Hok'.
  exists (enrolled fs f s). split; [unfold enrolled; by rewrite Hnm |]. split; [done |].
  assert (Hnew : ∀ nm' p, registered (enrolled fs f s) (fs :: l) nm' p ↔ p = fs ∧ nm' = nm ∨ registered s l nm' p).
  { intros nm' p. unfold registered. destruct (decide (p = fs)) as [-> | Hp].
    - unfold enrolled. cbn [fstypes set_fstypes add_link set_lk]. rewrite lookup_insert_eq. split; [| set_solver].
      intros (_ & g & [= <-] & E). cbn in E. left. split; congruence.
    - unfold enrolled. cbn [fstypes set_fstypes add_link set_lk]. rewrite lookup_insert_ne by done. set_solver. }
  split.
  - destruct (get_fs_type_spec _ _ nm fuel Hok' ltac:(cbn; lia)) as (p & -> & [Hp | [_ Hno]]).
    + f_equal. apply Hnew in Hp as [[-> _] | Hp]; [done | by destruct (Hs p)].
    + destruct (Hno fs). apply Hnew. by left.
  - intros nm' Hne. destruct (get_fs_type_spec _ _ nm' fuel Hok' ltac:(cbn; lia)) as (p & -> & Hp).
    destruct (get_fs_type_spec s l nm' fuel Hok ltac:(lia)) as (q & -> & Hq). f_equal.
    destruct Hp as [Hp | [-> Hp]], Hq as [Hq | [-> Hq]]; [| | | done].
    + apply Hnew in Hp as [[_ ->] | Hp]; [done | by apply (registered_unique s l nm')].
    + apply Hnew in Hp as [[_ ->] | Hp]; [done | by destruct (Hq p)].
    + destruct (Hp q). apply Hnew. by right.
Qed.

(** ** Directory entries *)

(** A circular list seen from its first node. *)
Lemma linked_rotate {A} `{EqDecision A} (L : links A) h x xs : linked L h (x :: xs) → linked L x (xs ++ [h]).
Proof.
  intros [HN (Hn & Hp & Hs)]. split.
  - apply (NoDup_Permutation_proper _ (h :: x :: xs)); [| done]. rewrite <- Permutation_cons_append. constructor.
  - apply segment_app. done.
Qed.

(** C39. [d_add] hangs the inode's list head behind the entry in its directory: a
    [d_lookup] that goes past the entry takes the list head for an entry and
    faults. *)
Theorem d_add_breaks_lookup s dir p l d inode i name fuel :
  linked (lk s) (Subdirs dir) (DChild <$> p :: l) → dir ≠ NULL → p ≠ NULL → inode ≠ NULL →
  dentries s !! p = Some d → inodes s !! inode = Some i →
  d_name_len d ≠ q_len name → (2 < fuel)%nat →
  ∃ s', d_add p inode s = Ok (Ret 0, s') ∧ d_lookup fuel dir (Some name) s' = Fault.
Proof.
  intros HL Hdir Hp Hin Hd Hi Hname Hfuel. unfold d_add, deref. rewrite !(proj2 (Z.eqb_neq _ NULL)) by done.
  rewrite Hd. ok_bind. cbv beta. cbn [inodes set_dentries]. rewrite Hi. ok_bind. eexists. split; [done |].
  pose proof (linked_rotate _ _ _ _ HL) as HR.
  assert (Hnot : IDentry inode ∉ DChild p :: (DChild <$> l) ++ [Subdirs dir]).
  { rewrite elem_of_cons, elem_of_app, list_elem_of_singleton. intros [[=] | [(q & [=] & _)%list_elem_of_fmap | [=]]]. }
  pose proof (list_add_linked _ _ _ _ HR Hnot) as HA. set (L' := list_add _ _ _) in *.
  assert (Hnext : next L' (DChild p) = IDentry inode) by (apply linked_next in HA; done).
  assert (Hhead : next L' (Subdirs dir) = DChild p).
  { destruct HA as [_ HA]. change (IDentry inode :: _) with ((IDentry inode :: (DChild <$> l)) ++ [Subdirs dir]) in HA.
    apply segment_app in HA as [_ [HA _]]. done. }
  unfold d_lookup. rewrite !(proj2 (Z.eqb_neq _ NULL)) by done. unfold for_each. cbn [lk add_link set_lk set_dentries]. fold L'.
  rewrite Hhead. do 2 (destruct fuel as [| fuel]; [lia |]). cbn [find_node]. rewrite decide_False by done. cbn [is_named dentries add_link set_lk set_dentries].
  unfold deref at 1. rewrite lookup_insert_eq. ok_bind. cbv beta. cbn [d_name_len set_d_inode].
  rewrite (proj2 (Nat.eqb_neq _ _) Hname). cbn [andb]. ok_bind. cbv beta iota. rewrite Hnext, decide_False by done. done.
Qed.
End Registry.
