(* ===== verification/LinuxVfsWitness.v ===== *)
(** * States on which the theorems on the Linux-style filesystem layer apply *)
From stdpp Require Import functions fin_maps.
From S2P Require Import Prelude Screen Solixfs Heap HeapSpec HeapAlloc HeapFree HeapAligned HeapWitness Frames.
From S2P Require Import Slab SlabSpec SlabCache Lists LinuxVfs LinuxVfsSpec LinuxVfsNames.

#[local] Existing Instance linux_lists.

(** An empty table, a cache of inodes at address 64, created without
    [SLAB_HWCACHE_ALIGN], and a superblock at 1. *)
Definition inode_slab : kmem_cache := new_cache (bytes_of "inode_cache") INODE_SIZE 0 0 None None.
Definition sample_sb : super_block := SuperBlock 0 4096 NULL (Some O).
Definition no_links : links lnode := Links id id.
Definition empty_layer : lvfs :=
  LVfs (SlabState boot {[ 64 := inode_slab ]} [64] []) 64 NULL NULL ∅ ∅ {[ 1 := sample_sb ]} ∅ ∅ ∅ no_links 1 0 0.

Lemma inode_slab_ok : cache_ok (lslab empty_layer) 64 inode_slab (λ _, []).
Proof.
  assert (Hnil : ∀ P : Z → Prop, ∀ p, p ∈ @nil Z → P p) by (intros P p Hp; by apply not_elem_of_nil in Hp).
  constructor; [| | | | | exact (Hnil _) | exact (Hnil _) | exact (Hnil _) | exact (Hnil _) | exact (Hnil _)].
  - apply lookup_singleton_eq.
  - discriminate.
  - split; vm_compute; [reflexivity | discriminate | discriminate | discriminate | reflexivity].
  - exists (blocks boot). split; [exact boot_ok | exact (Hnil _)].
  - constructor.
Qed.

Lemma family_empty dom hd nd : family dom hd nd no_links (λ _, []).
Proof. split; [| by intros ? ? ? ?%not_elem_of_nil]. intros k _. split; [apply NoDup_singleton | done]. Qed.

Lemma empty_layer_ok : inodes_ok empty_layer.
Proof.
  exists (λ _, []), (λ _, []), inode_slab, (λ _, []). split; [| split; [exact inode_slab_ok | done]].
  split; [apply family_empty | apply family_empty | | | | |].
  - intros k p. split; [by intros ?%not_elem_of_nil | by intros (i & Hi & _)].
  - intros k p. split; [by intros ?%not_elem_of_nil | by intros (i & Hi & _)].
  - by intros p q i j Hi.
  - by intros p i Hi.
  - split; [reflexivity | cbn; lia].
Qed.

(** The layer after one allocation. *)
Definition one_inode : lvfs :=
  match alloc_inode 1 empty_layer with Ok (_, s) => s | _ => empty_layer end.
Definition the_inode : Z :=
  match alloc_inode 1 empty_layer with Ok (p, _) => p | _ => NULL end.

Lemma the_inode_some : the_inode ≠ NULL.
Proof. apply Z.eqb_neq. vm_compute. reflexivity. Qed.

Lemma one_inode_facts :
  alloc_inode 1 empty_layer = Ok (the_inode, one_inode) ∧ inodes_ok one_inode ∧
  inodes one_inode = {[ the_inode := new_inode 1 1 4096 ]} ∧ sbs one_inode = {[ 1 := sample_sb ]} ∧ next_ino one_inode = 2.
Proof.
  pose proof the_inode_some as Hne. unfold the_inode, one_inode in *.
  destruct (alloc_inode_returns empty_layer 1 sample_sb empty_layer_ok) as (p & s & E & Hok & Hsb & Hc);
    [apply lookup_singleton_eq | reflexivity |].
  rewrite E in *. destruct Hc as [[-> _] | (_ & _ & Hn & Hi)]; [by destruct Hne |].
  split_and!; [done | done | rewrite Hi; apply insert_empty | done | rewrite Hn; reflexivity].
Qed.

#[global] Opaque one_inode the_inode.

(** A filesystem that allocates with the layer's function. *)
Definition sample_alloc (_ : nat) : option (Z → cmd lvfs Z) := Some alloc_inode.
Definition no_read (_ : nat) : option (Z → cmd lvfs unit) := None.
Definition sample_evict (_ : nat) : option (Z → cmd lvfs unit) := Some (λ _ s, Ok (tt, s)).
Lemma sample_evict_frame : ∀ o f p s, sample_evict o = Some f → f p s = Ok (tt, s).
Proof. by intros o f p s [= <-]. Qed.



(** Inode 3 is not in memory; its bucket is not that of the next number. *)
Lemma iget_forgets_witness : ∃ p s1 q s2, iget sample_alloc no_read 3 1 3 empty_layer = Ok (p, s1) ∧
  (p = NULL ∨ (∃ i, inodes s1 !! p = Some i ∧ i_sb i = 1 ∧ i_ino i = 3) ∧ iget sample_alloc no_read 3 1 3 s1 = Ok (q, s2) ∧ q ≠ p).
Proof.
  apply (iget_forgets sample_alloc no_read 1 sample_sb 0 3 3 eq_refl eq_refl eq_refl empty_layer empty_layer_ok).
  - apply lookup_singleton_eq.
  - reflexivity.
  - change (inodes empty_layer) with (∅ : gmap Z linode). rewrite map_size_empty. lia.
  - intros p i Hpi. discriminate Hpi.
  - vm_compute. discriminate.
Defined.

(** Two types, the first registered. *)
Definition ext2_type : file_system_type := FsType (Some (bytes_of "ext2")) None None [].
Definition proc_type : file_system_type := FsType (Some (bytes_of "proc")) None None [].
Definition one_type : lvfs :=
  enrolled 100 ext2_type (set_fstypes {[ 100 := ext2_type; 200 := proc_type ]} empty_layer).

Lemma one_type_ok : registry_ok one_type [100].
Proof.
  apply registry_add with (nm := bytes_of "ext2"); [| discriminate | set_solver | reflexivity | reflexivity |].
  - split; [by apply (fam_linked (λ _, True) (λ _, FsTypes) FsNext _ _ (family_empty _ _ _) 0) | by intros p ?%not_elem_of_nil | by intros p q f g ?%not_elem_of_nil].
  - intros p [Hp _]. by apply not_elem_of_nil in Hp.
Qed.

Lemma register_then_get_witness :
  (∃ p, registered one_type [100] (bytes_of "proc") p) ∧ register_filesystem 3 200 one_type = Ok (Err EBUSY, one_type) ∨
  (∀ p, ¬ registered one_type [100] (bytes_of "proc") p) ∧ ∃ s', register_filesystem 3 200 one_type = Ok (Ret 0, s') ∧
    registry_ok s' [200; 100] ∧ get_fs_type 3 (Some (bytes_of "proc")) s' = Ok 200 ∧
    ∀ nm', nm' ≠ bytes_of "proc" → get_fs_type 3 (Some nm') s' = get_fs_type 3 (Some nm') one_type.
Proof.
  apply (register_then_get one_type [100] 200 proc_type (bytes_of "proc") 3 one_type_ok);
    [discriminate | set_solver | reflexivity | reflexivity | cbn; lia].
Defined.

(** A directory at 10 with the entry "a" at 20, and an inode at 30. *)
Definition one_entry : lvfs :=
  add_link (DChild 20) (Subdirs 10)
    (set_dentries {[ 20 := Dentry [97] 1 NULL 10 1 1 ]} (set_inodes {[ 30 := new_inode 1 1 4096 ]} empty_layer)).

Lemma d_add_breaks_lookup_witness :
  ∃ s', d_add 20 30 one_entry = Ok (Ret 0, s') ∧ d_lookup 3 10 (Some (Qstr (bytes_of "bb") 2)) s' = Fault.
Proof.
  apply (d_add_breaks_lookup one_entry 10 20 [] (Dentry [97] 1 NULL 10 1 1) 30 (new_inode 1 1 4096) (Qstr (bytes_of "bb") 2) 3);
    try discriminate; try reflexivity; [| lia].
  apply (list_add_linked (DChild 20) (Subdirs 10) []); [split; [apply NoDup_singleton | done] | set_solver].
Defined.
