(* ===== verification/Desktop.v ===== *)
(** * The desktop (src/gui/src/Compositor.cpp, src/gui/src/WindowManager.cpp)

    The compositor keeps windows by identifier, their stacking order, the
    minimised ones and the active one; the window manager keeps its own table and
    tells the compositor through signals, which are delivered at once.  Windows
    are items of the scene: objects that both reach by pointer, and that are
    destroyed when the event loop runs next after [deleteLater].  What the QML
    engine answers (a component, a property map, the reply to "closing", fresh
    identifiers) is an argument of the calls; signals to QML are recorded. *)
From S2P Require Import Prelude.

#[local] Open Scope string_scope.
#[local] Open Scope list_scope.
#[local] Open Scope Z_scope.

(** ** Data *)
Record rect := Rect { rx : Z; ry : Z; rwidth : Z; rheight : Z }.

(** The properties of an item that the code reads or writes.  [hide_handler] is
    the identifier in the handler of [visibleChanged] that the window manager
    connects. *)
Record item := Item {
  objectName : string; title : string; visible : bool; active : bool; z : Z; maximized : bool;
  geometry : rect; hide_handler : option string;
}.
Record WindowData := WData { w_item : Z; w_minimized : bool; w_maximized : bool; normalGeometry : rect }.

Record PerformanceMetrics := Metrics { frameTime : Z; renderTime : Z; fps : Z; windowCount : Z; memoryUsage : Z }.

Inductive signal :=
| windowCountChanged (n : Z) | windowCreated (id : string) | windowClosed (id : string)
| windowActivated (id : string) | windowMinimized (id : string) | windowMaximized (id : string)
| windowRestored (id : string) | windowFocused (id : string) | performanceMetricsUpdated (m : PerformanceMetrics)
| themeChanged (t : string)
(* the window manager's own *)
| wm_windowMinimized (id : string) | wm_windowMaximized (id : string) (maximized : bool).

Record desktop := Desktop {
  items : gmap Z item;
  doomed : list Z;                       (* items given to [deleteLater] *)
  children : list Z;                     (* the child items of the root, back to front *)
  root_size : Z * Z;
  m_windows : gmap string Z;
  m_minimizedWindows : gset string;
  m_activeWindowId : string;
  m_windowStack : list string;           (* from bottom to top *)
  m_currentTheme : string;
  m_vsyncEnabled : bool;
  m_currentMetrics : PerformanceMetrics;
  m_lastFrameTime : Z;
  wm_windows : gmap string WindowData;
  wm_activeWindow : string;
  signals : list signal;                 (* the last one first *)
  quit : bool;
}.

Definition set_items (x : gmap Z item) (d : desktop) : desktop :=
  Desktop x (doomed d) (children d) (root_size d) (m_windows d) (m_minimizedWindows d) (m_activeWindowId d) (m_windowStack d)
    (m_currentTheme d) (m_vsyncEnabled d) (m_currentMetrics d) (m_lastFrameTime d) (wm_windows d) (wm_activeWindow d) (signals d) (quit d).
Definition set_doomed (x : list Z) (d : desktop) : desktop :=
  Desktop (items d) x (children d) (root_size d) (m_windows d) (m_minimizedWindows d) (m_activeWindowId d) (m_windowStack d)
    (m_currentTheme d) (m_vsyncEnabled d) (m_currentMetrics d) (m_lastFrameTime d) (wm_windows d) (wm_activeWindow d) (signals d) (quit d).
Definition set_children (x : list Z) (d : desktop) : desktop :=
  Desktop (items d) (doomed d) x (root_size d) (m_windows d) (m_minimizedWindows d) (m_activeWindowId d) (m_windowStack d)
    (m_currentTheme d) (m_vsyncEnabled d) (m_currentMetrics d) (m_lastFrameTime d) (wm_windows d) (wm_activeWindow d) (signals d) (quit d).
(** The four fields the compositor keeps of its windows. *)
Definition set_windows (w : gmap string Z) (m : gset string) (a : string) (s : list string) (d : desktop) : desktop :=
  Desktop (items d) (doomed d) (children d) (root_size d) w m a s
    (m_currentTheme d) (m_vsyncEnabled d) (m_currentMetrics d) (m_lastFrameTime d) (wm_windows d) (wm_activeWindow d) (signals d) (quit d).
Definition set_minimized (m : gset string) (d : desktop) : desktop :=
  set_windows (m_windows d) m (m_activeWindowId d) (m_windowStack d) d.
Definition set_theme (t : string) (d : desktop) : desktop :=
  Desktop (items d) (doomed d) (children d) (root_size d) (m_windows d) (m_minimizedWindows d) (m_activeWindowId d) (m_windowStack d)
    t (m_vsyncEnabled d) (m_currentMetrics d) (m_lastFrameTime d) (wm_windows d) (wm_activeWindow d) (signals d) (quit d).
Definition set_vsync (b : bool) (d : desktop) : desktop :=
  Desktop (items d) (doomed d) (children d) (root_size d) (m_windows d) (m_minimizedWindows d) (m_activeWindowId d) (m_windowStack d)
    (m_currentTheme d) b (m_currentMetrics d) (m_lastFrameTime d) (wm_windows d) (wm_activeWindow d) (signals d) (quit d).
Definition set_metrics (m : PerformanceMetrics) (t : Z) (d : desktop) : desktop :=
  Desktop (items d) (doomed d) (children d) (root_size d) (m_windows d) (m_minimizedWindows d) (m_activeWindowId d) (m_windowStack d)
    (m_currentTheme d) (m_vsyncEnabled d) m t (wm_windows d) (wm_activeWindow d) (signals d) (quit d).
Definition set_wm (w : gmap string WindowData) (a : string) (d : desktop) : desktop :=
  Desktop (items d) (doomed d) (children d) (root_size d) (m_windows d) (m_minimizedWindows d) (m_activeWindowId d) (m_windowStack d)
    (m_currentTheme d) (m_vsyncEnabled d) (m_currentMetrics d) (m_lastFrameTime d) w a (signals d) (quit d).
Definition emit (x : signal) (d : desktop) : desktop :=
  Desktop (items d) (doomed d) (children d) (root_size d) (m_windows d) (m_minimizedWindows d) (m_activeWindowId d) (m_windowStack d)
    (m_currentTheme d) (m_vsyncEnabled d) (m_currentMetrics d) (m_lastFrameTime d) (wm_windows d) (wm_activeWindow d) (x :: signals d) (quit d).
Definition set_quit (d : desktop) : desktop :=
  Desktop (items d) (doomed d) (children d) (root_size d) (m_windows d) (m_minimizedWindows d) (m_activeWindowId d) (m_windowStack d)
    (m_currentTheme d) (m_vsyncEnabled d) (m_currentMetrics d) (m_lastFrameTime d) (wm_windows d) (wm_activeWindow d) (signals d) true.

Definition set_name (x : string) (i : item) : item := Item x (title i) (visible i) (active i) (z i) (maximized i) (geometry i) (hide_handler i).
Definition set_title (x : string) (i : item) : item := Item (objectName i) x (visible i) (active i) (z i) (maximized i) (geometry i) (hide_handler i).
Definition set_visible (x : bool) (i : item) : item := Item (objectName i) (title i) x (active i) (z i) (maximized i) (geometry i) (hide_handler i).
Definition set_active (x : bool) (zz : Z) (i : item) : item := Item (objectName i) (title i) (visible i) x zz (maximized i) (geometry i) (hide_handler i).
Definition set_z (zz : Z) (i : item) : item := Item (objectName i) (title i) (visible i) (active i) zz (maximized i) (geometry i) (hide_handler i).
Definition set_maximized (x : bool) (i : item) : item := Item (objectName i) (title i) (visible i) (active i) (z i) x (geometry i) (hide_handler i).
Definition set_geometry (x : rect) (i : item) : item := Item (objectName i) (title i) (visible i) (active i) (z i) (maximized i) x (hide_handler i).
Definition set_handler (x : option string) (i : item) : item := Item (objectName i) (title i) (visible i) (active i) (z i) (maximized i) (geometry i) x.

(** ** Items: a pointer to a destroyed item is a fault *)
Definition get_item (p : Z) (d : desktop) : outcome item :=
  match items d !! p with Some i => Ok i | None => Fault end.
Definition with_item (p : Z) (f : item → item) : cmd desktop unit := λ d,
  i ← get_item p d; Ok (tt, set_items (<[p := f i]> (items d)) d).
Definition deleteLater (p : Z) : cmd desktop unit := λ d,
  _ ← get_item p d; Ok (tt, set_doomed (p :: doomed d) d).
(** The event loop destroys the items given to [deleteLater]. *)
Definition process_deletes (d : desktop) : desktop :=
  set_doomed [] (set_children (filter (λ p, p ∉ doomed d) (children d))
    (set_items (filter (λ x, fst x ∉ doomed d) (items d)) d)).

(** ** The compositor *)

(** [QStringList::removeAll] and [last]. *)
Definition removeAll (id : string) (l : list string) : list string := filter (λ x, x ≠ id) l.
Definition top (l : list string) : string := default "" (last l).

(** What [closeWindow] and [onWindowClosed] do to the tables and the active
    window. *)
Definition forget (id : string) (d : desktop) : desktop :=
  let stack := removeAll id (m_windowStack d) in
  let was_active := bool_decide (m_activeWindowId d = id) in
  let d := set_windows (delete id (m_windows d)) (m_minimizedWindows d ∖ {[ id ]})
    (if was_active then top stack else m_activeWindowId d) stack d in
  if was_active && negb (bool_decide (top stack = "")) then emit (windowActivated (top stack)) d else d.
Definition count_changed (d : desktop) : desktop := emit (windowCountChanged (Z.of_nat (size (m_windows d)))) d.

Definition onWindowClosed (id : string) : cmd desktop unit := λ d,
  match m_windows d !! id with
  | None => Ok (tt, d)
  | Some p =>
    let d := forget id d in
    '(_, d) ← (if p =? NULL then Ok (tt, d) else deleteLater p d);
    Ok (tt, count_changed (emit (windowClosed id) d))
  end.

(** [setVisible]: the handler that the window manager connected to
    [visibleChanged] closes the window when it is hidden. *)
Definition setVisible (p : Z) (b : bool) : cmd desktop unit := λ d,
  i ← get_item p d;
  let d := set_items (<[p := set_visible b i]> (items d)) d in
  match hide_handler i with
  | Some id => if visible i && negb b then onWindowClosed id d else Ok (tt, d)
  | None => Ok (tt, d)
  end.

Definition onWindowCreated (id : string) (p : Z) : cmd desktop unit := λ d,
  if p =? NULL then Ok (tt, d) else
  let d := set_windows (<[id := p]> (m_windows d)) (m_minimizedWindows d) (m_activeWindowId d) (m_windowStack d ++ [id]) d in
  _ ← get_item p d;
  Ok (tt, count_changed d).

Definition setActiveWindow (id : string) : cmd desktop unit := λ d,
  match m_windows d !! id with
  | None => Ok (tt, d)
  | Some p =>
    if decide (m_activeWindowId d = id) then Ok (tt, d) else
    let old := m_activeWindowId d in
    let d := set_windows (m_windows d) (m_minimizedWindows d) id (removeAll id (m_windowStack d) ++ [id]) d in
    '(_, d) ← (if p =? NULL then Ok (tt, d) else with_item p (set_active true 1) d);
    '(_, d) ← (match m_windows d !! old with
               | Some q => if bool_decide (old = "") || (q =? NULL) then Ok (tt, d) else with_item q (set_active false 0) d
               | None => Ok (tt, d)
               end);
    Ok (tt, emit (windowActivated id) d)
  end.

(** [made] is the item the component creates at a fresh address, [props] sets the
    properties of the map, [uuid] is the identifier that is generated when the item
    has no name. *)
Definition createWindowInternal (made : option (Z * item)) (props : item → item) (uuid : string) (d : desktop) : Z * desktop :=
  match made with
  | None => (NULL, d)
  | Some (p, i) =>
    let i := props i in
    let i := if bool_decide (objectName i = "") then set_name uuid i else i in
    (p, set_children (children d ++ [p]) (set_items (<[p := i]> (items d)) d))
  end.

Definition createWindow (root : bool) (ttl : string) (made : option (Z * item)) (props : item → item) (uuid : string)
  : cmd desktop string := λ d,
  if negb root then Ok ("", d) else
  let '(p, d) := createWindowInternal made props uuid d in
  if p =? NULL then Ok ("", d) else
  i ← get_item p d;
  let id := objectName i in
  let d := set_windows (<[id := p]> (m_windows d)) (m_minimizedWindows d) (m_activeWindowId d) (m_windowStack d ++ [id]) d in
  '(_, d) ← with_item p (set_title ttl) d;
  '(_, d) ← setVisible p true d;
  let d := count_changed (emit (windowCreated id) d) in
  '(_, d) ← setActiveWindow id d;
  Ok (id, d).

Definition minimizeWindow (id : string) : cmd desktop unit := λ d,
  match m_windows d !! id with
  | None => Ok (tt, d)
  | Some p =>
    if decide (id ∈ m_minimizedWindows d) then Ok (tt, d) else
    if p =? NULL then Ok (tt, d) else
    '(_, d) ← setVisible p false d;
    Ok (tt, emit (windowMinimized id) (set_minimized (m_minimizedWindows d ∪ {[ id ]}) d))
  end.

Definition maximizeWindow (id : string) : cmd desktop unit := λ d,
  match m_windows d !! id with
  | None => Ok (tt, d)
  | Some p =>
    if p =? NULL then Ok (tt, d) else
    i ← get_item p d;
    '(_, d) ← with_item p (set_maximized (negb (maximized i))) d;
    Ok (tt, emit (if maximized i then windowRestored id else windowMaximized id) d)
  end.

Definition restoreWindow (id : string) : cmd desktop unit := λ d,
  match m_windows d !! id with
  | None => Ok (tt, d)
  | Some p =>
    if p =? NULL then Ok (tt, d) else
    '(_, d) ← setVisible p true d;
    let d := set_minimized (m_minimizedWindows d ∖ {[ id ]}) d in
    '(_, d) ← with_item p (set_maximized false) d;
    setActiveWindow id (emit (windowRestored id) d)
  end.

(** [closing]: the reply of the window's "closing" function, if it has one. *)
Definition closeWindow (id : string) (closing : option bool) : cmd desktop bool := λ d,
  match m_windows d !! id with
  | None => Ok (false, d)
  | Some p =>
    if p =? NULL then Ok (false, d) else
    _ ← get_item p d;
    if bool_decide (closing = Some false) then Ok (false, d) else
    let d := forget id d in
    '(_, d) ← deleteLater p d;
    Ok (true, count_changed (emit (windowClosed id) d))
  end.

(** ** Theme, performance *)
Definition theme_known (t : string) : bool := bool_decide (t ∈ ["default"; "dark"; "light"]).
(** [loads]: the theme's component is ready and creates an object. *)
Definition setTheme (t : string) (loads : bool) (d : desktop) : desktop :=
  if negb (theme_known t) || bool_decide (m_currentTheme d = t) then d else
  let d := set_theme t d in
  if loads then emit (themeChanged t) d else d.
Definition setVSyncEnabled (b : bool) (d : desktop) : desktop :=
  if Bool.eqb (m_vsyncEnabled d) b then d else set_vsync b d.

(** The handler of [frameSwapped]; [memory] is what the system reports.  A frame
    of no duration divides by zero: [qRound] of infinity is undefined. *)
Definition frameSwapped (now : Z) (memory : option Z) : cmd desktop unit := λ d,
  let m := m_currentMetrics d in
  let t := now - m_lastFrameTime d in
  if t =? 0 then Fault else
  let fps := Z.quot (2000 + Z.abs t) (2 * Z.abs t) * Z.sgn t in
  Ok (tt, set_metrics (Metrics t (renderTime m) fps (windowCount m) (default (memoryUsage m) memory)) now d).
Definition updatePerformanceMetrics (d : desktop) : desktop :=
  let m := m_currentMetrics d in
  let m := Metrics (frameTime m) (renderTime m) (fps m) (Z.of_nat (size (m_windows d))) (memoryUsage m) in
  emit (performanceMetricsUpdated m) (set_metrics m (m_lastFrameTime d) d).

(** ** Keys *)
Inductive key := Key_Tab | Key_F4 | Key_Q | Key_R | Key_other.

Fixpoint index_of (id : string) (l : list string) : option nat :=
  match l with
  | [] => None
  | x :: l => if decide (x = id) then Some O else S <$> index_of id l
  end.
(** [eventFilter] on a key press: whether the event was consumed. *)
Definition eventFilter (alt : bool) (k : key) (closing : option bool) : cmd desktop bool := λ d,
  if negb alt then Ok (false, d) else
  match k with
  | Key_Tab =>
    match m_windowStack d with
    | [] => Ok (false, d)
    | _ =>
      (* [indexOf] is -1 when the window is not in the list *)
      let next := match index_of (m_activeWindowId d) (m_windowStack d) with
                  | Some i => ((i + 1) mod length (m_windowStack d))%nat
                  | None => O
                  end in
      '(_, d) ← setActiveWindow (m_windowStack d !!! next) d; Ok (true, d)
    end
  | Key_F4 =>
    if bool_decide (m_activeWindowId d = "") then Ok (false, d) else
    '(_, d) ← closeWindow (m_activeWindowId d) closing d; Ok (true, d)
  | _ => Ok (false, d)
  end.
(** Ctrl+R reloads the QML file for development, which is not modelled. *)
Definition keyPressEvent (ctrl : bool) (k : key) (d : desktop) : desktop :=
  match k with Key_Q => if ctrl then set_quit d else d | _ => d end.

(** The destructor. *)
Fixpoint delete_all (ps : list Z) : cmd desktop unit := λ d,
  match ps with
  | [] => Ok (tt, d)
  | p :: ps => '(_, d) ← (if p =? NULL then Ok (tt, d) else deleteLater p d); delete_all ps d
  end.
Definition Compositor_destroy : cmd desktop unit := λ d,
  '(_, d) ← delete_all (snd <$> map_to_list (m_windows d)) d;
  Ok (tt, set_windows ∅ (m_minimizedWindows d) (m_activeWindowId d) (m_windowStack d) d).

(** The constructor, and [initialize] as far as it changes this state. *)
Definition Compositor (now : Z) (size : Z * Z) : desktop :=
  Desktop ∅ [] [] size ∅ ∅ "" [] "default" true (Metrics 0 0 0 0 0) now ∅ "" [] false.
Definition initializeRendering (d : desktop) : desktop := setVSyncEnabled true d.
Definition initialize (loads : bool) (d : desktop) : desktop := setTheme "default" loads (initializeRendering d).

(** ** The window manager *)
(** [made] is the item the component creates, [id] the identifier of
    [generateWindowId]. *)
Definition WindowManager_createWindow (parent engine : bool) (ttl : string) (made : option (Z * item)) (id : string) : cmd desktop Z := λ d,
  if negb parent || negb engine then Ok (NULL, d) else
  match made with
  | None => Ok (NULL, d)
  | Some (p, i) =>
    let i := set_handler (Some id) (set_name id (set_title ttl i)) in
    let d := set_children (children d ++ [p]) (set_items (<[p := i]> (items d)) d) in
    let d := set_wm (<[id := WData p false false (Rect 100 100 800 600)]> (wm_windows d)) (wm_activeWindow d) d in
    '(_, d) ← onWindowCreated id p d;
    Ok (p, d)
  end.

Definition put (id : string) (w : WindowData) (d : desktop) : desktop := set_wm (<[id := w]> (wm_windows d)) (wm_activeWindow d) d.

Definition WindowManager_minimizeWindow (id : string) : cmd desktop unit := λ d,
  match wm_windows d !! id with
  | None => Ok (tt, d)
  | Some w =>
    let d := put id (WData (w_item w) true (w_maximized w) (normalGeometry w)) d in
    '(_, d) ← (if w_item w =? NULL then Ok (tt, d) else setVisible (w_item w) false d);
    Ok (tt, emit (wm_windowMinimized id) d)
  end.

Definition WindowManager_maximizeWindow (id : string) : cmd desktop unit := λ d,
  match wm_windows d !! id with
  | None => Ok (tt, d)
  | Some w =>
    if w_item w =? NULL then Ok (tt, emit (wm_windowMaximized id (negb (w_maximized w))) (put id (WData NULL (w_minimized w) (negb (w_maximized w)) (normalGeometry w)) d)) else
    i ← get_item (w_item w) d;
    if w_maximized w then
      '(_, d) ← with_item (w_item w) (set_geometry (normalGeometry w)) d;
      Ok (tt, emit (wm_windowMaximized id false) (put id (WData (w_item w) (w_minimized w) false (normalGeometry w)) d))
    else
      let full := Rect 0 0 (fst (root_size d)) (snd (root_size d)) in
      '(_, d) ← with_item (w_item w) (set_geometry full) d;
      Ok (tt, emit (wm_windowMaximized id true) (put id (WData (w_item w) (w_minimized w) true (geometry i)) d))
  end.

Definition WindowManager_closeWindow (id : string) : cmd desktop unit := λ d,
  match wm_windows d !! id with
  | None => Ok (tt, d)
  | Some w =>
    '(_, d) ← (if w_item w =? NULL then Ok (tt, d) else deleteLater (w_item w) d);
    onWindowClosed id (set_wm (delete id (wm_windows d)) (wm_activeWindow d) d)
  end.

(** [stackAfter] the last child, [stackBefore] the first one. *)
Definition raise (p : Z) (d : desktop) : desktop := set_children (filter (λ q, q ≠ p) (children d) ++ [p]) d.
Definition lower (p : Z) (d : desktop) : desktop := set_children (p :: filter (λ q, q ≠ p) (children d)) d.

(** The loop of [focusWindow] over the windows: [z] is 1 for one and 0 for the others. *)
Fixpoint set_zs (p : Z) (ws : list WindowData) : cmd desktop unit := λ d,
  match ws with
  | [] => Ok (tt, d)
  | w :: ws =>
    '(_, d) ← (if w_item w =? NULL then Ok (tt, d) else with_item (w_item w) (set_z (if w_item w =? p then 1 else 0)) d);
    set_zs p ws d
  end.
Definition focusWindow (id : string) : cmd desktop unit := λ d,
  match wm_windows d !! id with
  | None => Ok (tt, d)
  | Some w =>
    if w_item w =? NULL then Ok (tt, d) else
    _ ← get_item (w_item w) d;
    '(_, d) ← set_zs (w_item w) (snd <$> map_to_list (wm_windows d)) (raise (w_item w) d);
    Ok (tt, emit (windowFocused id) (set_wm (wm_windows d) id d))
  end.
Definition bringToFront (id : string) : cmd desktop unit := λ d,
  match wm_windows d !! id with
  | None => Ok (tt, d)
  | Some w => if w_item w =? NULL then Ok (tt, d) else _ ← get_item (w_item w) d; Ok (tt, raise (w_item w) d)
  end.
Definition sendToBack (id : string) : cmd desktop unit := λ d,
  match wm_windows d !! id with
  | None => Ok (tt, d)
  | Some w => if w_item w =? NULL then Ok (tt, d) else _ ← get_item (w_item w) d; Ok (tt, lower (w_item w) d)
  end.

Definition id_chars : list Z := bytes_of "abcdefghijklmnopqrstuvwxyzABCDEFGHIJKLMNOPQRSTUVWXYZ0123456789".
(** [random] are the results of the generator, each below the number of characters. *)
Definition generateWindowId (random : nat → nat) : list Z := (λ i, nth (random i) id_chars 0) <$> seq 0 16.
(** The destructor. *)
Definition WindowManager_destroy : cmd desktop unit := λ d,
  '(_, d) ← delete_all (w_item ∘ snd <$> map_to_list (wm_windows d)) d;
  Ok (tt, set_wm ∅ (wm_activeWindow d) d).
