(* ===== verification/DesktopSpec.v ===== *)
(** * The desktop stays well formed, and Alt+Tab visits every window

    The compositor's tables agree with one another and with the scene, whatever
    sequence of its calls is made; none of them touches a destroyed item. *)
From S2P Require Import Prelude.
From S2P Require Import Desktop.

#[local] Open Scope string_scope.
#[local] Open Scope list_scope.
#[local] Open Scope Z_scope.

(** ** What is well formed *)

(** The stack lists the windows once each, only windows are minimised. *)
Record tables_ok (w : gmap string Z) (m : gset string) (s : list string) : Prop := {
  stack_nodup : NoDup s;
  stack_windows : ∀ id, id ∈ s ↔ is_Some (w !! id);
  stack_named : "" ∉ s;
  minimized_windows : ∀ id, id ∈ m → is_Some (w !! id);
}.
(** Every window is an item of the scene of its own that is not being deleted and
    that no handler closes when it is hidden. *)
Record items_ok (w : gmap string Z) (its : gmap Z item) (dm : list Z) : Prop := {
  window_item : ∀ id p, w !! id = Some p → p ≠ NULL ∧ p ∉ dm ∧ ∃ i, its !! p = Some i ∧ hide_handler i = None;
  window_inj : ∀ id id' p, w !! id = Some p → w !! id' = Some p → id = id';
  doomed_items : ∀ p, p ∈ dm → is_Some (its !! p);
}.
Record desktop_ok (d : desktop) : Prop := {
  ok_tables : tables_ok (m_windows d) (m_minimizedWindows d) (m_windowStack d);
  ok_items : items_ok (m_windows d) (items d) (doomed d);
  ok_active : m_activeWindowId d = top (m_windowStack d);
}.

(** ** The calls *)
Inductive call :=
| CCreate (root : bool) (ttl : string) (made : option (Z * item)) (props : item → item) (uuid : string)
| CSetActive (id : string) | CMinimize (id : string) | CMaximize (id : string) | CRestore (id : string)
| CClose (id : string) (closing : option bool)
| CKey (alt : bool) (k : key) (closing : option bool)
| CTheme (t : string) (loads : bool) | CVSync (b : bool) | CMetrics
| CEventLoop.

Definition state_of {A} (o : outcome (A * desktop)) : outcome desktop := '(_, d) ← o; Ok d.
Definition call_run (c : call) (d : desktop) : outcome desktop :=
  match c with
  | CCreate root ttl made props uuid => state_of (createWindow root ttl made props uuid d)
  | CSetActive id => state_of (setActiveWindow id d)
  | CMinimize id => state_of (minimizeWindow id d)
  | CMaximize id => state_of (maximizeWindow id d)
  | CRestore id => state_of (restoreWindow id d)
  | CClose id closing => state_of (closeWindow id closing d)
  | CKey alt k closing => state_of (eventFilter alt k closing d)
  | CTheme t loads => Ok (setTheme t loads d)
  | CVSync b => Ok (setVSyncEnabled b d)
  | CMetrics => Ok (updatePerformanceMetrics d)
  | CEventLoop => Ok (process_deletes d)
  end.

(** A component creates an item at a fresh address, with no handler; the name it
    gets is not in use. *)
Definition fresh_item (d : desktop) (p : Z) (i : item) (uuid : string) : Prop :=
  p ≠ NULL ∧ items d !! p = None ∧ hide_handler i = None ∧
  let id := if bool_decide (objectName i = "") then uuid else objectName i in id ≠ "" ∧ m_windows d !! id = None.
Definition call_ok (c : call) (d : desktop) : Prop :=
  match c with
  | CCreate _ _ (Some (p, i)) props uuid => fresh_item d p (props i) uuid
  | _ => True
  end.

(** A run of calls, each of them made where it is allowed. *)
Inductive run : list call → desktop → desktop → Prop :=
| run_nil d : run [] d d
| run_cons c cs d d' d'' : call_ok c d → call_run c d = Ok d' → run cs d' d'' → run (c :: cs) d d''.

(** ** The stack *)
Lemma elem_of_removeAll id x s : x ∈ removeAll id s ↔ x ∈ s ∧ x ≠ id.
Proof. unfold removeAll. rewrite list_elem_of_filter. naive_solver. Qed.
Lemma removeAll_fresh id s : id ∉ s → removeAll id s = s.
Proof.
  unfold removeAll. induction s as [| x s IH]; intros H; [reflexivity |].
  rewrite filter_cons_True by set_solver. f_equal. apply IH. set_solver.
Qed.
Lemma top_snoc s id : top (s ++ [id]) = id.
Proof. unfold top. by rewrite last_snoc. Qed.
Lemma top_in s : s ≠ [] → top s ∈ s.
Proof. destruct s as [| id s _] using rev_ind; [done |]. intros _. rewrite top_snoc. set_solver. Qed.
Lemma top_nil_or s : top s = "" ∨ top s ∈ s.
Proof. destruct s as [| x s]; [by left | right; apply top_in; done]. Qed.

Lemma tables_forget id w m s : tables_ok w m s → tables_ok (delete id w) (m ∖ {[ id ]}) (removeAll id s).
Proof.
  intros [Hnd Hw Hn Hm]. split.
  - by apply NoDup_filter.
  - intros x. rewrite elem_of_removeAll, lookup_delete_is_Some, Hw. naive_solver.
  - rewrite elem_of_removeAll. naive_solver.
  - intros x [Hx Hne]%elem_of_difference. rewrite lookup_delete_is_Some. set_solver.
Qed.
Lemma tables_raise id w m s : tables_ok w m s → is_Some (w !! id) → tables_ok w m (removeAll id s ++ [id]).
Proof.
  intros [Hnd Hw Hn Hm] Hid. split; [| | | exact Hm].
  - apply NoDup_app. split; [by apply NoDup_filter |]. split; [| apply NoDup_singleton].
    intros x. rewrite elem_of_removeAll. set_solver.
  - intros x. rewrite elem_of_app, elem_of_removeAll, list_elem_of_singleton, Hw. destruct (decide (x = id)); naive_solver.
  - rewrite elem_of_app, elem_of_removeAll, list_elem_of_singleton. apply Hw in Hid. intros [[? _] | ?]; congruence.
Qed.
Lemma tables_add id p w m s : tables_ok w m s → w !! id = None → id ≠ "" → tables_ok (<[id := p]> w) m (s ++ [id]).
Proof.
  intros [Hnd Hw Hn Hm] Hid Hne.
  assert (Hs : id ∉ s) by (rewrite Hw, Hid; intros [? ?]; discriminate). split.
  - apply NoDup_app. split; [done |]. split; [set_solver | apply NoDup_singleton].
  - intros x. rewrite elem_of_app, list_elem_of_singleton, lookup_insert_is_Some, Hw. destruct (decide (x = id)); naive_solver.
  - rewrite elem_of_app, list_elem_of_singleton. naive_solver.
  - intros x Hx. rewrite lookup_insert_is_Some. destruct (decide (id = x)); auto.
Qed.
Lemma tables_minimize id w m s : tables_ok w m s → is_Some (w !! id) → tables_ok w (m ∪ {[ id ]}) s.
Proof. intros [Hnd Hw Hn Hm] Hid. split; [done .. |]. intros x. rewrite elem_of_union, elem_of_singleton. naive_solver. Qed.
Lemma tables_unminimize id w m s : tables_ok w m s → tables_ok w (m ∖ {[ id ]}) s.
Proof. intros [Hnd Hw Hn Hm]. split; [done .. |]. intros x. set_solver. Qed.

(** ** The items *)
Lemma items_update w its dm p i i' :
  items_ok w its dm → its !! p = Some i → hide_handler i' = hide_handler i → items_ok w (<[p := i']> its) dm.
Proof.
  intros [Hw Hinj Hd] Hp Hh. split; [| exact Hinj |].
  - intros id q (Hq & Hdm & j & Hj & Hjh)%Hw. split; [done |]. split; [done |].
    destruct (decide (p = q)) as [<- | Hne]; [| rewrite lookup_insert_ne by done; eauto].
    rewrite lookup_insert_eq. exists i'. split; [done |]. congruence.
  - intros q Hq%Hd. apply lookup_insert_is_Some. destruct (decide (p = q)); auto.
Qed.
Lemma items_add w its dm id p i :
  items_ok w its dm → its !! p = None → p ≠ NULL → hide_handler i = None → items_ok (<[id := p]> w) (<[p := i]> its) dm.
Proof.
  intros [Hw Hinj Hd] Hp Hnull Hh.
  assert (Hfresh : ∀ id', w !! id' ≠ Some p) by (intros id' (_ & _ & j & Hj & _)%Hw; congruence).
  split.
  - intros id' q [[<- <-] | [Hne Hq]]%lookup_insert_Some.
    + split; [done |]. split; [intros [x Hx]%Hd; congruence |]. rewrite lookup_insert_eq. eauto.
    + rewrite lookup_insert_ne by (intros ->; by eapply Hfresh). eauto.
  - intros a b q [[<- <-] | [Hne Hq]]%lookup_insert_Some [[<- ?] | [Hne' Hq']]%lookup_insert_Some; simplify_eq; try done.
    + by destruct (Hfresh b).
    + by destruct (Hfresh a).
    + by eapply Hinj.
  - intros q Hq%Hd. apply lookup_insert_is_Some. destruct (decide (p = q)); auto.
Qed.
Lemma items_close w its dm id p : items_ok w its dm → w !! id = Some p → items_ok (delete id w) its (p :: dm).
Proof.
  intros [Hw Hinj Hd] Hp. split.
  - intros id' q [Hne Hq]%lookup_delete_Some. destruct (Hw _ _ Hq) as (Hnull & Hdm & Hi). split; [done |]. split; [| done].
    intros [-> | H]%elem_of_cons; [| done]. by destruct Hne; apply (Hinj _ _ p).
  - intros a b q [_ Ha]%lookup_delete_Some [_ Hb]%lookup_delete_Some. by eapply Hinj.
  - intros q [-> | Hq]%elem_of_cons; [| auto]. destruct (Hw _ _ Hp) as (_ & _ & i & Hi & _). by eexists.
Qed.
Lemma items_loop w its dm : items_ok w its dm → items_ok w (filter (λ x, fst x ∉ dm) its) [].
Proof.
  intros [Hw Hinj Hd]. split; [| exact Hinj | set_solver].
  intros id p (Hnull & Hdm & i & Hi & Hh)%Hw. split; [done |]. split; [set_solver |].
  exists i. split; [| done]. by apply map_lookup_filter_Some.
Qed.

(** ** The states the operations go through *)
Lemma with_item_ok p f d i : items d !! p = Some i → with_item p f d = Ok (tt, set_items (<[p := f i]> (items d)) d).
Proof. intros Hi. unfold with_item, get_item. rewrite Hi. reflexivity. Qed.
Lemma setVisible_ok p b d i : items d !! p = Some i → hide_handler i = None →
  setVisible p b d = Ok (tt, set_items (<[p := set_visible b i]> (items d)) d).
Proof. intros Hi Hh. unfold setVisible, get_item. rewrite Hi. ok_bind. by rewrite Hh. Qed.

Lemma ok_emit x d : desktop_ok d → desktop_ok (emit x d).
Proof. by intros [? ? ?]. Qed.
Lemma ok_count d : desktop_ok d → desktop_ok (count_changed d).
Proof. apply ok_emit. Qed.
Lemma ok_set_item d p i i' : desktop_ok d → items d !! p = Some i → hide_handler i' = hide_handler i →
  desktop_ok (set_items (<[p := i']> (items d)) d).
Proof. intros [Ht Hi Ha] Hp Hh. split; [exact Ht | exact (items_update _ _ _ _ _ _ Hi Hp Hh) | exact Ha]. Qed.
Lemma ok_minimized d m : desktop_ok d → tables_ok (m_windows d) m (m_windowStack d) → desktop_ok (set_minimized m d).
Proof. intros [Ht Hi Ha] Hm. by split. Qed.
Lemma ok_loop d : desktop_ok d → desktop_ok (process_deletes d).
Proof. intros [Ht Hi Ha]. split; [exact Ht | exact (items_loop _ _ _ Hi) | exact Ha]. Qed.
Lemma ok_theme t loads d : desktop_ok d → desktop_ok (setTheme t loads d).
Proof. unfold setTheme. intros [? ? ?]. destruct (_ || _); [by split |]. destruct loads; by split. Qed.
Lemma ok_vsync b d : desktop_ok d → desktop_ok (setVSyncEnabled b d).
Proof. unfold setVSyncEnabled. intros [? ? ?]. destruct (eqb _ _); by split. Qed.
Lemma ok_metrics d : desktop_ok d → desktop_ok (updatePerformanceMetrics d).
Proof. by intros [? ? ?]. Qed.
#[export] Hint Resolve ok_emit ok_count ok_loop ok_theme ok_vsync ok_metrics : desktop.

Lemma window_lookup d id p : desktop_ok d → m_windows d !! id = Some p →
  (p =? NULL) = false ∧ ∃ i, items d !! p = Some i ∧ hide_handler i = None.
Proof. intros [_ Hi _] Hw. destruct (window_item _ _ _ Hi _ _ Hw) as (Hp & _ & Hi'). split; [by apply Z.eqb_neq | done]. Qed.

(** [forget] and the deletion of the item. *)
Lemma ok_forget d id p : desktop_ok d → m_windows d !! id = Some p →
  desktop_ok (set_doomed (p :: doomed (forget id d)) (forget id d)).
Proof.
  intros [Ht Hi Ha] Hp. unfold forget.
  assert (Hact : (if bool_decide (m_activeWindowId d = id) then top (removeAll id (m_windowStack d)) else m_activeWindowId d)
      = top (removeAll id (m_windowStack d))).
  { case_bool_decide as Hid; [done |]. rewrite Ha in Hid |- *.
    destruct (m_windowStack d) as [| x s _] using rev_ind; [done |]. rewrite top_snoc in Hid |- *.
    unfold removeAll. rewrite filter_app, filter_cons_True by done. cbn. by rewrite top_snoc. }
  destruct (_ && _); (split; [exact (tables_forget id _ _ _ Ht) | exact (items_close _ _ _ _ _ Hi Hp) | exact Hact]).
Qed.

(** Activation also repairs a state in which only the active window is not the
    top one. *)
Lemma setActive_ok d id p :
  tables_ok (m_windows d) (m_minimizedWindows d) (m_windowStack d) → items_ok (m_windows d) (items d) (doomed d) →
  (m_activeWindowId d = id → id = top (m_windowStack d)) → m_windows d !! id = Some p →
  ∃ d', setActiveWindow id d = Ok (tt, d') ∧ desktop_ok d' ∧
    (m_activeWindowId d ≠ id → m_windowStack d' = removeAll id (m_windowStack d) ++ [id] ∧ signals d' = windowActivated id :: signals d).
Proof.
  intros Ht Hi Ha Hp. unfold setActiveWindow. rewrite Hp. destruct (decide _) as [Hid | Hid].
  { exists d. split; [done |]. split; [| done]. split; [done .. |]. by rewrite <- (Ha Hid). }
  set (d1 := set_windows _ _ id _ d).
  assert (H1 : desktop_ok d1).
  { split; [exact (tables_raise id _ _ _ Ht (mk_is_Some _ _ Hp)) | exact Hi | symmetry; apply top_snoc]. }
  destruct (window_lookup d1 id p H1 Hp) as (Hn & i & Hit & Hh). rewrite Hn, (with_item_ok _ _ _ _ Hit). ok_bind.
  pose proof (ok_set_item d1 p i (set_active true 1 i) H1 Hit eq_refl) as H2. set (d2 := set_items _ d1) in *.
  destruct (m_windows d2 !! m_activeWindowId d) as [q |] eqn:Hq.
  2: { eexists. split; [reflexivity |]. split; [by apply ok_emit | done]. }
  destruct (_ || _).
  { eexists. split; [reflexivity |]. split; [by apply ok_emit | done]. }
  destruct (window_lookup d2 _ q H2 Hq) as (_ & j & Hj & Hjh). rewrite (with_item_ok _ _ _ _ Hj). ok_bind.
  eexists. split; [reflexivity |]. split; [| done]. apply ok_emit. exact (ok_set_item d2 q j (set_active false 0 j) H2 Hj eq_refl).
Qed.

(** ** Every operation *)
Definition keeps {A} (f : cmd desktop A) : Prop := ∀ d, desktop_ok d → ∃ a d', f d = Ok (a, d') ∧ desktop_ok d'.

Ltac stay := eexists _, _; split; [reflexivity | by auto with desktop].
(** The window of the call: absent, or an item of the scene. *)
Ltac on_window Hd id :=
  let p := fresh "p" in let Hp := fresh "Hp" in let Hn := fresh "Hn" in
  destruct (m_windows _ !! id) as [p |] eqn:Hp; [| stay];
  destruct (window_lookup _ _ _ Hd Hp) as (Hn & i & Hi & Hh); rewrite ?Hn.

Lemma setActive_keeps id : keeps (setActiveWindow id).
Proof.
  intros d Hd. destruct (m_windows d !! id) as [p |] eqn:Hp.
  - destruct (setActive_ok d id p) as (d' & Hr & Hd' & _); [apply Hd | apply Hd | | done | by exists tt, d'].
    intros <-. apply Hd.
  - unfold setActiveWindow. rewrite Hp. stay.
Qed.
Lemma close_keeps id closing : keeps (closeWindow id closing).
Proof.
  intros d Hd. unfold closeWindow. on_window Hd id. unfold get_item. rewrite Hi. ok_bind.
  destruct (bool_decide _); [stay |].
  assert (Hi' : items (forget id d) !! p = Some i) by (unfold forget; by destruct (_ && _)).
  unfold deleteLater, get_item. rewrite Hi'. ok_bind. eexists _, _. split; [reflexivity |].
  apply ok_count, ok_emit. exact (ok_forget d id p Hd Hp).
Qed.
Lemma minimize_keeps id : keeps (minimizeWindow id).
Proof.
  intros d Hd. unfold minimizeWindow. on_window Hd id. destruct (decide _); [stay |].
  rewrite (setVisible_ok _ _ _ _ Hi Hh). ok_bind. eexists _, _. split; [reflexivity |]. apply ok_emit, ok_minimized.
  - exact (ok_set_item d p i (set_visible false i) Hd Hi eq_refl).
  - apply tables_minimize; [apply Hd | by eexists].
Qed.
Lemma maximize_keeps id : keeps (maximizeWindow id).
Proof.
  intros d Hd. unfold maximizeWindow. on_window Hd id. unfold get_item. rewrite Hi. ok_bind.
  rewrite (with_item_ok _ _ _ _ Hi). ok_bind. eexists _, _. split; [reflexivity |].
  apply ok_emit. exact (ok_set_item d p i (set_maximized (negb (maximized i)) i) Hd Hi eq_refl).
Qed.
Lemma restore_keeps id : keeps (restoreWindow id).
Proof.
  intros d Hd. unfold restoreWindow. on_window Hd id. rewrite (setVisible_ok _ _ _ _ Hi Hh). ok_bind.
  pose proof (ok_set_item d p i (set_visible true i) Hd Hi eq_refl) as H1. set (d1 := set_items _ d) in *.
  assert (H2 : desktop_ok (set_minimized (m_minimizedWindows d1 ∖ {[ id ]}) d1)) by (apply ok_minimized, tables_unminimize, H1; done).
  set (d2 := set_minimized _ d1) in *.
  assert (Hi2 : items d2 !! p = Some (set_visible true i)) by apply lookup_insert_eq.
  rewrite (with_item_ok _ _ _ _ Hi2). ok_bind. apply setActive_keeps, ok_emit.
  exact (ok_set_item d2 p _ (set_maximized false (set_visible true i)) H2 Hi2 eq_refl).
Qed.
Lemma filter_keeps alt k closing : keeps (eventFilter alt k closing).
Proof.
  intros d Hd. unfold eventFilter. destruct alt; [| stay]. destruct k; try stay.
  - destruct (m_windowStack d) as [| x s] eqn:Hs; [stay |]. rewrite <- Hs.
    destruct (setActive_keeps (m_windowStack d !!! match index_of (m_activeWindowId d) (m_windowStack d) with
      | Some i => ((i + 1) mod length (m_windowStack d))%nat | None => O end) d Hd) as ([] & d' & Hr & Hd').
    cbv zeta. rewrite Hr. ok_bind. by eexists _, _.
  - destruct (bool_decide _); [stay |]. destruct (close_keeps (m_activeWindowId d) closing d Hd) as (b & d' & Hr & Hd').
    rewrite Hr. ok_bind. by eexists _, _.
Qed.

Lemma create_keeps root ttl made props uuid d :
  desktop_ok d → call_ok (CCreate root ttl made props uuid) d →
  ∃ id d', createWindow root ttl made props uuid d = Ok (id, d') ∧ desktop_ok d'.
Proof.
  intros Hd Hok. unfold createWindow. destruct root; [| stay]. destruct made as [[p i0] |]; cbn; [| stay].
  destruct Hok as (Hn & Hp & Hh & Hid & Hfree). apply Z.eqb_neq in Hn as Hn'. rewrite Hn'.
  set (i := if bool_decide (objectName (props i0) = "") then set_name uuid (props i0) else props i0).
  assert (Hname : objectName i = if bool_decide (objectName (props i0) = "") then uuid else objectName (props i0))
    by (unfold i; by destruct (bool_decide _)).
  assert (Hhi : hide_handler i = None) by (unfold i; by destruct (bool_decide _)).
  rewrite <- Hname in Hid, Hfree. set (id := objectName i) in *. clearbody i.
  set (d1 := set_children _ _). unfold get_item. assert (Hi1 : items d1 !! p = Some i) by apply lookup_insert_eq.
  rewrite Hi1. ok_bind. fold id. set (d2 := set_windows _ _ _ _ d1).
  assert (Ht : tables_ok (m_windows d2) (m_minimizedWindows d2) (m_windowStack d2)) by (apply tables_add; [apply Hd | done ..]).
  assert (Hit : items_ok (m_windows d2) (items d2) (doomed d2)) by (apply items_add; [apply Hd | done ..]).
  rewrite (with_item_ok p (set_title ttl) d2 i Hi1). ok_bind. set (d3 := set_items _ d2).
  assert (Hi3 : items d3 !! p = Some (set_title ttl i)) by apply lookup_insert_eq.
  rewrite (setVisible_ok p true d3 _ Hi3 Hhi). ok_bind. set (d4 := count_changed _).
  destruct (setActive_ok d4 id p) as (d' & Hr & Hd' & _).
  - exact Ht.
  - apply (items_update _ _ _ _ (set_title ttl i)); [| exact Hi3 | done]. exact (items_update _ _ _ _ i (set_title ttl i) Hit Hi1 eq_refl).
  - intros _. symmetry. apply (top_snoc (m_windowStack d)).
  - apply (lookup_insert_eq (m_windows d)).
  - rewrite Hr. ok_bind. by eexists _, _.
Qed.

Lemma state_of_keeps {A} (f : cmd desktop A) d : keeps f → desktop_ok d → ∃ d', state_of (f d) = Ok d' ∧ desktop_ok d'.
Proof. intros Hf Hd. destruct (Hf d Hd) as (a & d' & Hr & Hd'). unfold state_of. rewrite Hr. by exists d'. Qed.
Lemma call_keeps c d : desktop_ok d → call_ok c d → ∃ d', call_run c d = Ok d' ∧ desktop_ok d'.
Proof.
  intros Hd Hc. destruct c; cbn [call_run];
    try (apply state_of_keeps; [| exact Hd]; auto using setActive_keeps, close_keeps, minimize_keeps, maximize_keeps, restore_keeps, filter_keeps; fail);
    try (eexists; split; [reflexivity | by auto with desktop]).
  destruct (create_keeps root ttl made props uuid d Hd Hc) as (id & d' & Hr & Hd'). unfold state_of. rewrite Hr. by exists d'.
Qed.

Lemma compositor_ok now size : desktop_ok (Compositor now size).
Proof.
  split; [split | split | reflexivity]; cbn.
  - apply NoDup_nil_2.
  - intros id. rewrite lookup_empty, is_Some_alt. set_solver.
  - set_solver.
  - set_solver.
  - intros id p H. by rewrite lookup_empty in H.
  - intros id id' p H. by rewrite lookup_empty in H.
  - set_solver.
Qed.

Lemma run_keeps cs d d' : run cs d d' → desktop_ok d → desktop_ok d'.
Proof.
  induction 1 as [| c cs d d' d'' Hc Hr _ IH]; [done |]. intros Hd. apply IH.
  destruct (call_keeps c d Hd Hc) as (x & Hx & Hok). congruence.
Qed.


(** ** Alt+Tab *)
Lemma index_of_fresh id s : id ∉ s → index_of id s = None.
Proof.
  induction s as [| x s IH]; [done |]. intros H. cbn. rewrite decide_False by set_solver. rewrite IH; set_solver.
Qed.
Lemma index_of_last id s : id ∉ s → index_of id (s ++ [id]) = Some (length s).
Proof.
  induction s as [| x s IH]; intros H; cbn; [by rewrite decide_True |].
  rewrite decide_False by set_solver. rewrite IH by set_solver. done.
Qed.

(** One press moves the bottom window to the top. *)
Lemma alt_tab_once d x s :
  desktop_ok d → m_windowStack d = x :: s → s ≠ [] →
  ∃ d', eventFilter true Key_Tab None d = Ok (true, d') ∧ desktop_ok d' ∧
    m_windowStack d' = s ++ [x] ∧ signals d' = windowActivated x :: signals d.
Proof.
  intros Hd Hs Hne. pose proof (ok_active d Hd) as Ha. pose proof (stack_nodup _ _ _ (ok_tables d Hd)) as Hnd.
  rewrite Hs in Ha, Hnd. destruct s as [| y s _] using rev_ind; [done |]. clear Hne.
  change (x :: s ++ [y]) with ((x :: s) ++ [y]) in *. rewrite top_snoc in Ha. apply NoDup_app in Hnd as (Hnd & Hy & _).
  assert (Hyx : y ∉ x :: s) by (intros H; by apply (Hy y H), list_elem_of_singleton).
  unfold eventFilter. rewrite Hs, Ha, (index_of_last y _ Hyx). cbv zeta iota. cbn [app].
  replace ((_ + 1) mod _)%nat with O
    by (cbn [length]; rewrite length_app; cbn [length]; replace (S (length s) + 1)%nat with (S (length s + 1)) by lia; by rewrite Nat.Div0.mod_same).
  cbn [lookup_total list_lookup_total].
  assert (Hw : is_Some (m_windows d !! x)) by (apply (stack_windows _ _ _ (ok_tables d Hd)); rewrite Hs; set_solver).
  destruct Hw as [p Hp]. destruct (setActive_ok d x p) as (d' & Hr & Hd' & Hst); [apply Hd | apply Hd | | done |].
  { intros <-. apply Hd. }
  rewrite Hr. ok_bind. exists d'. split; [done |]. split; [done |].
  destruct Hst as [Hst Hsig]; [rewrite Ha; set_solver |]. split; [| done].
  rewrite Hst, Hs. unfold removeAll. cbn [app]. rewrite filter_cons_False by auto.
  f_equal. apply removeAll_fresh. inversion Hnd; subst. set_solver.
Qed.

(** [n] presses. *)
Fixpoint alt_tabs (n : nat) (d : desktop) : outcome desktop :=
  match n with
  | O => Ok d
  | S n => '(b, d) ← eventFilter true Key_Tab None d; if negb b then Fault else alt_tabs n d
  end.
Lemma alt_tabs_rotate a b d :
  desktop_ok d → m_windowStack d = a ++ b → (2 ≤ length (a ++ b))%nat →
  ∃ d', alt_tabs (length a) d = Ok d' ∧ desktop_ok d' ∧ m_windowStack d' = b ++ a ∧
    signals d' = reverse (windowActivated <$> a) ++ signals d.
Proof.
  revert b d. induction a as [| x a IH]; intros b d Hd Hs Hl.
  { exists d. cbn. by rewrite app_nil_r. }
  cbn [length alt_tabs]. destruct (alt_tab_once d x (a ++ b)) as (d1 & Hr & Hd1 & Hs1 & Hg1); [done .. | |].
  { intros H. cbn in Hl. rewrite H in Hl. cbn in Hl. lia. }
  rewrite Hr. ok_bind. cbn [negb]. destruct (IH (b ++ [x]) d1 Hd1) as (d' & Hr' & Hd' & Hs' & Hg').
  - by rewrite Hs1, (assoc_L app).
  - rewrite (assoc_L app), length_app. cbn in Hl |- *. lia.
  - exists d'. split; [done |]. split; [done |]. rewrite Hs', <- (assoc_L app). split; [done |].
    rewrite Hg', Hg1, fmap_cons, reverse_cons, <- (assoc_L app). done.
Qed.

(** C38. Alt+Tab in a well-formed desktop of at least two windows: pressing it as
    many times as there are windows activates every window exactly once, from the
    bottom of the stack to the top, and ends with the order and the active window
    it began with. *)
Theorem alt_tab_visits_all d :
  desktop_ok d → (2 ≤ length (m_windowStack d))%nat →
  ∃ d', alt_tabs (length (m_windowStack d)) d = Ok d' ∧ m_windowStack d' = m_windowStack d ∧
    m_activeWindowId d' = m_activeWindowId d ∧
    signals d' = reverse (windowActivated <$> m_windowStack d) ++ signals d ∧ NoDup (m_windowStack d).
Proof.
  intros Hd Hl. destruct (alt_tabs_rotate (m_windowStack d) [] d Hd) as (d' & Hr & Hd' & Hs & Hg); [by rewrite app_nil_r .. |].
  exists d'. split; [done |]. split; [done |]. rewrite (ok_active d Hd), (ok_active d' Hd'), Hs.
  split; [done |]. split; [done |]. apply Hd.
Qed.
