(* ===== verification/DesktopManager.v ===== *)
(** * The window manager and the compositor together

    The windows that the window manager makes are in both tables, and hiding one
    closes it in the compositor. *)
From S2P Require Import Prelude.
From S2P Require Import Desktop DesktopSpec.

#[local] Open Scope string_scope.
#[local] Open Scope list_scope.
#[local] Open Scope Z_scope.

(** ** Closing *)
Lemma forget_keeps id d :
  items (forget id d) = items d ∧ doomed (forget id d) = doomed d ∧ wm_windows (forget id d) = wm_windows d ∧
  m_windows (forget id d) = delete id (m_windows d) ∧ m_windowStack (forget id d) = removeAll id (m_windowStack d).
Proof. unfold forget. by destruct (_ && _). Qed.

(** [onWindowClosed] on a window of the scene. *)
Lemma onWindowClosed_ok id p d i :
  m_windows d !! id = Some p → p ≠ NULL → items d !! p = Some i →
  ∃ d', onWindowClosed id d = Ok (tt, d') ∧ items d' = items d ∧ doomed d' = p :: doomed d ∧ wm_windows d' = wm_windows d ∧
    m_windows d' = delete id (m_windows d) ∧ m_windowStack d' = removeAll id (m_windowStack d).
Proof.
  intros Hw Hp%Z.eqb_neq Hi. destruct (forget_keeps id d) as (H1 & H2 & H3 & H4 & H5).
  unfold onWindowClosed, deleteLater, get_item. rewrite Hw, Hp, H1, Hi. ok_bind.
  eexists. split; [reflexivity |]. cbn. rewrite H2. auto.
Qed.

(** The loop over the windows faults at one whose item is gone. *)
Lemma set_zs_dangling p ws w d : w ∈ ws → w_item w ≠ NULL → items d !! w_item w = None → set_zs p ws d = Fault.
Proof.
  intros Hin Hn%Z.eqb_neq. revert d. induction ws as [| w' ws IH]; [by apply not_elem_of_nil in Hin |].
  intros d Hd. cbn [set_zs]. apply elem_of_cons in Hin as [<- | Hin].
  - unfold with_item, get_item. by rewrite Hn, Hd.
  - destruct (w_item w' =? NULL); [ok_bind; by apply IH |].
    unfold with_item, get_item. destruct (items d !! w_item w') as [i |] eqn:Hi; [| done]. ok_bind. apply IH; [done |].
    cbn [items set_items]. rewrite lookup_insert_ne; [done | congruence].
Qed.

(** [WindowManager::createWindow] puts the window in both tables. *)
Lemma wm_create_ok ttl p i id d : p ≠ NULL →
  ∃ d', WindowManager_createWindow true true ttl (Some (p, i)) id d = Ok (p, d') ∧
    items d' !! p = Some (set_handler (Some id) (set_name id (set_title ttl i))) ∧
    m_windows d' = <[id := p]> (m_windows d) ∧ m_windowStack d' = m_windowStack d ++ [id] ∧
    wm_windows d' !! id = Some (WData p false false (Rect 100 100 800 600)) ∧ doomed d' = doomed d.
Proof.
  intros Hp%Z.eqb_neq. unfold WindowManager_createWindow, onWindowCreated. cbn [negb orb]. rewrite Hp.
  unfold get_item. cbn. rewrite lookup_insert_eq. ok_bind. eexists. split; [reflexivity |]. cbn.
  rewrite !lookup_insert_eq. auto.
Qed.

(** [WindowManager::minimizeWindow] on a visible window of its own. *)
Lemma wm_minimize_closes id p i w d :
  wm_windows d !! id = Some w → w_item w = p → p ≠ NULL → m_windows d !! id = Some p →
  items d !! p = Some i → visible i = true → hide_handler i = Some id →
  ∃ d', WindowManager_minimizeWindow id d = Ok (tt, d') ∧
    m_windows d' !! id = None ∧ id ∉ m_windowStack d' ∧ p ∈ doomed d' ∧
    ∃ w', wm_windows d' !! id = Some w' ∧ w_item w' = p ∧ w_minimized w' = true.
Proof.
  intros Hwm <- Hp Hw Hi Hv Hh. unfold WindowManager_minimizeWindow. rewrite Hwm. cbv zeta.
  apply Z.eqb_neq in Hp as Hp'. rewrite Hp'. unfold setVisible, get_item. cbn [items put set_wm]. rewrite Hi. ok_bind.
  rewrite Hh, Hv. cbn [andb negb].
  set (d1 := set_items _ _).
  destruct (onWindowClosed_ok id (w_item w) d1 (set_visible false i)) as (d2 & Hr & H1 & H2 & H3 & H4 & H5).
  - exact Hw.
  - exact Hp.
  - apply (lookup_insert_eq (items d)).
  - rewrite Hr. ok_bind. eexists. split; [reflexivity |]. cbn. rewrite H2, H3, H4, H5.
    split; [apply lookup_delete_eq |]. split; [rewrite elem_of_removeAll; naive_solver |]. split; [left |].
    unfold d1, put. cbn. rewrite lookup_insert_eq. by eexists.
Qed.

(** After the event loop has run, the item is gone and the table still has it. *)
Lemma wm_dangling id p w d : wm_windows d !! id = Some w → w_item w = p → p ≠ NULL → items d !! p = None →
  WindowManager_minimizeWindow id d = Fault ∧ WindowManager_maximizeWindow id d = Fault ∧ WindowManager_closeWindow id d = Fault ∧
  ∀ id' w', wm_windows d !! id' = Some w' → w_item w' ≠ NULL → focusWindow id' d = Fault.
Proof.
  intros Hwm <- Hp Hi. apply Z.eqb_neq in Hp as Hp'. split; [| split; [| split]].
  - unfold WindowManager_minimizeWindow, setVisible, get_item. rewrite Hwm, Hp'. cbn. by rewrite Hi.
  - unfold WindowManager_maximizeWindow, get_item. by rewrite Hwm, Hp', Hi.
  - unfold WindowManager_closeWindow, deleteLater, get_item. by rewrite Hwm, Hp', Hi.
  - intros id' w' Hw' Hn'%Z.eqb_neq. unfold focusWindow, get_item. rewrite Hw', Hn'.
    destruct (items d !! w_item w') eqn:Hi'; [| done]. ok_bind. rewrite (set_zs_dangling _ _ w); [done | | done | done].
    apply list_elem_of_fmap. exists (id, w). split; [done |]. by apply elem_of_map_to_list.
Qed.

(** C37. Minimising a window through the window manager destroys it: the handler
    that closes a window when it becomes invisible runs, the compositor forgets
    the window and gives its item to the event loop, and the window manager keeps
    the pointer, as minimised.  From then on minimising, maximising or closing the
    window, and focusing any window at all, reaches the destroyed item. *)
Theorem wm_minimize_destroys ttl p i id d :
  p ≠ NULL → visible i = true →
  ∃ d1 d2, WindowManager_createWindow true true ttl (Some (p, i)) id d = Ok (p, d1) ∧ m_windows d1 !! id = Some p ∧
    WindowManager_minimizeWindow id d1 = Ok (tt, d2) ∧ m_windows d2 !! id = None ∧ id ∉ m_windowStack d2 ∧
    let d3 := process_deletes d2 in
    items d3 !! p = None ∧
    WindowManager_minimizeWindow id d3 = Fault ∧ WindowManager_maximizeWindow id d3 = Fault ∧
    WindowManager_closeWindow id d3 = Fault ∧
    ∀ id' w, wm_windows d3 !! id' = Some w → w_item w ≠ NULL → focusWindow id' d3 = Fault.
Proof.
  intros Hp Hv. destruct (wm_create_ok ttl p i id d Hp) as (d1 & Hr1 & Hi1 & Hw1 & _ & Hwm1 & _).
  assert (Hw : m_windows d1 !! id = Some p) by (rewrite Hw1; apply lookup_insert_eq).
  destruct (wm_minimize_closes id p _ _ d1 Hwm1 eq_refl Hp Hw Hi1 Hv eq_refl) as (d2 & Hr2 & H1 & H2 & H3 & w' & Hwm2 & Hit & _).
  exists d1, d2. repeat (split; [assumption |]). cbv zeta.
  assert (Hgone : items (process_deletes d2) !! p = None) by (apply map_lookup_filter_None_2; right; intros x _ H; by apply H).
  split; [done |]. exact (wm_dangling id p w' (process_deletes d2) Hwm2 Hit Hp Hgone).
Qed.

(** ** Maximising twice *)
Lemma wm_maximize_step id w i d : wm_windows d !! id = Some w → w_item w ≠ NULL → items d !! w_item w = Some i →
  WindowManager_maximizeWindow id d =
    Ok (tt, emit (wm_windowMaximized id (negb (w_maximized w)))
      (put id (WData (w_item w) (w_minimized w) (negb (w_maximized w)) (if w_maximized w then normalGeometry w else geometry i))
        (set_items (<[w_item w := set_geometry (if w_maximized w then normalGeometry w else Rect 0 0 (root_size d).1 (root_size d).2) i]> (items d)) d))).
Proof.
  intros Hwm Hp%Z.eqb_neq Hi. unfold WindowManager_maximizeWindow. rewrite Hwm, Hp. unfold get_item. rewrite Hi. ok_bind.
  destruct (w_maximized w); by rewrite (with_item_ok _ _ _ _ Hi).
Qed.
(** The window manager's maximise is a toggle that gives the window its
    geometry back: maximising fills the parent, and maximising again restores the
    geometry the window had. *)
Theorem wm_maximize_roundtrip id p i w d :
  wm_windows d !! id = Some w → w_item w = p → w_maximized w = false → p ≠ NULL → items d !! p = Some i →
  ∃ d1 d2 i1 i2, WindowManager_maximizeWindow id d = Ok (tt, d1) ∧ items d1 !! p = Some i1 ∧
    geometry i1 = Rect 0 0 (root_size d).1 (root_size d).2 ∧
    WindowManager_maximizeWindow id d1 = Ok (tt, d2) ∧ items d2 !! p = Some i2 ∧ geometry i2 = geometry i ∧
    ∃ w2, wm_windows d2 !! id = Some w2 ∧ w_maximized w2 = false.
Proof.
  intros Hwm <- Hmax Hp Hi. pose proof (wm_maximize_step id w i d Hwm Hp Hi) as H1. rewrite Hmax in H1. cbn [negb] in H1.
  set (d1 := emit _ _) in H1. set (w1 := WData _ _ _ _) in d1. set (i1 := set_geometry _ i) in d1.
  assert (Hi1 : items d1 !! w_item w1 = Some i1) by apply (lookup_insert_eq (items d)).
  assert (Hw1 : wm_windows d1 !! id = Some w1) by apply (lookup_insert_eq (wm_windows d)).
  eexists d1, _, i1, _. split; [exact H1 |]. split; [exact Hi1 |]. split; [reflexivity |].
  split; [exact (wm_maximize_step id w1 i1 d1 Hw1 Hp Hi1) |]. split; [apply (lookup_insert_eq (items d1)) |]. split; [reflexivity |].
  eexists. split; [apply (lookup_insert_eq (wm_windows d1)) | reflexivity].
Qed.

(** ** Closing the active window *)
(** Closing the active window passes activity to the next window of the stack
    in name only: its item keeps the properties it had when it lost activity, and
    activating it through [setActiveWindow] changes nothing. *)
Theorem close_active_inert d s y x p i :
  desktop_ok d → m_windowStack d = s ++ [y; x] → m_windows d !! y = Some p → items d !! p = Some i →
  ∃ d', closeWindow x None d = Ok (true, d') ∧ desktop_ok d' ∧ m_activeWindowId d' = y ∧ m_windowStack d' = s ++ [y] ∧
    items d' !! p = Some i ∧ setActiveWindow y d' = Ok (tt, d').
Proof.
  intros Hd Hs Hy Hi. pose proof (stack_nodup _ _ _ (ok_tables d Hd)) as Hnd. rewrite Hs in Hnd.
  change [y; x] with ([y] ++ [x]) in Hs, Hnd. rewrite (assoc_L app) in Hs, Hnd. apply NoDup_app in Hnd as (_ & Hx & _).
  assert (Hxs : x ∉ s ++ [y]) by (intros H; by apply (Hx x H), list_elem_of_singleton).
  assert (Hwx : is_Some (m_windows d !! x)) by (apply (stack_windows _ _ _ (ok_tables d Hd)); rewrite Hs; set_solver).
  destruct Hwx as [q Hq]. destruct (window_lookup d x q Hd Hq) as (Hn & j & Hj & _).
  destruct (forget_keeps x d) as (H1 & H2 & H3 & H4 & H5). destruct (close_keeps x None d Hd) as (b & d' & Hr & Hd').
  assert (Hst : m_windowStack (forget x d) = s ++ [y]).
  { rewrite H5, Hs. unfold removeAll. rewrite filter_app, filter_cons_False by auto. cbn. rewrite app_nil_r. by apply removeAll_fresh. }
  pose proof Hr as Hr'. unfold closeWindow, deleteLater, get_item in Hr'. rewrite Hq, Hn, Hj in Hr'. revert Hr'. ok_bind.
  rewrite bool_decide_eq_false_2 by done. rewrite H1, Hj. ok_bind. intros [= <- <-].
  assert (Hact : m_activeWindowId (forget x d) = y) by (rewrite <- (top_snoc s y), <- Hst; apply Hd').
  eexists. split; [exact Hr |]. split; [exact Hd' |]. cbn [m_activeWindowId m_windowStack items count_changed emit set_doomed].
  rewrite Hst, H1. split; [exact Hact |]. split; [done |]. split; [done |].
  unfold setActiveWindow. cbn [m_activeWindowId m_windows count_changed emit set_doomed]. rewrite H4, Hact.
  rewrite lookup_delete_ne by (intros ->; set_solver). rewrite Hy. by rewrite decide_True.
Qed.

(** The theme "default" is never loaded: it is the current theme from the
    constructor on, so that [initialize] returns from [setTheme] at once. *)
Theorem default_theme_not_loaded now size loads : initialize loads (Compositor now size) = Compositor now size.
Proof. reflexivity. Qed.
