(* ===== verification/DesktopWitness.v ===== *)
(** * The desktop's theorems at work

    Two windows of the compositor are made, minimised, restored, switched and
    closed; a window of the window manager is minimised. *)
From S2P Require Import Prelude.
From S2P Require Import Desktop DesktopSpec DesktopManager.

#[local] Open Scope string_scope.
#[local] Open Scope list_scope.
#[local] Open Scope Z_scope.

Definition plain (name : string) : item := Item name "" true false 0 false (Rect 10 20 300 200) None.
Definition made (p : Z) (name : string) : call := CCreate true "a window" (Some (p, plain name)) id "{4f2a}".
(** The second window has no name and gets the generated one. *)
Definition session : list call :=
  [made 1 "editor"; made 2 ""; made 3 "files"; CMinimize "editor"; CKey true Key_Tab None; CRestore "{4f2a}";
   CClose "files" None; CEventLoop; CClose "nosuch" None].
#[local] Notation start := (initialize true (Compositor 0 (800, 600))).

Ltac run_session :=
  repeat (eapply run_cons; [first [exact I | repeat split; discriminate] | vm_compute; reflexivity |]); apply run_nil.


(** Three windows, three presses. *)
Lemma three_windows : ∃ d, run [made 1 "editor"; made 2 ""; made 3 "files"] start d ∧ desktop_ok d ∧
  m_windowStack d = ["editor"; "{4f2a}"; "files"] ∧ m_windows d !! "{4f2a}" = Some 2 ∧
  items d !! 2 = Some (Item "{4f2a}" "a window" true false 0 false (Rect 10 20 300 200) None).
Proof.
  assert (H : ∃ d, run [made 1 "editor"; made 2 ""; made 3 "files"] start d ∧
    m_windowStack d = ["editor"; "{4f2a}"; "files"] ∧ m_windows d !! "{4f2a}" = Some 2 ∧
    items d !! 2 = Some (Item "{4f2a}" "a window" true false 0 false (Rect 10 20 300 200) None)).
  { eexists. split; [run_session | by vm_compute]. }
  destruct H as (d & Hr & H). exists d. split; [exact Hr |]. split; [| exact H].
  apply (run_keeps _ _ _ Hr), ok_theme, ok_vsync, compositor_ok.
Qed.

Lemma alt_tab_visits_all_witness :
  ∃ d d', m_windowStack d = ["editor"; "{4f2a}"; "files"] ∧ alt_tabs 3 d = Ok d' ∧ m_windowStack d' = ["editor"; "{4f2a}"; "files"] ∧
    signals d' = windowActivated "files" :: windowActivated "{4f2a}" :: windowActivated "editor" :: signals d.
Proof.
  destruct three_windows as (d & _ & Hd & Hs & _). destruct (alt_tab_visits_all d Hd) as (d' & Hr & Hs' & _ & Hg & _).
  { rewrite Hs. cbn. lia. }
  rewrite Hs in Hr, Hs', Hg. by exists d, d'.
Defined.

Lemma close_active_inert_witness :
  ∃ d d', m_activeWindowId d = "files" ∧ closeWindow "files" None d = Ok (true, d') ∧ m_activeWindowId d' = "{4f2a}" ∧
    (active <$> items d' !! 2) = Some false ∧ setActiveWindow "{4f2a}" d' = Ok (tt, d').
Proof.
  destruct three_windows as (d & _ & Hd & Hs & Hw & Hi).
  destruct (close_active_inert d ["editor"] "{4f2a}" "files" 2 _ Hd Hs Hw Hi) as (d' & Hr & _ & Ha & _ & Hi' & Hset).
  exists d, d'. split; [rewrite (ok_active d Hd), Hs; reflexivity |]. rewrite Hi'. by split.
Defined.

Lemma wm_minimize_destroys_witness :
  ∃ d1 d2, WindowManager_createWindow true true "a window" (Some (7, plain "")) "k3F9" start = Ok (7, d1) ∧
    WindowManager_minimizeWindow "k3F9" d1 = Ok (tt, d2) ∧ focusWindow "k3F9" (process_deletes d2) = Fault.
Proof.
  destruct (wm_minimize_destroys "a window" 7 (plain "") "k3F9" start) as (d1 & d2 & Hr1 & _ & Hr2 & _ & _ & _ & _ & _ & _ & Hf).
  - discriminate.
  - reflexivity.
  - exists d1, d2. split; [exact Hr1 |]. split; [exact Hr2 |].
    vm_compute in Hr1. injection Hr1 as <-. vm_compute in Hr2. injection Hr2 as <-. eapply Hf; [vm_compute; reflexivity | discriminate].
Defined.
