(* ===== verification/Reports.v ===== *)
(** * Reports on the screen

    The functions of the kernel that print the state of a component print strings
    and decimal numbers in turn: a report is a list of such pieces.  Printing one
    returns and leaves its text on the screen.  Here are the reports of the memory
    manager (src/kernel/mm.c, [print_memory_stats]) and of the slab allocator
    (src/kernel/slab.c, [kmem_cache_info], [slab_debug_info], [kmem_cache_init]). *)
From S2P Require Import Prelude Screen ScreenSpec Heap Frames HeapSpec Printk Slab SlabCache.

#[local] Open Scope string_scope.
#[local] Open Scope list_scope.
#[local] Open Scope Z_scope.

(** ** Pieces *)
Inductive piece := Str (x : string) | Line (x : string) | Txt (x : bytes) | Dec (n : Z).

(** [screen_print] of a string, of a string with a newline after it, of an array,
    and [screen_print_dec]. *)
Definition print_piece (p : piece) : cmd screen unit := λ s,
  match p with
  | Str x => Ok (tt, screen_print (bytes_of x) s)
  | Line x => Ok (tt, screen_print (bytes_of x ++ [10]) s)
  | Txt x => Ok (tt, screen_print x s)
  | Dec n => screen_print_dec n s
  end.
Fixpoint print_pieces (ps : list piece) : cmd screen unit := λ s,
  match ps with
  | [] => Ok (tt, s)
  | p :: ps => '(_, s) ← print_piece p s; print_pieces ps s
  end.

(** The text of a report. *)
Definition piece_text (p : piece) : bytes :=
  match p with
  | Str x => bytes_of x
  | Line x => bytes_of x ++ [10]
  | Txt x => x
  | Dec n => match dec_string n with Ok b => b | _ => [] end
  end.
Definition text (ps : list piece) : bytes := mjoin (piece_text <$> ps).
Definition piece_ok (p : piece) : Prop := match p with Dec n => is_u32 n | _ => True end.

Lemma screen_print_app a b s : screen_print (a ++ b) s = screen_print b (screen_print a s).
Proof. revert s. induction a as [| c a IH]; intros s; [done |]. cbn. apply IH. Qed.
Lemma print_piece_ok p s : piece_ok p → print_piece p s = Ok (tt, screen_print (piece_text p) s).
Proof.
  destruct p as [x | x | x | n]; intros Hp; try reflexivity. cbn. unfold screen_print_dec.
  destruct (dec_string_ok n Hp) as (str & -> & _). reflexivity.
Qed.
Lemma print_pieces_ok ps : ∀ s, Forall piece_ok ps → print_pieces ps s = Ok (tt, screen_print (text ps) s).
Proof.
  induction ps as [| p ps IH]; intros s Hps; [done |]. inversion Hps as [| ? ? Hp Hr]; subst. cbn [print_pieces].
  rewrite (print_piece_ok p s Hp). ok_bind. rewrite (IH _ Hr). unfold text. rewrite fmap_cons. cbn [mjoin list_join]. by rewrite screen_print_app.
Qed.
Lemma text_app a b : text (a ++ b) = text a ++ text b.
Proof. unfold text. rewrite fmap_app. apply join_app. Qed.

(** A list of reports, one after the other. *)
Lemma print_pieces_app a b s : print_pieces (a ++ b) s = ('(_, s) ← print_pieces a s; print_pieces b s).
Proof.
  revert s. induction a as [| p a IH]; intros s; [done |]. cbn. destruct (print_piece p s) as [[[] s'] | | |]; cbn; [apply IH | done ..].
Qed.

(** A report with the given numbers prints. *)
Ltac numbers_ok :=
  let H := fresh in intros H; repeat (apply Forall_cons in H as [? H]); repeat (apply Forall_cons; split); try exact I; try assumption; by apply Forall_nil.

(** ** Memory *)
Definition memory_report (m : mm_state) : list piece :=
  let st := stats (heap m) in
  [Str "
"; Line "=== Memory Statistics ==="; Str "Total allocations: "; Dec (total_allocations st);
   Str "
Total frees: "; Dec (total_frees st); Str "
Current usage: "; Dec (current_usage st); Str " bytes
Peak usage: "; Dec (peak_usage st); Str " bytes
Fragmentation events: "; Dec (fragmentation_count st); Str "
Frames used: "; Dec (used_frames m); Str "/"; Dec (total_frames m); Str "
"].
Definition print_memory_stats (m : mm_state) : cmd screen unit := print_pieces (memory_report m).

(** ** Caches *)
Definition cache_report (c : kmem_cache) : list piece :=
  let st := c_stats c in
  [Str "Cache: "; Txt (c_name c); Str "
  Object size: "; Dec (object_size c); Str "
  Objects per slab: "; Dec (num c); Str "
  Active objects: "; Dec (cs_active st); Str "
  Max active: "; Dec (cs_max_active st); Str "
  Total allocated: "; Dec (cs_allocated st); Str "
  Total freed: "; Dec (cs_freed st); Str "
  Errors: "; Dec (cs_errors st); Str "
"].
Definition kmem_cache_info (cp : Z) (sl : slab_state) : cmd screen unit := λ s,
  if cp =? NULL then Ok (tt, s) else
  match caches sl !! cp with
  | None => Fault
  | Some c => print_pieces (cache_report c) s
  end.
Fixpoint info_all (l : list Z) (sl : slab_state) : cmd screen unit := λ s,
  match l with
  | [] => Ok (tt, s)
  | cp :: l => '(_, s) ← kmem_cache_info cp sl s; info_all l sl s
  end.
Definition slab_debug_info (sl : slab_state) : cmd screen unit := λ s,
  info_all (cache_chain sl) sl (screen_print (bytes_of "
=== SLAB Allocator Debug Info ===
") s).

(** [kmem_cache_init]: the sizes of the structures are not in the sources. *)
Fixpoint create_caches (l : list (string * Z)) : cmd slab_state (list Z) := λ s,
  match l with
  | [] => Ok ([], s)
  | (name, n) :: l =>
    '(cp, s) ← kmem_cache_create (bytes_of name) n 0 SLAB_HWCACHE_ALIGN None None s;
    '(cps, s) ← create_caches l s;
    Ok (cp :: cps, s)
  end.
Definition kmem_cache_init (vm_area files mm inode dentry pid : Z) : cmd slab_state (list Z) := λ s,
  '(_, s) ← slab_init s;
  create_caches [("vm_area_struct", vm_area); ("files_struct", files); ("mm_struct", mm); ("inode", inode);
    ("dentry", dentry); ("names_cache", 256); ("pid", pid)] s.

(** ** What the reports show *)
Definition cache_counts_ok (c : kmem_cache) : Prop :=
  Forall is_u32 [object_size c; num c; cs_active (c_stats c); cs_max_active (c_stats c); cs_allocated (c_stats c);
    cs_freed (c_stats c); cs_errors (c_stats c)].

Lemma cache_report_ok c : cache_counts_ok c → Forall piece_ok (cache_report c).
Proof. unfold cache_counts_ok, cache_report. numbers_ok. Qed.

Lemma info_all_ok sl cs : ∀ l s,
  Forall2 (λ cp c, cp ≠ NULL ∧ caches sl !! cp = Some c ∧ cache_counts_ok c) l cs →
  info_all l sl s = Ok (tt, screen_print (mjoin ((text ∘ cache_report) <$> cs)) s).
Proof.
  intros l s Hl. revert s. induction Hl as [| cp c l cs (Hn%Z.eqb_neq & Hc & Hok) _ IH]; intros s; [done |].
  cbn [info_all]. unfold kmem_cache_info. rewrite Hn, Hc, (print_pieces_ok _ _ (cache_report_ok c Hok)). ok_bind.
  rewrite IH, fmap_cons. cbn [mjoin list_join]. by rewrite screen_print_app.
Qed.

(** The report of the slab allocator lists every cache of the chain once, in the
    order of the chain. *)
Theorem slab_debug_info_ok sl cs s :
  Forall2 (λ cp c, cp ≠ NULL ∧ caches sl !! cp = Some c ∧ cache_counts_ok c) (cache_chain sl) cs →
  slab_debug_info sl s = Ok (tt, screen_print (bytes_of "
=== SLAB Allocator Debug Info ===
" ++ (mjoin ((text ∘ cache_report) <$> cs))) s).
Proof. intros Hl. unfold slab_debug_info. by rewrite (info_all_ok _ _ _ _ Hl), screen_print_app. Qed.

Lemma memory_report_ok m :
  Forall is_u32 [total_allocations (stats (heap m)); total_frees (stats (heap m)); current_usage (stats (heap m));
    peak_usage (stats (heap m)); fragmentation_count (stats (heap m)); used_frames m; total_frames m] →
  Forall piece_ok (memory_report m).
Proof. unfold memory_report. numbers_ok. Qed.

(** [kmem_cache_init] panics on every well-formed heap before it creates a cache. *)
Theorem kmem_cache_init_panics vm_area files mm inode dentry pid s bs :
  heap_ok (sheap s) bs → kmem_cache_init vm_area files mm inode dentry pid s = Panic "Failed to create kmalloc cache".
Proof. intros Hok. unfold kmem_cache_init. by rewrite (slab_init_panics s bs Hok). Qed.
