(* ===== verification/SchedulerReport.v ===== *)
(** * The reports of the priority scheduler (src/kernel/scheduler.c)

    [nr_running], [nr_uninterruptible], [print_scheduler_stats] and
    [dump_runqueue].  The dump lists the queues that the links represent. *)
From stdpp Require Import functions.
From S2P Require Import Prelude Screen ScreenSpec Reports Heap Process Lists Scheduler SchedulerSpec.

#[local] Open Scope string_scope.
#[local] Open Scope list_scope.
#[local] Open Scope Z_scope.

Definition nr_running_fn (s : sched) : Z := nr_running s.
Definition nr_uninterruptible_fn (s : sched) : Z := nr_uninterruptible s.

Definition scheduler_report (s : sched) : list piece :=
  let st := sched_stats s in
  [Str "
"; Line "=== Scheduler Statistics ==="; Str "Total switches: "; Dec (context_switches st);
   Str "
Schedule calls: "; Dec (schedule_count st); Str "
Running processes: "; Dec (nr_running s); Str "
CPU load: "; Dec (cpu_load s / 1000); Str "."; Dec (cpu_load s mod 1000 / 100); Str "
Active time: "; Dec (active_time st); Str "
Idle time: "; Dec (idle_time st); Str "
"].
Definition print_scheduler_stats (s : sched) : cmd screen unit := print_pieces (scheduler_report s).

(** ** The dump *)
Section Dump.
(** The names of the processes, which other code sets. *)
Variable name : nat → bytes.

(** The walk over one queue: the tasks from node [a] to the head [h]. *)
Fixpoint walk (fuel : nat) (L : links node) (h a : node) : outcome (list nat) :=
  match fuel with
  | O => Diverge
  | S fuel =>
    if decide (a = h) then Ok [] else
    match a with
    | RunList i => l ← walk fuel L h (next L a); Ok (i :: l)
    | _ => Fault
    end
  end.

Definition queue_report (p : nat) (l : list nat) (s : sched) : list piece :=
  Str "Priority " :: Dec (Z.of_nat p) :: Str ": " ::
  mjoin ((λ i, [Str "PID "; Dec (tpid (tasks s !!! i)); Str " "]) <$> l) ++ [Str "
"].
(** [n] priorities from [p] on. *)
Fixpoint dump_queues (n p : nat) (s : sched) : cmd screen unit := λ o,
  match n with
  | O => Ok (tt, o)
  | S n =>
    '(_, o) ← (if bool_decide (next (chains s) (ActiveHead p) = ActiveHead p) then Ok (tt, o)
               else l ← walk (S (length (tasks s))) (chains s) (ActiveHead p) (next (chains s) (ActiveHead p));
                    print_pieces (queue_report p l s) o);
    dump_queues n (S p) s o
  end.
(** A dump without a current task goes through a null pointer. *)
Definition dump_runqueue (s : sched) : cmd screen unit := λ o,
  match curr s with
  | None => Fault
  | Some c =>
    '(_, o) ← print_pieces [Str "
"; Line "=== Runqueue Dump ==="; Str "Current: PID "; Dec (tpid (tasks s !!! c)); Str " ("; Txt (name c);
      Line ")"; Str "Running: "; Dec (nr_running s); Str "
"] o;
    dump_queues (Z.to_nat MAX_PRIO) 0 s o
  end.

(** ** What the dump shows *)
Lemma walk_segment L h : ∀ l a fuel, segment L a (RunList <$> l) h → NoDup (h :: (RunList <$> l)) → (length l < fuel)%nat →
  walk fuel L h (next L a) = Ok l.
Proof.
  induction l as [| i l IH]; intros a fuel Hs Hnd Hf; (destruct fuel as [| fuel]; [lia |]); cbn in Hs.
  - destruct Hs as [-> _]. cbn. by rewrite decide_True.
  - destruct Hs as (Ha & _ & Hs). cbn [fmap list_fmap] in Hnd. apply NoDup_cons in Hnd as [Hn Hnd].
    apply not_elem_of_cons in Hn as [Hne Hn]. apply NoDup_cons in Hnd as [_ Hnd].
    cbn [walk]. rewrite Ha, decide_False by congruence. rewrite (IH (RunList i)); [done | done | | cbn in Hf; lia].
    by apply NoDup_cons.
Qed.

(** The text of the queues [n] from [p] on, those without tasks left out. *)
Fixpoint queues_text (n p : nat) (Q : node → list nat) (s : sched) : bytes :=
  match n with
  | O => []
  | S n => (if bool_decide (Q (ActiveHead p) = []) then [] else text (queue_report p (Q (ActiveHead p)) s)) ++ queues_text n (S p) Q s
  end.

Definition pids_ok (s : sched) : Prop := ∀ i, is_u32 (tpid (tasks s !!! i)).
Lemma queue_report_ok p l s : (p < 140)%nat → pids_ok s → Forall piece_ok (queue_report p l s).
Proof.
  intros Hp Hpid. unfold queue_report. repeat (apply Forall_cons; split); try exact I; [cbn; unfold is_u32; lia |].
  apply Forall_app. split; [| by repeat constructor]. induction l as [| i l IH]; [by apply Forall_nil |].
  cbn. repeat (apply Forall_cons; split); try exact I; [apply Hpid | exact IH].
Qed.

Lemma queue_bound L Q n h : queues_ok L Q n → (∀ h i, is_head h → i ∈ Q h → (i < n)%nat) → is_head h → (length (Q h) <= n)%nat.
Proof.
  intros Hq Hb Hh. assert (Hnd : NoDup (Q h)).
  { apply (NoDup_fmap_1 RunList). destruct (qs_linked _ _ _ Hq h Hh) as [HN _]. by apply NoDup_cons in HN as [_ HN]. }
  rewrite <- (length_seq n 0). apply submseteq_length, NoDup_submseteq; [done |]. intros i Hi. apply elem_of_seq. specialize (Hb h i Hh Hi). lia.
Qed.

Lemma dump_queues_ok s Q : rq_rep s Q → pids_ok s → ∀ n p o, (p + n <= 140)%nat →
  dump_queues n p s o = Ok (tt, screen_print (queues_text n p Q s) o).
Proof.
  intros Hrep Hpid. induction n as [| n IH]; intros p o Hn; [done |].
  assert (Hh : is_head (ActiveHead p)) by (cbn; lia).
  pose proof (qs_linked _ _ _ (rep_queues _ _ Hrep) _ Hh) as Hl. pose proof (linked_next _ _ _ Hl) as Hnext.
  cbn [dump_queues queues_text]. destruct (Q (ActiveHead p)) as [| i l] eqn:HQ.
  - rewrite Hnext. cbn [fmap list_fmap head default]. rewrite !bool_decide_eq_true_2 by done. ok_bind. apply IH. lia.
  - rewrite bool_decide_eq_false_2 by (rewrite Hnext; done). rewrite (bool_decide_eq_false_2 (i :: l = [])) by done.
    destruct Hl as [Hnd Hs]. rewrite (walk_segment _ _ (i :: l)); [| done | done |].
    + ok_bind. rewrite (print_pieces_ok _ _ (queue_report_ok p (i :: l) s ltac:(lia) Hpid)). ok_bind.
      rewrite IH by lia. by rewrite screen_print_app.
    + apply Nat.lt_succ_r. rewrite <- HQ. apply (queue_bound (chains s) Q); [apply Hrep | | done].
      intros h j Hhd Hj. by apply (rep_task _ _ Hrep h j).
Qed.

(** [dump_runqueue] of a run queue that represents the queues [Q] ends, and prints
    the current task and then every queue that is not empty, in the order of the
    priorities, with its tasks in the order of the queue. *)
Theorem dump_runqueue_ok s Q c o : rq_rep s Q → pids_ok s → is_u32 (nr_running s) → curr s = Some c →
  dump_runqueue s o = Ok (tt, screen_print (text [Str "
"; Line "=== Runqueue Dump ==="; Str "Current: PID "; Dec (tpid (tasks s !!! c)); Str " ("; Txt (name c);
      Line ")"; Str "Running: "; Dec (nr_running s); Str "
"] ++ queues_text 140 0 Q s) o).
Proof.
  intros Hrep Hpid Hnr Hc. unfold dump_runqueue. rewrite Hc, print_pieces_ok.
  - ok_bind. change (Z.to_nat MAX_PRIO) with 140%nat. rewrite (dump_queues_ok s Q Hrep Hpid) by lia. by rewrite screen_print_app.
  - repeat (apply Forall_cons; split); try exact I; [apply Hpid | exact Hnr | by apply Forall_nil].
Qed.
End Dump.
