(* ===== verification/PrintkTools.v ===== *)
(** * Around printk: dumps and rate limits (src/kernel/printk.c, src/include/printk.h)

    [print_hex_dump], [dump_stack], [early_console_write_internal] and the macros
    for limited printing.  A dump is the list of its calls to printk, which are
    then made one after the other.  The formatter has no field widths, so that a
    hex dump shows none of the bytes. *)
From S2P Require Import Prelude Screen Printk.

#[local] Open Scope string_scope.
#[local] Open Scope list_scope.
#[local] Open Scope Z_scope.

(** ** Calls to printk *)
Definition pcall : Type := bytes * list arg.
Definition pc (fmt : string) (args : list arg) : pcall := (bytes_of fmt, args).
(** The call of a format that ends with a newline. *)
Definition pln (fmt : string) (args : list arg) : pcall := (bytes_of fmt ++ [NEWLINE], args).

Section consoles.
Context (con_write : nat → bool).

(** The calls, the [k]-th one of them at the time [now k]. *)
Fixpoint printk_all (now : nat → Z) (k : nat) (calls : list pcall) : cmd printk_state unit := λ s,
  match calls with
  | [] => Ok (tt, s)
  | (fmt, args) :: calls => '(_, s) ← printk con_write (now k) fmt args s; printk_all now (S k) calls s
  end.
End consoles.

Definition early_console_write_internal (str : bytes) (s : printk_state) : printk_state :=
  if negb (early_console_active s) then s else add_out None str s.

(** [panic_printk] and [emergency_printk]; the level is meant to be put in front of
    the format (the code writes a string literal before a variable). *)
Definition LOGLEVEL_ALERT : Z := 1.
Definition panic_printk (con_write : nat → bool) (now : Z) (fmt : bytes) (args : list arg) : cmd printk_state Z := λ s,
  vprintk con_write now (level_str LOGLEVEL_EMERG ++ fmt) args
    (set_levels LOGLEVEL_EMERG (default_message_loglevel s) (minimum_console_loglevel s) s).
Definition emergency_printk (con_write : nat → bool) (now : Z) (fmt : bytes) (args : list arg) : cmd printk_state Z := λ s,
  vprintk con_write now (level_str LOGLEVEL_ALERT ++ fmt) args
    (set_levels LOGLEVEL_ALERT (default_message_loglevel s) (minimum_console_loglevel s) s).

(** ** Hex dumps *)

(** The bytes of a row from column [j] on. *)
Fixpoint hex_cells (groupsize j : Z) (row : bytes) : outcome (list pcall) :=
  match row with
  | [] => Ok []
  | b :: row =>
    gap ← (if j =? 0 then Ok [] else if groupsize =? 0 then Fault
           else Ok (if j mod groupsize =? 0 then [pc " " []] else []));
    rest ← hex_cells groupsize (j + 1) row;
    Ok (gap ++ pc "%02x " [AInt b] :: rest)
  end.
Definition ascii_cell (b : Z) : pcall :=
  let c := schar b in pc "%c" [AInt (if (32 <=? c) && (c <=? 126) then c else 46)].
(** The loop that fills the row: from [i + (len - i % rowsize)] to [i + rowsize]. *)
Definition padding (rowsize len i : Z) : nat :=
  Z.to_nat (u32 (i + rowsize) - u32 (i + u32 (len - i mod rowsize))).

(** The row at offset [i]; [rowsize] and [groupsize] are converted to [size_t]. *)
Definition hex_row (prefix : option bytes) (rowsize groupsize addr : Z) (buf : bytes) (ascii : bool) (i : Z) : outcome (list pcall) :=
  let row := take (Z.to_nat rowsize) (drop (Z.to_nat i) buf) in
  cells ← hex_cells groupsize 0 row;
  if rowsize =? 0 then Fault else
  Ok (match prefix with Some x => [pc "%s" [AStr x]] | None => [] end
      ++ pc "%04lx: " [AInt (u32 (addr + i))] :: cells
      ++ replicate (padding rowsize (Z.of_nat (length buf)) i) (pc "   " [])
      ++ (if ascii then pc " |" [] :: (ascii_cell <$> row) ++ [pc "|" []] else [])
      ++ [pln "" []]).
(** [fuel] rows from offset [i] on. *)
Fixpoint hex_rows (fuel : nat) (prefix : option bytes) (rowsize groupsize addr : Z) (buf : bytes) (ascii : bool) (i : Z) : outcome (list pcall) :=
  if negb (i <? Z.of_nat (length buf)) then Ok [] else
  match fuel with
  | O => Diverge
  | S fuel =>
    row ← hex_row prefix rowsize groupsize addr buf ascii i;
    rest ← hex_rows fuel prefix rowsize groupsize addr buf ascii (u32 (i + rowsize));
    Ok (row ++ rest)
  end.
(** As many rows as bytes are enough when the offset does not wrap around. *)
Definition hex_dump_calls (prefix : option bytes) (rowsize groupsize addr : Z) (buf : bytes) (ascii : bool) : outcome (list pcall) :=
  hex_rows (length buf) prefix (u32 rowsize) (u32 groupsize) addr buf ascii 0.
Definition print_hex_dump (con_write : nat → bool) (now : nat → Z) (prefix : option bytes) (rowsize groupsize addr : Z) (buf : bytes) (ascii : bool)
  : cmd printk_state unit := λ s,
  calls ← hex_dump_calls prefix rowsize groupsize addr buf ascii; printk_all con_write now 0 calls s.
Definition print_hex_dump_bytes (con_write : nat → bool) (now : nat → Z) (prefix : option bytes) (addr : Z) (buf : bytes) : cmd printk_state unit :=
  print_hex_dump con_write now prefix 16 1 addr buf true.

(** ** The stack *)
Fixpoint stack_calls (n i : nat) (stack_ptr : nat → Z) : list pcall :=
  match n with
  | O => [pln "  ..." []]
  | S n =>
    let addr := stack_ptr i in
    if (addr =? 0) || (addr =? 0xFFFFFFFF) then []
    else pln "  [<%08lx>] %p" [AInt addr; AInt addr] :: stack_calls n (S i) stack_ptr
  end.
Definition dump_stack (con_write : nat → bool) (now : nat → Z) (stack_ptr : nat → Z) : cmd printk_state unit :=
  printk_all con_write now 0 (pln "Call trace:" [] :: stack_calls 16 0 stack_ptr).

(** ** Rate limits *)
Record ratelimit_state := Ratelimit { interval : Z; burst : Z; printed : Z; rl_missed : Z; last_jiffies : Z }.
Definition PRINTK_HZ : Z := 100.
Definition DEFAULT_RATELIMIT_INTERVAL : Z := 5 * PRINTK_HZ.
Definition DEFAULT_RATELIMIT_BURST : Z := 10.
Definition DEFINE_RATELIMIT_STATE (i b : Z) : ratelimit_state := Ratelimit i b 0 0 0.
Definition jiffies (timestamp : Z) : Z := timestamp / (1000 / PRINTK_HZ).

(** [time_after(a, b)]: a difference of [long], which may overflow. *)
Definition time_after (a b : Z) : outcome bool :=
  let d := s32 b - s32 a in
  if (d <? -2147483648) || (2147483647 <? d) then Fault else Ok (d <? 0).
Definition __ratelimit (now : Z) : cmd ratelimit_state bool := λ s,
  after ← time_after now (u32 (last_jiffies s + interval s));
  if negb after then Ok (false, s) else
  if printed s <? burst s then Ok (true, Ratelimit (interval s) (burst s) (u32 (printed s + 1)) (rl_missed s) now)
  else Ok (false, Ratelimit (interval s) (burst s) (printed s) (u32 (rl_missed s + 1)) now).
(** [pr_ratelimited]; [rs] is the static state of the place it is used at. *)
Definition pr_ratelimited (con_write : nat → bool) (now : Z) (fmt : bytes) (args : list arg) : cmd (ratelimit_state * printk_state) unit := λ '(rs, s),
  '(b, rs) ← __ratelimit (jiffies now) rs;
  if negb b then Ok (tt, (rs, s)) else '(_, s) ← printk con_write now fmt args s; Ok (tt, (rs, s)).

(** ** A dump ends *)
Lemma hex_cells_ok groupsize row : ∀ j, groupsize ≠ 0 → ∃ l, hex_cells groupsize j row = Ok l.
Proof.
  induction row as [| b row IH]; intros j Hg; [by eexists |]. cbn. destruct (IH (j + 1) Hg) as [l Hl].
  apply Z.eqb_neq in Hg. rewrite Hg. destruct (j =? 0); ok_bind; rewrite Hl; ok_bind; by eexists.
Qed.
Lemma hex_rows_ok prefix R G addr buf ascii : 0 < R → G ≠ 0 → Z.of_nat (length buf) + R <= 4294967296 →
  ∀ fuel i, 0 <= i → Z.of_nat (length buf) <= i + Z.of_nat fuel → ∃ l, hex_rows fuel prefix R G addr buf ascii i = Ok l.
Proof.
  intros HR HG Hlen. induction fuel as [| fuel IH]; intros i Hi Hf; cbn; destruct (Z.ltb_spec i (Z.of_nat (length buf))); cbn; try by eexists.
  - lia.
  - unfold hex_row. destruct (hex_cells_ok G (take (Z.to_nat R) (drop (Z.to_nat i) buf)) 0 HG) as [c Hc].
    destruct (IH (u32 (i + R))) as [l Hl]; [unfold u32; lia | unfold u32; rewrite Z.mod_small; lia |].
    rewrite Hc. ok_bind. replace (R =? 0) with false by (symmetry; apply Z.eqb_neq; lia). ok_bind. rewrite Hl. by eexists.
Qed.
(** A hex dump with a row and a group size that are positive ends. *)
Theorem hex_dump_ends prefix R G addr buf ascii :
  0 < R < 2147483648 → 0 < G < 2147483648 → Z.of_nat (length buf) + R <= 4294967296 →
  ∃ calls, hex_dump_calls prefix R G addr buf ascii = Ok calls.
Proof.
  intros HR HG Hl. unfold hex_dump_calls. unfold u32 at 1 2. rewrite !Z.mod_small by lia.
  apply hex_rows_ok; lia.
Qed.

(** ** and shows nothing *)

(** Two calls that print the same. *)
Definition same_call (c c' : pcall) : Prop :=
  c.1 = c'.1 ∧ ∀ size, vsnprintf_internal size (drop (parse_log_level 0 c.1).2 c.1) c.2 = vsnprintf_internal size (drop (parse_log_level 0 c'.1).2 c'.1) c'.2.
#[export] Instance same_call_refl : Reflexive same_call.
Proof. by intros c. Qed.

Lemma prefix_len d fmt : (parse_log_level d fmt).2 = (parse_log_level 0 fmt).2.
Proof. unfold parse_log_level. repeat (case_match; try reflexivity). Qed.
Lemma same_call_printk con_write now c c' s : same_call c c' →
  printk con_write now c.1 c.2 s = printk con_write now c'.1 c'.2 s.
Proof.
  destruct c as [f a], c' as [f' a']; cbn. intros [Hf Hv]. cbn in Hf, Hv. subst f'. unfold printk, vprintk.
  pose proof (prefix_len (default_message_loglevel s) f) as Hp.
  destruct (parse_log_level (default_message_loglevel s) f) as [lvl n]. cbn in Hp. subst n. by rewrite Hv.
Qed.
Lemma same_calls_printk con_write now cs cs' : Forall2 same_call cs cs' → ∀ k s,
  printk_all con_write now k cs s = printk_all con_write now k cs' s.
Proof.
  induction 1 as [| [f a] [f' a'] cs cs' Hc _ IH]; intros k s; [done |]. cbn [printk_all].
  pose proof (same_call_printk con_write (now k) _ _ s Hc) as Hp. cbn in Hp. rewrite Hp.
  destruct (printk con_write (now k) f' a' s) as [[z s'] | | |]; [apply IH | done ..].
Qed.

Lemma same_byte b b' : same_call (pc "%02x " [AInt b]) (pc "%02x " [AInt b']).
Proof. split; [reflexivity |]. intros size. reflexivity. Qed.
Lemma same_address a a' : same_call (pc "%04lx: " [AInt a]) (pc "%04lx: " [AInt a']).
Proof. split; [reflexivity |]. intros size. reflexivity. Qed.
#[local] Hint Resolve same_byte same_address : core.

(** Outcomes with the same calls. *)
Definition same_calls (o o' : outcome (list pcall)) : Prop :=
  match o, o' with
  | Ok l, Ok l' => Forall2 same_call l l'
  | Fault, Fault | Diverge, Diverge => True
  | Panic m, Panic m' => m = m'
  | _, _ => False
  end.
#[export] Instance same_calls_refl : Reflexive same_calls.
Proof. intros []; cbn; done. Qed.

Lemma hex_cells_same G row row' : length row = length row' → ∀ j, same_calls (hex_cells G j row) (hex_cells G j row').
Proof.
  revert row'. induction row as [| b row IH]; intros [| b' row'] Hl j; try done. cbn in Hl |- *.
  specialize (IH row' ltac:(lia) (j + 1)).
  assert (∀ gap, same_calls (rest ← hex_cells G (j + 1) row; Ok (gap ++ pc "%02x " [AInt b] :: rest))
                   (rest ← hex_cells G (j + 1) row'; Ok (gap ++ pc "%02x " [AInt b'] :: rest))) as Hgap.
  { intros gap. destruct (hex_cells G (j + 1) row), (hex_cells G (j + 1) row'); try done. ok_bind. cbn.
    apply Forall2_app; [reflexivity |]. by apply Forall2_cons. }
  destruct (j =? 0); [exact (Hgap []) |]. destruct (G =? 0); [done |]. exact (Hgap _).
Qed.
Lemma hex_row_same prefix R G addr addr' buf buf' i : length buf = length buf' →
  same_calls (hex_row prefix R G addr buf false i) (hex_row prefix R G addr' buf' false i).
Proof.
  intros Hl. unfold hex_row.
  pose proof (hex_cells_same G (take (Z.to_nat R) (drop (Z.to_nat i) buf)) (take (Z.to_nat R) (drop (Z.to_nat i) buf')) ltac:(rewrite !length_take, !length_drop; lia) 0) as Hc.
  destruct (hex_cells G 0 (take _ (drop _ buf))), (hex_cells G 0 (take _ (drop _ buf'))); try done. ok_bind.
  destruct (R =? 0); [done |]. cbn [same_calls]. rewrite Hl. apply Forall2_app; [reflexivity |].
  constructor; [apply same_address |]. apply Forall2_app; [exact Hc | reflexivity].
Qed.
Lemma hex_rows_same prefix R G addr addr' buf buf' : length buf = length buf' → ∀ fuel i,
  same_calls (hex_rows fuel prefix R G addr buf false i) (hex_rows fuel prefix R G addr' buf' false i).
Proof.
  intros Hl. induction fuel as [| fuel IH]; intros i; cbn; rewrite Hl; destruct (negb _); try done.
  pose proof (hex_row_same prefix R G addr addr' buf buf' i Hl) as Hr. specialize (IH (u32 (i + R))).
  destruct (hex_row prefix R G addr buf false i), (hex_row prefix R G addr' buf' false i); try done. ok_bind.
  destruct (hex_rows fuel prefix R G addr buf false _), (hex_rows fuel prefix R G addr' buf' false _); try done. ok_bind.
  by apply Forall2_app.
Qed.

(** A hex dump shows neither the bytes nor the addresses: the formatter takes
    the "0" of "%02x" for the conversion, so that dumps of any two buffers of one
    length, at any addresses, write the same to the log and to the consoles
    (without the character column). *)
Theorem hex_dump_blind con_write now prefix R G addr addr' buf buf' s :
  length buf = length buf' →
  print_hex_dump con_write now prefix R G addr buf false s = print_hex_dump con_write now prefix R G addr' buf' false s.
Proof.
  intros Hl. unfold print_hex_dump, hex_dump_calls. rewrite Hl.
  pose proof (hex_rows_same prefix (u32 R) (u32 G) addr addr' buf buf' Hl (length buf') 0) as Hs.
  destruct (hex_rows _ _ _ _ addr buf _ _), (hex_rows _ _ _ _ addr' buf' _ _); try done; ok_bind; cbn in Hs; [by apply same_calls_printk | by subst].
Qed.
Lemma hex_dump_blind_witness :
  print_hex_dump (λ _, false) (λ _, 0) None 16 1 4096 [1; 2; 3] false printk_boot =
  print_hex_dump (λ _, false) (λ _, 0) None 16 1 8192 [200; 65; 0] false printk_boot.
Proof. apply (hex_dump_blind (λ _, false) (λ _, 0) None 16 1 4096 8192 [1; 2; 3] [200; 65; 0] printk_boot). reflexivity. Defined.

(** ** Rate limits never recover *)
Fixpoint ratelimits (nows : list Z) (s : ratelimit_state) : outcome (nat * ratelimit_state) :=
  match nows with
  | [] => Ok (O, s)
  | t :: nows => '(b, s) ← __ratelimit t s; '(n, s) ← ratelimits nows s; Ok (if (b : bool) then S n else n, s)
  end.
(** Of any number of messages at any times, a limited place lets through at most
    [burst]: [printed] is never reset, whatever the interval. *)
Theorem ratelimit_total nows : ∀ s n s',
  0 <= printed s <= burst s → burst s < 4294967296 → ratelimits nows s = Ok (n, s') →
  Z.of_nat n + printed s = printed s' ∧ printed s' <= burst s.
Proof.
  induction nows as [| t nows IH]; intros s n s' Hp Hb Hr; cbn [ratelimits] in Hr; [injection Hr as <- <-; lia |].
  apply outcome_bind_ok in Hr as ([b s1] & H1 & Hr). apply outcome_bind_ok in Hr as ([m s2] & H2 & Hr). injection Hr as <- <-.
  unfold __ratelimit in H1. apply outcome_bind_ok in H1 as (after & _ & H1).
  destruct after; cbn in H1; [| injection H1 as <- <-; by apply IH in H2].
  destruct (Z.ltb_spec (printed s) (burst s)) as [Hlt | Hge].
  - assert (Hu : u32 (printed s + 1) = printed s + 1) by (apply Z.mod_small; lia). rewrite Hu in H1.
    injection H1 as <- <-. apply IH in H2; cbn in *; lia.
  - injection H1 as <- <-. by apply IH in H2.
Qed.
Lemma ratelimit_total_witness :
  ∃ s', ratelimits [501; 1002; 1503; 1504; 2005; 2506; 3007; 3508; 4009; 4510; 5011; 5512; 6013]
    (DEFINE_RATELIMIT_STATE DEFAULT_RATELIMIT_INTERVAL DEFAULT_RATELIMIT_BURST) = Ok (10%nat, s') ∧ rl_missed s' = 2.
Proof. eexists. split; [vm_compute; reflexivity | reflexivity]. Qed.
