(* ===== verification/KernelMain.v ===== *)
(** * The entry point and the panic report (src/kernel/kernel.c, [kmain], [panic])

    [kmain] up to the start of the shell, which [Shell] models, and [panic] with
    everything it prints.  A panic that another function raises is the value
    [Panic] of the outcome; here is what the machine does then. *)
From S2P Require Import Prelude Heap HeapSpec Frames Paging Screen ScreenSpec Reports Process Keyboard Solixfs Vfs Interrupts Debug KernelInit.

#[local] Open Scope string_scope.
#[local] Open Scope list_scope.
#[local] Open Scope Z_scope.

Section Main.
Context {D : Type} `{!Disk D}.
Variable screen_print_char : Z → screen → screen.
(** A word of memory, for the stack trace, and the frame pointer. *)
Variable word : Z → Z.
Variable ebp : Z.

Definition on_screen (c : cmd screen unit) : cmd (system D) unit := λ s,
  '(_, o) ← c (dscreen (s_dbg s)); Ok (tt, on_dbg (set_dscreen o) s).

(** [debug_state.panic_count++] and the time. *)
Definition count_panic (d : dstate) : dstate :=
  let '(t, d) := kernel_get_timestamp d in
  let i := debug_state d in
  set_debug (DebugInfo (debug_level i) (log_buffer i) (log_index i) (u32 (panic_count i + 1)) t) d.

Definition panic_head (msg : bytes) (d : dstate) : list piece :=
  [Str "

"; Line "!!! KERNEL PANIC !!!"; Str "Panic #"; Dec (panic_count (debug_state d)); Str " at ";
   Dec (last_panic_time (debug_state d)); Line " ms"; Str "Error: "; Txt msg; Str "

"; Line "=== Diagnostic Information ==="].
Definition process_head (p : process) : list piece :=
  [Str "Current process: PID "; Dec (pid p); Str ", State "; Dec (state_number (state p)); Str "
"].
Definition report_process : cmd (system D) unit := λ s,
  let k := dk (s_dbg s) in
  match current k with
  | None => Ok (tt, s)
  | Some i =>
    '(_, s) ← on_screen (print_pieces (process_head (process_table k !!! i))) s;
    Ok (tt, on_dbg (debug_dump_process screen_print_char (Some i)) s)
  end.

(** [debug_trace_stack(8)] *)
Definition trace (s : system D) : system D :=
  on_dbg (λ d, set_dscreen (debug_trace_stack screen_print_char word 8 ebp (dscreen d)) d) s.

(** [panic]: the state in which the processor halts, interrupts disabled. *)
Definition panic (msg : bytes) : cmd (system D) unit := λ s,
  let s := on_dbg count_panic s in
  '(_, s) ← on_screen (print_pieces (panic_head msg (s_dbg s))) s;
  '(_, s) ← report_process s;
  '(_, s) ← on_screen (print_memory_stats (s_mm s)) s;
  '(_, s) ← on_screen (print_pieces [Str "
"; Line "=== Stack Trace ==="]) s;
  let s := trace s in
  '(_, s) ← on_screen (print_pieces [Str "
"; Line "System halted. Manual reboot required."]) s;
  let s := on_dbg (debug_print screen_print_char DEBUG_ERROR (bytes_of "Kernel panic: %s")) s in
  Ok (tt, System (s_dbg s) (s_mm s) (s_machine s) (s_vfs s) false).

(** ** The entry point *)
Variable image_end : Z.
Variables isr irq : nat → Z.
Variable syscall : Z.
Variable disk : D.
Variable buffer : bytes.
Variable no_fs : fs D.
Variable new_vnode : nat → option Z.

Definition banner (boot_time : Z) : list piece :=
  [Str "SolixOS v"; Txt kernel_get_version; Line " - Enhanced CLI Operating System";
   Line "================================================"; Line "Build: Enhanced with debugging and diagnostics";
   Str "Boot time: "; Dec boot_time; Line " ms"; Str "
"].
Definition information (mb_info : option (Z * Z)) : list piece :=
  [Str "
"; Line "=== System Information ==="; Str "Memory: ";
   Dec (match mb_info with Some (lower, upper) => u32 (lower + upper) | None => 128 end); Line " MB";
   Str "Processes: "; Dec 256; Line " max"; Str "
"; Line "Starting enhanced shell..."].

(** [kmain] to the call of [shell_start]; [mb_info] has the two amounts of memory.
    The value is [kernel_stats.boot_time]. *)
Definition kmain (mb_info : option (Z * Z)) : cmd (system D) Z := λ s,
  let '(t, d) := kernel_get_timestamp (s_dbg s) in
  let s := on_dbg (λ _, set_dscreen (screen_clear (dscreen d)) d) s in
  '(_, s) ← on_screen (print_pieces (banner t)) s;
  '(_, s) ← kernel_init screen_print_char image_end isr irq syscall disk buffer no_fs new_vnode s;
  let s := log screen_print_char "System initialization complete" s in
  '(_, s) ← on_screen (print_pieces (information mb_info)) s;
  Ok (t, s).

(** ** The report completes *)
Lemma on_screen_ok ps s : Forall piece_ok ps →
  on_screen (print_pieces ps) s = Ok (tt, on_dbg (set_dscreen (screen_print (text ps) (dscreen (s_dbg s)))) s).
Proof. intros Hp. unfold on_screen. by rewrite print_pieces_ok. Qed.

(** Only the screen and the log differ. *)
Definition same_kernel (s s' : system D) : Prop :=
  dk (s_dbg s') = dk (s_dbg s) ∧ s_mm s' = s_mm s ∧ s_machine s' = s_machine s ∧ s_vfs s' = s_vfs s.
#[local] Instance same_kernel_preorder : PreOrder same_kernel.
Proof. split; [by intros s | intros a b c (? & ? & ? & ?) (? & ? & ? & ?); unfold same_kernel; split_and!; congruence]. Qed.
Definition same_debug (s s' : system D) : Prop :=
  panic_count (debug_state (s_dbg s')) = panic_count (debug_state (s_dbg s)) ∧
  last_panic_time (debug_state (s_dbg s')) = last_panic_time (debug_state (s_dbg s)).

#[local] Instance same_debug_preorder : PreOrder same_debug.
Proof. split; [by intros s | intros a b c [? ?] [? ?]; split; congruence]. Qed.
Lemma on_screen_step ps s : Forall piece_ok ps →
  ∃ s', on_screen (print_pieces ps) s = Ok (tt, s') ∧ same_kernel s s' ∧ same_debug s s'.
Proof. intros Hp. rewrite (on_screen_ok ps s Hp). by eexists. Qed.

Record report_ok (s : system D) : Prop := {
  ro_pids : ∀ i, is_u32 (pid (process_table (dk (s_dbg s)) !!! i));
  ro_memory : Forall piece_ok (memory_report (s_mm s));
}.
Lemma report_ok_same s s' : report_ok s → same_kernel s s' → report_ok s'.
Proof. intros [H1 H2] (K1 & K2 & _). split; [rewrite K1; exact H1 | rewrite K2; exact H2]. Qed.

Lemma report_process_ok s : report_ok s → ∃ s', report_process s = Ok (tt, s') ∧ same_kernel s s' ∧ same_debug s s'.
Proof.
  intros Hr. unfold report_process. destruct (current (dk (s_dbg s))) as [i |]; [| by exists s].
  rewrite on_screen_ok.
  - ok_bind. eexists. split; [reflexivity |]. done.
  - unfold process_head. repeat (apply Forall_cons; split); try exact I; [apply Hr | unfold piece_ok, is_u32; destruct (state _); cbn [state_number]; lia | by apply Forall_nil].
Qed.

(** In every state whose counters are 32-bit numbers [panic] completes its report,
    counts the panic and halts with interrupts disabled; the process table, the
    memory, the devices and the filesystem are as the error left them. *)
Theorem panic_halts msg s : report_ok s → is_u32 (timestamp (s_dbg s)) →
  ∃ s', panic msg s = Ok (tt, s') ∧ same_kernel s s' ∧ interrupts_on s' = false ∧
    panic_count (debug_state (s_dbg s')) = u32 (panic_count (debug_state (s_dbg s)) + 1) ∧
    last_panic_time (debug_state (s_dbg s')) = timestamp (s_dbg s).
Proof.
  intros Hr Ht. unfold panic. set (s1 := on_dbg count_panic s).
  assert (H1 : report_ok s1) by (by destruct Hr).
  assert (Hh : Forall piece_ok (panic_head msg (s_dbg s1))).
  { unfold panic_head. repeat (apply Forall_cons; split); try exact I; [apply Z.mod_pos_bound; lia | exact Ht | by apply Forall_nil]. }
  destruct (on_screen_step _ s1 Hh) as (s2 & -> & K2 & D2). ok_bind.
  destruct (report_process_ok s2 (report_ok_same _ _ H1 K2)) as (s3 & -> & K3 & D3). ok_bind.
  pose proof (transitivity K2 K3) as K13. pose proof (transitivity D2 D3) as D13.
  assert (Hm : Forall piece_ok (memory_report (s_mm s3))) by (destruct K13 as (_ & -> & _); apply Hr).
  destruct (on_screen_step _ s3 Hm) as (s4 & H4 & K4 & D4). unfold print_memory_stats. rewrite H4. clear H4. ok_bind.
  destruct (on_screen_step [Str "
"; Line "=== Stack Trace ==="] s4 ltac:(by repeat constructor)) as (s5 & -> & K5 & D5). ok_bind.
  destruct (on_screen_step [Str "
"; Line "System halted. Manual reboot required."] (trace s5) ltac:(by repeat constructor)) as (s6 & H6 & K6 & D6).
  rewrite H6. clear H6. ok_bind.
  pose proof (transitivity K13 (transitivity K4 (transitivity K5 K6))) as K.
  pose proof (transitivity D13 (transitivity D4 (transitivity D5 D6))) as [P T].
  eexists. split; [reflexivity |]. unfold same_kernel, debug_print. cbn [s_mm s_machine s_vfs s_dbg interrupts_on on_dbg].
  destruct (_ <? _); (split; [exact K |]; split; [reflexivity |]; split; [exact P | exact T]).
Qed.

(** [kmain] from the state at boot reaches the shell with the heap and the process
    table well formed and interrupts enabled, unless the check of the new heap
    fails. *)
Theorem kmain_reaches_shell mb_info s v :
  at_boot s → is_u32 (timestamp (s_dbg s)) → vfs_init new_vnode disk buffer no_fs = Ok v →
  0 < image_end → image_end mod 4 = 0 → image_end + KERNEL_HEAP_SIZE < 4294967296 →
  kmain mb_info s = Panic "Memory management initialization failed" ∨
  ∃ s' bs, kmain mb_info s = Ok (timestamp (s_dbg s), s') ∧ heap_ok (heap (s_mm s')) bs ∧ proc_base (dk (s_dbg s')) ∧
    s_vfs s' = Some v ∧ interrupts_on s' = true.
Proof.
  intros Hb Ht Hv Hi Him Hir. unfold kmain. cbn [kernel_get_timestamp]. set (s1 := on_dbg _ s).
  assert (Hban : Forall piece_ok (banner (timestamp (s_dbg s)))).
  { unfold banner. repeat (apply Forall_cons; split); try exact I; [exact Ht | by apply Forall_nil]. }
  rewrite (on_screen_ok _ s1 Hban). ok_bind. set (s2 := on_dbg _ s1).
  assert (H2 : at_boot s2) by (by destruct Hb). clearbody s2. clear s1 Hban. unfold kernel_init.
  destruct (init_core_ok screen_print_char image_end s2 H2 Hi Him Hir) as [-> | (s3 & bs & -> & Hc)]; [by left | right].
  destruct (init_devices_ok screen_print_char isr irq syscall disk buffer no_fs new_vnode s3 bs v 0 Hc Hv)
    as (s4 & H4 & Hh & Hk & Hvfs & Hon & _). ok_bind. rewrite H4. ok_bind.
  destruct (log_dk screen_print_char "System initialization complete" s4) as (L1 & L2 & _).
  destruct (log_rest screen_print_char "System initialization complete" s4) as [L3 L4].
  set (s5 := log _ _ s4) in *. clearbody s5. rewrite on_screen_ok.
  - ok_bind. eexists _, bs. split; [reflexivity |]. cbn [s_mm s_dbg s_vfs interrupts_on on_dbg dk set_dscreen].
    rewrite L1, L2, L3, L4, Hh, Hk. split; [apply Hc |]. split; [apply Hc |]. by split.
  - unfold information. repeat (apply Forall_cons; split); try exact I; [| unfold piece_ok, is_u32; lia | by apply Forall_nil].
    destruct mb_info as [[lower upper] |]; [apply Z.mod_pos_bound; lia | unfold piece_ok, is_u32; lia].
Qed.
End Main.
