(* ===== verification/ModuleAdmin.v ===== *)
(** * Administration of modules (src/kernel/module.c)

    Creation and destruction of the subsystem's caches, the listings, and the
    registrations that record nothing.  The listings use field widths, which the
    formatter does not have: it takes the arguments for the wrong conversions. *)
From S2P Require Import Prelude CString Heap Screen Printk PrintkTools Slab Module.

#[local] Open Scope string_scope.
#[local] Open Scope list_scope.
#[local] Open Scope Z_scope.

(** The sizes of [struct module], [module_symbol], [module_param] and
    [module_alias]. *)
Definition MODULE_STRUCT : Z := 864.
Definition SYMBOL_STRUCT : Z := 268.
Definition PARAM_STRUCT : Z := 344.
Definition ALIAS_STRUCT : Z := 324.

(** The three caches beside [module_cache]. *)
Record msub := MSub { ms : mstate; module_symbol_cache : Z; module_param_cache : Z; module_alias_cache : Z }.
Definition set_ms (x : mstate) (s : msub) : msub := MSub x (module_symbol_cache s) (module_param_cache s) (module_alias_cache s).
Definition set_module_cache (c : Z) (s : mstate) : mstate :=
  MState (mslab s) c (mods s) (module_list s) (symbol_table s) (module_stats s) (current_module s).
Definition on_ms {A} (c : cmd mstate A) : cmd msub A := λ s, '(a, x) ← c (ms s); Ok (a, set_ms x s).

Definition make_cache (name : string) (n : Z) : cmd msub Z :=
  on_ms (on_slab (kmem_cache_create (bytes_of name) n 0 SLAB_HWCACHE_ALIGN None None)).
Definition destroy_cache (c : Z) : cmd msub unit := on_ms (on_slab (kmem_cache_destroy c)).

(** The exits of [module_init_subsystem], in the order in which they fall through. *)
Definition err_module_cache : cmd msub unit := λ s, destroy_cache (module_cache (ms s)) s.
Definition err_symbol_cache : cmd msub unit := λ s,
  '(_, s) ← destroy_cache (module_symbol_cache s) s; err_module_cache s.
Definition err_param_cache : cmd msub unit := λ s,
  '(_, s) ← destroy_cache (module_param_cache s) s; err_symbol_cache s.

Definition module_init_subsystem : cmd msub unit := λ s,
  '(c, s) ← make_cache "module_cache" MODULE_STRUCT s;
  let s := set_ms (set_module_cache c (ms s)) s in
  if c =? NULL then Ok (tt, s) else
  '(c, s) ← make_cache "module_symbol_cache" SYMBOL_STRUCT s;
  let s := MSub (ms s) c (module_param_cache s) (module_alias_cache s) in
  if c =? NULL then err_module_cache s else
  '(c, s) ← make_cache "module_param_cache" PARAM_STRUCT s;
  let s := MSub (ms s) (module_symbol_cache s) c (module_alias_cache s) in
  if c =? NULL then err_symbol_cache s else
  '(c, s) ← make_cache "module_alias_cache" ALIAS_STRUCT s;
  let s := MSub (ms s) (module_symbol_cache s) (module_param_cache s) c in
  if c =? NULL then err_param_cache s else
  Ok (tt, set_ms (set_symbols [] (set_module_list [] (ms s))) s).

Section Cleanup.
Variable run_exit : nat → cmd mstate unit.

(** The walk over the list, whose next node is read before a module is unloaded. *)
Fixpoint unload_all (l : list Z) : cmd mstate unit := λ s,
  match l with
  | [] => Ok (tt, s)
  | p :: l =>
    match mods s !! p with
    | None => Fault
    | Some m =>
      '(_, s) ← (if decide (m_name m = bytes_of "kernel") then Ok (Ret 0, s) else module_unload run_exit (m_name m) s);
      unload_all l s
    end
  end.
Definition destroy_made (c : Z) : cmd msub unit := λ s, if c =? NULL then Ok (tt, s) else destroy_cache c s.
Definition module_cleanup_subsystem : cmd msub unit := λ s,
  '(_, s) ← on_ms (unload_all (module_list (ms s))) s;
  '(_, s) ← destroy_made (module_cache (ms s)) s;
  '(_, s) ← destroy_made (module_symbol_cache s) s;
  '(_, s) ← destroy_made (module_param_cache s) s;
  destroy_made (module_alias_cache s) s.
End Cleanup.

(** ** Listings *)
Definition LIST_FORMAT : bytes := bytes_of "%-20s %s %s %d" ++ [NEWLINE].
Definition list_args (m : module) : list arg := [AStr (m_name m); AStr (m_version m); AStr (m_license m); AInt (refcount m)].
Fixpoint list_loop (l : list Z) (size : Z) (out : bytes) (s : mstate) : outcome (Z * bytes) :=
  match l with
  | [] => Ok (Z.of_nat (length out), out)
  | p :: l =>
    match mods s !! p with
    | None => Fault
    | Some m =>
      r ← snprintf (u32 (size - Z.of_nat (length out))) LIST_FORMAT (list_args m);
      if size <=? Z.of_nat (length out + length r) then Ok (Z.of_nat (length out), out ++ r) else list_loop l size (out ++ r) s
    end
  end.
(** The result and what is in the buffer. *)
Definition list_modules (size : Z) (s : mstate) : outcome (Z * bytes) :=
  if size =? 0 then Ok (0, []) else list_loop (module_list s) size [] s.

Definition INFO_FORMAT : bytes := bytes_of "Name: %s
Version: %s
License: %s
Description: %s
State: %d
Flags: 0x%08x
Size: %u bytes
Refcount: %d
Load time: %u
Init time: %u
Signed: %s
".
Definition yes_no (b : bool) : arg := AStr (bytes_of (if b then "Yes" else "No")).
Definition info_args (m : module) : list arg :=
  [AStr (m_name m); AStr (m_version m); AStr (m_license m); AStr (m_description m); AInt (m_state m); AInt (m_flags m);
   AInt (module_size m); AInt (refcount m); AInt (load_time m); AInt (init_time m); yes_no (m_signed m)].
Definition get_module_info (name : bytes) (size : Z) (s : mstate) : outcome (kret * bytes) :=
  if size =? 0 then Ok (Err EINVAL, []) else
  match module_find name s with
  | None => Ok (Err ENOENT, [])
  | Some p =>
    match mods s !! p with
    | None => Fault
    | Some m => r ← snprintf size INFO_FORMAT (info_args m); Ok (Ret (Z.of_nat (length r)), r)
    end
  end.

(** The calls to printk of [print_module_info]. *)
Definition print_module_info (m : module) : list pcall :=
  [pln "Module: %s" [AStr (m_name m)]; pln "  Version: %s" [AStr (m_version m)]; pln "  License: %s" [AStr (m_license m)];
   pln "  Description: %s" [AStr (m_description m)]; pln "  State: %d" [AInt (m_state m)]; pln "  Flags: 0x%08x" [AInt (m_flags m)];
   pln "  Size: %u bytes" [AInt (module_size m)]; pln "  Refcount: %d" [AInt (refcount m)]; pln "  Load time: %u" [AInt (load_time m)];
   pln "  Init time: %u" [AInt (init_time m)]; pln "  Signed: %s" [yes_no (m_signed m)]].

(** ** Registrations without effect *)
Definition register_module_author (s : mstate) : mstate := s.
Definition register_module_alias (s : mstate) : mstate := s.
Definition register_device_table (s : mstate) : mstate := s.

(** ** The listings go wrong *)
Lemma loop_open limit c fmt args out : Z.of_nat (length out) < limit →
  vsnprintf_loop limit (c :: fmt) args out =
    if c =? PERCENT then
      match fmt with
      | [] => Fault
      | d :: fmt => '(s, args) ← conversion d args; vsnprintf_loop limit fmt args (out ++ take (Z.to_nat (limit - Z.of_nat (length out))) s)
      end
    else vsnprintf_loop limit fmt args (out ++ [c]).
Proof. intros Hl. cbn [vsnprintf_loop]. by replace (limit <=? _) with false by (symmetry; apply Z.leb_gt; lia). Qed.

(** [list_modules] with a module in the list and room for its line has undefined
    behaviour: the formatter prints the width of "%-20s" as text and takes the
    name for the next conversion, so that "%d" meets the licence string. *)
Theorem list_modules_faults s p l m size :
  module_list s = p :: l → mods s !! p = Some m →
  Z.of_nat (length (m_name m) + length (m_version m)) + 8 < size < 2147483648 → list_modules size s = Fault.
Proof.
  intros Hl Hm Hs. unfold list_modules. replace (size =? 0) with false by (symmetry; apply Z.eqb_neq; lia).
  rewrite Hl. cbn [list_loop length]. rewrite Hm. unfold snprintf, vsnprintf_internal.
  replace (s32 (u32 (size - Z.of_nat 0)) - 1) with (size - 1).
  2: { unfold s32, u32. rewrite !(Z.mod_small _ 4294967296) by lia. destruct (Z.ltb_spec (size - Z.of_nat 0) 2147483648); lia. }
  change LIST_FORMAT with [37; 45; 50; 48; 115; 32; 37; 115; 32; 37; 115; 32; 37; 100; 10]. unfold list_args.
  repeat (rewrite loop_open by (rewrite ?length_app, ?length_take; cbn [length]; lia); cbn [Z.eqb Pos.eqb PERCENT conversion orb]; ok_bind).
  reflexivity.
Qed.

(** [get_module_info]: "%08x" prints no number either, and the last "%s" is given
    the time of initialisation as a pointer. *)
Definition sample_module : module :=
  Module (bytes_of "e1000") (bytes_of "1.2") (bytes_of "GPL") (bytes_of "driver") MODULE_STATE_LIVE MODULE_FLAG_LOADED 4096 800 [] 0 0 0 0 0 0
    None None 0 0 5 6 [] 0 false 0.
Lemma get_module_info_faults s p : module_find (bytes_of "e1000") s = Some p → mods s !! p = Some sample_module →
  get_module_info (bytes_of "e1000") 512 s = Fault.
Proof. intros Hf Hm. unfold get_module_info. rewrite Hf, Hm. vm_compute. reflexivity. Qed.
