(* ===== verification/IrqReport.v ===== *)
(** * The reports of the interrupt request layer (src/kernel/irq.c)

    [irq_print_stats] and [irq_debug_show] as their calls to printk, and the two
    phases of initialisation, which only print. *)
From S2P Require Import Prelude Screen Printk PrintkSpec PrintkTools Irq.

#[local] Open Scope string_scope.
#[local] Open Scope list_scope.
#[local] Open Scope Z_scope.

Definition early_irq_init : list pcall := [pln "<7>Early IRQ initialization" []].
Definition late_irq_init : list pcall := [pln "<7>Late IRQ initialization" []].

Definition irq_print_stats (irq : Z) (s : irq_state) : list pcall :=
  if NR_IRQS <=? irq then [] else
  let d := descs s !!! Z.to_nat irq in
  let st := dstats d in
  [pln "IRQ %d (%s):" [AInt irq; AStr (bytes_of (name d))]; pln "  Total: %u" [AInt (irqs st)]; pln "  Spurious: %u" [AInt (spurious st)];
   pln "  Unhandled: %u" [AInt (unhandled st)]; pln "  Retriggered: %u" [AInt (retriggered st)]; pln "  Missed: %u" [AInt (missed st)]].
(** [n] descriptors from [i] on. *)
Fixpoint show_descs (n i : nat) (s : irq_state) : list pcall :=
  match n with
  | O => []
  | S n => (if 0 <? irqs (dstats (descs s !!! i)) then irq_print_stats (Z.of_nat i) s else []) ++ show_descs n (S i) s
  end.
Definition irq_debug_show (s : irq_state) : list pcall :=
  [pln "=== IRQ Statistics ===" []; pln "Total IRQs: %u" [AInt (total_irqs s)]; pln "Spurious IRQs: %u" [AInt (spurious_irqs s)];
   pln "Unhandled IRQs: %u" [AInt (unhandled_irqs s)]; pln "Disabled IRQs: %u" [AInt (disabled_irqs s)]; pln "Masked IRQs: %u" [AInt (masked_irqs s)];
   pln "" []] ++ show_descs (Z.to_nat NR_IRQS) 0 s.

(** ** The report is printed *)

(** A call without a level whose format the formatter supports. *)
Definition formats (c : pcall) : Prop := head c.1 ≠ Some 60 ∧ ∃ msg, format c.1 c.2 = Ok msg ∧ msg ≠ [].

Lemma no_level d fmt : head fmt ≠ Some 60 → parse_log_level d fmt = (d, 0%nat).
Proof. intros H. unfold parse_log_level. repeat (case_match; simplify_eq; try reflexivity). Qed.
Lemma printk_formats con_write now c s cs : formats c → 0 <= default_message_loglevel s <= 7 →
  con_list (con_next s) (console_drivers s) cs →
  ∃ z s', printk con_write now c.1 c.2 s = Ok (z, s') ∧ default_message_loglevel s' = default_message_loglevel s ∧
    con_next s' = con_next s ∧ console_drivers s' = console_drivers s.
Proof.
  intros (Hh & msg & Hf & Hne) Hd Hc. eexists _, _. split.
  - apply (vprintk_line con_write now c.1 c.2 s _ 0 msg cs (no_level _ _ Hh) Hd Hf Hne Hc).
  - done.
Qed.
Lemma printk_all_formats con_write now cs : ∀ calls k s, Forall formats calls → 0 <= default_message_loglevel s <= 7 →
  con_list (con_next s) (console_drivers s) cs → ∃ s', printk_all con_write now k calls s = Ok (tt, s').
Proof.
  induction calls as [| [fmt args] calls IH]; intros k s Hall Hd Hc; [by eexists |].
  inversion Hall as [| ? ? Hf Hr]; subst. destruct (printk_formats con_write (now k) _ s cs Hf Hd Hc) as (z & s' & Hp & E1 & E2 & E3).
  cbn in Hp. cbn [printk_all]. rewrite Hp. ok_bind. apply IH; [done | by rewrite E1 | by rewrite E2, E3].
Qed.

(** A line with one number. *)
Lemma utoa_u32 v : ∃ ds, utoa (u32 v) 10 = Ok ds ∧ ds ≠ [].
Proof.
  destruct (proj1 (itoa_utoa_value (u32 v))) as (ds & Hd & _ & _ & Hne); [| by exists ds].
  unfold u32, is_u32. apply Z.mod_pos_bound. lia.
Qed.
(** A literal in front of a format. *)
Lemma format_lit lit rest args r : forallb (λ c, negb (c =? PERCENT)) lit = true → format rest args = Ok r →
  format (lit ++ rest) args = Ok (lit ++ r).
Proof.
  induction lit as [| c lit IH]; [done |]. cbn [forallb app format]. intros [Hc Hl]%andb_prop Hr.
  apply negb_true_iff in Hc. rewrite Hc, (IH Hl Hr). done.
Qed.
Lemma literal_formats x : forallb (λ c, negb (c =? PERCENT)) (bytes_of x) = true → head (bytes_of x ++ [NEWLINE]) ≠ Some 60 → formats (pln x []).
Proof.
  intros Hx Hh. split; [exact Hh |]. exists (bytes_of x ++ [NEWLINE]). split; [exact (format_lit _ [NEWLINE] [] [NEWLINE] Hx eq_refl) |].
  intros H. by apply app_nil in H as [_ ?].
Qed.
Lemma unsigned_formats x v : forallb (λ c, negb (c =? PERCENT)) (bytes_of x) = true → head (bytes_of x ++ [PERCENT]) ≠ Some 60 →
  formats (bytes_of x ++ [PERCENT; 117; NEWLINE], [AInt v]).
Proof.
  intros Hx Hh. split; [by destruct (bytes_of x) |]. destruct (utoa_u32 v) as (ds & Hds & Hne).
  assert (Hn : format [PERCENT; 117; NEWLINE] [AInt v] = Ok (ds ++ [NEWLINE])) by (cbn -[utoa u32]; by rewrite Hds).
  exists (bytes_of x ++ ds ++ [NEWLINE]). split; [exact (format_lit _ _ _ _ Hx Hn) |].
  intros H. apply app_nil in H as [_ H]. by apply app_nil in H as [_ ?].
Qed.

Lemma title_formats irq (nm : bytes) : 0 <= irq < NR_IRQS → formats (pln "IRQ %d (%s):" [AInt irq; AStr nm]).
Proof.
  intros Hi. destruct (proj1 (proj2 (itoa_utoa_value irq))) as (ds & _ & _ & _ & Hds); [unfold INT_MIN, NR_IRQS in *; lia |].
  assert (E : s32 irq = irq).
  { unfold s32, u32, NR_IRQS in *. rewrite Z.mod_small by lia. destruct (Z.ltb_spec irq 2147483648); lia. }
  split; [discriminate |]. set (d := if irq <? 0 then 45 :: ds else ds) in Hds.
  exists (bytes_of "IRQ " ++ d ++ bytes_of " (" ++ nm ++ bytes_of "):" ++ [NEWLINE]). split; [| discriminate].
  apply (format_lit (bytes_of "IRQ ") (PERCENT :: 100 :: bytes_of " (" ++ PERCENT :: 115 :: bytes_of "):" ++ [NEWLINE]) _
    (d ++ bytes_of " (" ++ nm ++ bytes_of "):" ++ [NEWLINE]) eq_refl).
  pose proof (format_lit (bytes_of " (") (PERCENT :: 115 :: bytes_of "):" ++ [NEWLINE]) [AStr nm] (nm ++ bytes_of "):" ++ [NEWLINE]) eq_refl eq_refl) as Hs.
  cbn [format Z.eqb Pos.eqb PERCENT conversion orb snd pln]. rewrite E, Hds. ok_bind.
  match goal with |- context [format ?f [AStr nm]] => replace (format f [AStr nm]) with (Ok (bytes_of " (" ++ nm ++ bytes_of "):" ++ [NEWLINE])) by (symmetry; exact Hs) end. done.
Qed.

Lemma stats_formats irq s : 0 <= irq < NR_IRQS → Forall formats (irq_print_stats irq s).
Proof.
  intros Hi. unfold irq_print_stats. replace (NR_IRQS <=? irq) with false by (symmetry; apply Z.leb_gt; lia).
  repeat apply Forall_cons_2; [by apply title_formats | apply (unsigned_formats "  Total: ") | apply (unsigned_formats "  Spurious: ")
    | apply (unsigned_formats "  Unhandled: ") | apply (unsigned_formats "  Retriggered: ") | apply (unsigned_formats "  Missed: ")
    | by apply Forall_nil]; done.
Qed.
Lemma descs_formats s n : ∀ i, (i + n <= 256)%nat → Forall formats (show_descs n i s).
Proof.
  induction n as [| n IH]; intros i Hi; [by apply Forall_nil |]. cbn [show_descs]. apply Forall_app. split; [| apply IH; lia].
  destruct (_ <? _); [apply stats_formats; unfold NR_IRQS; lia | by apply Forall_nil].
Qed.

(** [irq_debug_show] prints its report and returns, whatever the counters and
    names, when the list of consoles is well formed. *)
Theorem irq_debug_show_prints con_write now s p cs :
  0 <= default_message_loglevel p <= 7 → con_list (con_next p) (console_drivers p) cs →
  ∃ p', printk_all con_write now 0 (irq_debug_show s) p = Ok (tt, p').
Proof.
  intros Hd Hc. apply (printk_all_formats con_write now cs); [| done | done]. unfold irq_debug_show. apply Forall_app. split.
  - repeat apply Forall_cons_2; [by apply literal_formats | apply (unsigned_formats "Total IRQs: ") | apply (unsigned_formats "Spurious IRQs: ")
      | apply (unsigned_formats "Unhandled IRQs: ") | apply (unsigned_formats "Disabled IRQs: ") | apply (unsigned_formats "Masked IRQs: ")
      | by apply literal_formats | by apply Forall_nil]; done.
  - apply descs_formats. done.
Qed.
